(* ===== verification/_CoqProject ===== *)
-Q . S2P
Prelude.v
Net.v
Conn.v
Allocator.v
Socks5.v
Socks4.v
ShadowAEAD.v
ShadowStream.v
SSCore.v
Obfs.v
Metadata.v
Statistic.v
Tunnel.v
Stack.v
Proxy.v
Endpoint.v
Devices.v
Rest.v
Server.v
Dialer.v
Sockopts.v
Engine.v
System.v
Served.v
Base64.v
Proxies.v
Main.v
Program.v
