(* ===== verification/Prelude.v ===== *)
(** * tun2socks: a verification library

    The program turns the IP packets of a TUN device into TCP and UDP sessions
    and carries each through a proxy.  A packet goes from the device through
    the link endpoint ([Endpoint.v]) into gVisor's network stack, which
    [Stack.v] sets up; the stack's callbacks hand a session to the tunnel
    ([Tunnel.v]), which dials the session's destination through the proxy the
    engine ([Engine.v]) chose, counts its bytes ([Statistic.v]) and copies both
    ways until both sides are done.  A proxy ([Proxy.v], [Proxies.v]) dials its
    server through the [Dialer.v] and speaks its protocol ([Socks5.v],
    [Socks4.v], [SSCore.v] over [ShadowAEAD.v], [ShadowStream.v], [Obfs.v]).
    [System.v] composes these parts into the running program, beside which the
    API ([Rest.v], [Server.v]) answers about them, and [Main.v] is the process:
    the registrations, the flags, the engine started and stopped.

    ** Conventions

    A Go function that returns values and an error is a function to
    [option (values * err)]; [None] is a run-time panic (an index out of range,
    a nil dereference).  State a method changes is passed and returned.
    Integers are [Z] with the width written where the code truncates; bytes
    are [Byte.byte], slices lists with Go's bounds ([l.[a:b]]); pooled and
    aliased buffers are offsets into a store where aliasing matters
    ([Allocator.v], [Obfs.v], [Dialer.v]).  Goroutines are labelled steps, and
    a schedule is a list of labels: a theorem over all schedules is one over
    all interleavings.  What third-party code (gVisor, AEADs, HKDF, MD5,
    x/crypto/ssh, go-gost/relay, zap, chi, YAML, gorilla/schema) and the host answer is a parameter, a
    class of operations with a class of laws, each with an instance by which
    the theorems that use it are applied to concrete inputs.  The standard
    library is modelled where it is used: [net/netip], [strconv] and
    [net.SplitHostPort] in [Net.v], [io.ReadFull] in [Conn.v],
    [encoding/base64] in [Base64.v], [bufio], [net/url] and the CONNECT exchange of
    [net/http] in [Proxies.v].

    ** Files, in dependency order

    - [Prelude.v]: bytes, machine integers, slices, strings, errors, the
      option monad's notation, the automation ([go_steps], [bool_facts],
      [len_lia]) and the hint database [go].
    - [Net.v]: textual addresses and ports, with their round trips.
    - [Conn.v]: [Reader], [Writer], [Closer], [PacketConn]; what a layer
      promises ([ReaderOk], [WriterOk], [ConnOk]) and the [Wire] under all.
    - [Allocator.v]: buffer/, internal/pool, transport/internal/bufferpool.
    - [Socks5.v], [Socks4.v]: transport/socks5 and transport/socks4.
    - [ShadowAEAD.v], [ShadowStream.v], [SSCore.v]: transport/shadowsocks.
    - [Obfs.v]: transport/simple-obfs.
    - [Metadata.v], [Statistic.v], [Tunnel.v]: metadata/, tunnel/statistic,
      tunnel/ with its global instance (tunnel/global.go).
    - [Stack.v]: core/ with core/option and core/adapter.
    - [Proxy.v]: the registry (proxy/protocol.go), proxy/internal/utils, and
      proxy/reject, socks5, socks4, shadowsocks (Module proxyss), relay.
    - [Endpoint.v]: core/device/iobased.
    - [Devices.v]: core/device/tun and core/device/fdbased.
    - [Rest.v]: restapi/, the authenticator, the statistics and the closing of
      connections; [Server.v]: its routes, middlewares, handlers and streams
      (Module server), and internal/version (Module version).
    - [Dialer.v]: the default dialer of dialer/ with the socket options of
      Linux; [Sockopts.v]: those of the other systems, the dials that apply
      them (Module dial) and dns/.
    - [Engine.v]: log/ and engine/, start and stop included.
    - [System.v]: the engine, the tunnel's loop and the TCP and UDP sessions
      as one system of labelled steps; [Served.v]: that it serves.
    - [Base64.v]: the two encodings of the proxies.
    - [Proxies.v]: proxy/http, proxy/direct, proxy/ssh, and the URL and sockets
      of proxy/shadowsocks (Module proxyssurl).
    - [Main.v]: main.go (Module cmd), the registrations of the proxies and the
      URL of proxy/relay (Module register), the loggers of log/ (Module
      logging), engine/ and device/ on Windows (Module windows).
    - [Program.v]: the process with the registry and the dials of the program.

    Each Go package is a Module of its name (proxy packages are prefixed
    where a transport has the same name); each function and method a
    definition of its name.

    ** What the theorems show

    - The program: after a start that succeeded, with keys that name direct,
      SOCKS4 or SOCKS5 proxies, every TCP connection not dialled before is
      carried to the server of a key's URL, which is sent the protocol's
      request and then exactly the client's bytes ([program_serves]).
    - The whole: from any state the process reaches, its own steps can lead to
      one where every accepted connection, TCP or UDP, has had its session and
      has been served ([system_serves]); each session, whatever the other
      sessions, the loop, the engine and the callers do, does what it would
      alone, for TCP with the proxy the tunnel had at its dial
      ([sessions_refine]); a URL is parsed by the one parser of its scheme,
      whatever the order of the registrations ([program_protocols]); the
      process ends as its flags, the file and the engine say ([main_life]).
    - End to end: a TCP session through SOCKS5 ([socks5_session]), Shadowsocks
      ([ss_session]) or HTTP ([http_session]) sends exactly the proxy's
      dialogue and then the client's bytes, and returns the proxy's, under any
      schedule with enough turns; datagrams likewise ([socks5_packets],
      [ss_packets], [relay_udp_session], [handleUDPConn_spec]).
    - Transports: what one end writes the other reads, for any segments
      ([Conn_roundtrip], [Cipher_roundtrip], [TLS_Write_spec]); nothing is
      read that was not sealed ([read_authentic], [Unpack_spec]); whatever uses
      are made of a connection, what it sends is sealed under the counters from
      zero on, so no nonce repeats ([nonces_unique]); the handshakes of SOCKS5,
      SOCKS4 and HTTP refine a dialogue spelled out apart from the code, on any
      server and when writes fail ([ClientHandshake_refines],
      [ClientHandshake_spec], [http_dial_spec]).
    - Sessions: the relay delivers and half-closes ([pipe_relays],
      [stream_refines]); totals are exact ([totals_exact],
      [tracker_accounts]); the queues keep their order ([tunnel_queues]).
    - The stack and the device: the set-up calls ([CreateStack_calls]), the
      echo reply ([icmp_echo]), the packets the endpoint passes
      ([endpoint_relays], over wireguard's device [tun_relays]), its goroutines
      ([endpoint_invariant]) and that it stops ([endpoint_stops]); the
      descriptors a TUN holds ([tun_descriptors]).
    - The engine and its surroundings: start asks the host for exactly what its
      key names, in order, or fails cleanly ([start_success], [start_failure],
      [engine_invariant]); with the registry of the program it returns
      ([start_total]); the options of the dialer are never seen half
      changed ([dialer_refines]); gVisor's messages reach zap at the level of
      the program's log that is theirs ([glog_exact]); a Shadowsocks URL parses back
      ([ss_Parse_sip002]).
    - The API: no route that needs the token is answered without it
      ([api_guarded], from [authenticator_spec]); the statistics are JSON
      ([netstats_json]) and the traffic stream shows the manager's counters
      ([traffic_stream]).

    ** Fuel and bounds

    Loops that need it take fuel, and each theorem states how much is enough:
    [io.ReadFull] one turn per byte wanted, fixed by its definition; the
    records of a stream and the lines of a response a bound in the length of
    what is still to be read; a schedule, two turns per byte and a constant
    ([turns]), which every fair schedule reaches.  Loops bounded by the code
    itself (the digits of a number, the 100 empty reads of [bufio]) have its
    bound.

    ** Not modelled

    System calls, gVisor's stack and its descriptor endpoint, and the
    parsers of flags, YAML and query strings are operations of classes whose
    laws the theorems name; so are chi, CORS, the WebSocket upgrade and pprof.
    In [System.v] what a dial answers is a function of the proxy and the
    addresses.  The layout of the log's text (zap's encoder), time (deadlines
    and tickers fire as a schedule says), and the memory a Go program would run
    out of are left out, as are the build files, the tests and the documents of
    the repository. *)

From Stdlib Require Export ZArith Lia Bool.
From Stdlib Require Strings.Byte.
From stdpp Require Export prelude gmap strings.

(** Bytes are the 256 values of the Standard Library; [Z] carries every Go
    integer, with the width written out where the code truncates. *)
Abbreviation byte := Byte.byte.
Abbreviation gostring := (list Byte.byte).

Declare Scope go_scope.
Delimit Scope go_scope with go.
Open Scope go_scope.

Create HintDb go.

(** ** Bytes and machine integers *)

Definition b2z (b : byte) : Z := Z.of_N (Byte.to_N b).

(** Go's conversion [byte(z)]: the low eight bits. *)
Definition z2b (z : Z) : byte :=
  default Byte.x00 (Byte.of_N (Z.to_N (z mod 256))).

#[global] Instance byte_eq_dec : EqDecision byte := Byte.byte_eq_dec.

Lemma b2z_range b : (0 <= b2z b < 256)%Z.
Proof. unfold b2z. pose proof (Byte.to_N_bounded b). lia. Qed.

Lemma b2z_z2b z : b2z (z2b z) = (z mod 256)%Z.
Proof.
  unfold b2z, z2b. pose proof (Z.mod_pos_bound z 256 eq_refl) as Hb.
  destruct (Byte.of_N (Z.to_N (z mod 256))) as [b|] eqn:E; simpl.
  - apply Byte.to_of_N in E. rewrite E. lia.
  - apply Byte.of_N_None_iff in E. lia.
Qed.

Lemma z2b_b2z b : z2b (b2z b) = b.
Proof.
  unfold z2b, b2z. pose proof (Byte.to_N_bounded b) as Hb.
  rewrite Z.mod_small by lia. rewrite N2Z.id, Byte.of_to_N. done.
Qed.

Lemma b2z_inj a b : b2z a = b2z b -> a = b.
Proof. intros H. rewrite <- (z2b_b2z a), <- (z2b_b2z b). by f_equal. Qed.

#[global] Instance byte_countable : Countable byte.
Proof.
  refine (inj_countable' (fun b => Z.to_N (b2z b)) (fun n => z2b (Z.of_N n)) _).
  intros b. rewrite Z2N.id by (pose proof (b2z_range b); lia). apply z2b_b2z.
Defined.

Lemma z2b_mod z : z2b (z mod 256) = z2b z.
Proof. apply b2z_inj. by rewrite !b2z_z2b, Z.mod_mod by lia. Qed.

(** [uint16(z)], [uint32(z)] and the two's complement [int64]. *)
Definition u16 (z : Z) : Z := (z mod 65536)%Z.
Definition u32 (z : Z) : Z := (z mod 4294967296)%Z.
Definition i64 (z : Z) : Z :=
  ((z + 9223372036854775808) mod 18446744073709551616 - 9223372036854775808)%Z.

Lemma u16_small z : (0 <= z < 65536)%Z -> u16 z = z.
Proof. apply Z.mod_small. Qed.

Lemma u16_range z : (0 <= u16 z < 65536)%Z.
Proof. apply Z.mod_pos_bound. lia. Qed.

Lemma i64_small z :
  (-9223372036854775808 <= z < 9223372036854775808)%Z -> i64 z = z.
Proof. unfold i64. intros H. rewrite Z.mod_small; lia. Qed.

Lemma i64_add_l a b : i64 (i64 a + b) = i64 (a + b).
Proof.
  unfold i64.
  set (h := 9223372036854775808%Z). set (m := 18446744073709551616%Z).
  replace ((a + h) mod m - h + b + h)%Z with ((a + h) mod m + b)%Z by lia.
  rewrite Z.add_mod_idemp_l by done. by replace (a + h + b)%Z with (a + b + h)%Z by lia.
Qed.

(** ** Slices

    [len] is Go's [len]; [slice l lo hi] is [l[lo:hi]] on a slice whose
    capacity equals its length, [None] being the run-time panic.  A slice
    with spare capacity accepts more bounds, so a theorem that the model does
    not panic also says that the code stays inside [len]. *)

Definition len {A} (l : list A) : Z := Z.of_nat (length l).

Definition slice {A} (l : list A) (lo hi : Z) : option (list A) :=
  if (0 <=? lo)%Z && (lo <=? hi)%Z && (hi <=? len l)%Z
  then Some (take (Z.to_nat (hi - lo)) (drop (Z.to_nat lo) l))
  else None.

Definition index {A} (l : list A) (i : Z) : option A :=
  if (0 <=? i)%Z then l !! Z.to_nat i else None.

Notation "l '.[' lo ':' hi ']'" := (slice l lo hi)
  (at level 2, left associativity, lo at level 50, hi at level 50) : go_scope.
Notation "l '.[' i ']'" := (index l i)
  (at level 2, left associativity, i at level 50) : go_scope.

(** [ztake]/[zdrop]: the first [n] elements and the rest, for a Go [int]. *)
Definition ztake {A} (n : Z) (l : list A) : list A := take (Z.to_nat n) l.
Definition zdrop {A} (n : Z) (l : list A) : list A := drop (Z.to_nat n) l.

(** [copy(dst[off:], src)]: overwrites at most [len dst - off] elements. *)
Definition blit {A} (dst : list A) (off : Z) (src : list A) : list A :=
  let n := Z.min (len src) (len dst - off) in
  ztake off dst ++ ztake n src ++ zdrop (off + n) dst.

Lemma len_nonneg {A} (l : list A) : (0 <= len l)%Z.
Proof. unfold len. lia. Qed.

Lemma len_nil {A} : len (@nil A) = 0%Z.
Proof. done. Qed.

Lemma len_cons {A} (x : A) l : len (x :: l) = (1 + len l)%Z.
Proof. unfold len. simpl. lia. Qed.

Lemma len_app {A} (l k : list A) : len (l ++ k) = (len l + len k)%Z.
Proof. unfold len. rewrite length_app. lia. Qed.

Lemma len_ztake {A} n (l : list A) :
  len (ztake n l) = Z.max 0 (Z.min n (len l)).
Proof. unfold len, ztake. rewrite length_take. lia. Qed.

Lemma len_zdrop {A} n (l : list A) :
  len (zdrop n l) = (len l - Z.max 0 (Z.min n (len l)))%Z.
Proof. unfold len, zdrop. rewrite length_drop. lia. Qed.

Lemma len_replicate {A} n (x : A) : len (replicate n x) = Z.of_nat n.
Proof. unfold len. by rewrite length_replicate. Qed.

Lemma len_zero {A} (l : list A) : len l = 0%Z -> l = [].
Proof. destruct l; [done|]. rewrite len_cons. pose proof (len_nonneg l). lia. Qed.

#[export] Hint Rewrite @len_nil @len_cons @len_app @len_ztake @len_zdrop
  @len_replicate : go_len.

(** [len_lia] normalises lengths of concatenations and slices, adds that every
    remaining length is non-negative and calls [lia]. *)
Ltac pose_len_nonneg :=
  repeat match goal with
  | |- context [len ?l] =>
      lazymatch goal with
      | _ : (0 <= len l)%Z |- _ => fail
      | _ => pose proof (len_nonneg l)
      end
  | _ : context [len ?l] |- _ =>
      lazymatch goal with
      | _ : (0 <= len l)%Z |- _ => fail
      | _ => pose proof (len_nonneg l)
      end
  end.

Ltac len_lia :=
  autorewrite with go_len in *; pose_len_nonneg; lia.

Lemma ztake_zdrop {A} n (l : list A) : ztake n l ++ zdrop n l = l.
Proof. apply take_drop. Qed.

Lemma ztake_app_len {A} n (l k : list A) : n = len l -> ztake n (l ++ k) = l.
Proof. intros ->. unfold ztake, len. rewrite Nat2Z.id. apply take_app_length. Qed.

Lemma zdrop_app_len {A} n (l k : list A) : n = len l -> zdrop n (l ++ k) = k.
Proof. intros ->. unfold zdrop, len. rewrite Nat2Z.id. apply drop_app_length. Qed.

Lemma ztake_all {A} n (l : list A) : (len l <= n)%Z -> ztake n l = l.
Proof. unfold ztake, len. intros. apply take_ge. lia. Qed.

Lemma zdrop_all {A} n (l : list A) : (len l <= n)%Z -> zdrop n l = [].
Proof. unfold zdrop, len. intros. apply drop_ge. lia. Qed.

Lemma ztake_neg {A} n (l : list A) : (n <= 0)%Z -> ztake n l = [].
Proof. unfold ztake. intros. by replace (Z.to_nat n) with 0 by lia. Qed.

Lemma zdrop_neg {A} n (l : list A) : (n <= 0)%Z -> zdrop n l = l.
Proof. unfold zdrop. intros. by replace (Z.to_nat n) with 0 by lia. Qed.

Lemma zdrop_zdrop {A} a b (l : list A) :
  (0 <= a)%Z -> (0 <= b)%Z -> zdrop a (zdrop b l) = zdrop (b + a) l.
Proof. unfold zdrop. intros. rewrite drop_drop. f_equal. lia. Qed.

Lemma slice_ok {A} (l : list A) lo hi :
  (0 <= lo <= hi)%Z -> (hi <= len l)%Z ->
  slice l lo hi = Some (ztake (hi - lo) (zdrop lo l)).
Proof.
  intros. unfold slice.
  by replace ((0 <=? lo)%Z && (lo <=? hi)%Z && (hi <=? len l)%Z)
    with true by lia.
Qed.

Lemma slice_prefix {A} (l : list A) hi :
  (0 <= hi <= len l)%Z -> slice l 0 hi = Some (ztake hi l).
Proof. intros. rewrite slice_ok by lia. by rewrite Z.sub_0_r. Qed.

Lemma slice_suffix {A} (l : list A) lo :
  (0 <= lo <= len l)%Z -> slice l lo (len l) = Some (zdrop lo l).
Proof.
  intros. rewrite slice_ok by lia. f_equal. apply ztake_all.
  rewrite len_zdrop. lia.
Qed.

Lemma slice_panic {A} (l : list A) lo hi :
  ~ (0 <= lo <= hi /\ hi <= len l)%Z -> slice l lo hi = None.
Proof.
  intros. unfold slice.
  by replace ((0 <=? lo)%Z && (lo <=? hi)%Z && (hi <=? len l)%Z)
    with false by lia.
Qed.

Lemma index_ok {A} (l : list A) i :
  (0 <= i < len l)%Z -> exists x, index l i = Some x.
Proof.
  intros. unfold index. replace (0 <=? i)%Z with true by lia.
  apply lookup_lt_is_Some. unfold len in *. lia.
Qed.

Lemma len_blit {A} (dst : list A) off src :
  (0 <= off <= len dst)%Z -> len (blit dst off src) = len dst.
Proof. intros. unfold blit. len_lia. Qed.

Lemma blit_fits {A} (dst : list A) off src :
  (0 <= off)%Z -> (off + len src <= len dst)%Z ->
  blit dst off src = ztake off dst ++ src ++ zdrop (off + len src) dst.
Proof.
  intros. unfold blit. rewrite Z.min_l by lia.
  by rewrite (ztake_all (len src)) by lia.
Qed.

(** ** Big-endian integers ([encoding/binary.BigEndian]) *)

Definition PutUint16 (z : Z) : list byte := [z2b (z / 256); z2b z].
Definition PutUint32 (z : Z) : list byte :=
  [z2b (z / 16777216); z2b (z / 65536); z2b (z / 256); z2b z].

(** [binary.BigEndian.Uint16(b)]: panics on fewer than two bytes. *)
Definition Uint16 (b : list byte) : option Z :=
  match b with
  | hi :: lo :: _ => Some (b2z hi * 256 + b2z lo)%Z
  | _ => None
  end.

Lemma Uint16_PutUint16 z rest :
  (0 <= z < 65536)%Z -> Uint16 (PutUint16 z ++ rest) = Some z.
Proof.
  intros. simpl. rewrite !b2z_z2b. f_equal.
  rewrite (Z.mod_small (z / 256)) by
    (split; [apply Z.div_pos; lia | apply Z.div_lt_upper_bound; lia]).
  pose proof (Z.div_mod z 256). lia.
Qed.

Lemma Uint16_Put z : (0 <= z < 65536)%Z -> Uint16 (PutUint16 z) = Some z.
Proof. apply (Uint16_PutUint16 z []). Qed.

Lemma PutUint16_Uint16 a b : PutUint16 (b2z a * 256 + b2z b) = [a; b].
Proof.
  pose proof (b2z_range a). pose proof (b2z_range b). unfold PutUint16.
  f_equal; [|f_equal]; apply b2z_inj; rewrite b2z_z2b.
  - rewrite Z.div_add_l, (Z.div_small (b2z b)), Z.mod_small by lia. lia.
  - rewrite Z.add_comm, Z.mod_add, Z.mod_small by lia. done.
Qed.

Lemma len_PutUint16 z : len (PutUint16 z) = 2%Z.
Proof. done. Qed.

#[export] Hint Rewrite len_PutUint16 : go_len.

(** ** Strings

    A Go string is its sequence of bytes. *)

Definition str (s : string) : gostring := String.list_byte_of_string s.

Definition str_eqb (a b : gostring) : bool := bool_decide (a = b).

Lemma str_eqb_eq a b : str_eqb a b = true <-> a = b.
Proof. apply bool_decide_eq_true. Qed.

Lemma str_eqb_neq a b : str_eqb a b = false <-> a <> b.
Proof. unfold str_eqb. by rewrite bool_decide_eq_false. Qed.

(** ** Errors

    The values of Go's [error] the source creates or tests for; [None] is
    [nil].  [ErrIO] stands for an error of the environment (a refused
    connection, a reset, ...), which the code only passes on. *)

Inductive error :=
| EOF | ErrUnexpectedEOF | ErrShortBuffer | ErrUnsupported | ErrTimeout
| ErrIO (code : nat)
| ErrNew (msg : gostring)
| ErrWrap (msg : gostring) (e : error).

#[global] Instance error_eq_dec : EqDecision error.
Proof. solve_decision. Defined.

(** [errors.New("...")] *)
Definition errorsNew (s : string) : error := ErrNew (str s).

Abbreviation err := (option error).

Definition is_nil (e : err) : bool := if e then false else true.

(** ** Automation *)

(** [go_step] opens one match, conditional or bind of a Go function. *)
Ltac go_step :=
  match goal with
  | H : Some _ = Some _ |- _ => injection H as H; try subst
  | H : (_, _) = (_, _) |- _ => injection H as H; try subst
  | H : None = Some _ |- _ => discriminate H
  | H : Some _ = None |- _ => discriminate H
  | H : mbind _ ?o = Some _ |- _ =>
      let E := fresh "E" in destruct o eqn:E; [simpl in H | discriminate H]
  end.

Ltac go_steps := repeat go_step; simplify_eq/=.

(** [bool_facts] turns boolean comparisons in hypotheses into propositions. *)
Ltac bool_facts :=
  repeat match goal with
  | H : (_ && _) = true |- _ => apply andb_true_iff in H as [? ?]
  | H : (_ || _) = false |- _ => apply orb_false_iff in H as [? ?]
  | H : negb _ = true |- _ => apply negb_true_iff in H
  | H : negb _ = false |- _ => apply negb_false_iff in H
  | H : (_ <? _)%Z = true |- _ => apply Z.ltb_lt in H
  | H : (_ <? _)%Z = false |- _ => apply Z.ltb_ge in H
  | H : (_ <=? _)%Z = true |- _ => apply Z.leb_le in H
  | H : (_ <=? _)%Z = false |- _ => apply Z.leb_gt in H
  | H : (_ =? _)%Z = true |- _ => apply Z.eqb_eq in H
  | H : (_ =? _)%Z = false |- _ => apply Z.eqb_neq in H
  | H : str_eqb _ _ = true |- _ => apply str_eqb_eq in H
  end.

(** ** Early returns

    [check e else r ;; k] is [if e != nil { return r }; k]. *)
Notation "'check' e 'else' r ';;' k" :=
  (match e with Some _ => r | None => k end)
  (at level 200, e at level 99, r at level 99, k at level 200,
   right associativity) : go_scope.

(** ** More on buffers *)

Lemma blit_app {A} (p r d : list A) off :
  off = len p -> (len d <= len r)%Z ->
  blit (p ++ r) off d = p ++ d ++ zdrop (len d) r.
Proof.
  intros -> Hd. rewrite blit_fits by len_lia.
  rewrite ztake_app_len by done. do 2 f_equal.
  rewrite <- zdrop_zdrop by len_lia. by rewrite zdrop_app_len by done.
Qed.

Lemma blit_0 {A} (b d : list A) :
  (len d <= len b)%Z -> blit b 0 d = d ++ zdrop (len d) b.
Proof. intros. by apply (blit_app [] b d 0). Qed.

Lemma slice_app_0 {A} (a r : list A) hi :
  hi = len a -> slice (a ++ r) 0 hi = Some a.
Proof. intros ->. rewrite slice_prefix by len_lia. by rewrite ztake_app_len by done. Qed.

Lemma slice_app_mid {A} (p a r : list A) lo hi :
  lo = len p -> hi = (len p + len a)%Z -> slice (p ++ a ++ r) lo hi = Some a.
Proof.
  intros -> ->. rewrite slice_ok by len_lia. rewrite zdrop_app_len by done.
  by rewrite ztake_app_len by lia.
Qed.

Lemma slice_app_end {A} (p r : list A) lo hi :
  lo = len p -> hi = (len p + len r)%Z -> slice (p ++ r) lo hi = Some r.
Proof.
  intros Hlo Hhi. pose proof (slice_app_mid p r [] lo hi Hlo Hhi) as E.
  by rewrite app_nil_r in E.
Qed.

Lemma prefix_ztake {A} (a b : list A) : a `prefix_of` b -> ztake (len a) b = a.
Proof. intros [r ->]. by apply ztake_app_len. Qed.

Lemma len_zero_iff {A} (l : list A) : len l = 0%Z <-> l = [].
Proof. split; [apply len_zero|by intros ->]. Qed.

Lemma len_ge_cons {A} (l : list A) n :
  (0 < n)%Z -> (n <= len l)%Z -> exists x r, l = x :: r /\ (n - 1 <= len r)%Z.
Proof. intros. destruct l as [|x r]; [len_lia|]. exists x, r. split; [done|len_lia]. Qed.

Lemma ztake_cons {A} n (x : A) l : (0 < n)%Z -> ztake n (x :: l) = x :: ztake (n - 1) l.
Proof.
  intros. unfold ztake.
  by replace (Z.to_nat n) with (S (Z.to_nat (n - 1))) by lia.
Qed.

Lemma zdrop_cons {A} n (x : A) l : (0 < n)%Z -> zdrop n (x :: l) = zdrop (n - 1) l.
Proof.
  intros. unfold zdrop.
  by replace (Z.to_nat n) with (S (Z.to_nat (n - 1))) by lia.
Qed.

Lemma ztake_add {A} a b (l : list A) :
  (0 <= a)%Z -> (0 <= b)%Z -> ztake (a + b) l = ztake a l ++ ztake b (zdrop a l).
Proof.
  intros. unfold ztake, zdrop. rewrite Z2Nat.inj_add by done.
  by rewrite take_take_drop.
Qed.

Lemma b2z_const z b : (0 <= z < 256)%Z -> b2z b = z -> b = z2b z.
Proof. intros ? <-. by rewrite z2b_b2z. Qed.

Lemma b2z_z2b_small z : (0 <= z < 256)%Z -> b2z (z2b z) = z.
Proof. intros. by rewrite b2z_z2b, Z.mod_small. Qed.

(** ** Lists of lists *)

Lemma concat_insert {A} (l : list (list A)) k p q :
  l !! k = Some p -> exists x y, concat l = x ++ p ++ y /\
    concat (<[k := q]> l) = x ++ q ++ y.
Proof.
  intros Hk. rewrite insert_take_drop by (by eapply lookup_lt_Some).
  exists (concat (take k l)), (concat (drop (S k) l)). split.
  - rewrite <- (take_drop_middle l k p Hk) at 1. by rewrite concat_app.
  - by rewrite concat_app.
Qed.

(** Computes the binds and matches of the option monad, nothing else. *)
Ltac bind_simpl := cbn [mbind option_bind].
