(* ===== verification/Net.v ===== *)
(** * Net: the parts of [net], [net/netip] and [strconv] the source calls

    Addresses, host:port strings and their textual forms, following the Go
    standard library.  The operations keep the library's names. *)

From S2P Require Import Prelude.

(** ** [strconv] *)

Definition digit (d : Z) : byte := z2b (48 + d).

Definition is_digit (b : byte) : bool := (48 <=? b2z b)%Z && (b2z b <=? 57)%Z.

(** [strconv.Itoa] on a non-negative integer: twenty digits cover 64 bits. *)
Fixpoint itoa_aux (fuel : nat) (n : Z) (acc : gostring) : gostring :=
  match fuel with
  | O => acc
  | S f =>
      let acc' := digit (n mod 10) :: acc in
      if (n / 10 =? 0)%Z then acc' else itoa_aux f (n / 10) acc'
  end.

Definition Itoa (n : Z) : gostring := itoa_aux 20 n [].

(** The loop of [strconv.ParseUint(s, 10, bits)] with [maxVal = 2^bits - 1]. *)
Fixpoint parse_uint_loop (maxVal n : Z) (s : gostring) : option Z :=
  match s with
  | [] => Some n
  | c :: s' =>
      if is_digit c then
        let n1 := (n * 10 + (b2z c - 48))%Z in
        if (n1 <=? maxVal)%Z then parse_uint_loop maxVal n1 s' else None
      else None
  end.

Definition ParseUint16 (s : gostring) : Z * err :=
  match s with
  | [] => (0%Z, Some (errorsNew "strconv.ParseUint: invalid syntax"))
  | _ =>
      match parse_uint_loop 65535 0 s with
      | Some n => (n, None)
      | None => (0%Z, Some (errorsNew "strconv.ParseUint: parsing failed"))
      end
  end.

(** [strconv.Atoi] on 64 bits. *)
Definition Atoi (s : gostring) : Z * err :=
  let bad := errorsNew "strconv.Atoi: parsing failed" in
  let neg := bool_decide (head s = Some (z2b 45)) in
  let s := match s with
           | c :: r => if neg || bool_decide (c = z2b 43) then r else s
           | [] => s
           end in
  match s with
  | [] => (0%Z, Some bad)
  | _ =>
      match parse_uint_loop (2 ^ 64 - 1)%Z 0%Z s with
      | None => (0%Z, Some bad)
      | Some un =>
          if neg then if (2 ^ 63 <? un)%Z then (0%Z, Some bad) else ((- un)%Z, None)
          else if (2 ^ 63 <=? un)%Z then (0%Z, Some bad) else (un, None)
      end
  end.

(** ** Searching a string *)

Definition IndexByte (s : gostring) (c : byte) : option nat :=
  fst <$> list_find (fun x => x = c) s.

Definition LastIndexByte (s : gostring) (c : byte) : option nat :=
  (fun i => length s - 1 - i) <$> IndexByte (reverse s) c.

(** [strings.SplitN(s, sep, 2)] for a separator of one byte. *)
Definition SplitN2 (s : gostring) (c : byte) : list gostring :=
  match IndexByte s c with
  | None => [s]
  | Some i => [take i s; drop (Datatypes.S i) s]
  end.

Definition colon : byte := z2b 58.
Definition dot : byte := z2b 46.
Definition percent : byte := z2b 37.
Definition lbracket : byte := z2b 91.
Definition rbracket : byte := z2b 93.

Definition has_byte (s : gostring) (c : byte) : bool :=
  if IndexByte s c then true else false.

(** ** [net.SplitHostPort] and [net.JoinHostPort] *)

Definition addrErr (why : string) : gostring * gostring * err :=
  ([], [], Some (errorsNew why)).

Definition split_brackets (s : gostring) (j k : nat) (host port : gostring)
  : gostring * gostring * err :=
  if has_byte (drop j s) lbracket then addrErr "unexpected '[' in address"
  else if has_byte (drop k s) rbracket then addrErr "unexpected ']' in address"
  else (host, port, None).

Definition SplitHostPort (s : gostring) : gostring * gostring * err :=
  match LastIndexByte s colon with
  | None => addrErr "missing port in address"
  | Some i =>
      let port := drop (S i) s in
      if bool_decide (head s = Some lbracket) then
        match IndexByte s rbracket with
        | None => addrErr "missing ']' in address"
        | Some e =>
            if bool_decide (S e = length s) then addrErr "missing port in address"
            else if bool_decide (S e = i) then
              split_brackets s 1 (S e) (take (e - 1) (drop 1 s)) port
            else if bool_decide (s !! S e = Some colon)
                 then addrErr "too many colons in address"
                 else addrErr "missing port in address"
        end
      else
        let host := take i s in
        if has_byte host colon then addrErr "too many colons in address"
        else split_brackets s 0 0 host port
  end.

Definition JoinHostPort (host port : gostring) : gostring :=
  if has_byte host colon
  then lbracket :: host ++ rbracket :: colon :: port
  else host ++ colon :: port.

(** ** [netip.Addr]

    [Addr0] is the zero [Addr]; [Addr6] holds sixteen bytes and a zone. *)

Inductive Addr :=
| Addr0
| Addr4 (a b c d : byte)
| Addr6 (bs : list byte) (zone : gostring).

#[global] Instance Addr_eq_dec : EqDecision Addr.
Proof. solve_decision. Defined.

Definition addr_wf (ip : Addr) : Prop :=
  match ip with Addr6 bs _ => length bs = 16 | _ => True end.

Definition IsValid (ip : Addr) : bool :=
  match ip with Addr0 => false | _ => true end.
Definition Is4 (ip : Addr) : bool :=
  match ip with Addr4 _ _ _ _ => true | _ => false end.
Definition Is6 (ip : Addr) : bool :=
  match ip with Addr6 _ _ => true | _ => false end.

Definition v4InV6Prefix : list byte :=
  replicate 10 (z2b 0) ++ [z2b 255; z2b 255].

Definition Is4In6 (ip : Addr) : bool :=
  match ip with
  | Addr6 bs _ => bool_decide (take 12 bs = v4InV6Prefix)
  | _ => false
  end.

Definition AsSlice (ip : Addr) : list byte :=
  match ip with
  | Addr0 => []
  | Addr4 a b c d => [a; b; c; d]
  | Addr6 bs _ => bs
  end.

(** [Addr.As4] panics on the zero address and on an IPv6 address that is not
    IPv4-mapped. *)
Definition As4 (ip : Addr) : option (list byte) :=
  match ip with
  | Addr4 a b c d => Some [a; b; c; d]
  | Addr6 bs _ => if Is4In6 ip then Some (drop 12 bs) else None
  | Addr0 => None
  end.

(** [netip.AddrFrom4] of an array of four bytes. *)
Definition AddrFrom4 (bs : list byte) : Addr :=
  match bs with
  | [a; b; c; d] => Addr4 a b c d
  | _ => Addr0
  end.

Definition AddrFromSlice (bs : list byte) : Addr * bool :=
  match length bs with
  | 4 => (AddrFrom4 bs, true)
  | 16 => (Addr6 bs [], true)
  | _ => (Addr0, false)
  end.

Definition IsUnspecified (ip : Addr) : bool :=
  match ip with
  | Addr0 => false
  | Addr4 a b c d => bool_decide ([a; b; c; d] = replicate 4 (z2b 0))
  | Addr6 bs zone => bool_decide (bs = replicate 16 (z2b 0) /\ zone = [])
  end.

Definition IsMulticast (ip : Addr) : bool :=
  match ip with
  | Addr0 => false
  | Addr4 a _ _ _ => (Z.land (b2z a) 240 =? 224)%Z
  | Addr6 bs _ =>
      if Is4In6 ip
      then match drop 12 bs with a :: _ => (Z.land (b2z a) 240 =? 224)%Z | [] => false end
      else match bs with a :: _ => (b2z a =? 255)%Z | [] => false end
  end.

(** [netip.PrefixFrom(ip, bits).Contains(x)] for an IPv4 prefix [p]. *)
Definition prefix4_contains (p : list byte) (bits : Z) (x : Addr) : bool :=
  match x with
  | Addr4 a b c d =>
      let be32 l := fold_left (fun acc y => acc * 256 + b2z y)%Z l 0%Z in
      (Z.shiftr (Z.lxor (be32 [a; b; c; d]) (be32 p)) (32 - bits) =? 0)%Z
  | _ => false
  end.

(** ** Textual form of addresses *)

Definition string4 (a b c d : byte) : gostring :=
  Itoa (b2z a) ++ dot :: Itoa (b2z b) ++ dot :: Itoa (b2z c) ++ dot :: Itoa (b2z d).

Definition hexdigit (z : Z) : byte :=
  if (z <? 10)%Z then z2b (48 + z) else z2b (87 + z).

(** [appendHex]: the hexadecimal digits of a 16-bit group, no leading zeros. *)
Definition appendHex (x : Z) : gostring :=
  (if (4096 <=? x)%Z then [hexdigit (x / 4096)] else []) ++
  (if (256 <=? x)%Z then [hexdigit (x / 256 mod 16)] else []) ++
  (if (16 <=? x)%Z then [hexdigit (x / 16 mod 16)] else []) ++
  [hexdigit (x mod 16)].

Fixpoint groups16 (bs : list byte) : list Z :=
  match bs with
  | hi :: lo :: r => (b2z hi * 256 + b2z lo)%Z :: groups16 r
  | _ => []
  end.

(** Length of the run of zero groups starting at each position. *)
Fixpoint zero_run (gs : list Z) : nat :=
  match gs with
  | g :: r => if (g =? 0)%Z then S (zero_run r) else 0
  | [] => 0
  end.

(** The longest run of at least two zero groups, the first one on ties, as
    a start position and a length ([zeroStart], [zeroEnd - zeroStart]). *)
Fixpoint longest_zero (gs : list Z) (i : nat) (best : option (nat * nat))
  : option (nat * nat) :=
  match gs with
  | [] => best
  | g :: r =>
      let l := zero_run gs in
      let cur := match best with Some (_, m) => m | None => 0 end in
      longest_zero r (S i)
        (if (2 <=? l)%nat && (cur <? l)%nat then Some (i, l) else best)
  end.

Fixpoint join_groups (gs : list Z) : gostring :=
  match gs with
  | [] => []
  | [g] => appendHex g
  | g :: r => appendHex g ++ colon :: join_groups r
  end.

Definition string6 (bs : list byte) : gostring :=
  let gs := groups16 bs in
  match longest_zero gs 0 None with
  | None => join_groups gs
  | Some (s, l) =>
      join_groups (take s gs) ++ [colon; colon] ++ join_groups (drop (s + l) gs)
  end.

Definition withZone (s zone : gostring) : gostring :=
  match zone with [] => s | _ => s ++ percent :: zone end.

Definition AddrString (ip : Addr) : gostring :=
  match ip with
  | Addr0 => str "invalid IP"
  | Addr4 a b c d => string4 a b c d
  | Addr6 bs zone =>
      if Is4In6 ip then
        match drop 12 bs with
        | [a; b; c; d] => withZone (str "::ffff:" ++ string4 a b c d) zone
        | _ => []
        end
      else withZone (string6 bs) zone
  end.

Definition AddrPortString (ip : Addr) (port : Z) : gostring :=
  match ip with
  | Addr0 => str "invalid AddrPort"
  | Addr4 _ _ _ _ => AddrString ip ++ colon :: Itoa port
  | Addr6 _ _ => lbracket :: AddrString ip ++ rbracket :: colon :: Itoa port
  end.

(** [net.IP.String]: sixteen bytes that map an IPv4 address print dotted. *)
Definition IPString (ip : list byte) : gostring :=
  match ip with
  | [] => str "<nil>"
  | [a; b; c; d] => string4 a b c d
  | _ =>
      if bool_decide (take 12 ip = v4InV6Prefix) then
        match drop 12 ip with
        | [a; b; c; d] => string4 a b c d
        | _ => []
        end
      else string6 ip
  end.

(** [*net.UDPAddr] without a zone, and its [String]. *)
Record UDPAddr := mkUDPAddr { udpIP : list byte; udpPort : Z }.

#[global] Instance UDPAddr_eq_dec : EqDecision UDPAddr.
Proof. solve_decision. Defined.

Definition UDPAddrString (a : UDPAddr) : gostring :=
  JoinHostPort (match udpIP a with [] => [] | ip => IPString ip end) (Itoa (udpPort a)).

(** ** [netip.ParseAddr] *)

(** [parseIPv4Fields]: [prev] is [s[i-1]] ([None] when [i = 0]), [val] and
    [digLen] the field being read, [fields] the completed ones. *)
Fixpoint parse4_loop (prev : option byte) (val : Z) (digLen : nat)
    (fields : list byte) (s : gostring) : option (list byte) :=
  match s with
  | [] => if (length fields <? 3)%nat then None else Some (fields ++ [z2b val])
  | c :: r =>
      if is_digit c then
        if (digLen =? 1)%nat && (val =? 0)%Z then None
        else
          let val' := (val * 10 + (b2z c - 48))%Z in
          if (255 <? val')%Z then None
          else parse4_loop (Some c) val' (S digLen) fields r
      else if bool_decide (c = dot) then
        if bool_decide (prev = None) || bool_decide (r = [])
           || bool_decide (prev = Some dot) then None
        else if (length fields =? 3)%nat then None
        else parse4_loop (Some c) 0 0 (fields ++ [z2b val]) r
      else None
  end.

Definition parseIPv4 (s : gostring) : option Addr :=
  fs ← parse4_loop None 0 0 [] s; Some (AddrFrom4 fs).

Definition hex_value (c : byte) : option Z :=
  let z := b2z c in
  if (48 <=? z)%Z && (z <=? 57)%Z then Some (z - 48)%Z
  else if (97 <=? z)%Z && (z <=? 102)%Z then Some (z - 87)%Z
  else if (65 <=? z)%Z && (z <=? 70)%Z then Some (z - 55)%Z
  else None.

(** The digits of one group: the value, how many digits, and the rest;
    [None] for more than four digits. *)
Fixpoint hex_group (s : gostring) (acc : Z) (off : nat) : option (Z * nat * gostring) :=
  match s with
  | [] => Some (acc, off, s)
  | c :: r =>
      match hex_value c with
      | None => Some (acc, off, s)
      | Some d => if (3 <? off)%nat then None else hex_group r (acc * 16 + d) (S off)
      end
  end.

(** The loop over groups; [ip] holds the bytes read so far (index [i] is
    [length ip]).  Each turn adds two bytes, so eight turns are enough. *)
Fixpoint parse6_loop (fuel : nat) (ip : list byte) (ellipsis : option nat)
    (s : gostring) : option (list byte * option nat * gostring) :=
  match fuel with
  | O => Some (ip, ellipsis, s)
  | S f =>
      '(acc, off, rest) ← hex_group s 0 0;
      if (off =? 0)%nat then None
      else if bool_decide (head rest = Some dot) then
        if bool_decide (ellipsis = None) && negb (length ip =? 12)%nat then None
        else if (16 <? length ip + 4)%nat then None
        else fs ← parse4_loop None 0 0 [] s; Some (ip ++ fs, ellipsis, [])
      else
        let ip' := ip ++ PutUint16 acc in
        match rest with
        | [] => Some (ip', ellipsis, [])
        | [_] => None
        | c :: c2 :: r =>
            if negb (bool_decide (c = colon)) then None
            else if bool_decide (c2 = colon) then
              if bool_decide (ellipsis = None) then
                match r with
                | [] => Some (ip', Some (length ip'), [])
                | _ => parse6_loop f ip' (Some (length ip')) r
                end
              else None
            else parse6_loop f ip' ellipsis (c2 :: r)
        end
  end.

Definition expand_ellipsis (ip : list byte) (e : option nat) : option (list byte) :=
  match e with
  | Some e =>
      if (length ip <? 16)%nat
      then Some (take e ip ++ replicate (16 - length ip) (z2b 0) ++ drop e ip)
      else None
  | None => if (length ip <? 16)%nat then None else Some ip
  end.

Definition parseIPv6_body (s zone : gostring) : option Addr :=
  let '(e, s) :=
    match s with
    | c1 :: c2 :: r =>
        if bool_decide (c1 = colon /\ c2 = colon) then (Some 0, r) else (None, s)
    | _ => (None, s)
    end in
  if bool_decide (e = Some 0 /\ s = [])
  then Some (Addr6 (replicate 16 (z2b 0)) zone)
  else
    '(ip, e, rest) ← parse6_loop 8 [] e s;
    if bool_decide (rest = []) then
      ip ← expand_ellipsis ip e; Some (Addr6 ip zone)
    else None.

Definition parseIPv6 (s : gostring) : option Addr :=
  match IndexByte s percent with
  | None => parseIPv6_body s []
  | Some i =>
      let zone := drop (S i) s in
      if bool_decide (zone = []) then None else parseIPv6_body (take i s) zone
  end.

(** The first of '.', ':' and '%' decides; every failure is reported as the
    zero address with an error, of which callers use only the address. *)
Fixpoint ParseAddr_scan (s rest : gostring) : option Addr :=
  match rest with
  | [] => None
  | c :: r =>
      if bool_decide (c = dot) then parseIPv4 s
      else if bool_decide (c = colon) then parseIPv6 s
      else if bool_decide (c = percent) then None
      else ParseAddr_scan s r
  end.

Definition ParseAddr (s : gostring) : Addr * err :=
  match ParseAddr_scan s s with
  | Some ip => (ip, None)
  | None => (Addr0, Some (errorsNew "ParseAddr: unable to parse IP"))
  end.

(** ** Lemmas *)

Lemma is_digit_digit d : (0 <= d < 10)%Z -> is_digit (digit d) = true.
Proof.
  intros. unfold is_digit, digit. rewrite b2z_z2b, Z.mod_small by lia. lia.
Qed.

Lemma b2z_digit d : (0 <= d < 10)%Z -> b2z (digit d) = (48 + d)%Z.
Proof. intros. unfold digit. rewrite b2z_z2b, Z.mod_small by lia. done. Qed.

Lemma itoa_aux_digits f : forall n acc,
  (0 <= n)%Z -> Forall (fun c => is_digit c = true) acc ->
  Forall (fun c => is_digit c = true) (itoa_aux f n acc).
Proof.
  induction f as [|f IH]; intros n acc Hn Hacc; simpl; [done|].
  assert (Forall (fun c => is_digit c = true) (digit (n mod 10) :: acc)).
  { constructor; [|done]. apply is_digit_digit, Z.mod_pos_bound. lia. }
  destruct (n / 10 =? 0)%Z; [done|]. apply IH; [|done]. by apply Z.div_pos.
Qed.

Lemma Itoa_digits n :
  (0 <= n)%Z -> Forall (fun c => is_digit c = true) (Itoa n).
Proof. intros. apply itoa_aux_digits; [done|constructor]. Qed.

Lemma itoa_aux_nonnil f n acc : itoa_aux (S f) n acc <> [].
Proof.
  revert n acc. induction f as [|f IH]; intros n acc; simpl.
  - by destruct (n / 10 =? 0)%Z.
  - destruct (n / 10 =? 0)%Z; [done|]. apply IH.
Qed.

Lemma parse_itoa_aux M f : forall n acc,
  (0 <= n <= M)%Z -> (n < 10 ^ Z.of_nat (S f))%Z ->
  parse_uint_loop M 0 (itoa_aux (S f) n acc) = parse_uint_loop M n acc.
Proof.
  assert (Hd : forall n acc, (0 <= n <= M)%Z -> parse_uint_loop M (n / 10)
    (digit (n mod 10) :: acc) = parse_uint_loop M n acc).
  { intros n acc Hn. pose proof (Z.mod_pos_bound n 10 eq_refl). simpl.
    rewrite is_digit_digit, b2z_digit by lia. pose proof (Z.div_mod n 10).
    replace (n / 10 * 10 + (48 + n mod 10 - 48))%Z with n by lia.
    by replace (n <=? M)%Z with true by lia. }
  induction f as [|f IH]; intros n acc Hn Hf.
  - change (itoa_aux 1 n acc) with (if (n / 10 =? 0)%Z
      then digit (n mod 10) :: acc else digit (n mod 10) :: acc).
    change (10 ^ Z.of_nat 1)%Z with 10%Z in Hf.
    assert (n / 10 = 0)%Z as H0 by (apply Z.div_small; lia).
    rewrite <- (Hd n acc Hn), H0. done.
  - remember (S f) as f1. simpl.
    destruct (Z.eqb_spec (n / 10) 0) as [H0|H0].
    + by rewrite <- (Hd n acc Hn), H0.
    + subst f1. rewrite IH; [by apply Hd| |].
      * pose proof (Z.div_pos n 10). pose proof (Z.div_le_upper_bound n 10 n). lia.
      * apply Z.div_lt_upper_bound; [lia|].
        rewrite Nat2Z.inj_succ, Z.pow_succ_r in Hf by lia. lia.
Qed.

Lemma ParseUint16_Itoa n :
  (0 <= n < 65536)%Z -> ParseUint16 (Itoa n) = (n, None).
Proof.
  intros. unfold ParseUint16, Itoa.
  destruct (itoa_aux 20 n []) eqn:E; [by apply itoa_aux_nonnil in E|].
  rewrite <- E, parse_itoa_aux; [done|lia|].
  assert (65536 < 10 ^ Z.of_nat 20)%Z by done. lia.
Qed.

Lemma IndexByte_None s c : IndexByte s c = None <-> c ∉ s.
Proof.
  unfold IndexByte. rewrite fmap_None, list_find_None, Forall_forall. split.
  - intros H Hin. by apply (H c).
  - intros H x Hx Hxc. by subst x.
Qed.

Lemma IndexByte_app s c r : c ∉ s -> IndexByte (s ++ c :: r) c = Some (length s).
Proof.
  intros H. unfold IndexByte. rewrite list_find_app_r.
  - simpl. rewrite decide_True by done. done.
  - apply list_find_None, Forall_forall. intros x Hx Hxc. by subst x.
Qed.

Lemma has_byte_false s c : has_byte s c = false <-> c ∉ s.
Proof.
  unfold has_byte. rewrite <- IndexByte_None.
  by destruct (IndexByte s c).
Qed.

Lemma has_byte_true s c : has_byte s c = true <-> c ∈ s.
Proof.
  destruct (has_byte s c) eqn:E.
  - split; [|done]. intros _. destruct (decide (c ∈ s)); [done|].
    apply has_byte_false in n. congruence.
  - apply has_byte_false in E. by split.
Qed.

Lemma IndexByte_Some s c i :
  IndexByte s c = Some i -> s = take i s ++ c :: drop (Datatypes.S i) s /\ c ∉ take i s /\ (i < length s)%nat.
Proof.
  unfold IndexByte. intros E. destruct (list_find _ s) as [[j x]|] eqn:Ef; [|done].
  injection E as [= ->]. apply list_find_Some in Ef as (Hx & -> & Hn).
  split_and!; [by rewrite <- drop_S, take_drop| |by eapply lookup_lt_Some].
  intros Hin. apply elem_of_take in Hin as (k & Hk & Hlt). by apply (Hn k c).
Qed.

Lemma SplitN2_two s c a b : SplitN2 s c = [a; b] <-> s = a ++ c :: b /\ c ∉ a.
Proof.
  unfold SplitN2. split.
  - destruct (IndexByte s c) as [i|] eqn:E; [|done].
    apply IndexByte_Some in E as (E & Hn & _). intros [= <- <-]. by split.
  - intros [-> Ha]. rewrite IndexByte_app, take_app_length by done. f_equal. f_equal.
    rewrite (drop_app_ge a) by lia. by replace (Datatypes.S (length a) - length a)%nat with 1%nat by lia.
Qed.

Lemma SplitN2_cases s c : (exists a b, SplitN2 s c = [a; b]) \/ SplitN2 s c = [s].
Proof. unfold SplitN2. destruct (IndexByte s c); eauto. Qed.

Lemma LastIndexByte_app s c r :
  c ∉ r -> LastIndexByte (s ++ c :: r) c = Some (length s).
Proof.
  intros H. unfold LastIndexByte. rewrite reverse_app, reverse_cons, <- app_assoc.
  simpl. rewrite IndexByte_app by (by rewrite elem_of_reverse). simpl. f_equal.
  rewrite length_app, length_reverse. simpl. lia.
Qed.

Lemma digits_not_elem s c :
  Forall (fun c => is_digit c = true) s -> is_digit c = false -> c ∉ s.
Proof. intros Hs Hc Hin. rewrite Forall_forall in Hs. by rewrite (Hs c) in Hc. Qed.

Lemma Itoa_not_elem n c : (0 <= n)%Z -> is_digit c = false -> c ∉ Itoa n.
Proof. intros. apply digits_not_elem; [by apply Itoa_digits|done]. Qed.

Lemma drop_app_cons {A} (a : list A) c b : drop (S (length a)) (a ++ c :: b) = b.
Proof.
  change (c :: b) with ([c] ++ b). rewrite app_assoc. apply drop_app_length'.
  rewrite length_app. simpl. lia.
Qed.

Lemma split_brackets_ok s j k host port :
  lbracket ∉ drop j s -> rbracket ∉ drop k s ->
  split_brackets s j k host port = (host, port, None).
Proof.
  intros Hl Hr. unfold split_brackets.
  by rewrite (proj2 (has_byte_false _ _) Hl), (proj2 (has_byte_false _ _) Hr).
Qed.

Lemma SplitHostPort_plain host port :
  lbracket ∉ host -> rbracket ∉ host -> colon ∉ host ->
  colon ∉ port -> lbracket ∉ port -> rbracket ∉ port ->
  SplitHostPort (host ++ colon :: port) = (host, port, None).
Proof.
  intros Hl Hr Hc Pc Pl Pr. unfold SplitHostPort.
  rewrite LastIndexByte_app, drop_app_cons, take_app_length by done.
  rewrite bool_decide_eq_false_2.
  2:{ destruct host; simpl; [done|]. rewrite not_elem_of_cons in Hl. naive_solver. }
  rewrite (proj2 (has_byte_false _ _) Hc).
  apply split_brackets_ok; rewrite drop_0, not_elem_of_app, not_elem_of_cons; done.
Qed.

Lemma SplitHostPort_bracketed host port :
  lbracket ∉ host -> rbracket ∉ host ->
  colon ∉ port -> lbracket ∉ port -> rbracket ∉ port ->
  SplitHostPort (lbracket :: host ++ rbracket :: colon :: port) = (host, port, None).
Proof.
  intros Hl Hr Pc Pl Pr. unfold SplitHostPort.
  pose proof (LastIndexByte_app (lbracket :: host ++ [rbracket]) colon port Pc) as Hi.
  pose proof (drop_app_cons (lbracket :: host ++ [rbracket]) colon port) as Hd.
  pose proof (IndexByte_app (lbracket :: host) rbracket (colon :: port)) as He.
  pose proof (drop_app_cons (lbracket :: host) rbracket (colon :: port)) as Hd2.
  simpl in Hi, Hd, He, Hd2. rewrite <- app_assoc in Hi, Hd. simpl in Hi, Hd.
  rewrite Hi. rewrite bool_decide_eq_true_2 by done.
  rewrite He by (rewrite not_elem_of_cons; done).
  rewrite bool_decide_eq_false_2 by (simpl; rewrite length_app; simpl; lia).
  rewrite bool_decide_eq_true_2 by (rewrite length_app; simpl; lia).
  simpl. rewrite Hd, drop_0, Nat.sub_0_r, take_app_length.
  apply split_brackets_ok; simpl.
  - rewrite drop_0, not_elem_of_app, !not_elem_of_cons. done.
  - rewrite Hd2, not_elem_of_cons. done.
Qed.

(** A host without brackets survives joining and splitting. *)
Lemma SplitHostPort_Join host port :
  lbracket ∉ host -> rbracket ∉ host ->
  colon ∉ port -> lbracket ∉ port -> rbracket ∉ port ->
  SplitHostPort (JoinHostPort host port) = (host, port, None).
Proof.
  intros. unfold JoinHostPort. destruct (has_byte host colon) eqn:Hc.
  - by apply SplitHostPort_bracketed.
  - apply has_byte_false in Hc. by apply SplitHostPort_plain.
Qed.

(** ** Round trips of the textual forms *)

(** One octet: the digits printed for a byte are read back as its value,
    whatever follows, provided what follows is not a digit. *)
Lemma parse4_octet b prev fields r :
  parse4_loop prev 0 0 fields (Itoa (b2z b) ++ r) =
  parse4_loop (last (Itoa (b2z b))) (b2z b) (length (Itoa (b2z b))) fields r.
Proof. destruct b; reflexivity. Qed.

Lemma parse4_dot c val digLen fields r :
  c <> dot -> r <> [] -> length fields <> 3 ->
  parse4_loop (Some c) val digLen fields (dot :: r) =
  parse4_loop (Some dot) 0 0 (fields ++ [z2b val]) r.
Proof.
  intros Hc Hr Hf. change (dot :: r) with ([dot] ++ r). simpl.
  rewrite (bool_decide_eq_false_2 (r = [])) by done.
  rewrite (bool_decide_eq_false_2 (Some c = Some dot)) by congruence.
  by rewrite (proj2 (Nat.eqb_neq _ _) Hf).
Qed.

Lemma last_Itoa_octet b : exists c, last (Itoa (b2z b)) = Some c /\ c <> dot.
Proof. destruct b; eexists; split; try reflexivity; discriminate. Qed.

Lemma parse4_octet_dot b prev fields r :
  r <> [] -> length fields <> 3 ->
  parse4_loop prev 0 0 fields (Itoa (b2z b) ++ dot :: r) =
  parse4_loop (Some dot) 0 0 (fields ++ [b]) r.
Proof.
  intros Hr Hf. rewrite parse4_octet.
  destruct (last_Itoa_octet b) as (c & -> & Hc).
  rewrite parse4_dot by done. by rewrite z2b_b2z.
Qed.

Lemma Itoa_app_nonnil n r : Itoa n ++ r <> [].
Proof.
  intros H. apply app_eq_nil in H as [H _]. by apply itoa_aux_nonnil in H.
Qed.

Lemma parseIPv4_string4 a b c d :
  parseIPv4 (string4 a b c d) = Some (Addr4 a b c d).
Proof.
  unfold parseIPv4, string4.
  rewrite !parse4_octet_dot by (done || apply Itoa_app_nonnil ||
    (intros H; by apply itoa_aux_nonnil in H)).
  rewrite <- (app_nil_r (Itoa (b2z d))), parse4_octet. simpl. by rewrite z2b_b2z.
Qed.

Lemma ParseAddr_scan_digits s p r :
  Forall (fun c => is_digit c = true) p ->
  ParseAddr_scan s (p ++ r) = ParseAddr_scan s r.
Proof.
  induction 1 as [|c p Hc _ IH]; [done|]. simpl.
  rewrite !bool_decide_eq_false_2; [done| | |]; intros ->; discriminate Hc.
Qed.

Lemma ParseAddr_string4 a b c d :
  ParseAddr (string4 a b c d) = (Addr4 a b c d, None).
Proof.
  unfold ParseAddr, string4.
  rewrite ParseAddr_scan_digits by (apply Itoa_digits; pose proof (b2z_range a); lia).
  fold (string4 a b c d). simpl. by rewrite parseIPv4_string4.
Qed.

Lemma string4_not_elem a b c d x :
  is_digit x = false -> x <> dot -> x ∉ string4 a b c d.
Proof.
  intros Hx Hd. unfold string4.
  rewrite !not_elem_of_app, !not_elem_of_cons, !not_elem_of_app, !not_elem_of_cons,
    !not_elem_of_app, !not_elem_of_cons.
  repeat split; try done; apply Itoa_not_elem; try done;
    match goal with |- (0 <= b2z ?b)%Z => pose proof (b2z_range b) end; lia.
Qed.

(** ** Parsed addresses are well formed *)

Lemma parse4_loop_length s : forall prev val dl fields fs,
  length fields <= 3 -> parse4_loop prev val dl fields s = Some fs -> length fs = 4.
Proof.
  induction s as [|c s IH]; intros prev val dl fields fs Hf; cbn [parse4_loop]; intros H.
  - case_match eqn:E; simplify_eq. apply Nat.ltb_ge in E. rewrite length_app. simpl. lia.
  - destruct (is_digit c).
    + repeat (case_match; try done). by eapply IH in H.
    + destruct (bool_decide (c = dot)); [|done]. case_match; [done|].
      destruct (Nat.eqb_spec (length fields) 3); [done|].
      apply IH in H; [done|]. rewrite length_app. simpl. lia.
Qed.

Lemma parse6_loop_length fuel : forall ip el s ip' el' r,
  length ip + 2 * fuel <= 16 -> parse6_loop fuel ip el s = Some (ip', el', r) ->
  length ip' <= 16.
Proof.
  induction fuel as [|f IH]; intros ip el s ip' el' r Hl; cbn [parse6_loop]; intros H;
    [simplify_eq; lia|].
  destruct (hex_group s 0 0) as [[[acc off] rest]|]; [|done]. cbn [mbind option_bind] in H.
  destruct (off =? 0)%nat; [done|].
  assert (length (ip ++ PutUint16 acc) + 2 * f <= 16) by (rewrite length_app; simpl; lia).
  assert (length (ip ++ PutUint16 acc) <= 16) by lia.
  destruct (bool_decide (head rest = Some dot)).
  - destruct (bool_decide (el = None) && _); [done|].
    destruct (Nat.ltb_spec 16 (length ip + 4)); [done|].
    destruct (parse4_loop None 0 0 [] s) as [fs|] eqn:E; [|done].
    apply parse4_loop_length in E; [|simpl; lia]. simplify_eq/=.
    rewrite length_app. lia.
  - destruct rest as [|c [|c2 rest]]; simplify_eq; [done|].
    repeat (case_match; simplify_eq; try done); by eapply IH in H.
Qed.

Lemma parseIPv6_body_wf s zone ip : parseIPv6_body s zone = Some ip -> addr_wf ip.
Proof.
  unfold parseIPv6_body. intros H.
  match type of H with context [let '(_, _) := ?p in _] => destruct p as [e s'] end.
  destruct (bool_decide (e = Some 0 /\ s' = [])); [by simplify_eq|].
  destruct (parse6_loop 8 [] e s') as [[[ip' e'] r]|] eqn:E; [|done].
  apply parse6_loop_length in E; [|simpl; lia]. cbn [mbind option_bind] in H.
  destruct (bool_decide (r = [])); [|done].
  unfold expand_ellipsis in H. destruct e' as [k|].
  - destruct (Nat.ltb_spec (length ip') 16); [|done]. simplify_eq/=.
    rewrite !length_app, length_replicate.
    pose proof (take_drop k ip') as Ht. apply (f_equal length) in Ht.
    rewrite length_app in Ht. lia.
  - destruct (Nat.ltb_spec (length ip') 16); [done|]. simplify_eq/=. lia.
Qed.

Lemma ParseAddr_wf s : addr_wf (ParseAddr s).1.
Proof.
  unfold ParseAddr. destruct (ParseAddr_scan s s) as [ip|] eqn:E; [|done]. simpl.
  revert E. generalize s at 2. intros r. induction r as [|c r IH]; simpl; [done|].
  unfold parseIPv4, parseIPv6.
  repeat (case_match; simplify_eq/=; try done); auto using parseIPv6_body_wf;
    try by intros ?%parseIPv6_body_wf.
  destruct (parse4_loop None 0 0 [] s) as [fs|]; simpl; [|done].
  intros [= <-]. by destruct fs as [|? [|? [|? [|? [|]]]]].
Qed.

Lemma Is4In6_As4 ip : addr_wf ip -> Is4In6 ip = true ->
  exists a b c d, As4 ip = Some [a; b; c; d].
Proof.
  destruct ip as [| |bs z]; [done|done|]. intros Hw Hi. unfold As4. rewrite Hi.
  simpl in Hw. assert (length (drop 12 bs) = 4) as Hl by (rewrite length_drop; lia).
  destruct (drop 12 bs) as [|a [|b [|c [|d [|]]]]]; try done. by exists a, b, c, d.
Qed.

(** ** [netip.ParseAddrPort] *)

Definition ParseAddrPort (s : gostring) : (Addr * Z) * err :=
  let bad (why : string) := ((Addr0, 0%Z), Some (errorsNew why)) in
  match LastIndexByte s colon with
  | None => bad "not an ip:port"
  | Some i =>
      let ip := take i s in
      let port := drop (S i) s in
      if bool_decide (ip = []) then bad "no IP"
      else if bool_decide (port = []) then bad "no port"
      else
        let v6 := bool_decide (head ip = Some lbracket) in
        if v6 && ((length ip <? 2)%nat || negb (bool_decide (last ip = Some rbracket)))
        then bad "missing ]"
        else
          let ip := if v6 then take (length ip - 2) (drop 1 ip) else ip in
          match ParseUint16 port with
          | (_, Some _) => bad "invalid port parsing"
          | (p, None) =>
              match ParseAddr ip with
              | (_, Some e) => ((Addr0, 0%Z), Some e)
              | (a, None) =>
                  if v6 && Is4 a then bad "square brackets can only be used with IPv6 addresses"
                  else if negb v6 && Is6 a then bad "IPv6 addresses must be surrounded by square brackets"
                  else ((a, p), None)
              end
          end
  end.

Lemma ParseAddrPort_4 a b c d port : (0 <= port < 65536)%Z ->
  ParseAddrPort (AddrPortString (Addr4 a b c d) port) = ((Addr4 a b c d, port), None).
Proof.
  intros Hp. unfold ParseAddrPort, AddrPortString, AddrString.
  rewrite LastIndexByte_app by (by apply Itoa_not_elem; [lia|]).
  rewrite take_app_length, drop_app_cons.
  assert (string4 a b c d <> []) as Hne.
  { unfold string4. apply Itoa_app_nonnil. }
  rewrite (bool_decide_eq_false_2 (string4 a b c d = [])) by done.
  rewrite (bool_decide_eq_false_2 (Itoa port = [])) by (intros H; by apply itoa_aux_nonnil in H).
  rewrite (bool_decide_eq_false_2 (head _ = _)).
  2:{ pose proof (string4_not_elem a b c d lbracket eq_refl) as Hn.
      destruct (string4 a b c d) as [|x l]; [done|]. intros [= ->].
      apply Hn; [done|]. apply elem_of_cons. by left. }
  cbn [andb negb]. rewrite ParseUint16_Itoa, ParseAddr_string4 by done. done.
Qed.
