(* ===== verification/Conn.v ===== *)
(** * Conn: [io.Reader], [io.Writer], [io.ReadFull] and the interface they promise

    The source layers connections ([net.Conn] inside an obfuscator inside a
    cipher inside a tracker).  [Reader] and [Writer] are the operations of a
    layer on its state; [ReaderOk], [WriterOk] and [ConnOk] are what a layer
    promises to the one above it, so that a layer's theorems are proved once
    against the promise and hold over every transport that keeps it.  [Wire]
    is the transport at the bottom: a TCP connection of the host. *)

From S2P Require Import Prelude.

(** [Read n s] is [Read(p)] with [len p = n]: the bytes stored in [p[:n]], the
    error, the new state.  [None] is a run-time panic. *)
Class Reader (S : Type) := Read : Z -> S -> option (list byte * err * S).
(** [Write p s]: the count, the error, the new state. *)
Class Writer (S : Type) := Write : list byte -> S -> option (Z * err * S).
Class Closer (S : Type) := Close : S -> err * S.

(** [net.PacketConn] with addresses of type [A].  [ReadFrom n s] is
    [ReadFrom(p)] with [len p = n]: the bytes stored at the front of [p], the
    count returned (which on an error need not be their number), the address,
    the error. *)
Class PacketConn (S A : Type) := {
  ReadFrom : Z -> S -> option (list byte * Z * A * err * S);
  WriteTo : list byte -> A -> S -> option (Z * err * S) }.

(** ** [io.ReadFull] *)

Section ReadFull.
Context {S : Type} `{Reader S}.

(** The loop of [io.ReadAtLeast].  A reader that keeps its promise returns at
    least one byte with a nil error, so [fuel] is one turn per byte wanted;
    [None] also stands for a reader that never makes progress. *)
Fixpoint ReadAtLeast_loop (fuel : nat) (want : Z) (acc : list byte) (s : S)
  : option (list byte * err * S) :=
  if (len acc <? want)%Z then
    match fuel with
    | O => None
    | Datatypes.S f =>
        '(d, e, s') ← Read (want - len acc) s;
        match e with
        | None => ReadAtLeast_loop f want (acc ++ d) s'
        | Some _ => Some (acc ++ d, e, s')
        end
    end
  else Some (acc, None, s).

Definition ReadFull (n : Z) (s : S) : option (list byte * err * S) :=
  '(d, e, s') ← ReadAtLeast_loop (Z.to_nat n) n [] s;
  if (n <=? len d)%Z then Some (d, None, s')
  else if (0 <? len d)%Z && bool_decide (e = Some EOF)
       then Some (d, Some ErrUnexpectedEOF, s')
       else Some (d, e, s').
End ReadFull.

(** [io.ReadFull(r, b[lo:hi])]: the buffer afterwards, the error, the reader. *)
Definition ReadFull_into {S} `{Reader S} (b : list byte) (lo hi : Z) (s : S)
  : option (list byte * err * S) :=
  _ ← b.[lo:hi];
  '(d, e, s') ← ReadFull (hi - lo) s;
  Some (blit b lo d, e, s').

(** A sequence of writes, stopped by the first error. *)
Fixpoint write_all {S} `{Writer S} (ps : list (list byte)) (s : S)
  : option (err * S) :=
  match ps with
  | [] => Some (None, s)
  | p :: r =>
      '(_, e, s') ← Write p s;
      match e with
      | None => write_all r s'
      | Some _ => Some (e, s')
      end
  end.

(** ** The promise *)

(** [Delivers s bs e]: reads from [s] yield the bytes [bs], in pieces of the
    transport's choosing, and then fail with [e]. *)
Class ReaderOk (S : Type) `{Reader S} := {
  Delivers : S -> list byte -> error -> Prop;
  read_ok : forall s bs e n, Delivers s bs e -> (0 < n)%Z ->
    exists d er s', Read n s = Some (d, er, s') /\ (len d <= n)%Z /\
      match er with
      | None => d <> [] /\ exists bs', bs = d ++ bs' /\ Delivers s' bs' e
      | Some e' => d = [] /\ bs = [] /\ e' = e /\ Delivers s' [] e
      end }.

(** [Sent s] is what the peer has been sent; a write that fails has sent a
    prefix; a [Writable] transport does not fail. *)
Class WriterOk (S : Type) `{Writer S} := {
  Sent : S -> list byte;
  Writable : S -> Prop;
  write_ok : forall s p, exists n er s', Write p s = Some (n, er, s') /\
      (Writable s -> er = None /\ Writable s') /\
      match er with
      | None => n = len p /\ Sent s' = Sent s ++ p
      | Some _ => (0 <= n <= len p)%Z /\ Sent s' = Sent s ++ ztake n p
      end }.

(** Reading leaves the sending side alone and conversely. *)
Class ConnOk (S : Type) `{ReaderOk S, WriterOk S} := {
  read_frame : forall n s d e s', Read n s = Some (d, e, s') ->
    Sent s' = Sent s /\ (Writable s -> Writable s');
  write_frame : forall p s n e s' bs er, Write p s = Some (n, e, s') ->
    Delivers s bs er -> Delivers s' bs er }.

(** The error of an [io.ReadFull] that finds only [bs] before [e]. *)
Definition short_error (bs : list byte) (e : error) : error :=
  if (0 <? len bs)%Z && bool_decide (e = EOF) then ErrUnexpectedEOF else e.

(** The error of a read cut short: the transport's, or [ErrUnexpectedEOF]. *)
Definition cut_error (e er : error) : Prop :=
  er = e \/ (e = EOF /\ er = ErrUnexpectedEOF).

Lemma cut_error_short bs e : cut_error e (short_error bs e).
Proof.
  unfold cut_error, short_error. case_match eqn:E; [|by left].
  apply andb_true_iff in E as [_ E]. apply bool_decide_eq_true in E. by right.
Qed.

Section ReadFull_facts.
Context {S : Type} `{ReaderOk S}.

Lemma ReadAtLeast_loop_spec fuel : forall want acc s bs e,
  Delivers s bs e -> (want - len acc <= Z.of_nat fuel)%Z -> (len acc <= want)%Z ->
  exists s', let n := (want - len acc)%Z in
    ReadAtLeast_loop fuel want acc s =
      Some (acc ++ ztake n bs, if (n <=? len bs)%Z then None else Some e, s') /\
    Delivers s' (zdrop n bs) e.
Proof.
  induction fuel as [|fuel IH]; intros want acc s bs e Hd Hf Ha; simpl.
  - replace (len acc <? want)%Z with false by lia. exists s.
    rewrite ztake_neg, zdrop_neg, app_nil_r by lia.
    by replace (want - len acc <=? len bs)%Z with true by len_lia.
  - destruct (Z.ltb_spec (len acc) want) as [Hlt|Hge].
    2:{ exists s. rewrite ztake_neg, zdrop_neg, app_nil_r by lia.
        by replace (want - len acc <=? len bs)%Z with true by len_lia. }
    destruct (read_ok s bs e (want - len acc)%Z Hd ltac:(lia))
      as (d & er & s1 & -> & Hlen & Hpost). simpl.
    destruct er as [e'|].
    + destruct Hpost as (-> & -> & -> & Hd'). exists s1.
      replace (want - len acc <=? len [])%Z with false by len_lia.
      by rewrite ztake_all, zdrop_all by len_lia.
    + destruct Hpost as (Hne & bs' & -> & Hd').
      assert (0 < len d)%Z by (destruct d; [done|len_lia]).
      destruct (IH want (acc ++ d) s1 bs' e Hd') as (s' & Hl & Hs'); [len_lia..|].
      exists s'. rewrite Hl. split.
      * rewrite <- app_assoc. do 3 f_equal; [f_equal; f_equal|].
        -- unfold ztake. rewrite take_app_ge by (unfold len in *; lia).
           f_equal. f_equal. unfold len in *. rewrite length_app. lia.
        -- rewrite !len_app.
           by replace (want - (len acc + len d) <=? len bs')%Z
             with (want - len acc <=? len d + len bs')%Z by lia.
      * unfold zdrop in *. rewrite drop_app_ge by (unfold len in *; lia).
        rewrite len_app in Hs'.
        by replace (Z.to_nat (want - len acc) - length d)%nat
          with (Z.to_nat (want - (len acc + len d))) by (unfold len in *; lia).
Qed.

(** [io.ReadFull] returns the first [n] bytes whatever the segmentation, or
    everything there is with the documented error. *)
Lemma ReadFull_spec n s bs e :
  Delivers s bs e -> (0 <= n)%Z ->
  exists s', ReadFull n s = Some (ztake n bs,
      if (n <=? len bs)%Z then None else Some (short_error bs e), s') /\
    Delivers s' (zdrop n bs) e.
Proof.
  intros Hd Hn. unfold ReadFull.
  destruct (ReadAtLeast_loop_spec (Z.to_nat n) n [] s bs e Hd) as (s' & Hl & Hd');
    [len_lia..|].
  rewrite len_nil, Z.sub_0_r in *. rewrite Hl. exists s'. split; [|done]. simpl.
  rewrite len_ztake.
  destruct (Z.leb_spec n (len bs)) as [Hle|Hgt].
  - by replace (n <=? Z.max 0 (Z.min n (len bs)))%Z with true by len_lia.
  - replace (n <=? Z.max 0 (Z.min n (len bs)))%Z with false by len_lia.
    replace (0 <? Z.max 0 (Z.min n (len bs)))%Z with (0 <? len bs)%Z by len_lia.
    unfold short_error. rewrite (bool_decide_ext (Some e = Some EOF) (e = EOF))
      by naive_solver.
    by destruct ((0 <? len bs)%Z && bool_decide (e = EOF)).
Qed.

Lemma ReadFull_app a bs n s e :
  Delivers s (a ++ bs) e -> n = len a ->
  exists s', ReadFull n s = Some (a, None, s') /\ Delivers s' bs e.
Proof.
  intros Hd ->. destruct (ReadFull_spec (len a) s _ e Hd) as (s' & Hr & Hd');
    [apply len_nonneg|].
  exists s'. rewrite ztake_app_len, zdrop_app_len in * by done.
  rewrite len_app in Hr.
  by replace (len a <=? len a + len bs)%Z with true in Hr by len_lia.
Qed.
End ReadFull_facts.

(** ** A live connection: what is still to be read and what has been sent *)

Section Live.
Context {S : Type} `{ConnOk S}.

Record Live (s : S) (bs : list byte) (e : error) (out : list byte) : Prop := {
  live_delivers : Delivers s bs e;
  live_writable : Writable s;
  live_sent : Sent s = out }.

Lemma ReadAtLeast_loop_frame fuel : forall want acc s d e s',
  ReadAtLeast_loop fuel want acc s = Some (d, e, s') ->
  Sent s' = Sent s /\ (Writable s -> Writable s').
Proof.
  induction fuel as [|fuel IH]; intros want acc s d e s' Hl; simpl in Hl.
  - destruct (len acc <? want)%Z; by simplify_eq.
  - destruct (len acc <? want)%Z; [|by simplify_eq].
    destruct (Read (want - len acc) s) as [[[d1 e1] s1]|] eqn:E; [|done].
    apply read_frame in E as [E1 E2]. simpl in Hl.
    destruct e1; [by simplify_eq|]. apply IH in Hl as [? ?].
    split; [congruence|auto].
Qed.

Lemma ReadFull_frame n s d e s' :
  ReadFull n s = Some (d, e, s') ->
  Sent s' = Sent s /\ (Writable s -> Writable s').
Proof.
  unfold ReadFull. intros Hr.
  destruct (ReadAtLeast_loop _ _ _ _) as [[[d1 e1] s1]|] eqn:E; [|done].
  apply ReadAtLeast_loop_frame in E. simpl in Hr.
  repeat (case_match; simplify_eq); done.
Qed.

(** The same of a connection whose writes may fail, unless [w]. *)
Record Alive (w : Prop) (s : S) (bs : list byte) (e : error) (out : list byte) : Prop := {
  alive_delivers : Delivers s bs e;
  alive_writable : w -> Writable s;
  alive_sent : Sent s = out }.

Lemma Live_Alive s bs e out : Live s bs e out <-> Alive True s bs e out.
Proof. split; intros [? ? ?]; split; auto. Qed.

Lemma Alive_any s bs e : Delivers s bs e -> Alive (Writable s) s bs e (Sent s).
Proof. by split. Qed.

Section Alive.
Context {w : Prop}.

Lemma Alive_ReadFull n s bs e out :
  Alive w s bs e out -> (0 <= n)%Z ->
  exists s', ReadFull n s = Some (ztake n bs,
      if (n <=? len bs)%Z then None else Some (short_error bs e), s') /\
    Alive w s' (zdrop n bs) e out.
Proof.
  intros [Hd Hw Hs] Hn. destruct (ReadFull_spec n s bs e Hd Hn) as (s' & Hr & Hd').
  exists s'. split; [done|]. apply ReadFull_frame in Hr as [? ?].
  split; [done|tauto|congruence].
Qed.

Lemma Alive_ReadFull_app a bs n s e out :
  Alive w s (a ++ bs) e out -> n = len a ->
  exists s', ReadFull n s = Some (a, None, s') /\ Alive w s' bs e out.
Proof.
  intros [Hd Hw Hs] ->. destruct (ReadFull_app a bs _ s e Hd eq_refl) as (s' & Hr & Hd').
  exists s'. split; [done|]. apply ReadFull_frame in Hr as [? ?].
  split; [done|tauto|congruence].
Qed.

Lemma Alive_ReadFull_into_app a bs b lo hi s e out :
  Alive w s (a ++ bs) e out -> (0 <= lo <= hi)%Z -> (hi <= len b)%Z ->
  (hi - lo = len a)%Z ->
  exists s', ReadFull_into b lo hi s = Some (blit b lo a, None, s') /\
    Alive w s' bs e out.
Proof.
  intros HL Hlo Hhi Ha. unfold ReadFull_into. rewrite slice_ok by done. simpl.
  destruct (Alive_ReadFull_app a bs (hi - lo) s e out HL Ha) as (s' & -> & HL').
  by exists s'.
Qed.

Lemma Alive_ReadFull_into_short bs b lo hi s e out :
  Alive w s bs e out -> (0 <= lo <= hi)%Z -> (hi <= len b)%Z ->
  (len bs < hi - lo)%Z ->
  exists s', ReadFull_into b lo hi s =
      Some (blit b lo bs, Some (short_error bs e), s') /\
    Alive w s' [] e out.
Proof.
  intros HL Hlo Hhi Ha. unfold ReadFull_into. rewrite slice_ok by done. simpl.
  destruct (Alive_ReadFull (hi - lo) s bs e out HL) as (s' & -> & HL'); [lia|].
  exists s'. rewrite ztake_all, zdrop_all in * by lia.
  by replace (hi - lo <=? len bs)%Z with false by lia.
Qed.

(** Reading [n] bytes into the front of a buffer. *)
Lemma read_front n s bs b e out :
  Alive w s bs e out -> (0 <= n <= len b)%Z ->
  ((len bs < n)%Z /\ exists b' s', ReadFull_into b 0 n s =
      Some (b', Some (short_error bs e), s') /\ len b' = len b /\ Alive w s' [] e out) \/
  (exists d rest b' s', bs = d ++ rest /\ len d = n /\
    ReadFull_into b 0 n s = Some (d ++ b', None, s') /\ len (d ++ b') = len b /\
    Alive w s' rest e out).
Proof.
  intros HL Hn. destruct (Z.lt_ge_cases (len bs) n) as [Hlt|Hge].
  - left. split; [done|].
    destruct (Alive_ReadFull_into_short bs b 0 n s e out HL) as (s' & -> & HL');
      [lia..|]. eexists _, _. split; [done|]. split; [|done].
    apply len_blit. len_lia.
  - right. rewrite <- (ztake_zdrop n bs) in HL.
    destruct (Alive_ReadFull_into_app (ztake n bs) _ b 0 n s e out HL)
      as (s' & -> & HL'); [lia|lia|len_lia|].
    exists (ztake n bs), (zdrop n bs), (zdrop (len (ztake n bs)) b), s'.
    rewrite ztake_zdrop, blit_0 by len_lia. split_and!; try done; len_lia.
Qed.

(** A write succeeds, or it fails having sent a prefix. *)
Lemma Alive_Write p s bs e out :
  Alive w s bs e out ->
  (exists s', Write p s = Some (len p, None, s') /\ Alive w s' bs e (out ++ p)) \/
  (~ w /\ exists n ew s' q, Write p s = Some (n, Some ew, s') /\ q `prefix_of` p /\ Alive w s' bs e (out ++ q)).
Proof.
  intros [Hd Hw Hs]. destruct (write_ok s p) as (n & er & s' & Hr & Hok & Hpost).
  destruct er as [ew|]; [right|left].
  - destruct Hpost as [_ Hs']. assert (~ w) as Hn by (intros Hx; by destruct (Hok (Hw Hx))).
    split; [done|]. exists n, ew, s', (ztake n p). split; [done|]. split; [exists (zdrop n p); by rewrite ztake_zdrop|].
    split; [by eapply write_frame|done|congruence].
  - destruct Hpost as [-> Hs']. exists s'. split; [done|].
    split; [by eapply write_frame|intros Hx; by apply Hok, Hw|congruence].
Qed.

(** A sequence of writes succeeds, or one fails and ends it. *)
Lemma Alive_write_all ps : forall s bs e out,
  Alive w s bs e out ->
  (exists s', write_all ps s = Some (None, s') /\ Alive w s' bs e (out ++ concat ps)) \/
  (~ w /\ exists ew s' sent p s1 n, write_all ps s = Some (Some ew, s') /\ sent `prefix_of` concat ps /\
     Write p s1 = Some (n, Some ew, s') /\ Alive w s' bs e (out ++ sent)).
Proof.
  induction ps as [|p ps IH]; intros s bs e out HL; cbn [write_all concat].
  - left. exists s. by rewrite app_nil_r.
  - destruct (Alive_Write p _ _ _ _ HL) as [(s1 & -> & HL1)|(Hw & n & ew & s1 & q & E & [t ->] & HL1)].
    2:{ right. split; [done|]. exists ew, s1, q, (q ++ t), s, n. rewrite E. split; [done|].
        split; [|done]. rewrite <- app_assoc. by eexists. }
    cbn [mbind option_bind]. destruct (IH _ _ _ _ HL1) as [(s2 & -> & HL2)|(Hw & ew & s2 & sent & q & s3 & n & -> & [t ->] & E & HL2)].
    + left. exists s2. by rewrite app_assoc.
    + right. split; [done|]. exists ew, s2, (p ++ sent), q, s3, n. split; [done|]. split; [|by rewrite app_assoc].
      rewrite app_assoc. by eexists.
Qed.
End Alive.

Lemma Live_ReadFull n s bs e out :
  Live s bs e out -> (0 <= n)%Z ->
  exists s', ReadFull n s = Some (ztake n bs,
      if (n <=? len bs)%Z then None else Some (short_error bs e), s') /\
    Live s' (zdrop n bs) e out.
Proof. setoid_rewrite Live_Alive. apply Alive_ReadFull. Qed.

Lemma Live_ReadFull_app a bs n s e out :
  Live s (a ++ bs) e out -> n = len a ->
  exists s', ReadFull n s = Some (a, None, s') /\ Live s' bs e out.
Proof. setoid_rewrite Live_Alive. apply Alive_ReadFull_app. Qed.

Lemma Live_ReadFull_into_app a bs b lo hi s e out :
  Live s (a ++ bs) e out -> (0 <= lo <= hi)%Z -> (hi <= len b)%Z ->
  (hi - lo = len a)%Z ->
  exists s', ReadFull_into b lo hi s = Some (blit b lo a, None, s') /\
    Live s' bs e out.
Proof. setoid_rewrite Live_Alive. apply Alive_ReadFull_into_app. Qed.

Lemma Live_ReadFull_into_short bs b lo hi s e out :
  Live s bs e out -> (0 <= lo <= hi)%Z -> (hi <= len b)%Z ->
  (len bs < hi - lo)%Z ->
  exists s', ReadFull_into b lo hi s =
      Some (blit b lo bs, Some (short_error bs e), s') /\
    Live s' [] e out.
Proof. setoid_rewrite Live_Alive. apply Alive_ReadFull_into_short. Qed.

Lemma Live_Write p s bs e out :
  Live s bs e out ->
  exists s', Write p s = Some (len p, None, s') /\ Live s' bs e (out ++ p).
Proof.
  intros [Hd Hw Hs]. destruct (write_ok s p) as (n & er & s' & Hr & Hok & Hpost).
  destruct (Hok Hw) as [-> Hw']. destruct Hpost as [-> Hs'].
  exists s'. split; [done|]. split; [|done|congruence].
  by eapply write_frame.
Qed.

Lemma Live_write_all ps s bs e out :
  Live s bs e out ->
  exists s', write_all ps s = Some (None, s') /\ Live s' bs e (out ++ concat ps).
Proof. rewrite Live_Alive. setoid_rewrite Live_Alive. intros [?|[[] _]]%(Alive_write_all ps); done. Qed.

(** Whatever the transport does, a write does not panic, and what it has
    sent is extended by a prefix of the data. *)
Lemma Write_prefix p s :
  exists n er s' q, Write p s = Some (n, er, s') /\ q `prefix_of` p /\
    Sent s' = Sent s ++ q /\ (er = None -> n = len p /\ q = p).
Proof.
  destruct (write_ok s p) as (n & er & s' & Hr & _ & Hpost).
  destruct er as [er|].
  - destruct Hpost as [_ Hs]. exists n, (Some er), s', (ztake n p).
    split_and!; [done| |done|done].
    exists (zdrop n p). by rewrite ztake_zdrop.
  - destruct Hpost as [-> Hs]. by exists (len p), None, s', p.
Qed.
End Live.

(** ** The host's TCP connection

    [segs] is the data in flight, in the segments [Read] will return, [fin]
    the error after them; [budget] bounds the bytes a write can still send
    before the connection breaks. *)

Record Wire := mkWire {
  segs : list (list byte);
  fin : error;
  sent : list byte;
  budget : option Z;
  closed : bool }.

Definition ErrClosed : error := errorsNew "use of closed network connection".

#[export] Instance Wire_Reader : Reader Wire := fun n w =>
  if closed w then Some ([], Some ErrClosed, w)
  else match segs w with
  | [] => Some ([], Some (fin w), w)
  | seg :: r =>
      let rest := if (len seg <=? n)%Z then r else zdrop n seg :: r in
      Some (ztake n seg, None,
            mkWire rest (fin w) (sent w) (budget w) (closed w))
  end.

#[export] Instance Wire_Writer : Writer Wire := fun p w =>
  if closed w then Some (0%Z, Some ErrClosed, w)
  else match budget w with
  | None => Some (len p, None, mkWire (segs w) (fin w) (sent w ++ p) None false)
  | Some k =>
      let n := Z.max 0 (Z.min k (len p)) in
      Some (n, if (n =? len p)%Z then None else Some (ErrIO 0),
            mkWire (segs w) (fin w) (sent w ++ ztake n p) (Some (k - n)%Z) false)
  end.

#[export] Instance Wire_Closer : Closer Wire := fun w =>
  (None, mkWire (segs w) (fin w) (sent w) (budget w) true).

(** A fresh connection whose peer will send [ss]. *)
Definition dialed (ss : list (list byte)) (e : error) : Wire :=
  mkWire ss e [] None false.

#[export, program] Instance Wire_ReaderOk : ReaderOk Wire := {
  Delivers w bs e :=
    concat (segs w) = bs /\ Forall (fun s => s <> []) (segs w) /\
    fin w = e /\ closed w = false }.
Next Obligation.
  intros w bs e n (<- & Hne & <- & Hc) Hn. unfold Read, Wire_Reader. rewrite Hc.
  destruct (segs w) as [|seg r] eqn:E.
  - eexists _, _, _. split; [done|]. split; [len_lia|]. rewrite E. naive_solver.
  - inversion Hne as [|? ? Hseg Hr]; subst.
    assert (0 < len seg)%Z by (destruct seg; [done|len_lia]).
    eexists _, _, _. split; [done|]. split; [len_lia|]. simpl. split.
    { intros Hz. apply (f_equal len) in Hz. len_lia. }
    destruct (Z.leb_spec (len seg) n).
    + exists (concat r). rewrite ztake_all by lia. naive_solver.
    + exists (zdrop n seg ++ concat r). rewrite app_assoc, ztake_zdrop.
      split_and!; try done. constructor; [|done].
      intros Hz. apply (f_equal len) in Hz. len_lia.
Qed.

#[export, program] Instance Wire_WriterOk : WriterOk Wire := {
  Sent := sent;
  Writable w := closed w = false /\ budget w = None }.
Next Obligation.
  intros w p. unfold Write, Wire_Writer.
  destruct (closed w) eqn:Hc.
  - eexists _, _, _. split; [done|]. split; [naive_solver|].
    rewrite ztake_neg, app_nil_r by lia. split; [len_lia|done].
  - destruct (budget w) as [k|] eqn:Hb.
    + eexists _, _, _. split; [done|]. split; [naive_solver|].
      destruct (Z.eqb_spec (Z.max 0 (Z.min k (len p))) (len p)) as [Heq|Hne]; simpl.
      * split; [done|]. by rewrite ztake_all by lia.
      * split; [len_lia|done].
    + eexists _, _, _. split; [done|]. naive_solver.
Qed.

#[export, program] Instance Wire_ConnOk : ConnOk Wire.
Next Obligation.
  intros n w d e w' Hr. unfold Read, Wire_Reader in Hr.
  destruct (closed w) eqn:?; [by simplify_eq|]. destruct (segs w); simplify_eq/=; naive_solver.
Qed.
Next Obligation.
  intros p w n e w' bs er Hw Hd. unfold Write, Wire_Writer in Hw.
  destruct (closed w) eqn:?; [by simplify_eq|].
  destruct (budget w); simplify_eq/=; naive_solver.
Qed.

Lemma dialed_Live ss e :
  Forall (fun s => s <> []) ss -> Live (dialed ss e) (concat ss) e [].
Proof. done. Qed.

(** ** [crypto/rand]: "Read never returns an error" *)

(** [crypto/rand.Read] on a source of type [R]. *)
Class Rand (R : Type) := rand_Read : Z -> R -> list byte * err * R.

Class RandOk (R : Type) `{Rand R} : Prop :=
  rand_ok : forall n (g : R), (0 <= n)%Z ->
    exists b g', rand_Read n g = (b, None, g') /\ len b = n.

(** The random source of the examples is all zeros. *)
#[export] Instance zeroRand : Rand unit := fun n g => (replicate (Z.to_nat n) (z2b 0), None, g).

#[export] Instance zeroRand_ok : RandOk unit.
Proof.
  intros n g Hn. eexists _, _. split; [reflexivity|].
  rewrite len_replicate. by apply Z2Nat.id.
Defined.

(** A socket with a queue of datagrams in and a record of those out. *)
Definition Mailbox : Type := list (list byte * nat) * list (list byte * nat).

#[export] Instance Mailbox_PacketConn : PacketConn Mailbox nat := {
  WriteTo p a m := Some (len p, None, (m.1, m.2 ++ [(p, a)]));
  ReadFrom n m :=
    match m.1 with
    | (p, a) :: r => Some (ztake n p, len (ztake n p), a, None, (r, m.2))
    | [] => Some ([], 0%Z, O, Some EOF, m)
    end }.

(** One turn of a protocol on a live connection: discharges the [ReadFull] or
    [Write] at the head of the goal with the matching lemma. *)
Ltac live_step HL :=
  match type of HL with
  | Live ?s ?bs ?e ?out =>
      let s' := fresh "s" in let Hr := fresh "Hr" in let HL' := fresh "HL" in
      lazymatch goal with
      | |- context [Write ?p s] =>
          destruct (Live_Write p _ _ _ _ HL) as (s' & Hr & HL')
      | |- context [ReadFull ?n s] =>
          destruct (Live_ReadFull_app _ _ n _ _ _ HL) as (s' & Hr & HL');
          [try reflexivity; try len_lia|]
      end;
      rewrite Hr; clear Hr HL; rename HL' into HL; cbn [mbind option_bind]
  end.
