(* ===== verification/Allocator.v ===== *)
(** * Allocator: internal/pool, buffer/allocator and buffer

    Slices are headers into a heap of arrays, so that two slices can share
    memory.  [sync.Pool.Get] may return any pooled object or make a new one,
    and may forget objects at any time: [PoolGet] takes the choice as an
    argument and the clients' traces quantify over it. *)

From S2P Require Import Prelude.

Open Scope Z_scope.

(** ** The heap *)

(** A [[]byte]: the array it points to, and the length and capacity of the
    view, which starts at the beginning of the array. *)
Record Slice := mkSlice { arr : nat; slen : Z; scap : Z }.

Record Heap := mkHeap { next : nat; cells : gmap nat (list byte) }.

Definition emptyHeap : Heap := mkHeap 0 ∅.

(** [make([]byte, n)]. *)
Definition make (n : Z) (h : Heap) : Slice * Heap :=
  (mkSlice (next h) n n,
   mkHeap (S (next h)) (<[next h := replicate (Z.to_nat n) (z2b 0)]> (cells h))).

(** [s[:hi]]: Go allows [hi] up to the capacity. *)
Definition reslice (s : Slice) (hi : Z) : option Slice :=
  if (0 <=? hi) && (hi <=? scap s) then Some (mkSlice (arr s) hi (scap s)) else None.

Definition view (h : Heap) (s : Slice) : list byte :=
  ztake (slen s) (default [] (cells h !! arr s)).

(** [s[i] = b], for [i] in range. *)
Definition store (h : Heap) (s : Slice) (i : Z) (b : byte) : Heap :=
  mkHeap (next h) (alter (fun c => <[Z.to_nat i := b]> c) (arr s) (cells h)).

(** ** internal/pool *)

Module pool.

Abbreviation Pool := list.

Definition PoolNew {T} : Pool T := [].

(** The pooled object numbered [choice], or a new one when there is none. *)
Definition PoolGet {T W} (new : W -> T * W) (choice : nat) (p : Pool T) (w : W)
  : T * Pool T * W :=
  match p !! choice with
  | Some x => (x, delete choice p, w)
  | None => let '(x, w) := new w in (x, p, w)
  end.

Definition PoolPut {T} (x : T) (p : Pool T) : Pool T := x :: p.
End pool.
Import pool.

(** ** buffer/allocator *)

Module allocator.

Abbreviation Allocator := (list (list Slice)).

Definition New : Allocator := replicate 17 PoolNew.

(** [bits.Len32]. *)
Definition Len32 (x : Z) : Z := if x =? 0 then 0 else Z.log2 x + 1.

Definition msb (size : Z) : Z := u16 (Len32 (u32 size) - 1).

(** [1 << b] on a 64-bit [int]. *)
Definition shl1 (b : Z) : Z := if b <? 64 then i64 (2 ^ b) else 0.

(** [alloc.buffers[b].Get()[:size]]. *)
Definition take_class (b size : Z) (choice : nat) (alloc : Allocator) (h : Heap)
  : option (Slice * Allocator * Heap) :=
  p ← alloc.[b];
  let '(s, p, h) := PoolGet (make (shl1 b)) choice p h in
  s ← reslice s size;
  Some (s, <[Z.to_nat b := p]> alloc, h).

Definition Get (size : Z) (choice : nat) (alloc : Allocator) (h : Heap)
  : option (option Slice * Allocator * Heap) :=
  if (size <=? 0) || (65536 <? size) then Some (None, alloc, h)
  else
    let b := msb size in
    '(s, alloc, h) ←
      (if size =? shl1 b then take_class b size choice alloc h
       else take_class (u16 (b + 1)) size choice alloc h);
    Some (Some s, alloc, h).

(** [cap(buf)] of a nil slice is 0. *)
Definition cap (buf : option Slice) : Z := if buf is Some s then scap s else 0.

Definition Put (buf : option Slice) (alloc : Allocator) : option (err * Allocator) :=
  let b := msb (cap buf) in
  if (cap buf =? 0) || (65536 <? cap buf) || negb (cap buf =? shl1 b) then
    Some (Some (errorsNew "allocator Put() incorrect buffer size"), alloc)
  else
    p ← alloc.[b];
    s ← buf;
    Some (None, <[Z.to_nat b := PoolPut s p]> alloc).
End allocator.
Import allocator.

(** ** Clients of the default allocator (package buffer)

    [MaxSegmentSize] is the largest UDP datagram, [RelayBufferSize] the buffer
    of a TCP relay.

    A client holds the buffers it got and has not put back; the garbage
    collector may empty the pools. *)

Definition MaxSegmentSize : Z := Z.shiftl 1 16 - 1.
Definition RelayBufferSize : Z := Z.shiftl 20 10.

Record World := mkWorld { alloc : Allocator; heap : Heap; held : list Slice }.

Inductive op :=
| OGet (size : Z) (choice : nat)
| OPut (i : nat)
| OWrite (i : nat) (j : Z) (b : byte)
| OGc (k j : nat).

Definition step (w : World) (o : op) : option World :=
  match o with
  | OGet size choice =>
      '(s, a, h) ← Get size choice (alloc w) (heap w);
      Some (mkWorld a h (if s is Some s then s :: held w else held w))
  | OPut i =>
      match held w !! i with
      | Some s => '(e, a) ← Put (Some s) (alloc w);
          Some (mkWorld a (heap w) (if is_nil e then delete i (held w) else held w))
      | None => Some w
      end
  | OWrite i j b =>
      match held w !! i with
      | Some s => Some (mkWorld (alloc w)
          (if (0 <=? j) && (j <? slen s) then store (heap w) s j b else heap w) (held w))
      | None => Some w
      end
  | OGc k j => Some (mkWorld (alter (delete j) k (alloc w)) (heap w) (held w))
  end.

Fixpoint run (w : World) (os : list op) : option World :=
  match os with
  | [] => Some w
  | o :: os => w ← step w o; run w os
  end.

Definition start : World := mkWorld New emptyHeap [].

(** ** Lemmas *)

Lemma shl1_small b : 0 <= b <= 16 -> shl1 b = 2 ^ b.
Proof.
  intros. unfold shl1. replace (b <? 64) with true by lia. apply i64_small.
  pose proof (Z.pow_le_mono_r 2 b 16). lia.
Qed.

Lemma msb_log2 n : 0 < n <= 65536 -> msb n = Z.log2 n /\ 0 <= Z.log2 n <= 16.
Proof.
  intros Hn. assert (0 <= Z.log2 n <= 16).
  { split; [apply Z.log2_nonneg|]. change 16 with (Z.log2 65536). apply Z.log2_le_mono. lia. }
  split; [|done]. unfold msb, Len32, u32. rewrite Z.mod_small by lia.
  replace (n =? 0) with false by lia. rewrite u16_small; lia.
Qed.

(** The least power of two that holds [size]. *)
Definition class_of (size : Z) : Z :=
  if size =? 2 ^ Z.log2 size then Z.log2 size else Z.log2 size + 1.

Lemma class_of_spec size :
  0 < size <= 65536 ->
  0 <= class_of size <= 16 /\ size <= 2 ^ class_of size < 2 * size.
Proof.
  intros Hs. unfold class_of. destruct (msb_log2 size Hs) as [_ Hl].
  pose proof (Z.log2_spec size ltac:(lia)) as [H1 H2].
  rewrite Z.pow_succ_r in H2 by lia.
  destruct (Z.eqb_spec size (2 ^ Z.log2 size)) as [He|Hne]; [lia|].
  rewrite Z.pow_add_r, Z.pow_1_r by lia. split; [|lia].
  destruct (Z.eq_dec (Z.log2 size) 16) as [E|]; [|lia].
  rewrite E in *. change (2 ^ 16) with 65536 in *. lia.
Qed.

Lemma class_of_least size k :
  0 < size -> 0 <= k -> size <= 2 ^ k -> class_of size <= k.
Proof.
  intros Hs Hk Hle. unfold class_of.
  pose proof (Z.log2_spec size Hs) as [H1 H2].
  assert (Z.log2 size <= k) by (rewrite <- (Z.log2_pow2 k) by done; by apply Z.log2_le_mono).
  destruct (Z.eqb_spec size (2 ^ Z.log2 size)); [lia|].
  destruct (Z.eq_dec (Z.log2 size) k) as [<-|]; lia.
Qed.

Lemma Get_class size choice a h :
  0 < size <= 65536 ->
  Get size choice a h =
    ('(s, a, h) ← take_class (class_of size) size choice a h; Some (Some s, a, h)).
Proof.
  intros Hs. unfold Get. replace ((size <=? 0) || (65536 <? size)) with false by lia.
  destruct (msb_log2 size Hs) as [-> Hl]. rewrite shl1_small by done.
  destruct (class_of_spec size Hs) as [Hc _]. unfold class_of in *.
  destruct (size =? 2 ^ Z.log2 size); [done|]. by rewrite u16_small by lia.
Qed.

(** A pooled or held buffer: an array of its own, of a power of two bytes. *)
Definition buf_ok (h : Heap) (k : nat) (s : Slice) : Prop :=
  scap s = 2 ^ Z.of_nat k /\ 0 <= slen s <= scap s /\
  exists c, cells h !! arr s = Some c /\ len c = scap s.

Definition pooled (w : World) : list Slice := concat (alloc w).

Record Inv (w : World) : Prop := {
  inv_classes : length (alloc w) = 17%nat;
  inv_pooled : forall k p, alloc w !! k = Some p -> Forall (buf_ok (heap w) k) p;
  inv_held : Forall (fun s => exists k, (k <= 16)%nat /\ buf_ok (heap w) k s) (held w);
  inv_own : NoDup (arr <$> (pooled w ++ held w));
  inv_next : Forall (fun s => (arr s < next (heap w))%nat) (pooled w ++ held w) }.

(** ** Multisets of owned buffers *)

Lemma delete_oob {A} (p : list A) j : p !! j = None -> delete j p = p.
Proof.
  revert j. induction p as [|x p IH]; intros [|j]; simpl; intros H; try done.
  f_equal. by apply IH.
Qed.

Lemma pooled_delete (a : Allocator) k p j s :
  a !! k = Some p -> p !! j = Some s ->
  concat a ≡ₚ s :: concat (<[k := delete j p]> a).
Proof.
  intros Hk Hj. destruct (concat_insert a k p (delete j p) Hk) as (x & y & -> & ->).
  rewrite (delete_Permutation p j s Hj) at 1. simpl.
  by rewrite <- Permutation_middle.
Qed.

Lemma pooled_put (a : Allocator) k p s :
  a !! k = Some p -> concat (<[k := s :: p]> a) ≡ₚ s :: concat a.
Proof.
  intros Hk. destruct (concat_insert a k p (s :: p) Hk) as (x & y & -> & ->).
  simpl. by rewrite <- Permutation_middle.
Qed.

Lemma pool_of w k : Inv w -> (k <= 16)%nat -> exists p, alloc w !! k = Some p.
Proof.
  intros Hi Hk. apply lookup_lt_is_Some. rewrite (inv_classes w Hi). lia.
Qed.

Lemma index_nat {A} (l : list A) (k : nat) : l.[Z.of_nat k] = l !! k.
Proof.
  unfold index. rewrite (proj2 (Z.leb_le 0 _)) by lia. by rewrite Nat2Z.id.
Qed.

Lemma Inv_start : Inv start.
Proof.
  split; simpl; try done.
  - intros k p Hk.
    replace p with (@nil Slice); [constructor|].
    apply list_elem_of_lookup_2, elem_of_replicate in Hk as [-> _]. done.
  - constructor.
Qed.

(** Exchanging the same arrays between pool and clients keeps the invariant. *)
Lemma Inv_move w a h l :
  Inv w -> length a = 17%nat ->
  (forall k p, a !! k = Some p -> Forall (buf_ok h k) p) ->
  Forall (fun s => exists k, (k <= 16)%nat /\ buf_ok h k s) l ->
  arr <$> (concat a ++ l) ≡ₚ arr <$> (pooled w ++ held w) ->
  next h = next (heap w) -> Inv (mkWorld a h l).
Proof.
  intros Hi Hlen Hp Hl Harr Hn. split; simpl; try done.
  - unfold pooled. simpl. rewrite Harr. apply (inv_own w Hi).
  - rewrite Hn. unfold pooled. simpl.
    change (Forall ((fun n => (n < next (heap w))%nat) ∘ arr) (concat a ++ l)).
    apply Forall_fmap. rewrite Harr. apply Forall_fmap, (inv_next w Hi).
Qed.

Lemma buf_ok_fresh h k s c n :
  (arr s < next h)%nat -> buf_ok h k s ->
  buf_ok (mkHeap n (<[next h := c]> (cells h))) k s.
Proof.
  intros Hs (Hc & Hl & x & Hx & Hlx). split; [done|]. split; [done|].
  exists x. simpl. by rewrite lookup_insert_ne by lia.
Qed.

(** A new array joins those in use. *)
Lemma Inv_make w s k :
  Inv w -> (k <= 16)%nat -> 0 <= s <= 2 ^ Z.of_nat k ->
  let '(x, h) := make (2 ^ Z.of_nat k) (heap w) in
  Inv (mkWorld (alloc w) h (mkSlice (arr x) s (scap x) :: held w)).
Proof.
  intros Hi Hk Hs. unfold make. pose proof (inv_next w Hi) as Hnx.
  apply Forall_app in Hnx as [Hn1 Hn2].
  split; simpl; try done.
  - apply (inv_classes w Hi).
  - intros j p Hj. apply Forall_forall. intros y Hy. apply buf_ok_fresh.
    + rewrite Forall_forall in Hn1. apply Hn1. apply list_elem_of_In, in_concat.
      exists p. split; apply list_elem_of_In; [by eapply list_elem_of_lookup_2|done].
    + pose proof (inv_pooled w Hi j p Hj) as Hp. rewrite Forall_forall in Hp. by apply Hp.
  - constructor.
    + exists k. split; [done|]. split; [done|]. split; [done|].
      eexists. simpl. rewrite lookup_insert_eq. split; [done|].
      rewrite len_replicate. apply Z2Nat.id. lia.
    + pose proof (inv_held w Hi) as Hh. rewrite Forall_forall in Hh, Hn2 |- *.
      intros y Hy. destruct (Hh y Hy) as (j & Hj & Hb). exists j. split; [done|].
      apply buf_ok_fresh; [by apply Hn2|done].
  - unfold pooled. simpl. rewrite <- Permutation_middle. simpl. constructor.
    + intros Hin. apply list_elem_of_fmap in Hin as (y & Hy & Hin).
      pose proof (inv_next w Hi) as Hnx. rewrite Forall_forall in Hnx.
      specialize (Hnx y Hin). lia.
    + apply (inv_own w Hi).
  - unfold pooled. simpl. apply Forall_app. split; [|constructor; [simpl; lia|]];
    (eapply Forall_impl; [eassumption|]; simpl; lia).
Qed.

Definition result_world (w : World) (r : option Slice * Allocator * Heap) : World :=
  let '(s, a, h) := r in mkWorld a h (if s is Some s then s :: held w else held w).

Lemma Get_keeps w size choice :
  Inv w -> exists s a h, Get size choice (alloc w) (heap w) = Some (s, a, h) /\
    Inv (result_world w (s, a, h)) /\
    (if (size <=? 0) || (65536 <? size) then s = None
     else exists x, s = Some x /\ slen x = size /\ scap x = 2 ^ class_of size).
Proof.
  intros Hi. destruct ((size <=? 0) || (65536 <? size)) eqn:Eb.
  { unfold Get. rewrite Eb. eexists _, _, _. split; [done|]. split; [by destruct w|done]. }
  assert (0 < size <= 65536) as Hs by lia. clear Eb. rewrite Get_class by done.
  destruct (class_of_spec size Hs) as [Hc Hp].
  destruct (Z_of_nat_complete (class_of size)) as [k Ek]; [lia|]. rewrite Ek in *.
  destruct (pool_of w k Hi) as [p Hk]; [lia|]. unfold take_class.
  rewrite index_nat, Hk. bind_simpl. rewrite shl1_small by lia. unfold PoolGet.
  destruct (p !! choice) as [x|] eqn:Ex.
  - pose proof (inv_pooled w Hi k p Hk) as Hf. rewrite Forall_forall in Hf.
    pose proof (Hf x (list_elem_of_lookup_2 _ _ _ Ex)) as (Hcap & Hlen & c & Hcell & Hcl).
    unfold reslice. replace ((0 <=? size) && (size <=? scap x)) with true by lia.
    bind_simpl. eexists _, _, _. split; [done|]. split; [|by eexists].
    rewrite Nat2Z.id. apply (Inv_move w); [done| | | | |done].
    + rewrite length_insert. apply (inv_classes w Hi).
    + intros j q Hq. destruct (decide (j = k)) as [->|Hne].
      * rewrite list_lookup_insert_eq in Hq by (by eapply lookup_lt_Some).
        injection Hq as <-. apply Forall_delete. rewrite Forall_forall. apply Hf.
      * rewrite list_lookup_insert_ne in Hq by done. by apply (inv_pooled w Hi).
    + constructor; [|apply (inv_held w Hi)]. exists k. split; [lia|].
      split; [done|]. simpl. split; [lia|]. by exists c.
    + unfold pooled. rewrite (pooled_delete (alloc w) k p choice x Hk Ex).
      rewrite <- Permutation_middle. done.
  - pose proof (Inv_make w size k Hi ltac:(lia) ltac:(lia)) as Hm.
    unfold make in *. unfold reslice. simpl scap.
    replace ((0 <=? size) && (size <=? 2 ^ Z.of_nat k)) with true by lia.
    bind_simpl. eexists _, _, _. split; [done|]. split; [|by eexists].
    rewrite Nat2Z.id, list_insert_id by done. exact Hm.
Qed.

Lemma Put_accepts k a p s :
  (k <= 16)%nat -> scap s = 2 ^ Z.of_nat k -> a !! k = Some p ->
  Put (Some s) a = Some (None, <[k := s :: p]> a).
Proof.
  intros Hk Hc Ha. unfold Put. simpl cap. rewrite Hc.
  assert (0 < 2 ^ Z.of_nat k <= 65536) as Hb.
  { split; [apply Z.pow_pos_nonneg; lia|]. change 65536 with (2 ^ 16).
    apply Z.pow_le_mono_r; lia. }
  destruct (msb_log2 _ Hb) as [-> _]. rewrite Z.log2_pow2, shl1_small by lia.
  replace ((_ =? 0) || (65536 <? _) || negb (2 ^ Z.of_nat k =? _)) with false by lia.
  rewrite index_nat, Ha. bind_simpl. by rewrite Nat2Z.id.
Qed.

Lemma Put_keeps w i s :
  Inv w -> held w !! i = Some s ->
  exists a, Put (Some s) (alloc w) = Some (None, a) /\
    Inv (mkWorld a (heap w) (delete i (held w))).
Proof.
  intros Hi Hs. pose proof (inv_held w Hi) as Hh. rewrite Forall_forall in Hh.
  destruct (Hh s (list_elem_of_lookup_2 _ _ _ Hs)) as (k & Hk & Hb).
  destruct (pool_of w k Hi Hk) as [p Hp].
  exists (<[k := s :: p]> (alloc w)). split; [apply Put_accepts; [done|apply Hb|done]|].
  apply (Inv_move w); [done| | | | |done].
  - rewrite length_insert. apply (inv_classes w Hi).
  - intros j q Hq. destruct (decide (j = k)) as [->|Hne].
    + rewrite list_lookup_insert_eq in Hq by (by eapply lookup_lt_Some).
      injection Hq as <-. constructor; [done|]. by apply (inv_pooled w Hi).
    + rewrite list_lookup_insert_ne in Hq by done. by apply (inv_pooled w Hi).
  - apply Forall_delete. apply (inv_held w Hi).
  - rewrite (pooled_put (alloc w) k p s Hp). unfold pooled.
    rewrite (delete_Permutation (held w) i s Hs) at 2.
    by rewrite <- Permutation_middle.
Qed.

Lemma Inv_write w s h j b :
  Inv w -> s ∈ held w -> h = store (heap w) s j b ->
  Inv (mkWorld (alloc w) h (held w)).
Proof.
  intros Hi Hin ->.
  assert (Hb : forall k x, buf_ok (heap w) k x -> buf_ok (store (heap w) s j b) k x).
  { intros k x (Hc & Hl & c & Hx & Hlc). split; [done|]. split; [done|]. simpl.
    destruct (decide (arr s = arr x)) as [->|Hne].
    - rewrite lookup_alter_eq, Hx. eexists. split; [done|].
      unfold len in *. by rewrite length_insert.
    - rewrite lookup_alter_ne by done. by exists c. }
  apply (Inv_move w); try done.
  - apply (inv_classes w Hi).
  - intros k p Hp. eapply Forall_impl; [by apply (inv_pooled w Hi)|]. apply Hb.
  - eapply Forall_impl; [apply (inv_held w Hi)|]. simpl.
    intros x (k & Hk & Hx). eauto.
Qed.

Lemma Inv_gc w k j : Inv w -> Inv (mkWorld (alter (delete j) k (alloc w)) (heap w) (held w)).
Proof.
  intros Hi. destruct (alloc w !! k) as [p|] eqn:Hk.
  2:{ replace (alter (delete j) k (alloc w)) with (alloc w); [by destruct w|].
      apply list_eq. intros i. destruct (decide (i = k)) as [->|].
      - by rewrite list_lookup_alter_eq, Hk.
      - by rewrite list_lookup_alter_ne. }
  assert (alter (delete j) k (alloc w) = <[k := delete j p]> (alloc w)) as ->.
  { apply list_eq. intros i. destruct (decide (i = k)) as [->|].
    - rewrite list_lookup_alter_eq, Hk, list_lookup_insert_eq; [done|by eapply lookup_lt_Some].
    - by rewrite list_lookup_alter_ne, list_lookup_insert_ne. }
  destruct (p !! j) as [s|] eqn:Hj.
  2:{ rewrite delete_oob by done. rewrite list_insert_id by done. by destruct w. }
  split; simpl.
  - rewrite length_insert. apply (inv_classes w Hi).
  - intros i q Hq. destruct (decide (i = k)) as [->|].
    + rewrite list_lookup_insert_eq in Hq by (by eapply lookup_lt_Some).
      injection Hq as <-. by apply Forall_delete, (inv_pooled w Hi).
    + rewrite list_lookup_insert_ne in Hq by done. by apply (inv_pooled w Hi).
  - apply (inv_held w Hi).
  - pose proof (inv_own w Hi) as Ho. unfold pooled in *.
    rewrite (pooled_delete (alloc w) k p j s Hk Hj) in Ho. by inversion Ho.
  - pose proof (inv_next w Hi) as Ho. unfold pooled in *.
    rewrite (pooled_delete (alloc w) k p j s Hk Hj) in Ho. by inversion Ho.
Qed.

(** Every client operation succeeds and keeps the invariant. *)
Lemma step_keeps w o : Inv w -> exists w', step w o = Some w' /\ Inv w'.
Proof.
  intros Hi. destruct o as [size choice|i|i j b|k j]; simpl.
  - destruct (Get_keeps w size choice Hi) as (s & a & h & -> & Hw & _). bind_simpl. eauto.
  - destruct (held w !! i) as [s|] eqn:Hs; [|eauto].
    destruct (Put_keeps w i s Hi Hs) as (a & -> & Ha). bind_simpl. eauto.
  - destruct (held w !! i) as [s|] eqn:Hs; [|eauto]. eexists. split; [done|].
    destruct ((0 <=? j) && (j <? slen s)); [|by destruct w].
    eapply Inv_write; [done| |done]. by eapply list_elem_of_lookup_2.
  - eexists. split; [done|]. by apply Inv_gc.
Qed.

Lemma run_keeps os : forall w, Inv w -> exists w', run w os = Some w' /\ Inv w'.
Proof.
  induction os as [|o os IH]; intros w Hi; simpl; [eauto|].
  destruct (step_keeps w o Hi) as (w1 & -> & Hi1). bind_simpl. by apply IH.
Qed.

Lemma run_Inv os w : run start os = Some w -> Inv w.
Proof.
  intros Hr. destruct (run_keeps os start Inv_start) as (w' & Hr' & Hi). congruence.
Qed.

Lemma held_distinct w i j s t :
  Inv w -> i <> j -> held w !! i = Some s -> held w !! j = Some t -> arr s <> arr t.
Proof.
  intros Hi Hij Hs Ht Heq. apply Hij.
  pose proof (inv_own w Hi) as Ho. rewrite fmap_app in Ho. apply NoDup_app in Ho as (_ & _ & Ho).
  apply (NoDup_lookup _ i j (arr s) Ho); rewrite list_lookup_fmap.
  - by rewrite Hs.
  - by rewrite Ht, Heq.
Qed.

(** ** Properties *)

(** C39: whatever sequence of Get, Put, writes and garbage collections the
    clients of the allocator perform, no call panics, no two buffers in use
    share memory, and a write through one is never seen through another. *)
Theorem allocator_traces_safe os :
  exists w, run start os = Some w /\
    forall i j s t, i <> j -> held w !! i = Some s -> held w !! j = Some t ->
      arr s <> arr t /\
      forall k b w', step w (OWrite i k b) = Some w' ->
        view (heap w') t = view (heap w) t.
Proof.
  destruct (run_keeps os start Inv_start) as (w & Hr & Hi). exists w. split; [done|].
  intros i j s t Hij Hs Ht. pose proof (held_distinct w i j s t Hi Hij Hs Ht) as Hne.
  split; [done|]. intros k b w' Hw. simpl in Hw. rewrite Hs in Hw. injection Hw as <-.
  simpl. destruct ((0 <=? k) && (k <? slen s)); [|done].
  unfold view, store. simpl. by rewrite lookup_alter_ne.
Qed.

(** In every reachable state Get answers nil exactly for sizes outside
    1..65536; otherwise it returns a buffer of that length whose capacity is
    the least power of two that holds it, less than twice the size. *)
Theorem Get_spec os w size choice :
  run start os = Some w ->
  exists r a h, Get size choice (alloc w) (heap w) = Some (r, a, h) /\
    (r = None <-> ~ 0 < size <= 65536) /\
    forall s, r = Some s -> slen s = size /\ len (view h s) = size /\
      exists k, 0 <= k <= 16 /\ scap s = 2 ^ k /\ size <= 2 ^ k < 2 * size /\
        forall j, 0 <= j -> size <= 2 ^ j -> k <= j.
Proof.
  intros Hr%run_Inv. destruct (Get_keeps w size choice Hr) as (r & a & h & -> & Hw & Hres).
  exists r, a, h. split; [done|].
  destruct ((size <=? 0) || (65536 <? size)) eqn:Eb.
  - subst r. split; [split; [lia|done]|done].
  - destruct Hres as (x & -> & Hl & Hc). split; [split; [done|lia]|].
    intros s [= <-]. split; [done|]. split.
    + pose proof (inv_held _ Hw) as Hh. simpl in Hh. apply Forall_cons_1 in Hh as [Hh _].
      destruct Hh as (k & _ & _ & Hb & c & Hcell & Hlc). unfold view. rewrite Hcell.
      simpl. rewrite len_ztake. lia.
    + destruct (class_of_spec size) as [Hk Hp]; [lia|]. exists (class_of size).
      split_and!; try lia. intros j Hj Hle. apply class_of_least; lia.
Qed.

(** Put accepts exactly the buffers whose capacity is a power of two from
    1 to 65536, and files them in the pool of that capacity; it refuses any
    other buffer, nil included, with an error that leaves the pools alone. *)
Theorem Put_spec buf a :
  length a = 17%nat -> 0 <= cap buf < 2 ^ 63 ->
  (exists k s p, (k <= 16)%nat /\ buf = Some s /\ scap s = 2 ^ Z.of_nat k /\
     a !! k = Some p /\ Put buf a = Some (None, <[k := s :: p]> a)) \/
  ((forall k, (k <= 16)%nat -> cap buf <> 2 ^ Z.of_nat k) /\
   exists msg, Put buf a = Some (Some (errorsNew msg), a)).
Proof.
  intros Ha Hc.
  set (c := cap buf) in *.
  destruct (decide (0 < c <= 65536 /\ c = 2 ^ Z.log2 c)) as [[Hr Hb]|Hn].
  - left. destruct (msb_log2 _ Hr) as [_ Hl].
    destruct (Z_of_nat_complete (Z.log2 c)) as [k Ek]; [lia|]. rewrite Ek in Hb.
    destruct buf as [s|]; [|simpl in c; lia].
    destruct (lookup_lt_is_Some_2 a k) as [p Hp]; [lia|].
    exists k, s, p. split_and!; try done; [lia|]. apply Put_accepts; [lia|done..].
  - right. split.
    + intros k Hk Hb. apply Hn. rewrite Hb, Z.log2_pow2 by lia. split; [|done]. split.
      * apply Z.pow_pos_nonneg; lia.
      * change 65536 with (2 ^ 16). apply Z.pow_le_mono_r; lia.
    + eexists. unfold Put. fold c.
      replace ((c =? 0) || (65536 <? c) || negb (c =? shl1 (msb c))) with true; [done|].
      symmetry. destruct (decide (0 < c <= 65536)) as [Hr|Hr]; [|lia].
      destruct (msb_log2 _ Hr) as [-> Hl]. rewrite shl1_small by done.
      apply orb_true_iff. right. apply negb_true_iff, Z.eqb_neq. naive_solver.
Qed.

(** ** Witnesses *)

Lemma Get_spec_witness :
  let os := [OGet 1023 0; OPut 0] in
  exists r a h, Get 1000 0 (alloc (default start (run start os)))
      (heap (default start (run start os))) = Some (r, a, h) /\
    (r = None <-> ~ 0 < 1000 <= 65536) /\
    forall s, r = Some s -> slen s = 1000 /\ len (view h s) = 1000 /\
      exists k, 0 <= k <= 16 /\ scap s = 2 ^ k /\ 1000 <= 2 ^ k < 2 * 1000 /\
        forall j, 0 <= j -> 1000 <= 2 ^ j -> k <= j.
Proof. intros os. apply (Get_spec os _ 1000 0). reflexivity. Defined.

Lemma Put_spec_witness :
  let buf := Some (mkSlice 0 3 4) in
  (exists k s p, (k <= 16)%nat /\ buf = Some s /\ scap s = 2 ^ Z.of_nat k /\
     New !! k = Some p /\ Put buf New = Some (None, <[k := s :: p]> New)) \/
  ((forall k, (k <= 16)%nat -> cap buf <> 2 ^ Z.of_nat k) /\
   exists msg, Put buf New = Some (Some (errorsNew msg), New)).
Proof. intros buf. apply (Put_spec buf New); [reflexivity|split; reflexivity || discriminate]. Defined.
