(* ===== verification/Socks5.v ===== *)
(** * Socks5: the SOCKS5 client of transport/socks5/socks5.go

    Addresses ([Addr], its [Valid], [String], [UDPAddr]; [SplitAddr],
    [SerializeAddr], [ParseAddrString]), the handshake over any connection and
    the UDP packet format.  [None] in a result type [option] is a run-time
    panic; a Go slice that may be nil is an [option (list byte)]. *)

From S2P Require Import Prelude Net Conn.

Local Open Scope Z_scope.

Module socks5.

(** ** Constants *)

Definition MethodNoAuth : Z := 0x00.
Definition MethodUserPass : Z := 0x02.
Definition Version : Z := 0x05.
Definition CmdConnect : Z := 0x01.
Definition CmdBind : Z := 0x02.
Definition CmdUDPAssociate : Z := 0x03.
Definition AtypIPv4 : Z := 0x01.
Definition AtypDomainName : Z := 0x03.
Definition AtypIPv6 : Z := 0x04.
Definition MaxAddrLen : Z := 1 + 1 + 255 + 2.
Definition MaxAuthLen : Z := 255.
Definition IPv4len : Z := 4.
Definition IPv6len : Z := 16.

Definition CommandString (c : Z) : gostring :=
  if c =? CmdConnect then str "CONNECT"
  else if c =? CmdBind then str "BIND"
  else if c =? CmdUDPAssociate then str "UDP ASSOCIATE"
  else str "UNDEFINED".

(** [fmt.Sprintf("unassigned <%#02x>", r)] prints two hexadecimal digits. *)
Definition ReplyString (r : Z) : gostring :=
  if r =? 0x00 then str "succeeded"
  else if r =? 0x01 then str "general SOCKS server failure"
  else if r =? 0x02 then str "connection not allowed by ruleset"
  else if r =? 0x03 then str "network unreachable"
  else if r =? 0x04 then str "host unreachable"
  else if r =? 0x05 then str "connection refused"
  else if r =? 0x06 then str "TTL expired"
  else if r =? 0x07 then str "command not supported"
  else if r =? 0x08 then str "address type not supported"
  else str "unassigned <0x" ++ [hexdigit (r / 16); hexdigit (r mod 16)] ++ str ">".

(** ** Addresses *)

Definition Valid (a : list byte) : option bool :=
  if len a <? 1 + 1 + 2 then Some false
  else
    t ← a.[0];
    if b2z t =? AtypDomainName then
      l ← a.[1]; Some (negb (len a <? 1 + 1 + b2z l + 2))
    else if b2z t =? AtypIPv4 then Some (negb (len a <? 1 + IPv4len + 2))
    else if b2z t =? AtypIPv6 then Some (negb (len a <? 1 + IPv6len + 2))
    else Some true.

Definition String (a : list byte) : option gostring :=
  v ← Valid a;
  if negb v then Some []
  else
    t ← a.[0];
    '(host, port) ←
      (if b2z t =? AtypDomainName then
         l ← a.[1];
         host ← a.[2 : 2 + b2z l];
         p ← a.[2 + b2z l : len a]; port ← Uint16 p;
         Some (host, Itoa port)
       else if b2z t =? AtypIPv4 then
         ip ← a.[1 : 1 + IPv4len];
         p ← a.[1 + IPv4len : len a]; port ← Uint16 p;
         Some (IPString ip, Itoa port)
       else if b2z t =? AtypIPv6 then
         ip ← a.[1 : 1 + IPv6len];
         p ← a.[1 + IPv6len : len a]; port ← Uint16 p;
         Some (IPString ip, Itoa port)
       else Some ([], []));
    Some (JoinHostPort host port).

(** [(Addr).UDPAddr]: the inner [None] is the nil pointer. *)
Definition ToUDPAddr (a : list byte) : option (option UDPAddr) :=
  v ← Valid a;
  if negb v then Some None
  else
    t ← a.[0];
    if b2z t =? AtypDomainName then Some None
    else if b2z t =? AtypIPv4 then
      ip ← a.[1 : 1 + IPv4len];
      p ← a.[1 + IPv4len : len a]; port ← Uint16 p;
      Some (Some (mkUDPAddr ip port))
    else if b2z t =? AtypIPv6 then
      ip ← a.[1 : 1 + IPv6len];
      p ← a.[1 + IPv6len : len a]; port ← Uint16 p;
      Some (Some (mkUDPAddr ip port))
    else Some (Some (mkUDPAddr [] 0)).

Definition SplitAddr (b : list byte) : option (option (list byte)) :=
  if len b <? 1 then Some None
  else
    t ← b.[0];
    let cut addrLen :=
      if len b <? addrLen then Some None
      else a ← b.[0 : addrLen]; Some (Some a) in
    if b2z t =? AtypDomainName then
      if len b <? 2 then Some None
      else l ← b.[1]; cut (1 + 1 + b2z l + 2)
    else if b2z t =? AtypIPv4 then cut (1 + IPv4len + 2)
    else if b2z t =? AtypIPv6 then cut (1 + IPv6len + 2)
    else Some None.

Definition SerializeAddr (domainName : gostring) (dstIP : Addr) (dstPort : Z)
  : list byte :=
  let port := PutUint16 dstPort in
  if negb (str_eqb domainName []) then
    [z2b AtypDomainName; z2b (len domainName)] ++ domainName ++ port
  else if Is4 dstIP then [z2b AtypIPv4] ++ AsSlice dstIP ++ port
  else [z2b AtypIPv6] ++ AsSlice dstIP ++ port.

Definition ParseAddrString (s : gostring) : option (list byte) :=
  let '(host, port, e) := SplitHostPort s in
  check e else None ;;
  let '(dstPort, e) := ParseUint16 port in
  check e else None ;;
  let '(ip, _) := ParseAddr host in
  if IsValid ip then Some (SerializeAddr [] ip dstPort)
  else Some (SerializeAddr host Addr0 dstPort).

(** ** UDP packets *)

Definition DecodeUDPPacket (packet : list byte)
  : option (option (list byte) * list byte * err) :=
  if len packet <? 5 then
    Some (None, [], Some (errorsNew "insufficient length of packet"))
  else
    rsv ← packet.[0:2];
    if negb (bool_decide (rsv = [z2b 0; z2b 0])) then
      Some (None, [], Some (errorsNew "reserved fields should be zero"))
    else
      frag ← packet.[2];
      if negb (b2z frag =? 0) then
        Some (None, [], Some (errorsNew "discarding fragmented payload"))
      else
        rest ← packet.[3 : len packet];
        addr ← SplitAddr rest;
        let e := match addr with
                 | None => Some (errorsNew "socks5 UDP addr is nil")
                 | Some _ => None
                 end in
        payload ← packet.[3 + len (default [] addr) : len packet];
        Some (addr, payload, e).

Definition EncodeUDPPacket (addr : option (list byte)) (payload : list byte)
  : list byte * err :=
  match addr with
  | None => ([], Some (errorsNew "address is invalid"))
  | Some a => ([z2b 0; z2b 0; z2b 0] ++ a ++ payload, None)
  end.

(** ** The handshake *)

Record User := mkUser { Username : gostring; Password : gostring }.

Section Handshake.
Context {S : Type} `{Reader S, Writer S}.

Definition ReadAddr (r : S) (b : list byte)
  : option (option (list byte) * err * S) :=
  if len b <? MaxAddrLen then Some (None, Some ErrShortBuffer, r)
  else
    '(b, e, r) ← ReadFull_into b 0 1 r;
    check e else Some (None, e, r) ;;
    t ← b.[0];
    if b2z t =? AtypDomainName then
      '(b, e, r) ← ReadFull_into b 1 2 r;
      check e else Some (None, e, r) ;;
      l ← b.[1];
      let domainLength := u16 (b2z l) in
      '(b, e, r) ← ReadFull_into b 2 (u16 (2 + domainLength + 2)) r;
      a ← b.[0 : u16 (1 + 1 + domainLength + 2)];
      Some (Some a, e, r)
    else if b2z t =? AtypIPv4 then
      '(b, e, r) ← ReadFull_into b 1 (1 + IPv4len + 2) r;
      a ← b.[0 : 1 + IPv4len + 2];
      Some (Some a, e, r)
    else if b2z t =? AtypIPv6 then
      '(b, e, r) ← ReadFull_into b 1 (1 + IPv6len + 2) r;
      a ← b.[0 : 1 + IPv6len + 2];
      Some (Some a, e, r)
    else Some (None, Some (errorsNew "invalid address type"), r).

(** VER, ULEN, UNAME, PLEN, PASSWD *)
Definition authMsg (u : User) : list byte :=
  [z2b 0x01; z2b (len (Username u))] ++ Username u ++
  [z2b (len (Password u))] ++ Password u.

(** The username/password sub-negotiation. *)
Definition authenticate (rw : S) (buf : list byte) (user : option User)
  : option (list byte * err * S) :=
  match user with
  | None => Some (buf, Some (errorsNew "auth required"), rw)
  | Some u =>
      let uLen := len (Username u) in
      let pLen := len (Password u) in
      if (uLen =? 0) || (pLen =? 0) then
        Some (buf, Some (errorsNew "auth username/password empty"), rw)
      else if (MaxAuthLen <? uLen) || (MaxAuthLen <? pLen) then
        Some (buf, Some (errorsNew "auth username/password too long"), rw)
      else
        '(_, e, rw) ← Write (authMsg u) rw;
        check e else Some (buf, e, rw) ;;
        '(buf, e, rw) ← ReadFull_into buf 0 2 rw;
        check e else Some (buf, e, rw) ;;
        status ← buf.[1];
        if negb (b2z status =? 0x00) then
          Some (buf, Some (errorsNew "rejected username/password"), rw)
        else Some (buf, None, rw)
  end.

(** VER, CMD, RSV, ADDR and the reply. *)
Definition request (rw : S) (buf addr : list byte) (command : Z)
  : option (option (list byte) * err * S) :=
  '(_, e, rw) ← Write ([z2b Version; z2b command; z2b 0x00] ++ addr) rw;
  check e else Some (None, e, rw) ;;
  '(buf, e, rw) ← ReadFull_into buf 0 3 rw;
  check e else Some (None, e, rw) ;;
  rep ← buf.[1];
  if negb (b2z rep =? 0x00) then
    Some (None, Some (ErrNew (CommandString command ++ str ": " ++
                              ReplyString (b2z rep))), rw)
  else ReadAddr rw buf.

Definition ClientHandshake (rw : S) (addr : list byte) (command : Z)
    (user : option User) : option (option (list byte) * err * S) :=
  let buf := replicate (Z.to_nat MaxAddrLen) (z2b 0) in
  let method := if user then MethodUserPass else MethodNoAuth in
  '(_, e, rw) ← Write [z2b Version; z2b 0x01; z2b method] rw;
  check e else Some (None, e, rw) ;;
  '(buf, e, rw) ← ReadFull_into buf 0 2 rw;
  check e else Some (None, e, rw) ;;
  ver ← buf.[0];
  if negb (b2z ver =? Version) then
    Some (None, Some (errorsNew "socks version mismatched"), rw)
  else
    m ← buf.[1];
    if b2z m =? MethodUserPass then
      '(buf, e, rw) ← authenticate rw buf user;
      check e else Some (None, e, rw) ;;
      request rw buf addr command
    else if negb (b2z m =? MethodNoAuth) then
      Some (None, Some (errorsNew "unsupported method"), rw)
    else request rw buf addr command.
End Handshake.

(** ** Well-formed addresses (RFC 1928, section 5) *)

Inductive SocksAddr : list byte -> Prop :=
| sa_domain d p : len d <= 255 -> len p = 2 ->
    SocksAddr ([z2b 3; z2b (len d)] ++ d ++ p)
| sa_ipv4 ip p : len ip = 4 -> len p = 2 ->
    SocksAddr ([z2b 1] ++ ip ++ p)
| sa_ipv6 ip p : len ip = 16 -> len p = 2 ->
    SocksAddr ([z2b 4] ++ ip ++ p).

#[local] Hint Constructors SocksAddr : core.

Lemma SplitAddr_complete a rest :
  SocksAddr a -> SplitAddr (a ++ rest) = Some (Some a).
Proof.
  unfold SplitAddr. intros Ha.
  assert (4 <= len a <= MaxAddrLen) as Hlen.
  { destruct Ha; unfold MaxAddrLen, IPv4len, IPv6len in *; len_lia. }
  replace (len (a ++ rest) <? 1) with false by (unfold MaxAddrLen in *; len_lia).
  destruct Ha as [d p Hd Hp|ip p Hi Hp|ip p Hi Hp]; unfold IPv4len, IPv6len in *.
  - set (a := _ ++ d ++ p) in *. change (index (a ++ rest) 0) with (Some (z2b 3)).
    change (index (a ++ rest) 1) with (Some (z2b (len d))). cbn [mbind option_bind].
    replace (len (a ++ rest) <? 2) with false by len_lia.
    change (b2z (z2b 3) =? AtypDomainName) with true. cbv iota zeta.
    rewrite b2z_z2b_small by len_lia.
    replace (len (a ++ rest) <? _) with false by (subst a; len_lia).
    rewrite slice_app_0 by (subst a; len_lia). done.
  - set (a := _ ++ ip ++ p) in *. change (index (a ++ rest) 0) with (Some (z2b 1)).
    cbn [mbind option_bind]. change (b2z (z2b 1) =? AtypDomainName) with false.
    change (b2z (z2b 1) =? AtypIPv4) with true. cbv iota zeta.
    replace (len (a ++ rest) <? _) with false by (subst a; len_lia).
    rewrite slice_app_0 by (subst a; len_lia). done.
  - set (a := _ ++ ip ++ p) in *. change (index (a ++ rest) 0) with (Some (z2b 4)).
    cbn [mbind option_bind]. change (b2z (z2b 4) =? AtypDomainName) with false.
    change (b2z (z2b 4) =? AtypIPv4) with false.
    change (b2z (z2b 4) =? AtypIPv6) with true. cbv iota zeta.
    replace (len (a ++ rest) <? _) with false by (subst a; len_lia).
    rewrite slice_app_0 by (subst a; len_lia). done.
Qed.

(** The bytes [t :: ...] cut after [1 + n + 2] bytes. *)
Lemma take_ip_port (t : byte) b n :
  0 <= n -> n + 3 <= len (t :: b) ->
  ztake (1 + n + 2) (t :: b) = [t] ++ ztake n b ++ ztake 2 (zdrop n b).
Proof.
  intros Hn Hb. rewrite ztake_cons by lia. replace (1 + n + 2 - 1) with (n + 2) by lia.
  by rewrite ztake_add by lia.
Qed.

Lemma SplitAddr_sound b : exists r, SplitAddr b = Some r /\
  forall a, r = Some a -> SocksAddr a /\ a `prefix_of` b.
Proof.
  assert (Hpre : forall n, ztake n b `prefix_of` b).
  { intros n. exists (zdrop n b). by rewrite ztake_zdrop. }
  unfold SplitAddr. destruct b as [|t b]; [by exists None|].
  replace (len (t :: b) <? 1) with false by len_lia.
  change (index (t :: b) 0) with (Some t). cbn [mbind option_bind].
  destruct (Z.eqb_spec (b2z t) AtypDomainName) as [Ht|_].
  - apply b2z_const in Ht as ->; [|done].
    destruct b as [|l b]; [by exists None|].
    replace (len _ <? 2) with false by len_lia.
    change (index (_ :: l :: b) 1) with (Some l). cbn [mbind option_bind].
    destruct (Z.ltb_spec (len (z2b AtypDomainName :: l :: b)) (1 + 1 + b2z l + 2));
      [by exists None|].
    pose proof (b2z_range l). rewrite slice_prefix by len_lia. eexists; split; [done|].
    intros a [= <-]. split; [|apply Hpre].
    replace (1 + 1 + b2z l + 2) with (1 + (1 + b2z l) + 2) by lia.
    rewrite take_ip_port by len_lia. rewrite ztake_cons, zdrop_cons by lia.
    replace (1 + b2z l - 1) with (b2z l) by lia.
    replace l with (z2b (len (ztake (b2z l) b))) at 1.
    + apply (sa_domain (ztake (b2z l) b)); len_lia.
    + rewrite len_ztake. replace (Z.max 0 _) with (b2z l) by len_lia. apply z2b_b2z.
  - unfold IPv4len, IPv6len in *.
    destruct (Z.eqb_spec (b2z t) AtypIPv4) as [Ht|_];
    [|destruct (Z.eqb_spec (b2z t) AtypIPv6) as [Ht|_]; [|by exists None]];
    (apply b2z_const in Ht as ->; [|done]);
    (case_match eqn:Hlt; [by exists None|]); bool_facts;
    rewrite slice_prefix by lia; (eexists; split; [done|]); intros a [= <-];
    (split; [|apply Hpre]); rewrite take_ip_port by len_lia; constructor;
    unfold IPv4len, IPv6len; len_lia.
Qed.

(** ** Lemmas on the address operations *)

Lemma SocksAddr_len a : SocksAddr a -> 4 <= len a <= MaxAddrLen.
Proof.
  unfold MaxAddrLen. destruct 1; unfold IPv4len, IPv6len in *; len_lia.
Qed.

Lemma SocksAddr_prefix_unique a b r :
  SocksAddr a -> SocksAddr b -> a `prefix_of` r -> b `prefix_of` r -> a = b.
Proof.
  intros Ha Hb [ra ->] [rb Hr].
  pose proof (SplitAddr_complete a ra Ha) as E.
  rewrite Hr, SplitAddr_complete in E by done. congruence.
Qed.

Lemma SerializeAddr_domain d ip port :
  d <> [] -> SerializeAddr d ip port =
    [z2b AtypDomainName; z2b (len d)] ++ d ++ PutUint16 port.
Proof.
  intros Hd. unfold SerializeAddr.
  destruct (str_eqb d []) eqn:E; [by apply str_eqb_eq in E|done].
Qed.

(** What [SerializeAddr] can represent: a domain name of at most 255 bytes, or
    a valid address when no domain is given. *)
Definition serializable (d : gostring) (ip : Addr) : Prop :=
  (d <> [] /\ len d <= 255) \/ (d = [] /\ IsValid ip = true /\ addr_wf ip).

Lemma SerializeAddr_SocksAddr d ip port :
  serializable d ip -> SocksAddr (SerializeAddr d ip port).
Proof.
  intros [[Hd Hl]|(-> & Hv & Hw)].
  - rewrite SerializeAddr_domain by done. by constructor.
  - destruct ip as [|a b c d|bs z]; [done| |].
    + by apply (sa_ipv4 [a; b; c; d]).
    + apply (sa_ipv6 bs); [|done]. unfold len. simpl in Hw. by rewrite Hw.
Qed.

(** [a[lo:hi]] and the port after it, on a well-formed address. *)
Lemma addr_fields t ip port n :
  len ip = n ->
  let a := [t] ++ ip ++ PutUint16 port in
  slice a 1 (1 + n) = Some ip /\
  slice a (1 + n) (len a) = Some (PutUint16 port).
Proof.
  intros <- a. subst a. split; [by apply slice_app_mid|].
  rewrite app_assoc. apply slice_app_end; len_lia.
Qed.

Lemma Valid_SocksAddr a : SocksAddr a -> Valid a = Some true.
Proof.
  intros Ha. pose proof (SocksAddr_len a Ha). unfold Valid.
  replace (len a <? 1 + 1 + 2) with false by lia.
  destruct Ha as [d p Hd Hp|ip p Hi Hp|ip p Hi Hp]; unfold IPv4len, IPv6len in *.
  - set (a := _ ++ d ++ p) in *. change (index a 0) with (Some (z2b 3)).
    change (index a 1) with (Some (z2b (len d))). cbn [mbind option_bind].
    change (b2z (z2b 3) =? AtypDomainName) with true. cbv iota.
    rewrite b2z_z2b_small by len_lia. do 2 f_equal.
    replace (len a <? _) with false by (subst a; len_lia). done.
  - simpl. do 2 f_equal. replace (len _ <? 7) with false by len_lia. done.
  - simpl. do 2 f_equal. replace (len _ <? 19) with false by len_lia. done.
Qed.

Lemma ToUDPAddr_ipv4 ip port :
  len ip = IPv4len -> 0 <= port < 65536 ->
  ToUDPAddr ([z2b AtypIPv4] ++ ip ++ PutUint16 port) = Some (Some (mkUDPAddr ip port)).
Proof.
  intros Hi Hp. unfold ToUDPAddr. rewrite Valid_SocksAddr by (by constructor).
  destruct (addr_fields (z2b AtypIPv4) ip port IPv4len Hi) as [E1 E2].
  set (a := _ ++ _) in *. change (index a 0) with (Some (z2b AtypIPv4)).
  cbn [mbind option_bind negb]. change (b2z (z2b AtypIPv4) =? AtypDomainName) with false.
  change (b2z (z2b AtypIPv4) =? AtypIPv4) with true. cbv iota.
  rewrite E1. cbn [mbind option_bind]. rewrite E2. cbn [mbind option_bind].
  by rewrite Uint16_Put.
Qed.

Lemma ToUDPAddr_ipv6 ip port :
  len ip = IPv6len -> 0 <= port < 65536 ->
  ToUDPAddr ([z2b AtypIPv6] ++ ip ++ PutUint16 port) = Some (Some (mkUDPAddr ip port)).
Proof.
  intros Hi Hp. unfold ToUDPAddr. rewrite Valid_SocksAddr by (by constructor).
  destruct (addr_fields (z2b AtypIPv6) ip port IPv6len Hi) as [E1 E2].
  set (a := _ ++ _) in *. change (index a 0) with (Some (z2b AtypIPv6)).
  cbn [mbind option_bind negb]. change (b2z (z2b AtypIPv6) =? AtypDomainName) with false.
  change (b2z (z2b AtypIPv6) =? AtypIPv4) with false.
  change (b2z (z2b AtypIPv6) =? AtypIPv6) with true. cbv iota.
  rewrite E1. cbn [mbind option_bind]. rewrite E2. cbn [mbind option_bind].
  by rewrite Uint16_Put.
Qed.

Lemma String_domain d port :
  len d <= 255 -> 0 <= port < 65536 ->
  String ([z2b AtypDomainName; z2b (len d)] ++ d ++ PutUint16 port) =
  Some (JoinHostPort d (Itoa port)).
Proof.
  intros Hd Hp. unfold String. rewrite Valid_SocksAddr by (by constructor).
  pose proof (slice_app_mid [z2b AtypDomainName; z2b (len d)] d (PutUint16 port) 2
    (2 + len d) eq_refl eq_refl) as E1.
  pose proof (slice_app_end ([z2b AtypDomainName; z2b (len d)] ++ d) (PutUint16 port)
    (2 + len d) (2 + len d + 2)) as E2. rewrite <- app_assoc in E2.
  replace (2 + len d + 2) with
    (len ([z2b AtypDomainName; z2b (len d)] ++ d ++ PutUint16 port)) in E2 by len_lia.
  specialize (E2 ltac:(len_lia) ltac:(len_lia)).
  set (a := _ ++ _) in *. change (index a 0) with (Some (z2b AtypDomainName)).
  change (index a 1) with (Some (z2b (len d))). cbn [mbind option_bind negb].
  change (b2z (z2b AtypDomainName) =? AtypDomainName) with true. cbv iota.
  rewrite b2z_z2b_small by len_lia. rewrite E1. cbn [mbind option_bind].
  rewrite E2. cbn [mbind option_bind].
  by rewrite Uint16_Put.
Qed.

Lemma String_ipv4 a b c d port :
  0 <= port < 65536 ->
  String (SerializeAddr [] (Addr4 a b c d) port) =
  Some (JoinHostPort (string4 a b c d) (Itoa port)).
Proof.
  intros Hp. unfold String, SerializeAddr. simpl negb. cbv iota.
  change (AsSlice (Addr4 a b c d)) with [a; b; c; d]. cbn [Is4].
  rewrite Valid_SocksAddr by (by apply (sa_ipv4 [a; b; c; d])).
  destruct (addr_fields (z2b AtypIPv4) [a; b; c; d] port IPv4len eq_refl) as [E1 E2].
  set (x := _ ++ _) in *. change (index x 0) with (Some (z2b AtypIPv4)).
  cbn [mbind option_bind negb]. change (b2z (z2b AtypIPv4) =? AtypDomainName) with false.
  change (b2z (z2b AtypIPv4) =? AtypIPv4) with true. cbv iota.
  rewrite E1. cbn [mbind option_bind]. rewrite E2. cbn [mbind option_bind].
  by rewrite Uint16_Put.
Qed.

(** ** The dialogue a handshake is an implementation of

    [Dialogue user command addr e bs r er sent rest]: against a server that
    sends [bs] and then fails with [e], the client ends with address [r] and
    error [er], having sent [sent] and left [rest] unread.  It says nothing of
    buffers, segments or slices, and its messages and codes are those of RFC
    1928 and RFC 1929, apart from the definitions above. *)

Definition hello (user : option User) : list byte :=
  [z2b 5; z2b 1; z2b (if user then 2 else 0)].

Definition connect (command : Z) (addr : list byte) : list byte :=
  [z2b 5; z2b command; z2b 0] ++ addr.

Definition creds_ok (u : User) : Prop :=
  1 <= len (Username u) <= 255 /\ 1 <= len (Password u) <= 255.

Definition credentials (u : User) : list byte :=
  z2b 1 :: z2b (len (Username u)) :: Username u ++ z2b (len (Password u)) :: Password u.

(** The words of a refusal. *)
Definition command_name (c : Z) : gostring :=
  match c with 1 => str "CONNECT" | 2 => str "BIND" | 3 => str "UDP ASSOCIATE" | _ => str "UNDEFINED" end.

Definition reply_names : list string :=
  ["succeeded"; "general SOCKS server failure"; "connection not allowed by ruleset";
   "network unreachable"; "host unreachable"; "connection refused"; "TTL expired";
   "command not supported"; "address type not supported"]%string.

Definition reply_name (c : byte) : gostring :=
  match reply_names !! Z.to_nat (b2z c) with
  | Some n => str n
  | None => str "unassigned <0x" ++ [hexdigit (b2z c / 16); hexdigit (b2z c mod 16)] ++ str ">"
  end.

Lemma command_name_ok c : CommandString c = command_name c.
Proof.
  unfold CommandString, command_name, CmdConnect, CmdBind, CmdUDPAssociate.
  destruct c as [|[[?|?|]|[?|?|]|]|?]; done.
Qed.

Lemma reply_name_ok c : ReplyString (b2z c) = reply_name c.
Proof. by destruct c. Qed.

Definition Truncated (bs : list byte) : Prop :=
  exists x, x <> [] /\ SocksAddr (bs ++ x).

Inductive AddrReply (e : error)
  : list byte -> option (list byte) -> err -> list byte -> Prop :=
| ar_ok a rest : SocksAddr a -> AddrReply e (a ++ rest) (Some a) None rest
| ar_type t rest : b2z t ∉ [1; 3; 4] ->
    AddrReply e (t :: rest) None (Some (errorsNew "invalid address type")) rest
| ar_cut bs a er : Truncated bs -> cut_error e er ->
    AddrReply e bs a (Some er) [].

Inductive Reply (command : Z) (addr : list byte) (e : error)
  : list byte -> option (list byte) -> err -> list byte -> list byte -> Prop :=
| rep_cut bs er : len bs < 3 -> cut_error e er ->
    Reply command addr e bs None (Some er) (connect command addr) []
| rep_failed v c rsv rest : b2z c <> 0 ->
    Reply command addr e (v :: c :: rsv :: rest) None
      (Some (ErrNew (command_name command ++ str ": " ++ reply_name c)))
      (connect command addr) rest
| rep_addr v rsv bs r er rest : AddrReply e bs r er rest ->
    Reply command addr e (v :: z2b 0 :: rsv :: bs) r er (connect command addr) rest.

Inductive Dialogue (user : option User) (command : Z) (addr : list byte) (e : error)
  : list byte -> option (list byte) -> err -> list byte -> list byte -> Prop :=
| dlg_cut bs er : len bs < 2 -> cut_error e er ->
    Dialogue user command addr e bs None (Some er) (hello user) []
| dlg_version v m rest : b2z v <> 5 ->
    Dialogue user command addr e (v :: m :: rest) None
      (Some (errorsNew "socks version mismatched")) (hello user) rest
| dlg_method m rest : b2z m <> 0 -> b2z m <> 2 ->
    Dialogue user command addr e (z2b 5 :: m :: rest) None
      (Some (errorsNew "unsupported method")) (hello user) rest
| dlg_noauth bs r er sent rest : Reply command addr e bs r er sent rest ->
    Dialogue user command addr e (z2b 5 :: z2b 0 :: bs) r er
      (hello user ++ sent) rest
| dlg_required rest : user = None ->
    Dialogue user command addr e (z2b 5 :: z2b 2 :: rest) None
      (Some (errorsNew "auth required")) (hello user) rest
| dlg_empty u rest : user = Some u -> Username u = [] \/ Password u = [] ->
    Dialogue user command addr e (z2b 5 :: z2b 2 :: rest) None
      (Some (errorsNew "auth username/password empty")) (hello user) rest
| dlg_long u rest : user = Some u -> Username u <> [] -> Password u <> [] ->
    255 < len (Username u) \/ 255 < len (Password u) ->
    Dialogue user command addr e (z2b 5 :: z2b 2 :: rest) None
      (Some (errorsNew "auth username/password too long")) (hello user) rest
| dlg_auth_cut u bs er : user = Some u -> creds_ok u -> len bs < 2 -> cut_error e er ->
    Dialogue user command addr e (z2b 5 :: z2b 2 :: bs) None
      (Some er) (hello user ++ credentials u) []
| dlg_rejected u v st rest : user = Some u -> creds_ok u -> b2z st <> 0 ->
    Dialogue user command addr e (z2b 5 :: z2b 2 :: v :: st :: rest)
      None (Some (errorsNew "rejected username/password")) (hello user ++ credentials u) rest
| dlg_auth u v bs r er sent rest : user = Some u -> creds_ok u ->
    Reply command addr e bs r er sent rest ->
    Dialogue user command addr e (z2b 5 :: z2b 2 :: v :: z2b 0 :: bs)
      r er (hello user ++ credentials u ++ sent) rest.

(** A message that cannot be written: that error ends the handshake, and
    nothing more is sent or read. *)
Definition Fails {S} `{Writer S} (s' : S) (msg : list byte) (er : err) (q : list byte) : Prop :=
  exists s1 n ew, Write msg s1 = Some (n, Some ew, s') /\ er = Some ew /\ q `prefix_of` msg.

Inductive Broken {S} `{Writer S} (user : option User) (command : Z) (addr : list byte) (s' : S)
  : list byte -> err -> list byte -> list byte -> Prop :=
| brk_hello rest er q : Fails s' (hello user) er q ->
    Broken user command addr s' rest er q rest
| brk_credentials u rest er q : user = Some u -> creds_ok u -> Fails s' (credentials u) er q ->
    Broken user command addr s' (z2b 5 :: z2b 2 :: rest) er (hello user ++ q) rest
| brk_request rest er q : Fails s' (connect command addr) er q ->
    Broken user command addr s' (z2b 5 :: z2b 0 :: rest) er (hello user ++ q) rest
| brk_late u v rest er q : user = Some u -> creds_ok u -> Fails s' (connect command addr) er q ->
    Broken user command addr s' (z2b 5 :: z2b 2 :: v :: z2b 0 :: rest) er (hello user ++ credentials u ++ q) rest.

#[local] Hint Constructors AddrReply Reply Dialogue : core.

#[local] Hint Resolve cut_error_short : core.

Section Dialogue_facts.
Context {S : Type} `{ConnOk S} {w : Prop}.

(** The address fields after the type byte(s) [p], of which [n] bytes are
    still to come: either they are there or the address is cut. *)
Lemma ReadAddr_tail p n s b bs e out :
  Alive w s bs e out -> 0 <= n -> len p + n <= len b -> ztake (len p) b = p ->
  (forall d, len d = n -> SocksAddr (p ++ d)) ->
  exists r er s' rest,
    ('(b, e, r) ← ReadFull_into b (len p) (len p + n) s;
     a ← slice b 0 (len p + n); Some (Some a, e, r)) = Some (r, er, s') /\
    Alive w s' rest e out /\ AddrReply e (p ++ bs) r er rest.
Proof.
  intros HL Hn Hb Hp Hwf. pose proof (len_nonneg p).
  rewrite <- (ztake_zdrop (len p) b), Hp. rewrite <- (ztake_zdrop (len p) b) in Hb.
  rewrite Hp, len_app in Hb. set (q := zdrop (len p) b) in *.
  destruct (Z.le_gt_cases n (len bs)) as [Hle|Hgt].
  - rewrite <- (ztake_zdrop n bs) in HL.
    destruct (Alive_ReadFull_into_app _ _ (p ++ q) (len p) (len p + n) _ _ _ HL)
      as (s' & -> & HL'); [lia|len_lia|len_lia|]. bind_simpl.
    rewrite blit_app, app_assoc, slice_app_0 by len_lia. bind_simpl.
    eexists _, _, _, _. split; [done|]. split; [done|].
    rewrite <- (ztake_zdrop n bs) at 1. rewrite app_assoc. constructor. apply Hwf.
    len_lia.
  - destruct (Alive_ReadFull_into_short _ (p ++ q) (len p) (len p + n) _ _ _ HL)
      as (s' & -> & HL'); [lia|len_lia|len_lia|]. bind_simpl.
    rewrite slice_prefix by (rewrite len_blit; len_lia). bind_simpl.
    eexists _, _, _, _. split; [done|]. split; [done|]. apply ar_cut; [|done].
    exists (replicate (Z.to_nat (n - len bs)) (z2b 0)). split.
    + intros Hz. apply (f_equal len) in Hz. len_lia.
    + rewrite <- app_assoc. apply Hwf. len_lia.
Qed.

Lemma Truncated_domain : Truncated [] /\ Truncated [z2b AtypDomainName].
Proof.
  pose proof (sa_domain [] [z2b 0; z2b 0] ltac:(done) eq_refl) as Hd.
  split; [exists [z2b 3; z2b 0; z2b 0; z2b 0]|exists [z2b 0; z2b 0; z2b 0]]; done.
Qed.

Lemma ReadAddr_spec s b bs e out :
  Alive w s bs e out -> MaxAddrLen <= len b ->
  exists r er s' rest, ReadAddr s b = Some (r, er, s') /\
    Alive w s' rest e out /\ AddrReply e bs r er rest.
Proof.
  intros HL Hb. unfold MaxAddrLen in *. destruct Truncated_domain as [T0 T1].
  unfold ReadAddr, MaxAddrLen. replace (len b <? 1 + 1 + 255 + 2) with false by lia.
  destruct bs as [|t bs].
  { destruct (Alive_ReadFull_into_short [] b 0 1 s e out HL)
      as (s' & -> & HL'); [done|lia|done|]. eauto 10. }
  destruct (Alive_ReadFull_into_app [t] bs b 0 1 s e out HL)
    as (s1 & -> & HL1); [done|lia|done|]. bind_simpl.
  rewrite blit_0 by len_lia. change (len [t]) with 1. change ([t] ++ zdrop 1 b) with (t :: zdrop 1 b).
  change (index (t :: zdrop 1 b) 0) with (Some t). bind_simpl.
  destruct (Z.eqb_spec (b2z t) AtypDomainName) as [Ht|Hnd].
  - apply b2z_const in Ht as ->; [|done]. destruct bs as [|l bs].
    { destruct (Alive_ReadFull_into_short [] (z2b AtypDomainName :: zdrop 1 b) 1 2 _ _ _ HL1)
        as (s' & -> & HL'); [done|len_lia|done|]. eauto 10. }
    destruct (Alive_ReadFull_into_app [l] bs (z2b AtypDomainName :: zdrop 1 b) 1 2 _ _ _ HL1)
      as (s2 & -> & HL2); [done|len_lia|done|]. bind_simpl.
    replace (blit (z2b AtypDomainName :: zdrop 1 b) 1 [l])
      with ([z2b AtypDomainName] ++ [l] ++ zdrop (len [l]) (zdrop 1 b))
      by (symmetry; apply (blit_app [z2b AtypDomainName]); len_lia).
    set (p := [z2b AtypDomainName; l]). set (q := zdrop (len [l]) (zdrop 1 b)).
    change (([z2b AtypDomainName] ++ [l] ++ q)) with (p ++ q).
    change (index (p ++ q) 1) with (Some l). bind_simpl.
    pose proof (b2z_range l). rewrite !u16_small by (rewrite ?u16_small; lia).
    replace (2 + b2z l + 2) with (len p + (b2z l + 2)) by (subst p; len_lia).
    replace (1 + 1 + b2z l + 2) with (len p + (b2z l + 2)) by (subst p; len_lia).
    apply (ReadAddr_tail p (b2z l + 2) _ (p ++ q) _ _ _ HL2); [lia|subst p q; len_lia|by apply ztake_app_len|].
    intros d Hd. pose proof (sa_domain (ztake (b2z l) d) (zdrop (b2z l) d)) as Hs.
    rewrite len_ztake, ztake_zdrop in Hs.
    replace (Z.max 0 _) with (b2z l) in Hs by lia. rewrite z2b_b2z in Hs.
    apply Hs; len_lia.
  - destruct (Z.eqb_spec (b2z t) AtypIPv4) as [Ht|Hn4];
    [|destruct (Z.eqb_spec (b2z t) AtypIPv6) as [Ht|Hn6]].
    + apply b2z_const in Ht as ->; [|done].
      apply (ReadAddr_tail [z2b AtypIPv4] 6 _ (z2b AtypIPv4 :: zdrop 1 b) _ _ _ HL1); [lia|len_lia|done|].
      intros d Hd. rewrite <- (ztake_zdrop 4 d).
      apply sa_ipv4; unfold IPv4len; len_lia.
    + apply b2z_const in Ht as ->; [|done].
      apply (ReadAddr_tail [z2b AtypIPv6] 18 _ (z2b AtypIPv6 :: zdrop 1 b) _ _ _ HL1); [lia|len_lia|done|].
      intros d Hd. rewrite <- (ztake_zdrop 16 d).
      apply sa_ipv6; unfold IPv6len; len_lia.
    + eexists _, _, _, _. split; [done|]. split; [done|]. apply ar_type. set_solver.
Qed.

Lemma request_spec s buf addr command bs e out :
  Alive w s bs e out -> len buf = MaxAddrLen ->
  exists r er s' sent rest, request s buf addr command = Some (r, er, s') /\
    Alive w s' rest e (out ++ sent) /\
    (Reply command addr e bs r er sent rest \/
     ~ w /\ r = None /\ Fails s' (connect command addr) er sent /\ rest = bs).
Proof.
  intros HL Hb. unfold request.
  change ([z2b Version; z2b command; z2b 0x00] ++ addr) with (connect command addr).
  destruct (Alive_Write (connect command addr) _ _ _ _ HL) as [(s1 & -> & HL1)|(Hw & n & ew & s1 & q & Hq & Hp & HL1)].
  2:{ rewrite Hq. bind_simpl. eexists _, _, _, _, _. split; [done|]. split; [done|]. right. by split_and!; [..|exists s, n, ew|]. }
  bind_simpl.
  destruct (read_front 3 _ _ buf _ _ HL1) as
    [(Hc & b' & s' & -> & _ & HL')|(d & rest & b' & s' & -> & Hd & -> & Hb' & HL')];
    [by rewrite Hb| |]; bind_simpl.
  { eexists _, _, _, _, _. split; [done|]. split; [done|]. left. by constructor. }
  destruct (len_ge_cons d 3) as (v & d1 & -> & Hd1); [lia..|].
  destruct (len_ge_cons d1 2) as (c & d2 & -> & Hd2); [lia..|].
  destruct (len_ge_cons d2 1) as (rsv & d3 & -> & Hd3); [lia..|].
  assert (d3 = []) as -> by (apply len_zero; len_lia).
  change (index ([v; c; rsv] ++ b') 1) with (Some c). bind_simpl.
  destruct (Z.eqb_spec (b2z c) 0) as [Hc|Hc]; simpl negb; cbv iota.
  - apply b2z_const in Hc as ->; [|done].
    destruct (ReadAddr_spec s' ([v; z2b 0; rsv] ++ b') rest e _ HL')
      as (r & er & s2 & rest2 & -> & HL2 & Hr); [lia|].
    eexists _, _, _, _, _. split; [done|]. split; [done|]. left. by constructor.
  - eexists _, _, _, _, _. split; [done|]. split; [done|]. left.
    rewrite command_name_ok, reply_name_ok. by apply rep_failed.
Qed.

Lemma authenticate_spec u s buf bs e out :
  Alive w s bs e out -> len buf = MaxAddrLen -> creds_ok u ->
  exists b er s' sent rest, authenticate s buf (Some u) = Some (b, er, s') /\
    len b = MaxAddrLen /\ Alive w s' rest e (out ++ sent) /\
    ((sent = credentials u /\
      ((len bs < 2 /\ rest = [] /\ exists er', er = Some er' /\ cut_error e er') \/
       exists v st, bs = v :: st :: rest /\
         er = if b2z st =? 0 then None else Some (errorsNew "rejected username/password"))) \/
     ~ w /\ Fails s' (credentials u) er sent /\ rest = bs).
Proof.
  intros HL Hb [Hu Hp]. unfold authenticate, MaxAuthLen. change (authMsg u) with (credentials u).
  replace ((len (Username u) =? 0) || (len (Password u) =? 0)) with false by lia.
  replace ((255 <? len (Username u)) || (255 <? len (Password u))) with false by lia.
  destruct (Alive_Write (credentials u) _ _ _ _ HL) as [(s1 & -> & HL1)|(Hw & n & ew & s1 & q & Hq & Hpre & HL1)].
  2:{ rewrite Hq. bind_simpl. eexists _, _, _, _, _. split; [done|]. split; [done|]. split; [done|]. right.
      by split_and!; [|exists s, n, ew|]. }
  bind_simpl.
  destruct (read_front 2 _ _ buf _ _ HL1) as
    [(Hc & b' & s' & -> & Hb' & HL')|(d & rest & b' & s' & -> & Hd & -> & Hb' & HL')];
    [by rewrite Hb| |]; bind_simpl.
  { eexists _, _, _, _, _. split; [done|]. split; [lia|]. split; [done|]. left. split; [done|]. left. eauto 6. }
  destruct (len_ge_cons d 2) as (v & d1 & -> & Hd1); [lia..|].
  destruct (len_ge_cons d1 1) as (st & d2 & -> & Hd2); [lia..|].
  assert (d2 = []) as -> by (apply len_zero; len_lia).
  change (index ([v; st] ++ b') 1) with (Some st). bind_simpl.
  destruct (b2z st =? 0) eqn:E; simpl negb; cbv iota;
    (eexists _, _, _, _, _; split; [done|]; split; [lia|]; split; [done|]);
    left; (split; [done|]); right; exists v, st; by rewrite E.
Qed.

Lemma authenticate_refused u s buf :
  ~ creds_ok u ->
  exists msg, authenticate s buf (Some u) = Some (buf, Some (errorsNew msg), s) /\
    forall command addr e rest,
      Dialogue (Some u) command addr e (z2b 5 :: z2b 2 :: rest) None (Some (errorsNew msg)) (hello (Some u)) rest.
Proof.
  intros Hc. unfold authenticate, MaxAuthLen.
  destruct (Username u) as [|x xs] eqn:Eu; [eexists; split; [done|]; intros; apply (dlg_empty _ _ _ _ u); auto|].
  destruct (Password u) as [|y ys] eqn:Ep.
  { replace ((_ =? 0) || _) with true by (rewrite orb_true_r; done). eexists; split; [done|].
    intros; apply (dlg_empty _ _ _ _ u); auto. }
  replace ((_ =? 0) || _) with false by len_lia.
  assert (255 < len (x :: xs) \/ 255 < len (y :: ys)) as Hl.
  { unfold creds_ok in Hc. rewrite Eu, Ep in Hc. len_lia. }
  replace ((255 <? _) || _) with true by (symmetry; apply orb_true_iff; rewrite !Z.ltb_lt; done).
  eexists. split; [done|]. intros. apply (dlg_long _ _ _ _ u); rewrite ?Eu, ?Ep; done.
Qed.

Lemma creds_ok_dec u : creds_ok u \/ ~ creds_ok u.
Proof. unfold creds_ok. lia. Qed.

(** After the method, with credentials asked for. *)
Lemma handshake_auth s buf addr command user bs e out :
  Alive w s bs e (out ++ hello user) -> len buf = MaxAddrLen ->
  exists r er s' sent rest,
    ('(buf, e, rw) ← authenticate s buf user;
     check e else Some (None, e, rw) ;; request rw buf addr command) = Some (r, er, s') /\
    Alive w s' rest e (out ++ sent) /\
    (Dialogue user command addr e (z2b 5 :: z2b 2 :: bs) r er sent rest \/
     ~ w /\ r = None /\ Broken user command addr s' (z2b 5 :: z2b 2 :: bs) er sent rest).
Proof.
  intros HL Hb. destruct user as [u|].
  2:{ eexists _, _, _, _, _. split; [done|]. split; [done|]. left. by apply dlg_required. }
  destruct (creds_ok_dec u) as [Hu|Hu].
  2:{ destruct (authenticate_refused u s buf Hu) as (msg & -> & Hmsg). bind_simpl.
      eexists _, _, _, _, _. split; [done|]. split; [done|]. left. apply Hmsg. }
  destruct (authenticate_spec u s buf _ _ _ HL Hb Hu)
    as (b2 & er & s2 & snt & rest2 & -> & Hb2 & HL2 & [[-> [(Hc & -> & er' & -> & Her)|(x & st & -> & ->)]]|
      (Hw & (s1 & n & ew & Hq & -> & Hpre) & ->)]); bind_simpl; rewrite <- app_assoc in HL2.
  - eexists _, _, _, _, _. split; [done|]. split; [done|]. left. by eapply dlg_auth_cut.
  - destruct (Z.eqb_spec (b2z st) 0) as [Hst|Hst].
    + apply b2z_const in Hst as ->; [|done].
      destruct (request_spec _ b2 addr command _ _ _ HL2 Hb2) as (r & er & s3 & snt & rest3 & -> & HL3 & Hr).
      exists r, er, s3, (hello (Some u) ++ credentials u ++ snt), rest3. rewrite <- !app_assoc in HL3.
      split; [done|]. split; [done|].
      destruct Hr as [Hr|(Hw & -> & Hf & ->)]; [left; by eapply dlg_auth|right].
      split_and!; [done..|]. by apply (brk_late _ _ _ _ u x).
    + eexists _, _, _, _, _. split; [done|]. split; [done|]. left. by eapply dlg_rejected.
  - eexists _, _, _, _, _. split; [done|]. split; [done|]. right. split_and!; [done..|].
    apply (brk_credentials _ _ _ _ u); [done|done|]. by exists s1, n, ew.
Qed.

Lemma handshake_any s addr command user bs e out :
  Alive w s bs e out ->
  exists r er s' sent rest,
    ClientHandshake s addr command user = Some (r, er, s') /\
    Alive w s' rest e (out ++ sent) /\
    (Dialogue user command addr e bs r er sent rest \/
     ~ w /\ r = None /\ Broken user command addr s' bs er sent rest).
Proof.
  intros HL. unfold ClientHandshake.
  change [z2b Version; z2b 0x01; z2b (if user then MethodUserPass else MethodNoAuth)] with (hello user).
  destruct (Alive_Write (hello user) _ _ _ _ HL) as [(s1 & -> & HL1)|(Hw & n & ew & s1 & q & Hq & Hpre & HL1)].
  2:{ rewrite Hq. bind_simpl. exists None, (Some ew), s1, q, bs. split; [done|]. split; [done|]. right.
      split; [done|]. split; [done|]. apply brk_hello. by exists s, n, ew. }
  bind_simpl.
  set (b0 := replicate _ _). assert (len b0 = MaxAddrLen) as Hb by done.
  destruct (read_front 2 _ _ b0 _ _ HL1) as
    [(Hc & b' & s' & -> & Hb' & HL')|(d & rest & b' & s' & -> & Hd & -> & Hb' & HL')];
    [by rewrite Hb| |]; bind_simpl.
  { eexists _, _, _, _, _. split; [done|]. split; [done|]. left. by constructor. }
  destruct (len_ge_cons d 2) as (v & d1 & -> & Hd1); [lia..|].
  destruct (len_ge_cons d1 1) as (m & d2 & -> & Hd2); [lia..|].
  assert (d2 = []) as -> by (apply len_zero; len_lia).
  change (index ([v; m] ++ b') 0) with (Some v).
  change (index ([v; m] ++ b') 1) with (Some m). bind_simpl. rewrite Hb in Hb'.
  destruct (Z.eqb_spec (b2z v) Version) as [Hv|Hv]; simpl negb; cbv iota.
  2:{ eexists _, _, _, _, _. split; [done|]. split; [done|]. left. by apply dlg_version. }
  apply b2z_const in Hv as ->; [|done].
  destruct (Z.eqb_spec (b2z m) MethodUserPass) as [Hm|Hm].
  - apply b2z_const in Hm as ->; [|done]. by apply handshake_auth.
  - destruct (Z.eqb_spec (b2z m) MethodNoAuth) as [Hm0|Hm0]; simpl negb; cbv iota.
    + apply b2z_const in Hm0 as ->; [|done].
      destruct (request_spec _ _ addr command _ _ _ HL' Hb')
        as (r & er & s3 & snt & rest3 & -> & HL3 & Hr).
      exists r, er, s3, (hello user ++ snt), rest3. rewrite <- !app_assoc in HL3. split; [done|]. split; [done|].
      destruct Hr as [Hr|(Hw & -> & Hf & ->)]; [left; by apply dlg_noauth|right]. split_and!; [done..|].
      by apply brk_request.
    + eexists _, _, _, _, _. split; [done|]. split; [done|]. left. by apply dlg_method.
Qed.

End Dialogue_facts.

(** On a connection that takes what it is written, the handshake is the
    dialogue. *)
Lemma handshake_dialogue {S} `{ConnOk S} s addr command user bs e out :
  Live s bs e out ->
  exists r er s' sent rest,
    ClientHandshake s addr command user = Some (r, er, s') /\
    Live s' rest e (out ++ sent) /\ Dialogue user command addr e bs r er sent rest.
Proof.
  intros HL%Live_Alive. destruct (handshake_any s addr command user _ _ _ HL)
    as (r & er & s' & sent & rest & Hr & HL' & [Hd|[? _]]); [|done].
  exists r, er, s', sent, rest. by rewrite Live_Alive.
Qed.

Lemma AddrReply_SocksAddr e a rest r er rest' :
  SocksAddr a -> AddrReply e (a ++ rest) r er rest' ->
  r = Some a /\ er = None /\ rest' = rest.
Proof.
  intros Ha Hr. remember (a ++ rest) as bs eqn:E.
  destruct Hr as [a' rest' Ha'|t rest' Ht|bs a' er' (x & Hx & Htr) _]; subst.
  - assert (a' = a) as ->.
    { apply (SocksAddr_prefix_unique _ _ (a ++ rest)); try done.
      - rewrite <- E. by eexists.
      - by eexists. }
    apply app_inv_head in E. by subst.
  - destruct Ha; simpl in E; injection E as -> _; destruct Ht; set_solver.
  - assert (a = (a ++ rest) ++ x) as E.
    { apply (SocksAddr_prefix_unique _ _ ((a ++ rest) ++ x)); try done.
      rewrite <- app_assoc. by eexists. }
    apply (f_equal len) in E. rewrite !len_app in E. destruct x; [done|].
    rewrite len_cons in E. len_lia.
Qed.

Lemma Reply_success command addr e v rsv a rest r er sent rest' :
  SocksAddr a -> Reply command addr e (v :: z2b 0 :: rsv :: a ++ rest) r er sent rest' ->
  r = Some a /\ er = None /\ sent = connect command addr /\ rest' = rest.
Proof.
  intros Ha Hr. inversion Hr; subst.
  - len_lia.
  - done.
  - match goal with H : AddrReply _ _ _ _ _ |- _ =>
      apply AddrReply_SocksAddr in H as (-> & -> & ->); done end.
Qed.

(** [DecodeUDPPacket] past its three header bytes. *)
Lemma Decode_header rest :
  2 <= len rest ->
  DecodeUDPPacket ([z2b 0; z2b 0; z2b 0] ++ rest) =
  match SplitAddr rest with
  | Some (Some a) => Some (Some a, zdrop (len a) rest, None)
  | Some None => Some (None, rest, Some (errorsNew "socks5 UDP addr is nil"))
  | None => None
  end.
Proof.
  intros Hl. unfold DecodeUDPPacket. set (p := _ ++ rest).
  assert (len p = 3 + len rest) as Hp by (subst p; len_lia).
  replace (len p <? 5) with false by lia.
  rewrite (slice_app_0 [z2b 0; z2b 0] ([z2b 0] ++ rest)) by done. bind_simpl.
  rewrite bool_decide_eq_true_2 by done. change (index p 2) with (Some (z2b 0)).
  bind_simpl. change (negb (b2z (z2b 0) =? 0)) with false. cbv iota.
  rewrite (slice_app_end [z2b 0; z2b 0; z2b 0] rest) by (done || len_lia). bind_simpl.
  destruct (SplitAddr_sound rest) as ([a|] & -> & Ha); bind_simpl.
  - destruct (Ha a eq_refl) as [_ [r ->]]. simpl default.
    rewrite (zdrop_app_len (len a)) by done. subst p.
    rewrite (app_assoc _ a r), slice_app_end; [done|len_lia|len_lia].
  - simpl default. by rewrite (slice_app_end [z2b 0; z2b 0; z2b 0] rest) by (done || len_lia).
Qed.

Lemma Decode_bad_header p :
  (forall r, p <> [z2b 0; z2b 0; z2b 0] ++ r) \/ len p < 5 ->
  exists msg, DecodeUDPPacket p = Some (None, [], Some (errorsNew msg)).
Proof.
  unfold DecodeUDPPacket. intros Hp.
  destruct (Z.ltb_spec (len p) 5) as [Hl|Hl]; [by eexists|].
  destruct Hp as [Hp|Hp]; [|lia].
  destruct (len_ge_cons p 5) as (a & p1 & -> & H1); [lia..|].
  destruct (len_ge_cons p1 4) as (b & p2 & -> & H2); [lia..|].
  destruct (len_ge_cons p2 3) as (c & p3 & -> & H3); [lia..|].
  rewrite (slice_app_0 [a; b] (c :: p3)) by done. bind_simpl.
  case_bool_decide as E; [|by eexists]. injection E as -> ->.
  change (index _ 2) with (Some c). bind_simpl.
  destruct (Z.eqb_spec (b2z c) 0) as [Hc|Hc]; [|by eexists].
  apply b2z_const in Hc as ->; [|done]. by destruct (Hp p3).
Qed.

(** ** Properties *)

(** C19: the handshake is total and implements the dialogue of RFC 1928 and RFC
    1929: on any transport, for any bytes from the server in any segmentation
    and even when a write fails, it neither panics nor loops; its result, the
    bytes it has sent and the bytes it leaves unread are those of [Dialogue],
    or a message could not be written, whose error then ends the handshake with
    a prefix of that message sent, nothing after it and nothing more read. *)
Theorem ClientHandshake_refines {S} `{ConnOk S} s addr command user bs e :
  Delivers s bs e ->
  exists r er s' sent rest,
    ClientHandshake s addr command user = Some (r, er, s') /\
    Delivers s' rest e /\ Sent s' = Sent s ++ sent /\
    (Dialogue user command addr e bs r er sent rest \/
     ~ Writable s /\ r = None /\ Broken user command addr s' bs er sent rest).
Proof.
  intros Hd. destruct (handshake_any s addr command user bs e (Sent s) (Alive_any s bs e Hd))
    as (r & er & s' & sent & rest & Hr & [Hd' _ Hs] & Hdlg). by exists r, er, s', sent, rest.
Qed.

Lemma creds_ok_fits u : creds_ok u ->
  Username u <> [] /\ Password u <> [] /\ ~ (255 < len (Username u) \/ 255 < len (Password u)).
Proof. intros [Hu Hp]. split_and!; [intros E; rewrite E in Hu; len_lia|intros E; rewrite E in Hp; len_lia|lia]. Qed.

(** A server that accepts the offered method and grants the request. *)
Lemma handshake_granted {S} `{ConnOk S} s addr command user auth v rsv a rest e out :
  Live s ([z2b 5; z2b (if auth : bool then 2 else 0)] ++
          (if auth then [v; z2b 0] else []) ++ [v; z2b 0; rsv] ++ a ++ rest) e out ->
  SocksAddr a ->
  (auth = true -> exists u, user = Some u /\ creds_ok u) ->
  exists s', ClientHandshake s addr command user = Some (Some a, None, s') /\
    Live s' rest e (out ++ hello user ++
      (if auth then default [] (credentials <$> user) else []) ++ connect command addr).
Proof.
  intros HL Ha Hauth.
  destruct (handshake_dialogue s addr command user _ _ _ HL)
    as (r & er & s' & sent & rest' & -> & HL' & Hd).
  exists s'. destruct auth.
  - destruct (Hauth eq_refl) as (u & -> & Hu). destruct (creds_ok_fits u Hu) as (? & ? & ?).
    inversion Hd; subst; simplify_eq/=; try done; try len_lia; try tauto.
    match goal with H : Reply _ _ _ _ _ _ _ _ |- _ =>
      apply Reply_success in H as (-> & -> & -> & ->); [|done] end.
    by rewrite ?app_assoc in *.
  - inversion Hd; subst; simplify_eq/=; try done; try len_lia.
    match goal with H : Reply _ _ _ _ _ _ _ _ |- _ =>
      apply Reply_success in H as (-> & -> & -> & ->); [|done] end.
    by rewrite ?app_assoc in *.
Qed.

(** A server that accepts the offered method (and the credentials when it
    asks for them) and grants the request with address [a] makes the handshake
    return exactly [a]; the client has sent the greeting, the credentials if
    asked, and the request, and not a byte after the reply has been consumed. *)
Theorem ClientHandshake_success {S} `{ConnOk S} s addr command user auth v rsv a rest e out :
  Live s ([z2b 5; z2b (if auth : bool then 2 else 0)] ++
          (if auth then [v; z2b 0] else []) ++ [v; z2b 0; rsv] ++ a ++ rest) e out ->
  SocksAddr a ->
  (auth = true -> exists u, user = Some u /\ creds_ok u) ->
  exists s', ClientHandshake s addr command user = Some (Some a, None, s') /\
    Live s' rest e (out ++ hello user ++
      (if auth then default [] (credentials <$> user) else []) ++ connect command addr).
Proof. apply handshake_granted. Qed.

(** C23: the user name and password leave the client only when the server has
    selected method 0x02 in a version-5 reply: otherwise what is sent is the
    greeting, or the greeting and the request. *)
Theorem ClientHandshake_credentials {S} `{ConnOk S} s addr command user bs e out r er s' :
  Live s bs e out ->
  ClientHandshake s addr command user = Some (r, er, s') ->
  ~ [z2b 5; z2b 2] `prefix_of` bs ->
  Sent s' = out ++ hello user \/ Sent s' = out ++ hello user ++ connect command addr.
Proof.
  intros HL Hr Hp.
  destruct (handshake_dialogue s addr command user _ _ _ HL)
    as (r' & er' & s2 & sent & rest' & Hr' & HL' & Hd).
  rewrite Hr in Hr'. injection Hr' as -> -> ->. rewrite (live_sent _ _ _ _ HL').
  assert (Hc : forall t, ~ [z2b 5; z2b 2] `prefix_of`
    z2b 5 :: z2b 2 :: t -> False).
  { intros t Hn. apply Hn. by exists t. }
  destruct Hd as [| | |bs r er sent rest Hrep| | | | | |]; auto;
    try (exfalso; eapply Hc; eassumption).
  right. by destruct Hrep.
Qed.

(** [SplitAddr] never panics and returns an address exactly when the input
    starts with a well-formed one, which it returns. *)
Theorem SplitAddr_spec b :
  exists r, SplitAddr b = Some r /\
    forall a, r = Some a <-> SocksAddr a /\ a `prefix_of` b.
Proof.
  destruct (SplitAddr_sound b) as (r & Hr & Hs). exists r. split; [done|].
  intros a. split; [apply Hs|]. intros [Ha [rest ->]].
  rewrite SplitAddr_complete in Hr by done. congruence.
Qed.

(** An address serialised from a domain name of 1 to 255 bytes, or from a
    valid IP, is recovered by [SplitAddr] whatever follows it, and reading it
    back gives the same host and port. *)
Theorem SerializeAddr_roundtrip d ip port rest :
  serializable d ip -> 0 <= port < 65536 ->
  let a := SerializeAddr d ip port in
  SplitAddr (a ++ rest) = Some (Some a) /\
  (if str_eqb d [] then ToUDPAddr a = Some (Some (mkUDPAddr (AsSlice ip) port))
   else ToUDPAddr a = Some None /\ String a = Some (JoinHostPort d (Itoa port))).
Proof.
  intros Hs Hp a. pose proof (SerializeAddr_SocksAddr d ip port Hs) as Ha.
  split; [by apply SplitAddr_complete|]. subst a.
  destruct (str_eqb d []) eqn:Ed.
  - apply str_eqb_eq in Ed as ->. destruct Hs as [[? _]|(_ & Hv & Hw)]; [done|].
    destruct ip as [|x1 x2 x3 x4|bs z]; [done| |].
    + by apply (ToUDPAddr_ipv4 [x1; x2; x3; x4]).
    + apply (ToUDPAddr_ipv6 bs); [|done]. unfold len. simpl in Hw. by rewrite Hw.
  - assert (d <> []) as Hne by (by intros ->).
    destruct Hs as [[_ Hl]|[-> _]]; [|done].
    unfold ToUDPAddr. rewrite Valid_SocksAddr by done.
    rewrite SerializeAddr_domain by done. split; [done|]. by apply String_domain.
Qed.

(** Every index and slice these methods take is in range. *)
Lemma methods_total a :
  is_Some (Valid a) /\ is_Some (String a) /\ is_Some (ToUDPAddr a).
Proof.
  unfold String, ToUDPAddr, Valid.
  destruct (Z.ltb_spec (len a) (1 + 1 + 2)) as [Hl|Hl]; [by eauto|].
  destruct (len_ge_cons a 4) as (t & a1 & -> & H1); [lia..|].
  destruct (len_ge_cons a1 3) as (l & a2 & -> & H2); [lia..|].
  change (index (t :: l :: a2) 0) with (Some t).
  change (index (t :: l :: a2) 1) with (Some l). bind_simpl.
  assert (Hport : forall lo, 0 <= lo -> lo + 2 <= len (t :: l :: a2) ->
    exists p z, slice (t :: l :: a2) lo (len (t :: l :: a2)) = Some p /\ Uint16 p = Some z).
  { intros lo H0 Hlo. rewrite slice_suffix by lia.
    exists (zdrop lo (t :: l :: a2)).
    destruct (len_ge_cons (zdrop lo (t :: l :: a2)) 2) as (x & r & E & Hr); [lia|len_lia|].
    destruct (len_ge_cons r 1) as (y & r' & -> & _); [lia..|]. rewrite E.
    eexists. split; reflexivity. }
  pose proof (b2z_range l).
  unfold IPv4len, IPv6len.
  repeat (case_match; bool_facts; bind_simpl; simpl negb; cbv iota; eauto 2; try lia);
  try (split; [by eauto|]);
  repeat match goal with
  | |- context [slice _ 1 ?hi] => rewrite (slice_ok _ 1 hi) by len_lia; bind_simpl
  | |- context [slice _ 2 ?hi] => rewrite (slice_ok _ 2 hi) by len_lia; bind_simpl
  | |- context [slice _ ?lo (len _)] =>
      destruct (Hport lo) as (? & ? & -> & E); [lia|len_lia|]; bind_simpl; rewrite E;
      clear E; bind_simpl
  end; eauto.
Qed.

Lemma ToUDPAddr_total a : is_Some (ToUDPAddr a).
Proof. by destruct (methods_total a) as (_ & _ & ?). Qed.

(** [Valid], [String] and [UDPAddr] never panic, on any byte string: every
    index and slice they take is in range. *)
Theorem Addr_methods_total a :
  is_Some (Valid a) /\ is_Some (String a) /\ is_Some (ToUDPAddr a).
Proof. apply methods_total. Qed.

(** C26: [DecodeUDPPacket] never panics and accepts exactly the packets
    [EncodeUDPPacket] makes of a well-formed address: it splits them into that
    address and that payload, and answers anything else with an error. *)
Theorem DecodeUDPPacket_spec p :
  exists addr payload e, DecodeUDPPacket p = Some (addr, payload, e) /\
    (e = None ->
       exists a, addr = Some a /\ SocksAddr a /\ EncodeUDPPacket addr payload = (p, None)) /\
    (forall a q, SocksAddr a -> EncodeUDPPacket (Some a) q = (p, None) ->
       addr = Some a /\ payload = q /\ e = None).
Proof.
  destruct (decide (take 3 p = [z2b 0; z2b 0; z2b 0] /\ 5 <= len p)) as [[Ht Hl]|Hn].
  - rewrite <- (take_drop 3 p) in Hl |- *. rewrite Ht in *. set (rest := drop 3 p) in *.
    rewrite Decode_header by len_lia.
    destruct (SplitAddr_sound rest) as ([a|] & Hs & Ha); rewrite Hs.
    + destruct (Ha a eq_refl) as [Hwf [r ->]]. rewrite zdrop_app_len by done.
      eexists _, _, _. split; [done|]. split; [by eauto|].
      intros a' q Hwf' [= E]. apply app_inj_1 in E as [-> ->].
      * done.
      * assert (a' = a) as ->; [|done].
        apply (SocksAddr_prefix_unique _ _ (a ++ r)); try done; [rewrite <- E|]; by eexists.
    + eexists _, _, _. split; [done|]. split; [done|]. intros a q Hwf [= E].
      rewrite <- E, SplitAddr_complete in Hs by done. done.
  - destruct (Decode_bad_header p) as (msg & ->).
    { destruct (Z.lt_ge_cases (len p) 5); [by right|left].
      intros r ->. apply Hn. split; [done|lia]. }
    eexists _, _, _. split; [done|]. split; [done|]. intros a q Hwf [= E].
    destruct Hn. subst p. split; [done|]. apply SocksAddr_len in Hwf. len_lia.
Qed.

(** Printing an IPv4 address, or a domain name that is neither bracketed
    nor mistakable for an IP, and parsing the text back gives the address. *)
Theorem ParseAddrString_String d ip port :
  0 <= port < 65536 ->
  (d = [] /\ Is4 ip = true) \/
  (d <> [] /\ len d <= 255 /\ lbracket ∉ d /\ rbracket ∉ d /\ IsValid (fst (ParseAddr d)) = false) ->
  exists s, String (SerializeAddr d ip port) = Some s /\
    ParseAddrString s = Some (SerializeAddr d ip port).
Proof.
  intros Hp [[-> Hip]|(Hd & Hl & Hlb & Hrb & Hv)].
  - destruct ip as [|a b c d|]; try done. rewrite String_ipv4 by done.
    eexists. split; [done|]. unfold ParseAddrString.
    rewrite SplitHostPort_Join by
      (try (apply string4_not_elem; done); apply Itoa_not_elem; (lia || done)).
    by rewrite ParseUint16_Itoa, ParseAddr_string4 by done.
  - rewrite SerializeAddr_domain, String_domain by done.
    eexists. split; [done|]. unfold ParseAddrString.
    rewrite SplitHostPort_Join by (try done; apply Itoa_not_elem; (lia || done)).
    rewrite ParseUint16_Itoa by done.
    destruct (ParseAddr d) as [ip' e]. simpl in Hv. rewrite Hv.
    by rewrite SerializeAddr_domain.
Qed.

(** ** Witnesses *)

(** A proxy that asks for credentials, accepts them, and grants 1.2.3.4:0, its
    bytes arriving in three segments; one byte follows the reply. *)
Definition demo_server : list (list byte) :=
  [[z2b 5; z2b 2; z2b 1]; [z2b 0; z2b 1; z2b 0; z2b 0; z2b 1; z2b 1];
   [z2b 2; z2b 3; z2b 4; z2b 0; z2b 0; z2b 77]].

Definition demo_user : User := mkUser (str "test") (str "secret").

(** The connection breaks after five bytes, within the credentials. *)
Lemma ClientHandshake_refines_witness :
  let s := mkWire demo_server EOF [] (Some 5) false in
  exists r er s' sent rest,
    ClientHandshake s (replicate 6 (z2b 0)) CmdConnect (Some demo_user) = Some (r, er, s') /\
    Delivers s' rest EOF /\ Sent s' = Sent s ++ sent /\
    (Dialogue (Some demo_user) CmdConnect (replicate 6 (z2b 0)) EOF (concat demo_server) r er sent rest \/
     ~ Writable s /\ r = None /\
     Broken (Some demo_user) CmdConnect (replicate 6 (z2b 0)) s' (concat demo_server) er sent rest).
Proof.
  intros s. apply (ClientHandshake_refines s). split; [reflexivity|]. split; [|done]. repeat constructor; discriminate.
Defined.

Lemma ClientHandshake_success_witness :
  exists s', ClientHandshake (dialed demo_server EOF) (replicate 6 (z2b 0)) CmdConnect
      (Some demo_user) =
    Some (Some (SerializeAddr [] (Addr4 (z2b 1) (z2b 2) (z2b 3) (z2b 4)) 0), None, s') /\
    Live s' [z2b 77] EOF ([] ++ hello (Some demo_user) ++ authMsg demo_user ++
      connect CmdConnect (replicate 6 (z2b 0))).
Proof.
  apply (ClientHandshake_success (dialed demo_server EOF) (replicate 6 (z2b 0))
    CmdConnect (Some demo_user) true (z2b 1) (z2b 0)
    (SerializeAddr [] (Addr4 (z2b 1) (z2b 2) (z2b 3) (z2b 4)) 0) [z2b 77] EOF []).
  - apply dialed_Live. repeat constructor; discriminate.
  - apply SerializeAddr_SocksAddr. right. done.
  - intros _. exists demo_user. split; [done|]. unfold creds_ok. vm_compute. intuition discriminate.
Defined.

Lemma ClientHandshake_credentials_witness :
  let s := dialed [[z2b 5; z2b 0]; [z2b 5; z2b 1; z2b 0]] EOF in
  match ClientHandshake s [] CmdConnect (Some demo_user) with
  | Some (r, er, s') =>
      Sent s' = [] ++ hello (Some demo_user) \/
      Sent s' = [] ++ hello (Some demo_user) ++ connect CmdConnect []
  | None => False
  end.
Proof.
  intros s.
  destruct (ClientHandshake s [] CmdConnect (Some demo_user)) as [[[r er] s']|] eqn:Hr;
    [|discriminate Hr].
  apply (ClientHandshake_credentials s [] CmdConnect (Some demo_user)
    [z2b 5; z2b 0; z2b 5; z2b 1; z2b 0] EOF [] r er s'); [|exact Hr|].
  - apply (dialed_Live [[z2b 5; z2b 0]; [z2b 5; z2b 1; z2b 0]]). repeat constructor; discriminate.
  - intros [k Hk]. discriminate Hk.
Defined.

Lemma SerializeAddr_roundtrip_witness :
  let a := SerializeAddr (str "example.com") Addr0 443 in
  SplitAddr (a ++ [z2b 9]) = Some (Some a) /\
  ToUDPAddr a = Some None /\ String a = Some (str "example.com:443").
Proof.
  apply (SerializeAddr_roundtrip (str "example.com") Addr0 443 [z2b 9]); [|lia].
  left. split; [discriminate|vm_compute; discriminate].
Defined.

Lemma ParseAddrString_String_witness :
  exists s, String (SerializeAddr (str "example.com") Addr0 443) = Some s /\
    ParseAddrString s = Some (SerializeAddr (str "example.com") Addr0 443).
Proof.
  apply ParseAddrString_String; [lia|]. right.
  split; [discriminate|]. split; [vm_compute; discriminate|].
  split_and!; [by apply has_byte_false|by apply has_byte_false|by vm_compute].
Defined.

End socks5.
