(* ===== verification/Socks4.v ===== *)
(** * Socks4: the SOCKS4/SOCKS4A client of transport/socks4/socks4.go

    [splitHostPort], [isReservedIP] and [ClientHandshake], over any transport
    that keeps the promise of [Conn].  A server's reading of the request,
    [parseRequest], is the specification the bytes sent are checked against. *)

From S2P Require Import Prelude Net Conn.

Open Scope Z_scope.

Module socks4.

Definition Version : Z := 0x04.

Definition CmdConnect : Z := 0x01.
Definition CmdBind : Z := 0x02.

Definition RequestGranted : Z := 90.
Definition RequestRejected : Z := 91.
Definition RequestIdentdFailed : Z := 92.
Definition RequestIdentdMismatched : Z := 93.

Definition errVersionMismatched := errorsNew "version code mismatched".
Definition errIPv6NotSupported := errorsNew "IPv6 not supported".
Definition errCmdNotSupported := errorsNew "command not supported".
Definition ErrRequestRejected := errorsNew "request rejected or failed".
Definition ErrRequestIdentdFailed := errorsNew
  "request rejected because SOCKS server cannot connect to identd on the client".
Definition ErrRequestIdentdMismatched := errorsNew
  "request rejected because the client program and identd report different user-ids".
Definition ErrRequestUnknownCode := errorsNew "request failed with unknown code".

(** [prefix.Contains] for the prefix 0.0.0.0/24. *)
Definition isReservedIP (ip : Addr) : bool :=
  negb (IsUnspecified ip) && prefix4_contains (replicate 4 (z2b 0)) 24 ip.

Definition splitHostPort (addr : gostring) : gostring * Z * err :=
  let '(host, portStr, e) := SplitHostPort addr in
  check e else ([], 0, e) ;;
  let '(portInt, e) := ParseUint16 portStr in
  check e else ([], 0, e) ;;
  (host, u16 portInt, None).

(** The [switch] on the parsed host. *)
Definition target (host : gostring) : option (Addr * err) :=
  let '(ip, _) := ParseAddr host in
  if negb (IsValid ip) then Some (AddrFrom4 [z2b 0; z2b 0; z2b 0; z2b 1], None)
  else if Is4In6 ip then a ← As4 ip; Some (AddrFrom4 a, None)
  else if Is4 ip then Some (ip, None)
  else if Is6 ip then Some (ip, Some errIPv6NotSupported)
  else Some (ip, None).

(** The contents of [req] when it is written. *)
Definition request (command port : Z) (ip : Addr) (userID host : gostring) : list byte :=
  [z2b Version; z2b command] ++ PutUint16 port ++ AsSlice ip ++ userID ++ [z2b 0x00] ++
  (if isReservedIP ip then host ++ [z2b 0] else []).

(** The [switch] on [resp[1]]. *)
Definition reply (code : Z) : err :=
  if code =? RequestGranted then None
  else if code =? RequestRejected then Some ErrRequestRejected
  else if code =? RequestIdentdFailed then Some ErrRequestIdentdFailed
  else if code =? RequestIdentdMismatched then Some ErrRequestIdentdMismatched
  else Some ErrRequestUnknownCode.

Definition ClientHandshake {S} `{Reader S, Writer S} (rw : S) (addr : gostring)
    (command : Z) (userID : gostring) : option (err * S) :=
  if command =? CmdBind then Some (Some errCmdNotSupported, rw)
  else
    let '(host, port, e) := splitHostPort addr in
    check e else Some (e, rw) ;;
    '(ip, e) ← target host;
    check e else Some (e, rw) ;;
    let req := request command port ip userID host in
    '(_, e, rw) ← Write req rw;
    check e else Some (e, rw) ;;
    '(resp, e, rw) ← ReadFull_into (replicate 8 (z2b 0)) 0 8 rw;
    check e else Some (e, rw) ;;
    vn ← resp.[0];
    if negb (b2z vn =? 0x00) then Some (Some errVersionMismatched, rw)
    else cd ← resp.[1]; Some (reply (b2z cd), rw).

(** ** The server's reading of a request

    VN, CD, DSTPORT, DSTIP, USERID, NULL and, when DSTIP is 0.0.0.x with x
    non-zero, the host name and a NULL (the SOCKS 4A extension). *)

Definition cstring (b : list byte) : option (gostring * list byte) :=
  i ← IndexByte b (z2b 0); Some (take i b, drop (S i) b).

Record Request := mkRequest {
  rq_command : Z; rq_port : Z; rq_ip : list byte; rq_user : gostring;
  rq_host : option gostring }.

Definition parseRequest (b : list byte) : option (Request * list byte) :=
  match b with
  | vn :: cd :: p1 :: p2 :: i1 :: i2 :: i3 :: i4 :: r =>
      if b2z vn =? 4 then
        '(user, r) ← cstring r;
        let mk := mkRequest (b2z cd) (b2z p1 * 256 + b2z p2) [i1; i2; i3; i4] user in
        if (b2z i1 =? 0) && (b2z i2 =? 0) && (b2z i3 =? 0) && negb (b2z i4 =? 0) then
          '(host, r) ← cstring r; Some (mk (Some host), r)
        else Some (mk None, r)
      else None
  | _ => None
  end.

(** ** Lemmas *)

Lemma cstring_app s r : z2b 0 ∉ s -> cstring (s ++ z2b 0 :: r) = Some (s, r).
Proof.
  intros Hs. unfold cstring. rewrite IndexByte_app by done. bind_simpl.
  by rewrite take_app_length, drop_app_cons.
Qed.

Lemma shiftr_8_zero a b c d :
  0 <= d < 256 -> 0 <= a -> 0 <= b -> 0 <= c ->
  Z.shiftr (((a * 256 + b) * 256 + c) * 256 + d) 8 = (a * 256 + b) * 256 + c.
Proof.
  intros. rewrite Z.shiftr_div_pow2 by lia. change (2 ^ 8) with 256.
  rewrite Z.div_add_l, Z.div_small by lia. lia.
Qed.

Lemma isReservedIP_4 a b c d :
  isReservedIP (Addr4 a b c d) =
  (b2z a =? 0) && (b2z b =? 0) && (b2z c =? 0) && negb (b2z d =? 0).
Proof.
  unfold isReservedIP, prefix4_contains, IsUnspecified.
  pose proof (b2z_range a). pose proof (b2z_range b). pose proof (b2z_range c).
  pose proof (b2z_range d). cbn [fold_left replicate]. change (b2z (z2b 0)) with 0.
  change (((((0 * 256 + 0) * 256 + 0) * 256 + 0) * 256 + 0)) with 0.
  rewrite Z.lxor_0_r, Z.mul_0_l, Z.add_0_l. change (32 - 24) with 8.
  rewrite shiftr_8_zero by lia.
  case_bool_decide as E; simpl.
  - injection E as -> -> -> ->. reflexivity.
  - destruct (Z.eqb_spec (b2z d) 0) as [Hd|Hd].
    + rewrite andb_false_r. apply Z.eqb_neq. intros Hz. apply E.
      rewrite (b2z_const 0 a), (b2z_const 0 b), (b2z_const 0 c), (b2z_const 0 d) by lia.
      done.
    + rewrite andb_true_r. apply eq_true_iff_eq.
      rewrite !andb_true_iff, !Z.eqb_eq. lia.
Qed.

(** The address a host stands for: itself when it is IPv4 or maps one, 0.0.0.1
    when it is a name. *)
Inductive Destination (host : gostring) : Addr -> Prop :=
| dst_ipv4 a b c d : (ParseAddr host).1 = Addr4 a b c d ->
    Destination host (Addr4 a b c d)
| dst_mapped bs z a b c d : (ParseAddr host).1 = Addr6 bs z ->
    bs = v4InV6Prefix ++ [a; b; c; d] -> Destination host (Addr4 a b c d)
| dst_name : (ParseAddr host).1 = Addr0 ->
    Destination host (Addr4 (z2b 0) (z2b 0) (z2b 0) (z2b 1)).

Lemma target_spec host :
  (exists ip, target host = Some (ip, None) /\ Destination host ip) \/
  (exists bs z, (ParseAddr host).1 = Addr6 bs z /\ take 12 bs <> v4InV6Prefix /\
    target host = Some (Addr6 bs z, Some errIPv6NotSupported)).
Proof.
  pose proof (ParseAddr_wf host) as Hw. unfold target.
  destruct (ParseAddr host) as [ip e] eqn:E. simpl in Hw.
  destruct ip as [|a b c d|bs z]; simpl negb; cbv iota.
  - left. eexists. split; [done|]. apply dst_name. by rewrite E.
  - left. eexists. split; [done|]. apply dst_ipv4. by rewrite E.
  - destruct (Is4In6 (Addr6 bs z)) eqn:Ei.
    + left. destruct (Is4In6_As4 (Addr6 bs z)) as (a & b & c & d & H4); [done..|].
      rewrite H4. bind_simpl. eexists. split; [done|].
      apply (dst_mapped host bs z); [by rewrite E|].
      unfold As4 in H4. rewrite Ei in H4. injection H4 as H4.
      unfold Is4In6 in Ei. apply bool_decide_eq_true in Ei.
      by rewrite <- H4, <- Ei, take_drop.
    + right. exists bs, z. split; [done|]. split; [|done].
      unfold Is4In6 in Ei. by apply bool_decide_eq_false in Ei.
Qed.

Lemma Destination_ipv4 host ip : Destination host ip ->
  exists a b c d, ip = Addr4 a b c d.
Proof. destruct 1; eauto. Qed.

(** ** The dialogue

    What SOCKS4 and SOCKS4A say of the bytes, apart from the definitions above:
    [Message] is a request on the wire, [Verdict] what a reply code means,
    [Requested] what the client asks for, and [Dialogue] relates the bytes the
    server sends to the result, the bytes sent and the bytes left unread. *)

Definition Message (command port : Z) (a b c d : byte) (userID host : gostring) : list byte :=
  [z2b 4; z2b command; z2b (port / 256); z2b port; a; b; c; d] ++ userID ++ [z2b 0] ++
  (if bool_decide ([a; b; c] = [z2b 0; z2b 0; z2b 0] /\ d <> z2b 0) then host ++ [z2b 0] else []).

Inductive Verdict : Z -> err -> Prop :=
| verdict_granted : Verdict 90 None
| verdict_rejected : Verdict 91 (Some (errorsNew "request rejected or failed"))
| verdict_no_identd : Verdict 92 (Some (errorsNew
    "request rejected because SOCKS server cannot connect to identd on the client"))
| verdict_other_user : Verdict 93 (Some (errorsNew
    "request rejected because the client program and identd report different user-ids"))
| verdict_unknown code : code ∉ [90; 91; 92; 93] -> Verdict code (Some (errorsNew "request failed with unknown code")).

(** An address is a host and a port of 16 bits, or it is refused. *)
Definition Address (addr host : gostring) (port : Z) : Prop :=
  exists ps, SplitHostPort addr = (host, ps, None) /\ ParseUint16 ps = (port, None).

Definition BadAddress (addr : gostring) (er : error) : Prop :=
  (exists host ps, SplitHostPort addr = (host, ps, Some er)) \/
  exists host ps port, SplitHostPort addr = (host, ps, None) /\ ParseUint16 ps = (port, Some er).

Definition Requested (addr : gostring) (command : Z) (userID : gostring)
    (req : list byte) : Prop :=
  exists host port a b c d, Address addr host port /\
    Destination host (Addr4 a b c d) /\ req = Message command port a b c d userID host.

Inductive Dialogue (addr : gostring) (command : Z) (userID : gostring) (e : error)
  : list byte -> err -> list byte -> list byte -> Prop :=
| dlg_command bs : command = 2 ->
    Dialogue addr command userID e bs (Some (errorsNew "command not supported")) [] bs
| dlg_address bs er : command <> 2 -> BadAddress addr er ->
    Dialogue addr command userID e bs (Some er) [] bs
| dlg_ipv6 bs host port ip z : command <> 2 -> Address addr host port ->
    (ParseAddr host).1 = Addr6 ip z -> take 12 ip <> v4InV6Prefix ->
    Dialogue addr command userID e bs (Some (errorsNew "IPv6 not supported")) [] bs
| dlg_cut bs er req : command <> 2 -> Requested addr command userID req ->
    len bs < 8 -> cut_error e er ->
    Dialogue addr command userID e bs (Some er) req []
| dlg_version vn r rest req : command <> 2 -> Requested addr command userID req ->
    len r = 7 -> b2z vn <> 0 ->
    Dialogue addr command userID e (vn :: r ++ rest) (Some (errorsNew "version code mismatched")) req rest
| dlg_reply cd r rest req er : command <> 2 -> Requested addr command userID req ->
    len r = 6 -> Verdict (b2z cd) er ->
    Dialogue addr command userID e (z2b 0 :: cd :: r ++ rest) er req rest.

(** The request cannot be written: that error ends the handshake, and nothing
    is read. *)
Definition Broken {S} `{Writer S} (s s' : S) (addr : gostring) (command : Z) (userID : gostring)
    (bs : list byte) (er : err) (sent rest : list byte) : Prop :=
  exists req n ew, command <> 2 /\ Requested addr command userID req /\
    Write req s = Some (n, Some ew, s') /\ er = Some ew /\ sent `prefix_of` req /\ rest = bs.

Lemma ParseUint16_range s port : ParseUint16 s = (port, None) -> 0 <= port < 65536.
Proof.
  unfold ParseUint16. destruct s as [|x s]; [done|]. generalize (x :: s). clear x s. intros s.
  destruct (parse_uint_loop 65535 0 s) as [n|] eqn:E; [|done]. intros [= ->].
  assert (forall acc, 0 <= acc < 65536 -> parse_uint_loop 65535 acc s = Some port -> 0 <= port < 65536) as Hl.
  { clear E. induction s as [|c s IH]; intros acc Ha; cbn [parse_uint_loop]; [by intros [= <-]|].
    unfold is_digit. repeat case_match; try done. bool_facts. apply IH. lia. }
  by apply (Hl 0).
Qed.

Lemma splitHostPort_cases addr :
  (exists host port, splitHostPort addr = (host, port, None) /\ Address addr host port /\ 0 <= port < 65536) \/
  (exists host port er, splitHostPort addr = (host, port, Some er) /\ BadAddress addr er).
Proof.
  unfold splitHostPort, Address, BadAddress.
  destruct (SplitHostPort addr) as [[host ps] [er|]]; [right; eauto 10|].
  destruct (ParseUint16 ps) as [port [er|]] eqn:E; [right; eauto 10|left].
  pose proof (ParseUint16_range _ _ E). rewrite u16_small by done. eauto 10.
Qed.

Lemma request_Message command port a b c d userID host :
  request command port (Addr4 a b c d) userID host = Message command port a b c d userID host.
Proof.
  unfold request, Message. rewrite isReservedIP_4. cbn [PutUint16 AsSlice app]. do 8 f_equal.
  case_bool_decide as E.
  - destruct E as [[= -> -> ->] Hd]. replace (b2z d =? 0) with false; [done|].
    symmetry. apply Z.eqb_neq. intros Hz. apply Hd. by apply b2z_const in Hz.
  - destruct ((b2z a =? 0) && _ && _ && _) eqn:Eb; [|done]. destruct E. bool_facts.
    rewrite (b2z_const 0 a), (b2z_const 0 b), (b2z_const 0 c) by (done || lia). split; [done|].
    intros ->. by change (b2z (z2b 0)) with 0 in *.
Qed.

Lemma reply_Verdict code : Verdict code (reply code).
Proof.
  unfold reply, RequestGranted, RequestRejected, RequestIdentdFailed, RequestIdentdMismatched.
  destruct (Z.eqb_spec code 90) as [->|]; [constructor|]. destruct (Z.eqb_spec code 91) as [->|]; [constructor|].
  destruct (Z.eqb_spec code 92) as [->|]; [constructor|]. destruct (Z.eqb_spec code 93) as [->|]; [constructor|].
  apply verdict_unknown. set_solver.
Qed.

(** ** Properties *)

(** The lemma behind the property, and behind those of the proxy. *)
Lemma dialogue_run {S} `{ConnOk S} {w : Prop} s addr command userID bs e out :
  Alive w s bs e out ->
  exists er s' sent rest,
    ClientHandshake s addr command userID = Some (er, s') /\
    Alive w s' rest e (out ++ sent) /\
    (Dialogue addr command userID e bs er sent rest \/
     ~ w /\ Broken s s' addr command userID bs er sent rest).
Proof.
  intros HL. unfold ClientHandshake.
  destruct (Z.eqb_spec command CmdBind) as [Hc|Hc].
  { eexists _, _, [], _. rewrite app_nil_r. split; [done|]. split; [done|]. left. by constructor. }
  destruct (splitHostPort_cases addr) as [(host & port & -> & Ha & Hp)|(host & port & er & -> & Ha)].
  2:{ eexists _, _, [], _. rewrite app_nil_r. split; [done|]. split; [done|]. left. by apply dlg_address. }
  destruct (target_spec host) as [(ip & -> & Hd)|(b6 & z & E6 & Ht & ->)]; bind_simpl.
  2:{ eexists _, _, [], _. rewrite app_nil_r. split; [done|]. split; [done|]. left. by eapply dlg_ipv6. }
  pose proof (Destination_ipv4 _ _ Hd) as (a & b & c & d & ->). rewrite request_Message.
  set (req := Message _ _ _ _ _ _ _ _).
  assert (Requested addr command userID req) as Hreq by (by exists host, port, a, b, c, d).
  destruct (Alive_Write req _ _ _ _ HL) as [(s1 & -> & HL1)|(Hw & n & ew & s1 & q & Hq & Hpre & HL1)].
  2:{ rewrite Hq. bind_simpl. exists (Some ew), s1, q, bs. split; [done|]. split; [done|]. right.
      split; [done|]. by exists req, n, ew. }
  bind_simpl.
  destruct (read_front 8 _ _ (replicate 8 (z2b 0)) _ _ HL1) as
    [(Hl & b' & s' & -> & _ & HL')|(d0 & rest & b' & s' & -> & Hd8 & -> & _ & HL')];
    [done| |]; bind_simpl.
  { eexists _, _, _, _. split; [done|]. split; [done|]. left.
    eapply dlg_cut; [done|done|done|apply cut_error_short]. }
  destruct (len_ge_cons d0 8) as (vn & d1 & -> & Hl1); [lia..|].
  destruct (len_ge_cons d1 7) as (cd & d2 & -> & Hl2); [lia..|].
  change (index ((vn :: cd :: d2) ++ b') 0) with (Some vn).
  change (index ((vn :: cd :: d2) ++ b') 1) with (Some cd). bind_simpl.
  destruct (Z.eqb_spec (b2z vn) 0) as [Hv|Hv]; simpl negb; cbv iota;
    eexists _, _, _, _; (split; [done|]); (split; [done|]); left.
  - apply b2z_const in Hv as ->; [|done]. apply dlg_reply; [done|done|len_lia|apply reply_Verdict].
  - apply (dlg_version _ _ _ _ vn (cd :: d2)); [done|done|len_lia|done].
Qed.

Lemma Destination_unique host ip ip' : Destination host ip -> Destination host ip' -> ip' = ip.
Proof. intros Hd Hd'. destruct Hd, Hd'; naive_solver congruence. Qed.

Lemma Requested_unique addr command userID req req' :
  Requested addr command userID req -> Requested addr command userID req' -> req' = req.
Proof.
  intros (host & port & a & b & c & d & (ps & Hs & Hp) & Hd & ->)
    (host' & port' & a' & b' & c' & d' & (ps' & Hs' & Hp') & Hd' & ->).
  rewrite Hs in Hs'. injection Hs' as <- <-. rewrite Hp in Hp'. injection Hp' as <-.
  by pose proof (Destination_unique _ _ _ Hd Hd') as [= -> -> -> ->].
Qed.

(** A server that grants the request: it is sent the request and not a byte
    after its reply has been consumed. *)
Lemma connect_granted {S} `{ConnOk S} s addr userID req r rest e out :
  Live s (z2b 0 :: z2b 90 :: r ++ rest) e out -> len r = 6 ->
  Requested addr 1 userID req ->
  exists s', ClientHandshake s addr CmdConnect userID = Some (None, s') /\ Live s' rest e (out ++ req).
Proof.
  intros HL%Live_Alive Hr Hreq.
  destruct (dialogue_run s addr CmdConnect userID _ _ _ HL) as (er & s' & sent & rest' & -> & HL' & [Hd|[? _]]); [|done].
  exists s'. pose proof Hreq as (host & port & a & b & c & d & (ps & Hs & Hp) & Hdst & _).
  inversion Hd as [|? ? ? [(h & p & E)|(h & p & z & E & E')]|? h p ip6 z ? (p' & Hs' & _) H6 Hm|? ? ? ? ? Hl|
    ? ? ? ? ? ? Hl Hv|cd r' ? ? ? ? Hreq' Hl Hv]; subst; try done; try congruence.
  - rewrite Hs in Hs'. injection Hs' as <- <-. exfalso.
    inversion Hdst as [? ? ? ? E|? ? ? ? ? ? E Em|E]; subst; rewrite H6 in E; simplify_eq; by apply Hm.
  - len_lia.
  - simplify_list_eq. assert (r' = r /\ rest' = rest) as [-> ->].
    { apply app_inj_1; [|done]. apply Nat2Z.inj. unfold len in *. lia. }
    rewrite (Requested_unique _ _ _ _ _ Hreq Hreq') in *. change (b2z (z2b 90)) with 90 in Hv.
    inversion Hv; subst; [|set_solver]. split; [done|]. by apply Live_Alive.
Qed.

(** C31: on any transport, for any server bytes and even when a write fails,
    the SOCKS4 handshake neither panics nor loops, and does what the protocol
    says: BIND, unparseable and IPv6 addresses are refused before anything is
    sent; otherwise exactly one request is sent, exactly eight bytes are
    consumed and the reply code decides, with the meaning it has in the
    protocol.  A request that cannot be written ends the handshake with the
    error of the write, and nothing is read. *)
Theorem ClientHandshake_spec {S} `{ConnOk S} s addr command userID bs e :
  Delivers s bs e ->
  exists er s' sent rest,
    ClientHandshake s addr command userID = Some (er, s') /\
    Delivers s' rest e /\ Sent s' = Sent s ++ sent /\
    (Dialogue addr command userID e bs er sent rest \/
     ~ Writable s /\ Broken s s' addr command userID bs er sent rest).
Proof.
  intros Hd. destruct (dialogue_run s addr command userID bs e (Sent s) (Alive_any s bs e Hd))
    as (er & s' & sent & rest & Hr & [Ha _ Hs] & Hdlg). by exists er, s', sent, rest.
Qed.

(** A SOCKS4 server reads back from the request the command, the port, the
    address and the user, and a host name exactly when the address is 0.0.0.x
    with x non-zero; nothing that follows is disturbed. *)
Theorem request_roundtrip command port a b c d userID host rest :
  0 <= command < 256 -> 0 <= port < 65536 ->
  z2b 0 ∉ userID -> z2b 0 ∉ host ->
  parseRequest (request command port (Addr4 a b c d) userID host ++ rest) =
  Some (mkRequest command port [a; b; c; d] userID
          (if isReservedIP (Addr4 a b c d) then Some host else None), rest).
Proof.
  intros Hc Hp Hu Hh. unfold request. rewrite !isReservedIP_4.
  cbn [AsSlice app PutUint16]. unfold parseRequest.
  change (b2z (z2b Version) =? 4) with true. cbv iota.
  rewrite <- app_assoc. cbn [app]. rewrite cstring_app by done. bind_simpl.
  assert (b2z (z2b (port / 256)) * 256 + b2z (z2b port) = port) as ->.
  { pose proof (Uint16_Put port Hp) as E. by injection E. }
  rewrite b2z_z2b_small by done.
  destruct ((b2z a =? 0) && _ && _ && _); [|done].
  rewrite <- app_assoc. simpl ([z2b 0] ++ rest). rewrite cstring_app by done. done.
Qed.

(** ** Witnesses *)

Lemma ClientHandshake_spec_witness :
  let bs := z2b <$> [0; 90; 0; 0; 0; 0; 0; 0; 9] in
  let s := mkWire [take 4 bs; drop 4 bs] EOF [] (Some 30) false in
  exists er s' sent rest,
    ClientHandshake s (str "example.com:443") CmdConnect (str "me") = Some (er, s') /\
    Delivers s' rest EOF /\ Sent s' = Sent s ++ sent /\
    (Dialogue (str "example.com:443") CmdConnect (str "me") EOF bs er sent rest \/
     ~ Writable s /\ Broken s s' (str "example.com:443") CmdConnect (str "me") bs er sent rest).
Proof.
  intros bs s. apply (ClientHandshake_spec s (str "example.com:443") CmdConnect (str "me") bs EOF).
  split; [reflexivity|]. split; [|done]. by repeat constructor.
Defined.

Lemma request_roundtrip_witness :
  parseRequest (request CmdConnect 443 (Addr4 (z2b 0) (z2b 0) (z2b 0) (z2b 1))
    (str "me") (str "example.com") ++ [z2b 7]) =
  Some (mkRequest CmdConnect 443 [z2b 0; z2b 0; z2b 0; z2b 1] (str "me")
    (Some (str "example.com")), [z2b 7]).
Proof.
  apply (request_roundtrip CmdConnect 443 (z2b 0) (z2b 0) (z2b 0) (z2b 1)
    (str "me") (str "example.com") [z2b 7]); [done|done|..];
    apply has_byte_false; reflexivity.
Defined.
End socks4.
