(* ===== verification/ShadowAEAD.v ===== *)
(** * ShadowAEAD: transport/shadowsocks/shadowaead

    The Shadowsocks AEAD construction: [cipher.go] (session subkeys),
    [stream.go] (length-prefixed records over a byte stream) and [packet.go]
    (one sealed packet per datagram).  The AEAD itself, HKDF and the random
    source are libraries: they are arguments here, and what the code relies on
    is [AEADOk]. *)

From S2P Require Import Prelude Conn Allocator.

Open Scope Z_scope.

(** ** [crypto/cipher.AEAD]

    [Seal] and [Open] with no additional data.  [open_sound] is authenticity
    of the deterministic constructions the source selects (GCM and
    Poly1305): what opens was sealed. *)

Record AEAD := mkAEAD {
  NonceSize : Z;
  Overhead : Z;
  Seal : list byte -> list byte -> list byte;
  Open : list byte -> list byte -> option (list byte) }.

Class AEADOk (a : AEAD) : Prop := {
  nonce_size : 1 <= NonceSize a <= 32;
  overhead : 0 <= Overhead a <= 255;
  seal_len : forall n p, len n = NonceSize a -> len (Seal a n p) = len p + Overhead a;
  open_seal : forall n p, len n = NonceSize a -> Open a n (Seal a n p) = Some p;
  open_sound : forall n c p, len n = NonceSize a -> Open a n c = Some p -> c = Seal a n p }.

Definition errOpen : error := errorsNew "cipher: message authentication failed".

Module shadowaead.

(** ** cipher.go *)

Record Cipher := mkCipher {
  KeySize : Z;
  SaltSize : Z;
  Encrypter : list byte -> AEAD + error;
  Decrypter : list byte -> AEAD + error }.

Definition KeySizeError (k : Z) : error :=
  ErrNew (str "key size error: need " ++ [z2b (48 + k / 10); z2b (48 + k mod 10)] ++ str " bytes").

Section metaCipher.
(** [hkdf secret salt info n]: the first [n] bytes of HKDF-SHA1;
    [aes_gcm], [chacha], [xchacha]: the library's constructors on a key. *)
Variable hkdf : list byte -> list byte -> list byte -> Z -> list byte.
Variables (aes_gcm chacha xchacha : list byte -> AEAD + error).

Definition hkdfSHA1 (secret salt info : list byte) (outkey : Z) : list byte :=
  hkdf secret salt info outkey.

Definition metaSaltSize (psk : list byte) : Z :=
  let ks := len psk in if 16 <? ks then ks else 16.

Definition subkeyed (psk : list byte) (makeAEAD : list byte -> AEAD + error)
    (salt : list byte) : AEAD + error :=
  let subkey := hkdfSHA1 psk salt (str "ss-subkey") (len psk) in
  makeAEAD subkey.

Definition metaCipher (psk : list byte) (makeAEAD : list byte -> AEAD + error) : Cipher :=
  mkCipher (len psk) (metaSaltSize psk) (subkeyed psk makeAEAD) (subkeyed psk makeAEAD).

Definition AESGCM (psk : list byte) : Cipher + error :=
  let l := len psk in
  if (l =? 16) || (l =? 24) || (l =? 32) then inl (metaCipher psk aes_gcm)
  else inr (errorsNew "crypto/aes: invalid key size").

Definition Chacha20Poly1305 (psk : list byte) : Cipher + error :=
  if negb (len psk =? 32) then inr (KeySizeError 32) else inl (metaCipher psk chacha).

Definition XChacha20Poly1305 (psk : list byte) : Cipher + error :=
  if negb (len psk =? 32) then inr (KeySizeError 32) else inl (metaCipher psk xchacha).
End metaCipher.

(** What [stream.go] and [packet.go] rely on: both ends derive the same AEAD
    from a salt of [SaltSize] bytes. *)
Class CipherOk (c : Cipher) : Prop := {
  salt_size : 0 <= SaltSize c <= 1024;
  cipher_ok : forall salt, len salt = SaltSize c ->
    exists a, Encrypter c salt = inl a /\ Decrypter c salt = inl a /\ AEADOk a }.

(** ** stream.go *)

Definition payloadSizeMask : Z := 0x3FFF.
Definition bufSize : Z := 17 * 1024.

(** [buffer.Get(bufSize)]: its length and, after rounding, its capacity. *)
Definition recordBuf : Slice := mkSlice 0 bufSize (2 ^ class_of bufSize).

Definition ErrZeroChunk : error := errorsNew "zero chunk".

(** Little-endian increment with wrap-around. *)
Fixpoint increment (b : list byte) : list byte :=
  match b with
  | [] => []
  | x :: r =>
      let x' := z2b (b2z x + 1) in
      if negb (b2z x' =? 0) then x' :: r else x' :: increment r
  end.

(** [increment(nonce)] where [nonce] is [w.nonce[:w.NonceSize()]]. *)
Definition bump (a : AEAD) (nonce : list byte) : list byte :=
  blit nonce 0 (increment (ztake (NonceSize a) nonce)).

Definition be2 (nr : Z) : list byte := [z2b (Z.shiftr nr 8); z2b nr].

Record WriterState (S : Type) := mkWriter {
  w_Writer : S; w_AEAD : AEAD; w_nonce : list byte }.
Arguments mkWriter {S}. Arguments w_Writer {S}. Arguments w_AEAD {S}.
Arguments w_nonce {S}.

Definition NewWriter {S} (w : S) (a : AEAD) : WriterState S :=
  mkWriter w a (replicate 32 (z2b 0)).

(** The next [Seal] of the writer: the sealed bytes and the nonce after it. *)
Definition sealNext (a : AEAD) (nonce p : list byte) : list byte * list byte :=
  (Seal a (ztake (NonceSize a) nonce) p, bump a nonce).

(** One record: [buf[:off+nr+tag]] after both [Seal] calls. *)
Definition record (a : AEAD) (nonce chunk : list byte) : list byte * list byte :=
  let '(h, nonce) := sealNext a nonce (be2 (len chunk)) in
  let '(c, nonce) := sealNext a nonce chunk in
  (h ++ c, nonce).

Fixpoint Write_loop {S} `{Writer S} (fuel : nat) (w : WriterState S) (p : list byte)
    (n : Z) (e : err) : option (Z * err * WriterState S) :=
  if (n <? len p) && is_nil e then
    match fuel with
    | O => None
    | Datatypes.S f =>
        let a := w_AEAD w in
        let tag := Overhead a in
        let off := 2 + tag in
        let nr := if len p <? n + payloadSizeMask then len p - n else payloadSizeMask in
        _ ← reslice recordBuf (off + nr + tag);
        chunk ← p.[n:n + nr];
        let '(buf, nonce) := record a (w_nonce w) chunk in
        '(_, e, s) ← Write buf (w_Writer w);
        Write_loop f (mkWriter s a nonce) p (n + nr) e
    end
  else Some (n, e, w).

(** Every turn advances by at least one byte. *)
#[global] Instance AEAD_Writer {S} `{Writer S} : Writer (WriterState S) := fun p w =>
  let a := w_AEAD w in
  _ ← (w_nonce w).[0:NonceSize a];
  let off := 2 + Overhead a in
  if len p =? 0 then
    _ ← reslice recordBuf off;
    let '(buf, nonce) := sealNext a (w_nonce w) [z2b 0; z2b 0] in
    '(_, e, s) ← Write buf (w_Writer w);
    Some (0, e, mkWriter s a nonce)
  else Write_loop (length p) w p 0 None.

(** [Writer.ReadFrom]: one turn per [r.Read]. *)
Fixpoint ReadFrom_loop {S T} `{Writer S, Reader T} (fuel : nat)
    (w : WriterState S) (r : T) (n : Z) : option (Z * err * WriterState S * T) :=
  match fuel with
  | O => None
  | Datatypes.S f =>
      let a := w_AEAD w in
      '(d, er, r) ← Read payloadSizeMask r;
      let n := i64 (n + len d) in
      let '(buf, nonce) := record a (w_nonce w) d in
      '(_, ew, s) ← Write buf (w_Writer w);
      let w := mkWriter s a nonce in
      check ew else Some (n, ew, w, r) ;;
      match er with
      | Some x => Some (n, if bool_decide (x = EOF) then None else Some x, w, r)
      | None => ReadFrom_loop f w r n
      end
  end.

Definition WriterReadFrom {S T} `{Writer S, Reader T} (fuel : nat) (r : T)
    (w : WriterState S) : option (Z * err * WriterState S * T) :=
  let a := w_AEAD w in
  _ ← (w_nonce w).[0:NonceSize a];
  _ ← reslice recordBuf (2 + Overhead a + payloadSizeMask + Overhead a);
  ReadFrom_loop fuel w r 0.

Record ReaderState (S : Type) := mkReader {
  r_Reader : S; r_AEAD : AEAD; r_nonce : list byte;
  r_buf : option (list byte); r_off : Z }.
Arguments mkReader {S}. Arguments r_Reader {S}. Arguments r_AEAD {S}.
Arguments r_nonce {S}. Arguments r_buf {S}. Arguments r_off {S}.

Definition NewReader {S} (r : S) (a : AEAD) : ReaderState S :=
  mkReader r a (replicate 32 (z2b 0)) None 0.

(** [io.ReadFull] of a sealed field of [n] bytes and its [Open] in place, in a
    slice of capacity [c]: the first bytes of that slice afterwards. *)
Definition openField {S} `{Reader S} (c n : Z) (r : ReaderState S)
  : option (list byte * err * ReaderState S) :=
  let a := r_AEAD r in
  _ ← reslice (mkSlice 0 0 c) n;
  '(p, e, s) ← ReadFull n (r_Reader r);
  check e else Some ([], e, mkReader s a (r_nonce r) (r_buf r) (r_off r)) ;;
  let r' := mkReader s a (bump a (r_nonce r)) (r_buf r) (r_off r) in
  match Open a (ztake (NonceSize a) (r_nonce r)) p with
  | Some x => Some (blit p 0 x, None, r')
  | None => Some ([], Some errOpen, r')
  end.

(** [r.read(p)] with [cap(p) = c]: the payload stored in [p[:size]]. *)
Definition read {S} `{Reader S} (c : Z) (r : ReaderState S)
  : option (list byte * err * ReaderState S) :=
  _ ← (r_nonce r).[0:NonceSize (r_AEAD r)];
  let tag := Overhead (r_AEAD r) in
  '(p, e, r) ← openField c (2 + tag) r;
  check e else Some ([], e, r) ;;
  p0 ← p.[0];
  p1 ← p.[1];
  let size := Z.land (Z.shiftl (b2z p0) 8 + b2z p1) payloadSizeMask in
  if size =? 0 then Some ([], Some ErrZeroChunk, r)
  else
    '(p, e, r) ← openField c (size + tag) r;
    check e else Some ([], e, r) ;;
    Some (ztake size p, None, r).

(** [copy(p, r.buf[r.off:])] and the release of an exhausted buffer. *)
Definition drain {S} (n : Z) (b : list byte) (r : ReaderState S)
  : option (list byte * err * ReaderState S) :=
  rest ← b.[r_off r:len b];
  let d := ztake n rest in
  let off := r_off r + len d in
  Some (d, None, mkReader (r_Reader r) (r_AEAD r) (r_nonce r)
    (if off =? len b then None else Some b) off).

#[global] Instance AEAD_Reader {S} `{Reader S} : Reader (ReaderState S) := fun n r =>
  match r_buf r with
  | Some b => drain n b r
  | None =>
      if payloadSizeMask + Overhead (r_AEAD r) <=? n then read n r
      else
        '(d, e, r) ← read (scap recordBuf) r;
        check e else Some ([], e, r) ;;
        drain n d (mkReader (r_Reader r) (r_AEAD r) (r_nonce r) (Some d) 0)
  end.

(** [Reader.WriteTo]: one turn per write or record. *)
Fixpoint WriteTo_loop {S W} `{Reader S, Writer W} (fuel : nat)
    (r : ReaderState S) (w : W) (n : Z) : option (Z * err * ReaderState S * W) :=
  match fuel with
  | O => None
  | Datatypes.S f =>
      let set b off := mkReader (r_Reader r) (r_AEAD r) (r_nonce r) b off in
      b ← r_buf r;
      if r_off r <? len b then
        d ← b.[r_off r:len b];
        '(nw, ew, w) ← Write d w;
        let off := r_off r + nw in
        let n := i64 (n + nw) in
        check ew else
          Some (n, ew, set (if off =? len b then None else Some b) off, w) ;;
        WriteTo_loop f (set (Some b) off) w n
      else
        '(d, er, r) ← read (scap recordBuf) r;
        match er with
        | Some x => Some (n, if bool_decide (x = EOF) then None else Some x, r, w)
        | None => WriteTo_loop f
            (mkReader (r_Reader r) (r_AEAD r) (r_nonce r) (Some d) 0) w n
        end
  end.

Definition ReaderWriteTo {S W} `{Reader S, Writer W} (fuel : nat)
    (w : W) (r : ReaderState S) : option (Z * err * ReaderState S * W) :=
  let r := match r_buf r with
           | Some _ => r
           | None => mkReader (r_Reader r) (r_AEAD r) (r_nonce r)
                       (Some (replicate (Z.to_nat bufSize) (z2b 0))) bufSize
           end in
  WriteTo_loop fuel r w 0.

(** ** The connection *)

Record ConnState (S R : Type) := mkConn {
  c_Conn : S; c_Cipher : Cipher; c_rand : R;
  c_r : option (AEAD * list byte * option (list byte) * Z);
  c_w : option (AEAD * list byte) }.
Arguments mkConn {S R}. Arguments c_Conn {S R}. Arguments c_Cipher {S R}.
Arguments c_rand {S R}. Arguments c_r {S R}. Arguments c_w {S R}.

Definition NewConn {S R} (c : S) (ciph : Cipher) (g : R) : ConnState S R :=
  mkConn c ciph g None None.

Definition initReader {S R} `{Reader S} (c : ConnState S R) : option (err * ConnState S R) :=
  '(salt, e, s) ← ReadFull (SaltSize (c_Cipher c)) (c_Conn c);
  let set r := mkConn s (c_Cipher c) (c_rand c) r (c_w c) in
  check e else Some (e, set (c_r c)) ;;
  match Decrypter (c_Cipher c) salt with
  | inr e => Some (Some e, set (c_r c))
  | inl a => Some (None, set (Some (a, replicate 32 (z2b 0), None, 0)))
  end.

(** [c.r] and [c.w] share the connection with [c]: their state is put together
    for the call and taken apart after it. *)
Definition getReader {S R} (c : ConnState S R) : option (ReaderState S) :=
  '(a, nonce, buf, off) ← c_r c; Some (mkReader (c_Conn c) a nonce buf off).
Definition putReader {S R} (c : ConnState S R) (r : ReaderState S) : ConnState S R :=
  mkConn (r_Reader r) (c_Cipher c) (c_rand c)
    (Some (r_AEAD r, r_nonce r, r_buf r, r_off r)) (c_w c).
Definition getWriter {S R} (c : ConnState S R) : option (WriterState S) :=
  '(a, nonce) ← c_w c; Some (mkWriter (c_Conn c) a nonce).
Definition putWriter {S R} (c : ConnState S R) (w : WriterState S) : ConnState S R :=
  mkConn (w_Writer w) (c_Cipher c) (c_rand c) (c_r c) (Some (w_AEAD w, w_nonce w)).

(** [if c.r == nil { c.initReader() }]. *)
Definition ensureReader {S R} `{Reader S} (c : ConnState S R) : option (err * ConnState S R) :=
  match c_r c with Some _ => Some (None, c) | None => initReader c end.

#[global] Instance Conn_Reader {S R} `{Reader S} : Reader (ConnState S R) := fun n c =>
  '(e, c) ← ensureReader c;
  check e else Some ([], e, c) ;;
  r ← getReader c;
  '(d, e, r) ← Read n r;
  Some (d, e, putReader c r).

Definition ConnWriteTo {S R W} `{Reader S, Writer W} (fuel : nat) (w : W) (c : ConnState S R)
  : option (Z * err * ConnState S R * W) :=
  '(e, c) ← ensureReader c;
  check e else Some (0, e, c, w) ;;
  r ← getReader c;
  '(n, e, r, w) ← ReaderWriteTo fuel w r;
  Some (n, e, putReader c r, w).

Definition initWriter {S R} `{Writer S, Rand R} (c : ConnState S R)
  : option (err * ConnState S R) :=
  let '(salt, e, g) := rand_Read (SaltSize (c_Cipher c)) (c_rand c) in
  let set s w := mkConn s (c_Cipher c) g (c_r c) w in
  check e else Some (e, set (c_Conn c) (c_w c)) ;;
  match Encrypter (c_Cipher c) salt with
  | inr e => Some (Some e, set (c_Conn c) (c_w c))
  | inl a =>
      '(_, e, s) ← Write salt (c_Conn c);
      check e else Some (e, set s (c_w c)) ;;
      Some (None, set s (Some (a, replicate 32 (z2b 0))))
  end.

Definition ensureWriter {S R} `{Writer S, Rand R} (c : ConnState S R)
  : option (err * ConnState S R) :=
  match c_w c with Some _ => Some (None, c) | None => initWriter c end.

#[global] Instance Conn_Writer {S R} `{Writer S, Rand R} : Writer (ConnState S R) := fun p c =>
  '(e, c) ← ensureWriter c;
  check e else Some (0, e, c) ;;
  w ← getWriter c;
  '(n, e, w) ← Write p w;
  Some (n, e, putWriter c w).

Definition ConnReadFrom {S R T} `{Writer S, Rand R, Reader T} (fuel : nat) (r : T)
    (c : ConnState S R) : option (Z * err * ConnState S R * T) :=
  '(e, c) ← ensureWriter c;
  check e else Some (0, e, c, r) ;;
  w ← getWriter c;
  '(n, e, w, r) ← WriterReadFrom fuel r w;
  Some (n, e, putWriter c w, r).

(** ** packet.go *)

Definition ErrShortPacket : error := errorsNew "short packet".
Definition zerononce : list byte := replicate 128 (z2b 0).
Definition maxPacketSize : Z := 64 * 1024.

(** [Pack] into a [dst] of [n] bytes. *)
Definition Pack {R} `{Rand R} (n : Z) (plaintext : list byte) (ciph : Cipher) (g : R)
  : option (option (list byte) * err * R) :=
  let saltSize := SaltSize ciph in
  _ ← reslice (mkSlice 0 n n) saltSize;
  let '(salt, e, g) := rand_Read saltSize g in
  check e else Some (None, e, g) ;;
  match Encrypter ciph salt with
  | inr e => Some (None, Some e, g)
  | inl aead =>
      if n <? saltSize + len plaintext + Overhead aead
      then Some (None, Some ErrShortBuffer, g)
      else
        nonce ← zerononce.[0:NonceSize aead];
        let b := Seal aead nonce plaintext in
        Some (Some (salt ++ b), None, g)
  end.

(** [Unpack] into a [dst] of [n] bytes. *)
Definition Unpack (n : Z) (pkt : list byte) (ciph : Cipher)
  : option (option (list byte) * err) :=
  let saltSize := SaltSize ciph in
  if len pkt <? saltSize then Some (None, Some ErrShortPacket)
  else
    salt ← pkt.[0:saltSize];
    match Decrypter ciph salt with
    | inr e => Some (None, Some e)
    | inl aead =>
        if len pkt <? saltSize + Overhead aead then Some (None, Some ErrShortPacket)
        else if saltSize + n + Overhead aead <? len pkt then Some (None, Some ErrShortBuffer)
        else
          nonce ← zerononce.[0:NonceSize aead];
          c ← pkt.[saltSize:len pkt];
          match Open aead nonce c with
          | Some b => Some (Some b, None)
          | None => Some (None, Some errOpen)
          end
    end.

Record PacketState (S R : Type) := mkPacketConn {
  p_PacketConn : S; p_Cipher : Cipher; p_rand : R }.
Arguments mkPacketConn {S R}. Arguments p_PacketConn {S R}. Arguments p_Cipher {S R}.
Arguments p_rand {S R}.

#[global] Instance AEAD_PacketConn {S R A} `{PacketConn S A, Rand R}
  : PacketConn (PacketState S R) A := {
  WriteTo b addr c :=
    '(buf, e, g) ← Pack maxPacketSize b (p_Cipher c) (p_rand c);
    match e, buf with
    | None, Some buf =>
        '(_, e, s) ← WriteTo buf addr (p_PacketConn c);
        Some (len b, e, mkPacketConn s (p_Cipher c) g)
    | _, _ => Some (0, e, mkPacketConn (p_PacketConn c) (p_Cipher c) g)
    end;
  ReadFrom n c :=
    '(b, m, addr, e, s) ← ReadFrom n (p_PacketConn c);
    let c' := mkPacketConn s (p_Cipher c) (p_rand c) in
    check e else Some (b, m, addr, e, c') ;;
    let saltSize := SaltSize (p_Cipher c) in
    _ ← reslice (mkSlice 0 n n) saltSize;
    '(bb, e) ← Unpack (n - saltSize) b (p_Cipher c);
    check e else Some (b, m, addr, e, c') ;;
    let bb := default [] bb in
    Some (bb, len bb, addr, None, c') }.
(** ** The nonce counter *)

(** The [n] bytes of [k], least significant first. *)
Fixpoint le (n : nat) (k : Z) : list byte :=
  match n with
  | O => []
  | Datatypes.S n => z2b k :: le n (k / 256)
  end.

Lemma length_le n : forall k, length (le n k) = n.
Proof. induction n; intros k; simpl; auto. Qed.

Lemma len_le n k : len (le n k) = Z.of_nat n.
Proof. unfold len. by rewrite length_le. Qed.

#[local] Hint Rewrite len_le : go_len.

Lemma div256_succ k :
  (k + 1) / 256 = if (k + 1) mod 256 =? 0 then k / 256 + 1 else k / 256.
Proof.
  pose proof (Z.div_mod k 256). pose proof (Z.div_mod (k + 1) 256).
  pose proof (Z.mod_pos_bound k 256). pose proof (Z.mod_pos_bound (k + 1) 256).
  destruct (Z.eqb_spec ((k + 1) mod 256) 0); lia.
Qed.

Lemma increment_le n : forall k, increment (le n k) = le n (k + 1).
Proof.
  induction n as [|n IH]; intros k; [done|]. cbn [increment le].
  assert (z2b (b2z (z2b k) + 1) = z2b (k + 1)) as ->.
  { apply b2z_inj. rewrite !b2z_z2b. apply Z.add_mod_idemp_l. done. }
  rewrite b2z_z2b, IH, div256_succ.
  by destruct ((k + 1) mod 256 =? 0).
Qed.

Lemma le_inj n : forall j k, 0 <= j < 256 ^ Z.of_nat n -> 0 <= k < 256 ^ Z.of_nat n ->
  le n j = le n k -> j = k.
Proof.
  induction n as [|n IH]; intros j k Hj Hk He; [simpl in *; lia|].
  cbn [le] in He. injection He as H0 H1.
  rewrite Nat2Z.inj_succ, Z.pow_succ_r in Hj, Hk by lia.
  apply IH in H1.
  - apply (f_equal b2z) in H0. rewrite !b2z_z2b in H0.
    pose proof (Z.div_mod j 256). pose proof (Z.div_mod k 256). lia.
  - split; [apply Z.div_pos; lia|apply Z.div_lt_upper_bound; lia].
  - split; [apply Z.div_pos; lia|apply Z.div_lt_upper_bound; lia].
Qed.

Lemma le_wrap n : forall k, le n (k + 256 ^ Z.of_nat n) = le n k.
Proof.
  induction n as [|n IH]; intros k; [done|]. cbn [le].
  rewrite Nat2Z.inj_succ, Z.pow_succ_r by lia.
  rewrite <- (z2b_mod (k + _)), (Z.mul_comm 256), Z.mod_add, z2b_mod by lia.
  rewrite Z.div_add by lia. by rewrite IH.
Qed.

(** The [nonce] field when the counter is at [k]. *)
Definition nonceOf (a : AEAD) (k : Z) : list byte := le (Z.to_nat (NonceSize a)) k.
Definition NonceAt (a : AEAD) (k : Z) (nonce : list byte) : Prop :=
  nonce = nonceOf a k ++ replicate (32 - Z.to_nat (NonceSize a)) (z2b 0).

Section Nonce.
Context (a : AEAD) `{Ha : AEADOk a}.

Lemma len_nonceOf k : len (nonceOf a k) = NonceSize a.
Proof. unfold nonceOf. rewrite len_le. pose proof nonce_size. lia. Qed.

Lemma NonceAt_zero : NonceAt a 0 (replicate 32 (z2b 0)).
Proof.
  unfold NonceAt, nonceOf. pose proof nonce_size.
  assert (forall n, le n 0 = replicate n (z2b 0)) as Hz.
  { intros n. induction n as [|n IH]; [done|]. cbn [le replicate]. f_equal. exact IH. }
  rewrite Hz, <- replicate_add. f_equal. lia.
Qed.

Lemma NonceAt_take k nonce :
  NonceAt a k nonce -> ztake (NonceSize a) nonce = nonceOf a k.
Proof. intros ->. apply ztake_app_len. by rewrite len_nonceOf. Qed.

Lemma NonceAt_slice k nonce :
  NonceAt a k nonce -> nonce.[0:NonceSize a] = Some (nonceOf a k).
Proof. intros ->. apply slice_app_0. by rewrite len_nonceOf. Qed.

Lemma NonceAt_bump k nonce : NonceAt a k nonce -> NonceAt a (k + 1) (bump a nonce).
Proof.
  intros Hn. unfold bump. rewrite (NonceAt_take k) by done. rewrite Hn.
  unfold nonceOf. rewrite increment_le.
  fold (nonceOf a k) (nonceOf a (k + 1)). unfold NonceAt.
  rewrite blit_fits by (len_lia || rewrite ?len_app, !len_nonceOf; len_lia).
  rewrite ztake_neg by lia. simpl. f_equal. apply zdrop_app_len.
  by rewrite !len_nonceOf.
Qed.
End Nonce.

(** ** The record stream

    [Stream a k k' p c]: with the counter starting at [k] and ending at [k'],
    the ciphertext [c] carries the plaintext [p]. *)

Definition recordAt (a : AEAD) (k : Z) (c : list byte) : list byte :=
  Seal a (nonceOf a k) (be2 (len c)) ++ Seal a (nonceOf a (k + 1)) c.

Inductive Stream (a : AEAD) : Z -> Z -> list byte -> list byte -> Prop :=
| st_nil k : Stream a k k [] []
| st_rec k k' c p ct : 1 <= len c <= payloadSizeMask -> Stream a (k + 2) k' p ct ->
    Stream a k k' (c ++ p) (recordAt a k c ++ ct).

Lemma Stream_app a k k' k'' p q ct dt :
  Stream a k k' p ct -> Stream a k' k'' q dt -> Stream a k k'' (p ++ q) (ct ++ dt).
Proof. induction 1; intros; [done|]. rewrite <- !app_assoc. constructor; auto. Qed.

Lemma Stream_one a k c :
  1 <= len c <= payloadSizeMask -> Stream a k (k + 2) c (recordAt a k c).
Proof.
  intros Hc. pose proof (st_rec a k (k + 2) c [] [] Hc (st_nil a _)) as Hs.
  by rewrite !app_nil_r in Hs.
Qed.

Section AEAD_facts.
Context (a : AEAD) `{Ha : AEADOk a}.

Lemma record_at k nonce c : NonceAt a k nonce ->
  exists nonce', record a nonce c = (recordAt a k c, nonce') /\ NonceAt a (k + 2) nonce'.
Proof.
  intros Hn. pose proof (NonceAt_bump a k nonce Hn) as Hn1.
  pose proof (NonceAt_bump a (k + 1) _ Hn1) as Hn2.
  unfold record, sealNext. rewrite (NonceAt_take a k), (NonceAt_take a (k + 1)) by done.
  eexists. split; [done|]. by replace (k + 2) with (k + 1 + 1) by lia.
Qed.

Lemma record_fits n : n <= 2 + Overhead a + payloadSizeMask + Overhead a -> 0 <= n ->
  exists x, reslice recordBuf n = Some x.
Proof.
  intros Hn H0. pose proof overhead as Ho. unfold reslice.
  replace ((0 <=? n) && (n <=? scap recordBuf)) with true; [eauto|].
  change (scap recordBuf) with 32768. unfold payloadSizeMask in Hn. lia.
Qed.

Lemma Write_loop_spec {S} `{ConnOk S} p fuel : forall (s : S) nonce k n bs e out,
  Live s bs e out -> NonceAt a k nonce -> 0 <= n <= len p -> len p - n <= Z.of_nat fuel ->
  exists s' nonce' k' ct,
    Write_loop fuel (mkWriter s a nonce) p n None = Some (len p, None, mkWriter s' a nonce') /\
    Live s' bs e (out ++ ct) /\ NonceAt a k' nonce' /\ Stream a k k' (zdrop n p) ct.
Proof.
  induction fuel as [|fuel IH]; intros s nonce k n bs e out HL Hn Hr Hf; cbn [Write_loop].
  - replace (n <? len p) with false by lia. assert (n = len p) as -> by lia.
    eexists _, _, _, []. rewrite app_nil_r, zdrop_all by lia.
    split; [done|]. split; [done|]. split; [done|constructor].
  - destruct (Z.ltb_spec n (len p)) as [Hlt|Hge]; cbn [andb is_nil].
    2:{ assert (n = len p) as -> by lia. eexists _, _, _, [].
        rewrite app_nil_r, zdrop_all by lia. split; [done|]. split; [done|].
        split; [done|constructor]. }
    cbn [w_AEAD w_nonce w_Writer].
    set (nr := if len p <? _ then _ else _).
    assert (1 <= nr <= payloadSizeMask /\ n + nr <= len p) as [Hnr Hle].
    { subst nr. unfold payloadSizeMask. destruct (Z.ltb_spec (len p) (n + 0x3FFF)); lia. }
    destruct (record_fits (2 + Overhead a + nr + Overhead a)) as (x & ->);
      [lia|pose proof overhead; lia|]. bind_simpl.
    rewrite slice_ok by lia. bind_simpl. replace (n + nr - n) with nr by lia.
    set (c := ztake nr (zdrop n p)).
    assert (len c = nr) as Hc by (subst c; len_lia).
    destruct (record_at k nonce c Hn) as (nonce1 & -> & Hn1).
    destruct (Live_Write (recordAt a k c) _ _ _ _ HL) as (s1 & -> & HL1). bind_simpl.
    destruct (IH s1 nonce1 (k + 2) (n + nr) bs e _ HL1 Hn1)
      as (s' & nonce' & k' & ct & -> & HL' & Hn' & Hst); [lia|lia|].
    exists s', nonce', k', (recordAt a k c ++ ct). split; [done|].
    rewrite app_assoc. split; [done|]. split; [done|].
    rewrite <- (ztake_zdrop nr (zdrop n p)). fold c.
    rewrite zdrop_zdrop by lia. constructor; [lia|done].
Qed.

(** A write of [p] sends records that carry [p]. *)
Lemma AEAD_Write_spec {S} `{ConnOk S} p (s : S) nonce k bs e out :
  Live s bs e out -> NonceAt a k nonce -> p <> [] ->
  exists s' nonce' k' ct,
    Write p (mkWriter s a nonce) = Some (len p, None, mkWriter s' a nonce') /\
    Live s' bs e (out ++ ct) /\ NonceAt a k' nonce' /\ Stream a k k' p ct.
Proof.
  intros HL Hn Hp. unfold Write, AEAD_Writer. cbn [w_nonce w_AEAD].
  rewrite (NonceAt_slice a k) by done. bind_simpl.
  replace (len p =? 0) with false by (symmetry; apply Z.eqb_neq; by intros ?%len_zero).
  destruct (Write_loop_spec p (length p) s nonce k 0 bs e out HL Hn)
    as (s' & nonce' & k' & ct & Hw & HL' & Hn' & Hst);
    [len_lia|unfold len; lia|]. rewrite zdrop_neg in Hst by lia. eauto 10.
Qed.

(** ** Reading records *)

Lemma openField_ok {S} `{ReaderOk S} (s : S) nonce k x bs e c buf off :
  NonceAt a k nonce -> Delivers s (Seal a (nonceOf a k) x ++ bs) e ->
  len x + Overhead a <= c ->
  exists s' nonce' r, openField c (len x + Overhead a) (mkReader s a nonce buf off) =
      Some (x ++ r, None, mkReader s' a nonce' buf off) /\
    Delivers s' bs e /\ NonceAt a (k + 1) nonce'.
Proof.
  intros Hn Hd Hc. pose proof overhead. unfold openField, reslice. simpl scap.
  replace ((0 <=? len x + Overhead a) && (len x + Overhead a <=? c)) with true by len_lia.
  bind_simpl. cbn [r_Reader r_AEAD r_nonce r_buf r_off].
  destruct (ReadFull_app _ _ (len x + Overhead a) s e Hd) as (s' & -> & Hd').
  { rewrite seal_len; [done|apply len_nonceOf; done]. }
  bind_simpl. rewrite (NonceAt_take a k), open_seal by (done || by apply len_nonceOf).
  exists s', (bump a nonce). eexists. split; [|split; [done|by apply NonceAt_bump]].
  rewrite blit_0; [done|]. rewrite seal_len by by apply len_nonceOf. lia.
Qed.

Lemma openField_end {S} `{ReaderOk S} (s : S) nonce n e c buf off :
  Delivers s [] e -> 0 < n <= c ->
  exists s', openField c n (mkReader s a nonce buf off) =
      Some ([], Some e, mkReader s' a nonce buf off) /\ Delivers s' [] e.
Proof.
  intros Hd Hn. unfold openField, reslice. simpl scap.
  replace ((0 <=? n) && (n <=? c)) with true by lia. bind_simpl. cbn [r_Reader r_AEAD r_nonce r_buf r_off].
  destruct (ReadFull_spec n s [] e Hd) as (s' & -> & Hd'); [lia|]. bind_simpl.
  replace (n <=? len []) with false by len_lia.
  change (short_error [] e) with e. exists s'. split; [done|].
  unfold zdrop in Hd'. by rewrite drop_nil in Hd'.
Qed.

Lemma be2_index nr r : 0 <= nr <= payloadSizeMask ->
  exists p0 p1, (be2 nr ++ r).[0] = Some p0 /\ (be2 nr ++ r).[1] = Some p1 /\
    Z.land (Z.shiftl (b2z p0) 8 + b2z p1) payloadSizeMask = nr.
Proof.
  unfold payloadSizeMask. intros Hnr. eexists _, _. split; [done|]. split; [done|].
  rewrite !b2z_z2b, Z.shiftr_div_pow2, Z.shiftl_mul_pow2 by lia.
  change (2 ^ 8) with 256.
  rewrite (Z.mod_small (nr / 256)) by
    (split; [apply Z.div_pos; lia|apply Z.div_lt_upper_bound; lia]).
  pose proof (Z.div_mod nr 256). replace (_ + _) with nr by lia.
  change 0x3FFF with (Z.ones 14). rewrite Z.land_ones by lia. apply Z.mod_small.
  change (2 ^ 14) with 16384. lia.
Qed.

Lemma read_record {S} `{ReaderOk S} (s : S) nonce k k' p ct e c buf off :
  NonceAt a k nonce -> Delivers s ct e -> Stream a k k' p ct ->
  payloadSizeMask + Overhead a <= c ->
  exists d er s' nonce' k1 p' ct',
    read c (mkReader s a nonce buf off) = Some (d, er, mkReader s' a nonce' buf off) /\
    NonceAt a k1 nonce' /\ Delivers s' ct' e /\ Stream a k1 k' p' ct' /\ p = d ++ p' /\
    match er with
    | None => 1 <= len d <= payloadSizeMask
    | Some e' => d = [] /\ p = [] /\ e' = e
    end.
Proof.
  intros Hn Hd Hst Hc. unfold read. cbn [r_nonce r_AEAD]. pose proof overhead.
  rewrite (NonceAt_slice a k) by done. bind_simpl.
  destruct Hst as [k|k k' x p ct Hx Hst].
  - destruct (openField_end s nonce (2 + Overhead a) e c buf off Hd)
      as (s' & -> & Hd'); [unfold payloadSizeMask in *; lia|]. bind_simpl.
    eexists _, _, _, _, _, _, _. split; [done|]. split; [done|].
    split; [done|]. split; [constructor|done].
  - unfold recordAt in Hd. rewrite <- app_assoc in Hd.
    destruct (openField_ok s nonce k (be2 (len x)) _ e c buf off Hn Hd)
      as (s1 & nonce1 & r1 & E1 & Hd1 & Hn1).
    { change (len (be2 (len x))) with 2. unfold payloadSizeMask in *. lia. }
    change (len (be2 (len x))) with 2 in E1. rewrite E1. bind_simpl.
    destruct (be2_index (len x) r1) as (p0 & p1 & -> & E & Hsz); [lia|]. bind_simpl.
    rewrite E. bind_simpl. rewrite Hsz. replace (len x =? 0) with false by lia.
    destruct (openField_ok s1 nonce1 (k + 1) x ct e c buf off Hn1 Hd1)
      as (s2 & nonce2 & r2 & -> & Hd2 & Hn2); [lia|]. bind_simpl.
    rewrite ztake_app_len by done. replace (k + 1 + 1) with (k + 2) in Hn2 by lia.
    eexists _, _, _, _, _, p, ct. split; [done|]. split; [done|]. done.
Qed.
End AEAD_facts.

(** ** The layers keep the reading promise *)

Definition ReadingFrom {S} `{ReaderOk S} (r : ReaderState S) (bs : list byte) (e : error) : Prop :=
  AEADOk (r_AEAD r) /\ exists k k' p ct,
    NonceAt (r_AEAD r) k (r_nonce r) /\ Delivers (r_Reader r) ct e /\
    Stream (r_AEAD r) k k' p ct /\
    match r_buf r with
    | None => bs = p
    | Some b => 0 <= r_off r < len b /\ bs = zdrop (r_off r) b ++ p
    end.

Lemma drain_spec {S} `{ReaderOk S} n b (s : S) a nonce off k k' p ct e :
  AEADOk a -> NonceAt a k nonce -> Delivers s ct e -> Stream a k k' p ct ->
  0 <= off < len b -> 0 < n ->
  exists d r', drain n b (mkReader s a nonce (Some b) off) = Some (d, None, r') /\
    len d <= n /\ d <> [] /\ exists bs', zdrop off b ++ p = d ++ bs' /\ ReadingFrom r' bs' e.
Proof.
  intros Ha Hn Hd Hst Hoff Hpos. unfold drain. cbn [r_off r_Reader r_AEAD r_nonce].
  rewrite slice_suffix by lia. bind_simpl. set (rest := zdrop off b).
  assert (len rest = len b - off) as Hr by (subst rest; len_lia).
  eexists _, _. split; [done|]. split; [len_lia|].
  split; [intros Hz; apply (f_equal len) in Hz; len_lia|].
  exists (zdrop n rest ++ p). rewrite app_assoc, ztake_zdrop. split; [done|].
  split; [done|]. exists k, k', p, ct. do 3 (split; [done|]).
  cbn [r_buf r_off]. set (d := ztake n rest).
  assert (len d = Z.min n (len rest)) as Hdl by (subst d; len_lia).
  destruct (Z.eqb_spec (off + len d) (len b)) as [He|Hne].
  - rewrite zdrop_all; [done|lia].
  - split; [lia|]. f_equal. subst rest. rewrite zdrop_zdrop by lia. f_equal. lia.
Qed.

#[global, program] Instance AEAD_ReaderOk {S} `{ReaderOk S} : ReaderOk (ReaderState S) := {
  Delivers := ReadingFrom }.
Next Obligation.
  intros S HR HO [s a nonce buf off] bs e n (Ha & k & k' & p & ct & Hn & Hd & Hst & Hb) Hpos.
  cbn [r_AEAD r_nonce r_Reader r_buf r_off] in *. unfold Read, AEAD_Reader. cbn [r_buf r_AEAD].
  pose proof overhead as Ho.
  destruct buf as [b|].
  { destruct Hb as [Hoff ->].
    destruct (drain_spec n b s a nonce off k k' p ct e Ha Hn Hd Hst Hoff Hpos)
      as (d & r' & -> & Hl & Hne & bs' & E & HR'). eexists _, _, _. split; [done|]. eauto. }
  subst bs. destruct (Z.leb_spec (payloadSizeMask + Overhead a) n) as [Hbig|Hsmall].
  - destruct (read_record a s nonce k k' p ct e n None off Hn Hd Hst Hbig)
      as (d & er & s' & nonce' & k1 & p' & ct' & -> & Hn' & Hd' & Hst' & -> & Her).
    eexists _, _, _. split; [done|]. unfold payloadSizeMask in *. destruct er as [er|].
    + destruct Her as (-> & Hp & ->). simpl in Hp. subst p'. split; [len_lia|].
      do 3 (split; [done|]). split; [done|]. by exists k1, k', [], ct'.
    + split; [lia|]. split; [intros ->; len_lia|]. exists p'. split; [done|].
      split; [done|]. by exists k1, k', p', ct'.
  - destruct (read_record a s nonce k k' p ct e (scap recordBuf) None off Hn Hd Hst)
      as (d & er & s' & nonce' & k1 & p' & ct' & -> & Hn' & Hd' & Hst' & -> & Her).
    { change (scap recordBuf) with 32768. unfold payloadSizeMask in *. lia. }
    bind_simpl. destruct er as [er|].
    + destruct Her as (-> & Hp & ->). simpl in Hp. subst p'.
      eexists _, _, _. split; [done|]. split; [len_lia|].
      do 3 (split; [done|]). split; [done|]. by exists k1, k', [], ct'.
    + cbn [r_Reader r_AEAD r_nonce].
      destruct (drain_spec n d s' a nonce' 0 k1 k' p' ct' e Ha Hn' Hd' Hst')
        as (d2 & r' & -> & Hl & Hne & bs' & E & HR'); [lia|done|].
      rewrite zdrop_neg in E by lia. eexists _, _, _. split; [done|]. eauto.
Qed.

Lemma NewReader_Delivers {S} `{ReaderOk S} (s : S) a k' p ct e :
  AEADOk a -> Delivers s ct e -> Stream a 0 k' p ct -> Delivers (NewReader s a) p e.
Proof.
  intros Ha Hd Hst. split; [done|]. exists 0, k', p, ct.
  split; [apply NonceAt_zero; done|done].
Qed.

(** A session: the salt, then records from counter 0. *)
Definition Session (ciph : Cipher) (p ct : list byte) : Prop :=
  exists salt a k' c, ct = salt ++ c /\ len salt = SaltSize ciph /\
    Encrypter ciph salt = inl a /\ Stream a 0 k' p c.

Definition ConnReadingFrom {S R} `{ReaderOk S} (c : ConnState S R) (bs : list byte)
    (e : error) : Prop :=
  CipherOk (c_Cipher c) /\
  match c_r c with
  | None => (bs = [] /\ SaltSize (c_Cipher c) <> 0 /\ Delivers (c_Conn c) [] e) \/
      exists ct, Delivers (c_Conn c) ct e /\ Session (c_Cipher c) bs ct
  | Some (a, nonce, buf, off) => Delivers (mkReader (c_Conn c) a nonce buf off) bs e
  end.

(** [initReader] consumes the salt and nothing else. *)
Lemma ensureReader_spec {S R} `{ReaderOk S} (c : ConnState S R) bs e :
  ConnReadingFrom c bs e ->
  exists er c', ensureReader c = Some (er, c') /\ ConnReadingFrom c' bs e /\
    match er with
    | None => exists r, getReader c' = Some r /\ Delivers r bs e
    | Some e' => bs = [] /\ e' = e
    end.
Proof.
  destruct c as [s ciph g cr cw]. intros [Hc Hx]. cbn [c_r c_Cipher c_Conn] in Hx.
  unfold ensureReader. cbn [c_r]. destruct cr as [[[[a nonce] buf] off]|].
  { eexists _, _. split; [done|]. split; [done|]. by eexists. }
  unfold initReader. cbn [c_Conn c_Cipher c_rand c_r c_w].
  pose proof (@salt_size ciph Hc) as Hs. cbn [c_Cipher] in *. destruct Hx as [(-> & Hnz & Hd)|(ct & Hd & salt & a & k' & cc & -> & Hl & He & Hst)].
  - destruct (ReadFull_spec (SaltSize ciph) s [] e Hd) as (s' & -> & Hd'); [lia|]. bind_simpl.
    replace (SaltSize ciph <=? len []) with false by len_lia.
    change (short_error [] e) with e. eexists _, _. split; [done|]. split; [|done].
    split; [done|]. left. unfold zdrop in Hd'. rewrite drop_nil in Hd'. done.
  - destruct (ReadFull_app _ _ (SaltSize ciph) s e Hd) as (s' & -> & Hd'); [done|]. bind_simpl.
    destruct (cipher_ok salt Hl) as (a' & He' & Hdec & Ha). rewrite Hdec.
    rewrite He in He'. injection He' as <-.
    assert (Delivers (NewReader s' a) bs e) as HR by by eapply NewReader_Delivers.
    eexists _, _. split; [done|]. split; [split; done|]. eexists. split; done.
Qed.

#[global, program] Instance Conn_ReaderOk {S R} `{ReaderOk S} : ReaderOk (ConnState S R) := {
  Delivers := ConnReadingFrom }.
Next Obligation.
  intros S R HR HO c bs e n Hc Hpos.
  destruct (ensureReader_spec c bs e Hc) as (er & c' & E & Hc' & Hx).
  unfold Read, Conn_Reader. rewrite E. bind_simpl. destruct er as [er|].
  { destruct Hx as [-> ->]. eexists _, _, _. split; [done|]. split; [len_lia|]. done. }
  destruct Hx as (r & -> & Hd). bind_simpl.
  destruct (read_ok r bs e n Hd Hpos) as (d & er & r' & -> & Hl & Hpost). bind_simpl.
  eexists _, _, _. split; [done|]. split; [done|].
  assert (forall bs', Delivers r' bs' e -> ConnReadingFrom (putReader c' r') bs' e) as Hput.
  { intros bs' Hd'. split; [apply Hc'|]. cbn [putReader c_r c_Conn].
    by destruct r'. }
  destruct er as [er|].
  - destruct Hpost as (-> & -> & -> & Hd'). eauto.
  - destruct Hpost as (Hne & bs' & -> & Hd'). eauto.
Qed.

(** ** The writing side of a connection *)

(** The connection has sent [ct], which carries [p]. *)
Definition Written {S R} (c : ConnState S R) (p ct : list byte) : Prop :=
  CipherOk (c_Cipher c) /\
  match c_w c with
  | None => p = [] /\ ct = []
  | Some (a, nonce) => exists salt k x, ct = salt ++ x /\
      len salt = SaltSize (c_Cipher c) /\ Encrypter (c_Cipher c) salt = inl a /\
      AEADOk a /\ NonceAt a k nonce /\ Stream a 0 k p x
  end.

Lemma Written_Session {S R} (c : ConnState S R) p ct :
  Written c p ct -> p <> [] -> Session (c_Cipher c) p ct.
Proof.
  intros [_ Hw] Hp. destruct (c_w c) as [[a nonce]|].
  - destruct Hw as (salt & k & x & -> & Hl & He & _ & _ & Hst). by exists salt, a, k, x.
  - by destruct Hw.
Qed.

Lemma ensureWriter_spec {S R} `{ConnOk S, RandOk R} (c : ConnState S R) p ct bs e out :
  Written c p ct -> Live (c_Conn c) bs e (out ++ ct) ->
  exists c' ct' a nonce, ensureWriter c = Some (None, c') /\
    c_Cipher c' = c_Cipher c /\ c_w c' = Some (a, nonce) /\
    Written c' p ct' /\ Live (c_Conn c') bs e (out ++ ct').
Proof.
  destruct c as [s ciph g cr [[a nonce]|]]; intros [Hc Hw] HL; cbn [c_w c_Cipher c_Conn] in *.
  { eexists _, ct, a, nonce. split; [done|]. split; [done|]. split; [done|]. split; [|done].
    by split. }
  destruct Hw as [-> ->]. unfold ensureWriter, initWriter. cbn [c_w c_Cipher c_Conn c_rand c_r].
  pose proof (@salt_size ciph Hc). destruct (rand_ok (SaltSize ciph) g) as (salt & g' & -> & Hl); [lia|].
  destruct (cipher_ok salt Hl) as (a & He & _ & Ha). rewrite He.
  destruct (Live_Write salt _ _ _ _ HL) as (s' & -> & HL'). bind_simpl.
  eexists _, salt, a, _. split; [done|]. split; [done|]. split; [done|].
  rewrite app_nil_r in HL'. split; [|done]. split; [done|].
  exists salt, 0, []. rewrite app_nil_r. do 4 (split; [done|]).
  split; [by apply NonceAt_zero|constructor].
Qed.

Lemma Conn_Write_spec {S R} `{ConnOk S, RandOk R} (c : ConnState S R) p ct q bs e out :
  Written c p ct -> Live (c_Conn c) bs e (out ++ ct) -> q <> [] ->
  exists c' ct', Write q c = Some (len q, None, c') /\ c_Cipher c' = c_Cipher c /\
    Written c' (p ++ q) ct' /\ Live (c_Conn c') bs e (out ++ ct').
Proof.
  intros Hw HL Hq.
  destruct (ensureWriter_spec c p ct bs e out Hw HL)
    as (c1 & ct1 & a & nonce & E & Hciph & Hcw & [Hc1 Hw1] & HL1).
  unfold Write, Conn_Writer. rewrite E. bind_simpl. rewrite Hcw in Hw1.
  destruct Hw1 as (salt & k & x & -> & Hl & He & Ha & Hn & Hst).
  unfold getWriter. rewrite Hcw. bind_simpl.
  destruct (AEAD_Write_spec a q (c_Conn c1) nonce k bs e _ HL1 Hn Hq)
    as (s2 & nonce2 & k2 & ct2 & -> & HL2 & Hn2 & Hst2). bind_simpl.
  eexists _, (salt ++ x ++ ct2). split; [done|]. split; [done|].
  rewrite <- !app_assoc in HL2. split; [|done]. split; [done|].
  cbn [putWriter c_w w_AEAD w_nonce]. exists salt, k2, (x ++ ct2).
  do 5 (split; [done|]). by eapply Stream_app.
Qed.

Lemma Conn_write_all {S R} `{ConnOk S, RandOk R} qs : forall (c : ConnState S R) p ct bs e out,
  Written c p ct -> Live (c_Conn c) bs e (out ++ ct) -> Forall (fun q => q <> []) qs ->
  exists c' ct', write_all qs c = Some (None, c') /\ c_Cipher c' = c_Cipher c /\
    Written c' (p ++ concat qs) ct' /\ Live (c_Conn c') bs e (out ++ ct').
Proof.
  induction qs as [|q qs IH]; intros c p ct bs e out Hw HL Hq; cbn [write_all concat].
  - exists c, ct. by rewrite app_nil_r.
  - inversion Hq as [|? ? Hq1 Hqs]; subst.
    destruct (Conn_Write_spec c p ct q bs e out Hw HL Hq1) as (c1 & ct1 & -> & Hc1 & Hw1 & HL1).
    bind_simpl. destruct (IH c1 (p ++ q) ct1 bs e out Hw1 HL1 Hqs)
      as (c2 & ct2 & -> & Hc2 & Hw2 & HL2).
    exists c2, ct2. rewrite <- app_assoc in Hw2. split; [done|]. split; [congruence|done].
Qed.

(** ** What a connection hands to its transport

    [Handed s bufs s']: from [s] to [s'], whatever is read and whatever fails,
    the buffers given to [Write] are [bufs], in order. *)

Inductive Handed {S} `{Reader S, Writer S} : S -> list (list byte) -> S -> Prop :=
| handed_nil s : Handed s [] s
| handed_read s n d e s' bufs s'' : Read n s = Some (d, e, s') -> Handed s' bufs s'' -> Handed s bufs s''
| handed_write s b n e s' bufs s'' : Write b s = Some (n, e, s') -> Handed s' bufs s'' -> Handed s (b :: bufs) s''.

(** The seals of the plaintexts [ps] from the counter [k] on. *)
Fixpoint seals (a : AEAD) (k : Z) (ps : list (list byte)) : list byte :=
  match ps with
  | [] => []
  | p :: ps => Seal a (nonceOf a k) p ++ seals a (k + 1) ps
  end.

(** What a user does to the connection: [Write], [ReadFrom] and [Read]. *)
Inductive Use (T : Type) := UseWrite (p : list byte) | UseReadFrom (fuel : nat) (r : T) | UseRead (n : Z).
Arguments UseWrite {T}. Arguments UseReadFrom {T}. Arguments UseRead {T}.

Fixpoint uses {S R T} `{Reader S, Writer S, Rand R, Reader T} (us : list (Use T)) (c : ConnState S R)
  : option (ConnState S R) :=
  match us with
  | [] => Some c
  | UseWrite p :: us => '(_, _, c) ← Write p c; uses us c
  | UseReadFrom fuel r :: us => '(_, _, c, _) ← ConnReadFrom fuel r c; uses us c
  | UseRead n :: us => '(_, _, c) ← Read n c; uses us c
  end.

Section Handed.
Context {S : Type} `{Reader S, Writer S}.

Lemma Handed_app (s s' s'' : S) b b' : Handed s b s' -> Handed s' b' s'' -> Handed s (b ++ b') s''.
Proof.
  induction 1; intros Hh; cbn [app]; [done|eapply handed_read; eauto|eapply handed_write; eauto].
Qed.

Lemma Handed_write (s s' : S) b n e : Write b s = Some (n, e, s') -> Handed s [b] s'.
Proof. intros E. eapply handed_write; [done|constructor]. Qed.

Lemma Handed_ReadFull n (s s' : S) d e : ReadFull n s = Some (d, e, s') -> Handed s [] s'.
Proof.
  assert (forall fuel want acc (s : S) d e s', ReadAtLeast_loop fuel want acc s = Some (d, e, s') -> Handed s [] s') as Hl.
  { induction fuel as [|fuel IH]; intros want acc s0 d0 e0 s0' Hr; cbn [ReadAtLeast_loop] in Hr;
      repeat case_match; simplify_eq; try constructor.
    destruct (Read _ s0) as [[[d1 e1] s1]|] eqn:E; [|done]. cbn in Hr.
    eapply handed_read; [done|]. destruct e1; [simplify_eq; constructor|by eapply IH]. }
  unfold ReadFull. intros Hr. destruct (ReadAtLeast_loop _ _ _ _) as [[[d1 e1] s1]|] eqn:E; [|done].
  cbn in Hr. apply Hl in E. by repeat (case_match; simplify_eq).
Qed.

Lemma read_Handed c (r : ReaderState S) d e r' : read c r = Some (d, e, r') -> Handed (r_Reader r) [] (r_Reader r').
Proof.
  assert (forall c n (r : ReaderState S) d e r', openField c n r = Some (d, e, r') -> Handed (r_Reader r) [] (r_Reader r')) as Ho.
  { unfold openField. intros c0 n r0 d0 e0 r0' E. go_steps.
    all: repeat (case_match; simplify_eq/=); by eapply Handed_ReadFull. }
  unfold read. intros E. go_steps.
  all: repeat (case_match; simplify_eq/=; go_steps).
  all: repeat match goal with E : openField _ _ _ = _ |- _ => apply Ho in E; cbn in E end; try done.
  all: by eapply (Handed_app _ _ _ [] []).
Qed.

Lemma Read_Handed n (r : ReaderState S) d e r' : Read n r = Some (d, e, r') -> Handed (r_Reader r) [] (r_Reader r').
Proof.
  unfold Read, AEAD_Reader, drain. intros E. repeat (case_match; simplify_eq/=; go_steps).
  all: try (by constructor). all: by eapply read_Handed.
Qed.
End Handed.

(** ** What the writer seals *)

Section Sealing.
Context (a : AEAD) `{Ha : AEADOk a}.

Lemma seals_app ps : forall k qs, seals a k (ps ++ qs) = seals a k ps ++ seals a (k + len ps) qs.
Proof.
  induction ps as [|p ps IH]; intros k qs; cbn [app seals]; [by rewrite len_nil, Z.add_0_r|].
  rewrite IH, <- app_assoc, len_cons. do 3 f_equal. lia.
Qed.

(** The writer has gone from the counter [k] to another, handing what it
    sealed to the transport. *)
Definition Sealing {S} `{Reader S, Writer S} (s : S) (k : Z) (w : WriterState S) : Prop :=
  w_AEAD w = a /\ exists bufs ps, Handed s bufs (w_Writer w) /\ concat bufs = seals a k ps /\
    NonceAt a (k + len ps) (w_nonce w).

Lemma Sealing_nil {S} `{Reader S, Writer S} (s : S) k nonce : NonceAt a k nonce -> Sealing s k (mkWriter s a nonce).
Proof. split; [done|]. exists [], []. split; [constructor|]. by rewrite len_nil, Z.add_0_r. Qed.

Lemma Sealing_step {S} `{Reader S, Writer S} (s s' : S) k b n e nonce ps w :
  Write b s = Some (n, e, s') -> b = seals a k ps -> NonceAt a (k + len ps) nonce ->
  (forall k', NonceAt a k' nonce -> Sealing s' k' w) -> Sealing s k w.
Proof.
  intros Hw -> Hn Hs. destruct (Hs _ Hn) as (Hwa & bufs & qs & Hh & Ec & Hn').
  split; [done|]. exists (seals a k ps :: bufs), (ps ++ qs). split; [by eapply handed_write|].
  cbn [concat]. rewrite Ec, seals_app, len_app, Z.add_assoc. done.
Qed.

Lemma record_seals k nonce c : NonceAt a k nonce ->
  exists nonce', record a nonce c = (seals a k [be2 (len c); c], nonce') /\ NonceAt a (k + len [be2 (len c); c]) nonce'.
Proof.
  intros Hn. destruct (record_at a k nonce c Hn) as (nonce' & -> & Hn'). exists nonce'.
  unfold recordAt. cbn [seals]. by rewrite app_nil_r.
Qed.

Lemma Write_loop_Sealing {S} `{Reader S, Writer S} p fuel : forall (s : S) nonce k n e x,
  NonceAt a k nonce -> Write_loop fuel (mkWriter s a nonce) p n e = Some x -> Sealing s k x.2.
Proof.
  induction fuel as [|fuel IH]; intros s nonce k n e x Hn E; cbn [Write_loop] in E;
    (destruct ((n <? len p) && is_nil e); [|injection E as <-; by apply Sealing_nil]); [done|].
  cbn [w_AEAD w_Writer w_nonce] in E. set (nr := if len p <? n + payloadSizeMask then _ else _) in E.
  destruct (reslice _ _); [|done]. destruct (p.[n:n + nr]) as [chunk|]; [|done]. cbn [mbind option_bind] in E.
  destruct (record_seals k nonce chunk Hn) as (nonce' & Er & Hn'). rewrite Er in E.
  destruct (Write _ s) as [[[m ew] s1]|] eqn:Ew; [|done]. cbn [mbind option_bind] in E.
  eapply Sealing_step; [exact Ew|done|exact Hn'|]. intros k' Hk. by eapply IH.
Qed.

Lemma Write_Sealing {S} `{Reader S, Writer S} p (s : S) nonce k n e w :
  NonceAt a k nonce -> Write p (mkWriter s a nonce) = Some (n, e, w) -> Sealing s k w.
Proof.
  intros Hn E. unfold Write, AEAD_Writer in E. cbn [w_AEAD w_nonce w_Writer] in E.
  rewrite (NonceAt_slice a k) in E by done. cbn [mbind option_bind] in E.
  destruct (len p =? 0); [|by eapply (Write_loop_Sealing p _ s nonce k _ _ (n, e, w))].
  destruct (reslice _ _); [|done]. cbn [mbind option_bind sealNext] in E. rewrite (NonceAt_take a k) in E by done.
  destruct (Write _ s) as [[[m ew] s1]|] eqn:Ew; [|done]. cbn [mbind option_bind] in E. injection E as <- <- <-.
  eapply (Sealing_step _ _ _ _ _ _ (bump a nonce) [[z2b 0; z2b 0]]); [exact Ew|cbn [seals]; by rewrite app_nil_r| |].
  - rewrite len_cons, len_nil. by apply NonceAt_bump.
  - intros k' Hk. by apply Sealing_nil.
Qed.

Lemma ReadFrom_Sealing {S T} `{Reader S, Writer S, Reader T} fuel : forall (s : S) nonce k (r : T) n m e w r',
  NonceAt a k nonce -> ReadFrom_loop fuel (mkWriter s a nonce) r n = Some (m, e, w, r') -> Sealing s k w.
Proof.
  induction fuel as [|fuel IH]; intros s nonce k r n m e w r' Hn E; [done|]. cbn [ReadFrom_loop w_AEAD w_Writer w_nonce] in E.
  destruct (Read _ r) as [[[d er] r1]|]; [|done]. cbn [mbind option_bind] in E.
  destruct (record_seals k nonce d Hn) as (nonce' & Er & Hn'). rewrite Er in E.
  destruct (Write _ s) as [[[m1 ew] s1]|] eqn:Ew; [|done]. cbn [mbind option_bind] in E.
  eapply Sealing_step; [exact Ew|done|exact Hn'|]. intros k' Hk.
  destruct ew; [injection E as <- <- <- <-; by apply Sealing_nil|].
  destruct er; [injection E as <- <- <- <-; by apply Sealing_nil|]. by eapply IH.
Qed.
End Sealing.

(** The nonces of [n] seals from the counter [k] on. *)
Definition counters (a : AEAD) (k : Z) (n : nat) : list (list byte) :=
  (fun i => nonceOf a (k + Z.of_nat i)) <$> seq 0 n.

Lemma counters_length a k n : length (counters a k n) = n.
Proof. unfold counters. by rewrite length_fmap, length_seq. Qed.

Lemma counters_lookup a k n i x : counters a k n !! i = Some x -> x = nonceOf a (k + Z.of_nat i) /\ (i < n)%nat.
Proof. unfold counters. rewrite list_lookup_fmap_Some. intros (j & -> & [-> ?]%lookup_seq). by split. Qed.

Lemma counters_NoDup a `{AEADOk a} k n : 0 <= k -> k + Z.of_nat n <= 256 ^ NonceSize a -> NoDup (counters a k n).
Proof.
  intros Hk Hn. pose proof nonce_size. apply NoDup_alt. intros i j x Hi Hj.
  apply counters_lookup in Hi as [-> ?], Hj as [E ?]. unfold nonceOf in E.
  apply le_inj in E; rewrite ?Z2Nat.id by lia; lia.
Qed.

Lemma counters_cons a k n : counters a k (Datatypes.S n) = nonceOf a k :: counters a (k + 1) n.
Proof.
  unfold counters. cbn [seq fmap list_fmap]. rewrite Z.add_0_r. f_equal. rewrite <- (fmap_S_seq 0 n), <- list_fmap_compose.
  apply list_fmap_ext. intros i x _. cbn. f_equal. lia.
Qed.

Lemma seals_zip a ps : forall k, seals a k ps = concat (zip_with (Seal a) (counters a k (length ps)) ps).
Proof.
  induction ps as [|p ps IH]; intros k; [done|]. cbn [length]. rewrite counters_cons. cbn [seals zip_with concat].
  by rewrite IH.
Qed.

(** What a connection has handed over: salts, of which the last gives the key,
    then what was sealed, the counter at the number of seals. *)
Definition Handing {S R} `{Reader S, Writer S} (s : S) (ciph : Cipher) (c : ConnState S R) : Prop :=
  c_Cipher c = ciph /\ exists salts bufs, Handed s (salts ++ bufs) (c_Conn c) /\
    Forall (fun salt => len salt = SaltSize ciph) salts /\
    match c_w c with
    | None => bufs = []
    | Some (a, nonce) =>
        (exists salt, last salts = Some salt /\ Encrypter ciph salt = inl a) /\ AEADOk a /\
        exists ps, concat bufs = seals a 0 ps /\ NonceAt a (len ps) nonce
    end.

Section Handing.
Context {S R : Type} `{Reader S, Writer S, RandOk R} (s : S) (ciph : Cipher) `{Hciph : CipherOk ciph}.

Lemma Handing_new (g : R) : Handing s ciph (NewConn s ciph g).
Proof. split; [done|]. exists [], []. by split_and!; [constructor|constructor|]. Qed.

(** Nothing but the reading side and the transport moves. *)
Lemma Handing_read (c c' : ConnState S R) :
  c_Cipher c' = c_Cipher c -> c_w c' = c_w c -> Handed (c_Conn c) [] (c_Conn c') ->
  Handing s ciph c -> Handing s ciph c'.
Proof.
  intros Ec Ew Hh [Hc (salts & bufs & Hs & Hl & Hw)]. split; [congruence|]. exists salts, bufs.
  split_and!; [|done|by rewrite Ew]. pose proof (Handed_app _ _ _ _ _ Hs Hh) as Ha. by rewrite app_nil_r in Ha.
Qed.

Lemma ensureWriter_Handing (c c' : ConnState S R) e :
  Handing s ciph c -> ensureWriter c = Some (e, c') -> Handing s ciph c'.
Proof.
  intros Hh. pose proof Hh as [Hc (salts & bufs & Hs & Hl & Hw)]. unfold ensureWriter, initWriter.
  destruct (c_w c) as [[a nonce]|] eqn:Ecw; [by intros [= _ <-]|]. subst bufs. rewrite app_nil_r in Hs.
  rewrite Hc. pose proof (@salt_size ciph Hciph). destruct (rand_ok (SaltSize ciph) (c_rand c)) as (salt & g' & -> & Hsalt); [lia|].
  destruct (cipher_ok salt Hsalt) as (a & He & _ & Ha). rewrite He.
  destruct (Write salt (c_Conn c)) as [[[n ew] s1]|] eqn:E; [|done]. cbn [mbind option_bind].
  pose proof (Handed_app _ _ _ _ _ Hs (Handed_write _ _ _ _ _ E)) as Hs1.
  assert (Forall (fun salt => len salt = SaltSize ciph) (salts ++ [salt])) as Hl1 by (apply Forall_app; by repeat constructor).
  destruct ew; intros [= <- <-]; (split; [done|]); exists (salts ++ [salt]), []; rewrite app_nil_r; (split_and!; [done|done|]);
    cbn [c_w]; [by rewrite ?Ecw|].
  split; [exists salt; by rewrite last_snoc|]. split; [done|]. exists []. split; [done|]. by apply NonceAt_zero.
Qed.

(** A call of the writer. *)
Lemma Handing_writer (c : ConnState S R) w w' :
  Handing s ciph c -> getWriter c = Some w ->
  (forall a k, AEADOk a -> w_AEAD w = a -> NonceAt a k (w_nonce w) -> Sealing a (w_Writer w) k w') ->
  Handing s ciph (putWriter c w').
Proof.
  intros [Hc (salts & bufs & Hs & Hl & Hw)] Hg Hstep. unfold getWriter in Hg.
  destruct (c_w c) as [[a nonce]|] eqn:Ecw; [|done]. cbn in Hg. injection Hg as <-.
  destruct Hw as (Hkey & Ha & ps & Ec & Hn).
  destruct (Hstep a _ Ha eq_refl Hn) as (Ha' & bufs' & qs & Hs' & Ec' & Hn'). cbn [w_Writer] in Hs'.
  split; [done|]. exists salts, (bufs ++ bufs'). cbn [putWriter c_Conn c_w]. rewrite Ha'.
  split_and!; [rewrite app_assoc; by eapply Handed_app|done..|].
  exists (ps ++ qs). split; [by rewrite concat_app, Ec, Ec', seals_app|by rewrite len_app].
Qed.

Lemma uses_Handing {T} `{Reader T} (us : list (Use T)) : forall (c c' : ConnState S R),
  Handing s ciph c -> uses us c = Some c' -> Handing s ciph c'.
Proof.
  induction us as [|[p|fuel r|n] us IH]; intros c c' Hh E; cbn [uses] in E; [by injection E as <-|..].
  - destruct (Write p c) as [[[m er] c1]|] eqn:Ew; [|done]. cbn in E. eapply IH; [|exact E]. clear E.
    unfold Write, Conn_Writer in Ew. destruct (ensureWriter c) as [[e1 c2]|] eqn:Ee; [|done]. cbn in Ew.
    pose proof (ensureWriter_Handing _ _ _ Hh Ee) as Hh2. destruct e1; [by injection Ew as <- <- <-|].
    destruct (getWriter c2) as [w|] eqn:Eg; [|done]. cbn in Ew. destruct (Write p w) as [[[m1 e1] w1]|] eqn:Ew1; [|done].
    injection Ew as <- <- <-. eapply Handing_writer; [done..|]. intros a k Ha <- Hn.
    destruct w as [x a nonce]. by eapply Write_Sealing.
  - destruct (ConnReadFrom fuel r c) as [[[[m er] c1] r1]|] eqn:Ew; [|done]. cbn in E. eapply IH; [|exact E]. clear E.
    unfold ConnReadFrom in Ew. destruct (ensureWriter c) as [[e1 c2]|] eqn:Ee; [|done]. cbn in Ew.
    pose proof (ensureWriter_Handing _ _ _ Hh Ee) as Hh2. destruct e1; [by injection Ew as <- <- <- <-|].
    destruct (getWriter c2) as [w|] eqn:Eg; [|done]. cbn in Ew.
    destruct (WriterReadFrom fuel r w) as [[[[m1 e1] w1] r2]|] eqn:Ew1; [|done].
    injection Ew as <- <- <- <-. eapply Handing_writer; [done..|]. intros a k Ha <- Hn.
    destruct w as [x a nonce]. unfold WriterReadFrom in Ew1. cbn [w_AEAD w_nonce] in *.
    destruct (nonce.[0:_]); [|done]. destruct (reslice _ _); [|done]. by eapply ReadFrom_Sealing.
  - destruct (Read n c) as [[[d er] c1]|] eqn:Er; [|done]. cbn in E. eapply IH; [|exact E]. clear E.
    unfold Read, Conn_Reader in Er. destruct (ensureReader c) as [[e1 c2]|] eqn:Ee; [|done]. cbn in Er.
    assert (Handing s ciph c2) as Hh2.
    { unfold ensureReader, initReader in Ee. destruct (c_r c); [by injection Ee as <- <-|].
      destruct (ReadFull _ _) as [[[salt e2] s1]|] eqn:Ef; [|done]. apply Handed_ReadFull in Ef. cbn in Ee.
      destruct e2; [|destruct (Decrypter _ _)]; injection Ee as <- <-; by eapply (Handing_read c). }
    destruct e1; [by injection Er as <- <- <-|]. unfold getReader in Er.
    destruct (c_r c2) as [[[[a nonce] buf] off]|] eqn:Ecr; [|done]. cbn in Er.
    destruct (Read n _) as [[[d1 e1] r1]|] eqn:Er1; [|done]. cbn in Er. injection Er as <- <- <-.
    apply Read_Handed in Er1. by apply (Handing_read c2).
Qed.
End Handing.

(** ** Forwarding loops *)

Lemma WriteTo_loop_spec {S W} `{ReaderOk S, ConnOk W} fuel :
  forall (r : ReaderState S) (w : W) b p k k' ct e n x ex out,
  AEADOk (r_AEAD r) -> NonceAt (r_AEAD r) k (r_nonce r) -> Delivers (r_Reader r) ct e ->
  Stream (r_AEAD r) k k' p ct -> r_buf r = Some b -> 0 <= r_off r <= len b ->
  Live w x ex out ->
  2 * len p + (if r_off r <? len b then 1 else 0) + 1 <= Z.of_nat fuel ->
  0 <= n -> n + len (zdrop (r_off r) b) + len p < 2 ^ 63 ->
  exists r' w', WriteTo_loop fuel r w n =
      Some (n + len (zdrop (r_off r) b) + len p,
            if bool_decide (e = EOF) then None else Some e, r', w') /\
    Live w' x ex (out ++ zdrop (r_off r) b ++ p).
Proof.
  induction fuel as [|fuel IH]; intros [s a nonce buf off] w b p k k' ct e n x ex out
    Ha Hn Hd Hst Hb Hoff HL Hf Hpos Hmax;
    cbn [r_AEAD r_nonce r_Reader r_buf r_off] in *; subst buf.
  { case_match; len_lia. }
  cbn [WriteTo_loop r_AEAD r_nonce r_Reader r_buf r_off]. bind_simpl.
  destruct (Z.ltb_spec off (len b)) as [Hlt|Hge].
  - rewrite slice_suffix by lia. bind_simpl. set (d := zdrop off b) in *.
    assert (len d = len b - off) as Hl by (subst d; len_lia).
    destruct (Live_Write d _ _ _ _ HL) as (w1 & -> & HL1). bind_simpl.
    pose proof (len_nonneg p). rewrite i64_small by lia.
    destruct (IH (mkReader s a nonce (Some b) (off + len d)) w1 b p k k' ct e (n + len d) x ex (out ++ d)
      Ha Hn Hd Hst eq_refl) as (r' & w' & -> & HL'); cbn [r_off]; try done; try lia.
    + replace (off + len d <? len b) with false by lia. lia.
    + rewrite zdrop_all, len_nil by lia. lia.
    + cbn [r_off] in HL' |- *. rewrite zdrop_all in HL' |- * by lia.
      rewrite len_nil, <- app_assoc in *. exists r', w'. split; [|done].
      do 4 f_equal. lia.
  - assert (zdrop off b = []) as Hz by (apply zdrop_all; lia). rewrite Hz, len_nil in *.
    pose proof (@overhead a Ha).
    destruct (read_record a s nonce k k' p ct e (scap recordBuf) (Some b) off Hn Hd Hst)
      as (d & er & s' & nonce' & k1 & p' & ct' & -> & Hn' & Hd' & Hst' & -> & Her).
    { change (scap recordBuf) with 32768. unfold payloadSizeMask. lia. }
    bind_simpl. destruct er as [er|].
    + destruct Her as (-> & Hp & ->). simpl in Hp. subst p'. eexists _, _. split.
      * do 4 f_equal. simpl. rewrite len_nil. lia.
      * by rewrite app_nil_r.
    + cbn [r_AEAD r_nonce r_Reader r_buf r_off]. rewrite len_app in *.
      destruct (IH (mkReader s' a nonce' (Some d) 0) w d p' k1 k' ct' e n x ex out
        Ha Hn' Hd' Hst' eq_refl) as (r' & w' & -> & HL'); cbn [r_off]; try done; try lia.
      * replace (0 <? len d) with true by lia. lia.
      * rewrite zdrop_neg by lia. lia.
      * cbn [r_off] in HL' |- *. rewrite zdrop_neg in HL' |- * by lia.
        exists r', w'. split; [|done]. do 4 f_equal. rewrite len_nil. lia.
Qed.

(** What [ReadFrom] sends for a source that delivers [p]: records that carry
    it, and a record of no bytes for the read that failed. *)
Lemma ReadFrom_loop_spec {S T} `{ConnOk S, ReaderOk T} a (Ha : AEADOk a) fuel :
  forall (s : S) nonce (r : T) k p e n x ex out,
  NonceAt a k nonce -> Delivers r p e -> Live s x ex out ->
  len p < Z.of_nat fuel -> 0 <= n -> n + len p < 2 ^ 63 ->
  exists w' r' k' ct, ReadFrom_loop fuel (mkWriter s a nonce) r n =
      Some (n + len p, if bool_decide (e = EOF) then None else Some e, w', r') /\
    Stream a k k' p ct /\ NonceAt a (k' + 2) (w_nonce w') /\
    Live (w_Writer w') x ex (out ++ ct ++ recordAt a k' []).
Proof.
  induction fuel as [|fuel IH]; intros s nonce r k p e n x ex out Hn Hd HL Hf Hpos Hmax.
  { len_lia. }
  cbn [ReadFrom_loop w_AEAD w_nonce w_Writer].
  destruct (read_ok r p e payloadSizeMask Hd) as (d & er & r1 & -> & Hl & Hpost); [done|].
  bind_simpl. destruct (record_at a k nonce d Hn) as (nonce1 & -> & Hn1).
  destruct (Live_Write (recordAt a k d) _ _ _ _ HL) as (s1 & -> & HL1). bind_simpl.
  destruct er as [er|].
  - destruct Hpost as (-> & -> & -> & Hd1).
    rewrite len_nil, Z.add_0_r, i64_small by len_lia.
    eexists _, _, k, []. split; [done|]. split; [constructor|]. done.
  - destruct Hpost as (Hne & p' & -> & Hd1).
    assert (1 <= len d <= payloadSizeMask) as Hld by (destruct d; [done|len_lia]).
    rewrite len_app in *. pose proof (len_nonneg p'). rewrite i64_small by lia.
    destruct (IH s1 nonce1 r1 (k + 2) p' e (n + len d) x ex (out ++ recordAt a k d) Hn1 Hd1 HL1)
      as (w' & r' & k' & ct & -> & Hst & Hn' & HL'); [lia..|].
    eexists _, _, k', (recordAt a k d ++ ct). split; [do 4 f_equal; lia|].
    split; [by constructor|]. split; [done|]. by rewrite <- !app_assoc in *.
Qed.

(** ** Authenticity *)

Lemma openField_inv {S} `{ReaderOk S} a (Ha : AEADOk a) (s : S) nonce k bs e c n buf off p r' :
  NonceAt a k nonce -> Delivers s bs e -> 0 <= n ->
  openField c n (mkReader s a nonce buf off) = Some (p, None, r') ->
  exists x s', p = blit (Seal a (nonceOf a k) x) 0 x /\ len x + Overhead a = n /\
    bs = Seal a (nonceOf a k) x ++ zdrop n bs /\
    r' = mkReader s' a (bump a nonce) buf off /\ Delivers s' (zdrop n bs) e.
Proof.
  intros Hn Hd Hpos. unfold openField. destruct (reslice _ _); [|done]. bind_simpl.
  cbn [r_Reader r_AEAD r_nonce r_buf r_off].
  destruct (ReadFull_spec n s bs e Hd Hpos) as (s' & -> & Hd'). bind_simpl.
  destruct (Z.leb_spec n (len bs)) as [Hle|]; [|done].
  rewrite (NonceAt_take a k) by done. destruct (Open a _ _) as [x|] eqn:Ho; [|done].
  intros [= <- <-]. apply open_sound in Ho; [|by apply len_nonceOf].
  exists x, s'. rewrite <- Ho. split; [done|]. split; [|split; [by rewrite ztake_zdrop|done]].
  apply (f_equal len) in Ho. rewrite seal_len in Ho by by apply len_nonceOf.
  rewrite len_ztake in Ho. lia.
Qed.

Lemma read_zero {S} `{ReaderOk S} a (Ha : AEADOk a) (s : S) nonce k bs e c buf off :
  NonceAt a k nonce -> Delivers s (recordAt a k [] ++ bs) e ->
  2 + Overhead a <= c ->
  exists r', read c (mkReader s a nonce buf off) = Some ([], Some ErrZeroChunk, r').
Proof.
  intros Hn Hd Hc. unfold read. cbn [r_nonce r_AEAD].
  rewrite (NonceAt_slice a k) by done. bind_simpl.
  unfold recordAt in Hd. rewrite <- app_assoc in Hd.
  destruct (openField_ok a s nonce k (be2 (len (@nil byte))) _ e c buf off Hn Hd)
    as (s1 & nonce1 & r1 & E1 & Hd1 & Hn1); [done|].
  change (len (be2 (len (@nil byte)))) with 2 in E1. rewrite E1. bind_simpl.
  destruct (be2_index (len (@nil byte)) r1) as (p0 & p1 & -> & E & Hsz); [done|].
  bind_simpl. rewrite E. bind_simpl. rewrite Hsz. by eexists.
Qed.

(** ** Packets *)

Definition zeroNonce (a : AEAD) : list byte := ztake (NonceSize a) zerononce.

(** [pkt] is a salt and [p] sealed under the session key it selects. *)
Definition Sealed (ciph : Cipher) (p pkt : list byte) : Prop :=
  exists salt a, len salt = SaltSize ciph /\ Encrypter ciph salt = inl a /\
    pkt = salt ++ Seal a (zeroNonce a) p.

Lemma zeroNonce_ok a (Ha : AEADOk a) :
  len (zeroNonce a) = NonceSize a /\ zerononce.[0:NonceSize a] = Some (zeroNonce a).
Proof.
  pose proof (@nonce_size a Ha). assert (len zerononce = 128) as Hz by done.
  split; [unfold zeroNonce; rewrite len_ztake; lia|].
  apply slice_prefix. lia.
Qed.

Lemma Pack_spec {R} `{RandOk R} ciph (Hc : CipherOk ciph) n p (g : R) :
  SaltSize ciph <= n ->
  exists salt a g', len salt = SaltSize ciph /\ Encrypter ciph salt = inl a /\ AEADOk a /\
    Pack n p ciph g = Some
      (if n <? SaltSize ciph + len p + Overhead a
       then (None, Some ErrShortBuffer, g')
       else (Some (salt ++ Seal a (zeroNonce a) p), None, g')).
Proof.
  intros Hn. pose proof (@salt_size ciph Hc). unfold Pack, reslice. simpl scap.
  replace ((0 <=? SaltSize ciph) && (SaltSize ciph <=? n)) with true by lia. bind_simpl.
  destruct (rand_ok (SaltSize ciph) g) as (salt & g' & -> & Hl); [lia|].
  destruct (cipher_ok salt Hl) as (a & He & _ & Ha). rewrite He.
  exists salt, a, g'. do 3 (split; [done|]).
  destruct (n <? _); [done|]. by rewrite (proj2 (zeroNonce_ok a Ha)).
Qed.

(** ** Properties *)

(** C1: for any cipher that keeps its promise, any transports and any
    segmentation, whatever non-empty buffers are written to one connection,
    the connection at the other end reads exactly their concatenation, and
    then the end of the transport. *)
Theorem Conn_roundtrip {S T R} `{ConnOk S, ReaderOk T, RandOk R} ciph (s : S) (t : T)
    (g g' : R) ps bs e out e' :
  CipherOk ciph -> Live s bs e out -> Forall (fun p => p <> []) ps -> ps <> [] ->
  exists c ct, write_all ps (NewConn s ciph g) = Some (None, c) /\
    Sent (c_Conn c) = out ++ ct /\
    (Delivers t ct e' ->
     exists t', ReadFull (len (concat ps)) (NewConn t ciph g') = Some (concat ps, None, t') /\
       Delivers t' [] e').
Proof.
  intros Hc HL Hps Hne.
  destruct (Conn_write_all ps (NewConn s ciph g) [] [] bs e out) as (c & ct & Hw & Hciph & HW & HL');
    [done|by rewrite app_nil_r|done|].
  exists c, ct. split; [done|]. split; [apply HL'|]. intros Hd.
  apply (ReadFull_app (concat ps) []); [|done]. rewrite app_nil_r.
  split; [done|]. cbn [NewConn c_r]. right. exists ct. split; [done|].
  apply Written_Session in HW; [by rewrite Hciph in HW|].
  destruct ps as [|q qs]; [done|]. inversion Hps; subst. by destruct q.
Qed.

(** C5: whatever the network delivers, a record is handed to the caller only if
    its length field and its payload were sealed under the session key with
    the next two counters: nothing forged, replayed, reordered or truncated is
    ever returned. *)
Theorem read_authentic {S} `{ReaderOk S} a (s : S) nonce k bs e c buf off d r' :
  AEADOk a -> NonceAt a k nonce -> Delivers s bs e ->
  read c (mkReader s a nonce buf off) = Some (d, None, r') ->
  exists h rest s' nonce', bs = Seal a (nonceOf a k) h ++ Seal a (nonceOf a (k + 1)) d ++ rest /\
    r' = mkReader s' a nonce' buf off /\ NonceAt a (k + 2) nonce' /\
    Delivers s' rest e /\ 1 <= len d <= payloadSizeMask.
Proof.
  intros Ha Hn Hd. pose proof (@overhead a Ha). unfold read. cbn [r_nonce r_AEAD].
  rewrite (NonceAt_slice a k) by done. bind_simpl.
  destruct (openField c (2 + Overhead a) (mkReader s a nonce buf off)) as [[[q [er|]] r1]|] eqn:E1;
    [done| |done]. bind_simpl.
  apply (openField_inv a Ha s nonce k bs e) in E1 as (h & s1 & Eq & Hl & Hbs & -> & Hd1); [|done..|lia].
  destruct (q.[0]) as [p0|]; [|done]. destruct (q.[1]) as [p1|]; [|done]. bind_simpl.
  set (size := Z.land _ _).
  assert (0 <= size < 2 ^ 14) as Hs.
  { subst size. change payloadSizeMask with (Z.ones 14). rewrite Z.land_ones by lia.
    by apply Z.mod_pos_bound. }
  destruct (Z.eqb_spec size 0) as [|Hz]; [done|].
  destruct (openField c (size + Overhead a) _) as [[[w [er|]] r2]|] eqn:E2; [done| |done].
  bind_simpl. intros [= <- <-].
  apply (openField_inv a Ha s1 (bump a nonce) (k + 1) (zdrop (2 + Overhead a) bs) e) in E2 as (x & s2 & Ex & Hlx & Hbs2 & -> & Hd2);
    [|by apply NonceAt_bump|done|lia].
  assert (ztake size w = x) as ->.
  { rewrite Ex, blit_0 by (rewrite seal_len by (by apply len_nonceOf); lia).
    apply ztake_app_len. lia. }
  eexists h, _, s2, _. split; [rewrite Hbs, Hbs2 at 1; reflexivity|]. split; [done|].
  split; [|split; [done|unfold payloadSizeMask; change (2 ^ 14) with 16384 in Hs; lia]].
  replace (k + 2) with (k + 1 + 1) by lia.
  apply (NonceAt_bump a _ _ (NonceAt_bump a _ _ Hn)).
Qed.

(** C7: no two seals of one direction of a connection use the same nonce.
    However the connection is used, whatever its transport does and whichever
    writes fail, what it hands to the transport for writing is salts, the last
    of which gives the key, and then seals under that key, of some plaintexts
    one after the other, the nonce of the i-th the little-endian counter i: up
    to the 256^NonceSize-th seal all the nonces differ. *)
Theorem nonces_unique {S T R} `{Reader S, Writer S, Reader T, RandOk R} ciph (s : S) (g : R) (us : list (Use T)) c :
  CipherOk ciph -> uses us (NewConn s ciph g) = Some c ->
  exists salts bufs, Handed s (salts ++ bufs) (c_Conn c) /\
    Forall (fun salt => len salt = SaltSize ciph) salts /\
    match c_w c with
    | None => bufs = []
    | Some (a, _) => exists nonces ps,
        (exists salt, last salts = Some salt /\ Encrypter ciph salt = inl a) /\
        length ps = length nonces /\ concat bufs = concat (zip_with (Seal a) nonces ps) /\
        (forall i nonce, nonces !! i = Some nonce -> nonce = le (Z.to_nat (NonceSize a)) (Z.of_nat i)) /\
        (len nonces <= 256 ^ NonceSize a -> NoDup nonces)
    end.
Proof.
  intros Hc E. destruct (uses_Handing s ciph us _ _ (Handing_new s ciph g) E) as [_ (salts & bufs & Hh & Hl & Hw)].
  exists salts, bufs. split_and!; [done..|]. destruct (c_w c) as [[a nonce]|]; [|done].
  destruct Hw as (Hkey & Ha & ps & -> & _). exists (counters a 0 (length ps)), ps.
  split_and!; [done|by rewrite counters_length|by apply seals_zip|by intros i x [-> _]%counters_lookup|].
  rewrite <- (Z.add_0_l (len _)). unfold len. rewrite counters_length. by apply counters_NoDup.
Qed.

(** [WriteTo] forwards everything the reader delivers to the writer, in
    order and in full, and reports the count and the end of the stream as the
    io.WriterTo contract asks: nil at EOF, the error otherwise.  It ends: two
    turns per byte and two more are enough. *)
Theorem ReaderWriteTo_spec {S W} `{ReaderOk S, ConnOk W} (r : ReaderState S) (w : W)
    bs e x ex out fuel :
  Delivers r bs e -> Live w x ex out ->
  len bs < 2 ^ 63 -> 2 * len bs + 2 <= Z.of_nat fuel ->
  exists r' w', ReaderWriteTo fuel w r =
      Some (len bs, if bool_decide (e = EOF) then None else Some e, r', w') /\
    Live w' x ex (out ++ bs).
Proof.
  destruct r as [s a nonce buf off].
  intros (Ha & k & k' & p & ct & Hn & Hd & Hst & Hb) HL Hmax Hf.
  cbn [r_AEAD r_nonce r_Reader r_buf r_off] in *. unfold ReaderWriteTo.
  cbn [r_AEAD r_nonce r_Reader r_buf r_off]. destruct buf as [b|].
  - destruct Hb as [Hoff ->]. rewrite len_app in *.
    assert (0 < len (zdrop off b)) by len_lia.
    apply (WriteTo_loop_spec fuel (mkReader s a nonce (Some b) off) w b p k k' ct e 0 x ex out);
      cbn [r_off]; try done; try lia. case_match; lia.
  - subst p. set (b := replicate _ _). assert (len b = bufSize) as Hlb by done.
    destruct (WriteTo_loop_spec fuel (mkReader s a nonce (Some b) bufSize) w b bs k k' ct e 0 x ex out)
      as (r' & w' & E & HL'); cbn [r_off]; try done.
    + rewrite Hlb, Z.ltb_irrefl. lia.
    + cbn [r_off] in E, HL'. rewrite zdrop_all in E, HL' by lia. by exists r', w'.
Qed.

(** [ReadFrom] sends all of its source as records and reports the count and
    the source's error (nil for EOF); but the read that ends it also goes out,
    as a record of length zero, which this package's [Reader] refuses with
    [ErrZeroChunk]. *)
Theorem WriterReadFrom_spec {S T} `{ConnOk S, ReaderOk T} a (s : S) nonce (r : T) k p e x ex out fuel :
  AEADOk a -> NonceAt a k nonce -> Delivers r p e -> Live s x ex out ->
  len p < 2 ^ 63 -> len p < Z.of_nat fuel ->
  exists w' r' k' ct, WriterReadFrom fuel r (mkWriter s a nonce) =
      Some (len p, if bool_decide (e = EOF) then None else Some e, w', r') /\
    Stream a k k' p ct /\ Live (w_Writer w') x ex (out ++ ct ++ recordAt a k' []) /\
    forall (t : T) nonce' bs e' c, NonceAt a k' nonce' -> 2 + Overhead a <= c ->
      Delivers t (recordAt a k' [] ++ bs) e' ->
      exists r', read c (mkReader t a nonce' None 0) = Some ([], Some ErrZeroChunk, r').
Proof.
  intros Ha Hn Hd HL Hmax Hf. unfold WriterReadFrom. cbn [w_AEAD w_nonce].
  rewrite (NonceAt_slice a k) by done. bind_simpl. pose proof (@overhead a Ha).
  destruct (record_fits a (2 + Overhead a + payloadSizeMask + Overhead a)) as (y & ->);
    [lia|unfold payloadSizeMask; lia|]. bind_simpl.
  destruct (ReadFrom_loop_spec a Ha fuel s nonce r k p e 0 x ex out Hn Hd HL)
    as (w' & r' & k' & ct & -> & Hst & _ & HL'); [lia..|].
  exists w', r', k', ct. do 3 (split; [done|]). intros t nonce' bs e' c Hn' Hc Hd'.
  by apply (read_zero a Ha t nonce' k' bs e').
Qed.

(** A failed write of one record is reported with its full length: [Write]
    returns [len p] and the error although nothing of [p] need have reached
    the connection. *)
Theorem Write_failed_count {S} `{Writer S} a (s s' : S) nonce p n e :
  AEADOk a -> NonceAt a 0 nonce -> 0 < len p <= payloadSizeMask ->
  Write (recordAt a 0 p) s = Some (n, Some e, s') ->
  exists w', Write p (mkWriter s a nonce) = Some (len p, Some e, w').
Proof.
  intros Ha Hn Hp Hw. unfold Write, AEAD_Writer. cbn [w_nonce w_AEAD].
  rewrite (NonceAt_slice a 0) by done. bind_simpl. replace (len p =? 0) with false by lia.
  destruct (length p) as [|f] eqn:Ef; [unfold len in Hp; lia|]. cbn [Write_loop].
  replace ((0 <? len p) && is_nil None) with true by (simpl; lia). cbn [w_AEAD w_nonce w_Writer].
  set (nr := if _ <? _ then _ else _).
  assert (nr = len p) as ->.
  { subst nr. destruct (Z.ltb_spec (len p) (0 + payloadSizeMask)); lia. }
  destruct (record_fits a (2 + Overhead a + len p + Overhead a)) as (y & ->);
    [pose proof (@overhead a Ha); lia|pose proof (@overhead a Ha); lia|]. bind_simpl.
  rewrite Z.add_0_l, slice_prefix, ztake_all by lia. bind_simpl.
  destruct (record_at a 0 nonce p Hn) as (nonce' & -> & _). rewrite Hw. bind_simpl.
  destruct f; simpl; rewrite andb_false_r; by eexists.
Qed.

(** [Unpack] never panics and returns [p] exactly for the packets that seal
    [p] under the key and fit the destination; every other packet is an
    error. *)
Theorem Unpack_spec ciph n pkt :
  CipherOk ciph -> 0 <= n ->
  exists r er, Unpack n pkt ciph = Some (r, er) /\
    (er = None <-> is_Some r) /\
    forall p, r = Some p <-> Sealed ciph p pkt /\ len p <= n.
Proof.
  intros Hc Hn. pose proof (@salt_size ciph Hc). unfold Unpack.
  destruct (Z.ltb_spec (len pkt) (SaltSize ciph)) as [Hs|Hs].
  { eexists _, _. split; [done|]. split; [split; [done|by intros [? ?]]|].
    intros p. split; [done|]. intros [(salt & a & Hl & _ & ->) _]. len_lia. }
  rewrite slice_prefix by lia. bind_simpl. set (salt := ztake (SaltSize ciph) pkt).
  assert (len salt = SaltSize ciph) as Hl by (subst salt; len_lia).
  destruct (cipher_ok salt Hl) as (a & He & -> & Ha). pose proof (@overhead a Ha).
  destruct (zeroNonce_ok a Ha) as [Hzl Hz]. set (c := zdrop (SaltSize ciph) pkt).
  assert (pkt = salt ++ c) as Hpkt by (symmetry; apply ztake_zdrop).
  assert (Hlp : len pkt = SaltSize ciph + len c) by (rewrite Hpkt, len_app; lia).
  assert (Hse : forall p, Sealed ciph p pkt <-> c = Seal a (zeroNonce a) p).
  { intros p. split.
    - intros (salt' & a' & Hl' & He' & E). rewrite Hpkt in E.
      apply app_inj_1 in E as [<- ->]; [congruence|unfold len in *; lia].
    - intros Hp. exists salt, a. by rewrite Hpkt, Hp at 1. }
  assert (Hlen : forall p, c = Seal a (zeroNonce a) p -> len c = len p + Overhead a).
  { intros p ->. by apply seal_len. }
  destruct (Z.ltb_spec (len pkt) (SaltSize ciph + Overhead a)) as [Hs2|Hs2].
  { eexists _, _. split; [done|]. split; [split; [done|by intros [? ?]]|].
    intros p. rewrite Hse. split; [done|]. intros [Hp%Hlen _]. len_lia. }
  destruct (Z.ltb_spec (SaltSize ciph + n + Overhead a) (len pkt)) as [Hs3|Hs3].
  { eexists _, _. split; [done|]. split; [split; [done|by intros [? ?]]|].
    intros p. rewrite Hse. split; [done|]. intros [Hp%Hlen Hle]. lia. }
  rewrite Hz. bind_simpl. rewrite slice_suffix by lia. bind_simpl. fold c.
  destruct (Open a (zeroNonce a) c) as [x|] eqn:Ho.
  - apply open_sound in Ho; [|done]. eexists _, _. split; [done|]. split; [by split|].
    intros p. rewrite Hse. split.
    + intros [= <-]. split; [done|]. apply Hlen in Ho. lia.
    + intros [Hp _]. rewrite Ho in Hp. f_equal.
      apply (f_equal (Open a (zeroNonce a))) in Hp. rewrite !open_seal in Hp by done. congruence.
  - eexists _, _. split; [done|]. split; [split; [done|by intros [? ?]]|].
    intros p. rewrite Hse. split; [done|]. intros [Hp _]. rewrite Hp, open_seal in Ho; done.
Qed.

(** A datagram written to one packet connection is handed to its socket as
    a packet that seals it, for the same address, unless it does not fit in
    64 KiB once sealed, which is an error and sends nothing; and a packet
    connection whose socket receives such a packet returns the datagram. *)
Theorem PacketConn_roundtrip {S T R A} `{PacketConn S A, PacketConn T A, RandOk R} ciph
    (s : S) (t : T) (g : R) p (addr : A) :
  CipherOk ciph ->
  (exists pkt g', Sealed ciph p pkt /\
    (len pkt <= maxPacketSize ->
     WriteTo p addr (mkPacketConn s ciph g) =
       ('(_, e, s') ← WriteTo pkt addr s; Some (len p, e, mkPacketConn s' ciph g'))) /\
    (maxPacketSize < len pkt ->
     WriteTo p addr (mkPacketConn s ciph g) = Some (0, Some ErrShortBuffer, mkPacketConn s ciph g'))) /\
  (forall n pkt t', SaltSize ciph <= n -> len pkt <= n -> Sealed ciph p pkt ->
     ReadFrom n t = Some (pkt, len pkt, addr, None, t') ->
     ReadFrom n (mkPacketConn t ciph g) = Some (p, len p, addr, None, mkPacketConn t' ciph g)).
Proof.
  intros Hc. pose proof (@salt_size ciph Hc). split.
  - destruct (Pack_spec ciph Hc maxPacketSize p g) as (salt & a & g' & Hl & He & Ha & Hp);
      [unfold maxPacketSize; lia|].
    exists (salt ++ Seal a (zeroNonce a) p), g'. split; [by exists salt, a|].
    pose proof (proj1 (zeroNonce_ok a Ha)) as Hz.
    rewrite len_app, seal_len, Hl by done. cbn [WriteTo AEAD_PacketConn p_Cipher p_rand p_PacketConn].
    rewrite Hp. split; intros Hlen.
    + replace (maxPacketSize <? _) with false by lia. done.
    + replace (maxPacketSize <? _) with true by lia. done.
  - intros n pkt t' Hn Hle Hs Hr. cbn [ReadFrom AEAD_PacketConn p_Cipher p_rand p_PacketConn].
    rewrite Hr. bind_simpl. unfold reslice. simpl scap.
    replace ((0 <=? SaltSize ciph) && (SaltSize ciph <=? n)) with true by lia. bind_simpl.
    destruct (Unpack_spec ciph (n - SaltSize ciph) pkt Hc) as (r & er & -> & Her & Hr'); [lia|].
    bind_simpl. assert (r = Some p) as ->.
    { apply Hr'. split; [done|]. destruct Hs as (salt & a & Hl & He & ->).
      destruct (cipher_ok salt Hl) as (a' & He' & _ & Ha). rewrite He in He'. injection He' as <-.
      pose proof (@overhead a Ha). rewrite len_app, seal_len in Hle by apply (proj1 (zeroNonce_ok a Ha)).
      lia. }
    rewrite (proj2 Her) by done. done.
Qed.

Lemma metaCipher_ok hkdf psk mk :
  (forall s t i n, 0 <= n <= 255 * 20 -> len (hkdf s t i n) = n) -> len psk <= 32 ->
  (forall k, len k = len psk -> exists a, mk k = inl a /\ AEADOk a) ->
  CipherOk (metaCipher hkdf psk mk) /\
  SaltSize (metaCipher hkdf psk mk) = Z.max 16 (len psk).
Proof.
  intros Hk Hl Hmk. pose proof (len_nonneg psk).
  assert (metaSaltSize psk = Z.max 16 (len psk)) as Hs.
  { unfold metaSaltSize. destruct (Z.ltb_spec 16 (len psk)); lia. }
  split; [|done]. split; [cbn [metaCipher SaltSize]; lia|]. intros salt _.
  destruct (Hmk (hkdfSHA1 hkdf psk salt (str "ss-subkey") (len psk))) as (a & Ha & Hok).
  { apply Hk. lia. }
  exists a. by cbn [metaCipher Encrypter Decrypter]; unfold subkeyed.
Qed.

(** A pre-shared key is accepted exactly in the sizes the ciphers take, 16,
    24 or 32 bytes for AES-GCM and 32 for the ChaCha20 ones; the cipher made
    of it keeps the promise of [CipherOk], with salts of at least 16 bytes. *)
Theorem ciphers_ok hkdf gcm chacha xchacha psk :
  (forall s t i n, 0 <= n <= 255 * 20 -> len (hkdf s t i n) = n) ->
  (forall k, len k ∈ [16; 24; 32] -> exists a, gcm k = inl a /\ AEADOk a) ->
  (forall k, len k = 32 -> exists a, chacha k = inl a /\ AEADOk a) ->
  (forall k, len k = 32 -> exists a, xchacha k = inl a /\ AEADOk a) ->
  let good (mk : list byte -> Cipher + error) (sizes : list Z) :=
    if decide (len psk ∈ sizes)
    then exists c, mk psk = inl c /\ CipherOk c /\ KeySize c = len psk /\
           SaltSize c = Z.max 16 (len psk)
    else exists e, mk psk = inr e in
  good (AESGCM hkdf gcm) [16; 24; 32] /\ good (Chacha20Poly1305 hkdf chacha) [32] /\
  good (XChacha20Poly1305 hkdf xchacha) [32].
Proof.
  intros Hk Hg Hch Hx good.
  pose proof (fun mk => metaCipher_ok hkdf psk mk Hk) as Hmeta.
  split_and!; unfold good; (destruct decide as [Hin|Hnin]).
  - assert (len psk = 16 \/ len psk = 24 \/ len psk = 32) as Hl by set_solver.
    unfold AESGCM. replace ((len psk =? 16) || (len psk =? 24) || (len psk =? 32)) with true by lia.
    destruct (Hmeta gcm) as [? ?]; [lia| |eauto 10]. intros k Hkl. apply Hg. by rewrite Hkl.
  - unfold AESGCM. replace ((len psk =? 16) || (len psk =? 24) || (len psk =? 32)) with false; [eauto|].
    symmetry. rewrite !orb_false_iff, !Z.eqb_neq. set_solver.
  - assert (len psk = 32) as Hl by set_solver. unfold Chacha20Poly1305. rewrite Hl.
    destruct (Hmeta chacha) as [? ?]; [lia|rewrite Hl; done|].
    rewrite Hl in *. eexists. split; [done|]. done.
  - unfold Chacha20Poly1305. replace (len psk =? 32) with false; [eauto|].
    symmetry. apply Z.eqb_neq. set_solver.
  - assert (len psk = 32) as Hl by set_solver. unfold XChacha20Poly1305. rewrite Hl.
    destruct (Hmeta xchacha) as [? ?]; [lia|rewrite Hl; done|].
    rewrite Hl in *. eexists. split; [done|]. done.
  - unfold XChacha20Poly1305. replace (len psk =? 32) with false; [eauto|].
    symmetry. apply Z.eqb_neq. set_solver.
Qed.

(** ** Witnesses

    An AEAD that writes the nonce in front of the plaintext keeps the laws. *)

Definition toyAEAD : AEAD := mkAEAD 12 12
  (fun n p => n ++ p)
  (fun n c => if bool_decide (take 12 c = n) then Some (drop 12 c) else None).

#[global] Instance toyAEAD_ok : AEADOk toyAEAD.
Proof.
  split; simpl; try done.
  - intros n p Hn. len_lia.
  - intros n p Hn. assert (length n = 12%nat) as Hl by (unfold len in Hn; lia).
    by rewrite take_app_length', drop_app_length', bool_decide_eq_true_2 by done.
  - intros n c p Hn. case_bool_decide as E; [|done]. intros [= <-].
    rewrite <- E. by rewrite take_drop.
Defined.

Definition toyCipher : Cipher := mkCipher 32 2 (fun _ => inl toyAEAD) (fun _ => inl toyAEAD).

#[global] Instance toyCipher_ok : CipherOk toyCipher.
Proof. split; [done|]. intros salt _. exists toyAEAD. split; [done|]. split; [done|apply _]. Defined.

Lemma Conn_roundtrip_witness :
  let ps := [str "hello"; str "world"] in
  let s := dialed [] EOF in
  let t := dialed [[z2b 0; z2b 0] ++ recordAt toyAEAD 0 (str "hello") ++
    recordAt toyAEAD 2 (str "world")] EOF in
  exists c ct, write_all ps (NewConn s toyCipher tt) = Some (None, c) /\
    Sent (c_Conn c) = [] ++ ct /\
    (Delivers t ct EOF ->
     exists t', ReadFull (len (concat ps)) (NewConn t toyCipher tt) = Some (concat ps, None, t') /\
       Delivers t' [] EOF).
Proof.
  apply (Conn_roundtrip toyCipher (dialed [] EOF) (dialed [[z2b 0; z2b 0] ++ recordAt toyAEAD 0 (str "hello") ++
    recordAt toyAEAD 2 (str "world")] EOF) tt tt
    [str "hello"; str "world"] [] EOF [] EOF); [apply _|by apply (dialed_Live [])| |discriminate].
  repeat constructor; discriminate.
Defined.

Lemma read_authentic_witness :
  let s := dialed [recordAt toyAEAD 0 (str "data") ++ str "more"] EOF in
  match read 32768 (NewReader s toyAEAD) with
  | Some (d, None, r') => exists h rest s' nonce',
      recordAt toyAEAD 0 (str "data") ++ str "more" =
        Seal toyAEAD (nonceOf toyAEAD 0) h ++ Seal toyAEAD (nonceOf toyAEAD (0 + 1)) d ++ rest /\
      r' = mkReader s' toyAEAD nonce' None 0 /\ NonceAt toyAEAD (0 + 2) nonce' /\
      Delivers s' rest EOF /\ 1 <= len d <= payloadSizeMask
  | _ => False
  end.
Proof.
  intros s. destruct (read 32768 (NewReader s toyAEAD)) as [[[d [er|]] r']|] eqn:E;
    [vm_compute in E; discriminate E| |vm_compute in E; discriminate E].
  apply (read_authentic toyAEAD s (replicate 32 (z2b 0)) 0
    (recordAt toyAEAD 0 (str "data") ++ str "more") EOF 32768 None 0 d r');
    [apply _|by apply NonceAt_zero; apply _| |exact E].
  split; [apply app_nil_r|]. split; [constructor; [discriminate|constructor]|done].
Defined.

(** A transport that breaks after 60 bytes, in the third use, and is used on:
    five seals. *)
Lemma nonces_unique_witness :
  let s := mkWire [] EOF [] (Some 60) false in
  let c := uses (T := Wire) [UseWrite (str "hello"); UseWrite []; UseReadFrom 9 (dialed [str "world"] EOF); UseRead 9]
    (NewConn s toyCipher tt) in
  (fun c => (Sent (c_Conn c), c_w c)) <$> c =
    Some ([z2b 0; z2b 0] ++ recordAt toyAEAD 0 (str "hello") ++
        Seal toyAEAD (nonceOf toyAEAD 2) [z2b 0; z2b 0] ++ take 13 (recordAt toyAEAD 3 (str "world")),
      Some (toyAEAD, le 32 5)) /\
  exists c' salts bufs nonces ps, c = Some c' /\ Handed s (salts ++ bufs) (c_Conn c') /\
    concat bufs = concat (zip_with (Seal toyAEAD) nonces ps) /\ (len nonces <= 256 ^ 12 -> NoDup nonces).
Proof.
  intros s c. assert ((fun c => (Sent (c_Conn c), c_w c)) <$> c =
    Some ([z2b 0; z2b 0] ++ recordAt toyAEAD 0 (str "hello") ++
        Seal toyAEAD (nonceOf toyAEAD 2) [z2b 0; z2b 0] ++ take 13 (recordAt toyAEAD 3 (str "world")),
      Some (toyAEAD, le 32 5))) as Hc by (vm_compute; reflexivity).
  split; [exact Hc|]. destruct c as [c'|] eqn:E; [|discriminate Hc].
  destruct (nonces_unique toyCipher s tt _ c' toyCipher_ok E) as (salts & bufs & Hh & _ & Hw).
  injection Hc as _ Hc. rewrite Hc in Hw.
  destruct Hw as (nonces & ps & _ & _ & Ec & _ & Hnd). exists c', salts, bufs, nonces, ps.
  split; [reflexivity|]. split; [exact Hh|]. split; [exact Ec|exact Hnd].
Defined.

Lemma ReaderWriteTo_spec_witness :
  let r := NewReader (dialed [recordAt toyAEAD 0 (str "data")] EOF) toyAEAD in
  let w := dialed [] EOF in
  exists r' w', ReaderWriteTo 10 w r =
      Some (len (str "data"), if bool_decide (EOF = EOF) then None else Some EOF, r', w') /\
    Live w' [] EOF ([] ++ str "data").
Proof.
  apply (ReaderWriteTo_spec
    (NewReader (dialed [recordAt toyAEAD 0 (str "data")] EOF) toyAEAD) (dialed [] EOF)
    (str "data") EOF [] EOF [] 10); [|by apply (dialed_Live [])|done|done].
  apply (NewReader_Delivers _ toyAEAD 2 (str "data") (recordAt toyAEAD 0 (str "data") ++ []));
    [apply _|split; [done|split; [constructor; [discriminate|constructor]|done]]|].
  apply (st_rec toyAEAD 0 2 (str "data") [] []); [done|constructor].
Defined.

Lemma WriterReadFrom_spec_witness :
  let r := dialed [str "data"] EOF in
  exists w' r' k' ct, WriterReadFrom 5 r (mkWriter (dialed [] EOF) toyAEAD (replicate 32 (z2b 0))) =
      Some (len (str "data"), if bool_decide (EOF = EOF) then None else Some EOF, w', r') /\
    Stream toyAEAD 0 k' (str "data") ct /\
    Live (w_Writer w') [] EOF ([] ++ ct ++ recordAt toyAEAD k' []) /\
    forall (t : Wire) nonce' bs e' c, NonceAt toyAEAD k' nonce' -> 2 + Overhead toyAEAD <= c ->
      Delivers t (recordAt toyAEAD k' [] ++ bs) e' ->
      exists r', read c (mkReader t toyAEAD nonce' None 0) = Some ([], Some ErrZeroChunk, r').
Proof.
  apply (WriterReadFrom_spec toyAEAD (dialed [] EOF) (replicate 32 (z2b 0)) (dialed [str "data"] EOF)
    0 (str "data") EOF [] EOF [] 5); [apply _|by apply NonceAt_zero; apply _| | |done|done].
  - split; [done|]. split; [constructor; [discriminate|constructor]|done].
  - by apply (dialed_Live []).
Defined.

Lemma Write_failed_count_witness :
  exists w', Write (str "data") (mkWriter (mkWire [] EOF [] (Some 0) false) toyAEAD
    (replicate 32 (z2b 0))) = Some (4, Some (ErrIO 0), w').
Proof.
  apply (Write_failed_count toyAEAD (mkWire [] EOF [] (Some 0) false)
    (mkWire [] EOF [] (Some 0) false) (replicate 32 (z2b 0)) (str "data") 0 (ErrIO 0));
    [apply _|by apply NonceAt_zero; apply _|done|reflexivity].
Defined.

Lemma Unpack_spec_witness :
  exists r er, Unpack 100 (str "ab" ++ Seal toyAEAD (zeroNonce toyAEAD) (str "data")) toyCipher
      = Some (r, er) /\
    (er = None <-> is_Some r) /\
    forall p, r = Some p <->
      Sealed toyCipher p (str "ab" ++ Seal toyAEAD (zeroNonce toyAEAD) (str "data")) /\ len p <= 100.
Proof. apply (Unpack_spec toyCipher 100); [apply _|done]. Defined.

Lemma PacketConn_roundtrip_witness :
  let s : Mailbox := ([], []) in
  let t : Mailbox := ([(str "ab" ++ Seal toyAEAD (zeroNonce toyAEAD) (str "data"), 7%nat)], []) in
  (exists pkt g', Sealed toyCipher (str "data") pkt /\
    (len pkt <= maxPacketSize ->
     WriteTo (str "data") 7%nat (mkPacketConn s toyCipher tt) =
       ('(_, e, s') ← WriteTo pkt 7%nat s; Some (len (str "data"), e, mkPacketConn s' toyCipher g'))) /\
    (maxPacketSize < len pkt ->
     WriteTo (str "data") 7%nat (mkPacketConn s toyCipher tt) =
       Some (0, Some ErrShortBuffer, mkPacketConn s toyCipher g'))) /\
  (forall n pkt t', SaltSize toyCipher <= n -> len pkt <= n -> Sealed toyCipher (str "data") pkt ->
     ReadFrom n t = Some (pkt, len pkt, 7%nat, None, t') ->
     ReadFrom n (mkPacketConn t toyCipher tt) =
       Some (str "data", len (str "data"), 7%nat, None, mkPacketConn t' toyCipher tt)).
Proof. intros s t. apply (PacketConn_roundtrip toyCipher s t tt (str "data") 7%nat). apply _. Defined.

Lemma ciphers_ok_witness :
  let hkdf := fun (_ _ _ : list byte) n => replicate (Z.to_nat n) (z2b 0) in
  let mk := fun _ : list byte => inl toyAEAD : AEAD + error in
  let psk := replicate 24 (z2b 1) in
  let good (mk : list byte -> Cipher + error) (sizes : list Z) :=
    if decide (len psk ∈ sizes)
    then exists c, mk psk = inl c /\ CipherOk c /\ KeySize c = len psk /\
           SaltSize c = Z.max 16 (len psk)
    else exists e, mk psk = inr e in
  good (AESGCM hkdf mk) [16; 24; 32] /\ good (Chacha20Poly1305 hkdf mk) [32] /\
  good (XChacha20Poly1305 hkdf mk) [32].
Proof.
  intros hkdf mk psk. apply (ciphers_ok hkdf mk mk mk psk);
    try (intros k _; exists toyAEAD; split; [reflexivity|apply _]).
  intros s t i n Hn. unfold hkdf. rewrite len_replicate. apply Z2Nat.id. lia.
Defined.
End shadowaead.
