(* ===== verification/ShadowStream.v ===== *)
(** * ShadowStream: transport/shadowsocks/shadowstream

    The Shadowsocks stream-cipher construction: [cipher.go], [stream.go] and
    [packet.go].  Key streams are library code: a type [K] with its
    [XORKeyStream], of which the code relies on [StreamOk]. *)

From S2P Require Import Prelude Conn Allocator ShadowAEAD.

Open Scope Z_scope.

(** ** [crypto/cipher.Stream] *)

Class Stream (K : Type) := XORKeyStream : K -> list byte -> list byte * K.

(** "Multiple calls to XORKeyStream behave as if the concatenation of the src
    buffers was passed in a single run." *)
Class StreamOk (K : Type) `{Stream K} : Prop := {
  xor_len : forall k p, len (XORKeyStream k p).1 = len p;
  xor_nil : forall k, XORKeyStream k [] = ([], k);
  xor_app : forall k p q,
    XORKeyStream k (p ++ q) =
      let '(x, k1) := XORKeyStream k p in
      let '(y, k2) := XORKeyStream k1 q in (x ++ y, k2) }.

Module shadowstream.

(** ** cipher.go

    [Encrypter] and [Decrypter] may panic ([None]): the ChaCha20 ones do when
    the library refuses the key or the IV. *)

Record Cipher (K : Type) := mkCipher {
  IVSize : Z;
  Encrypter : list byte -> option K;
  Decrypter : list byte -> option K }.
Arguments mkCipher {K}. Arguments IVSize {K}. Arguments Encrypter {K}.
Arguments Decrypter {K}.

Section Ciphers.
Context {K B : Type}.
(** The library's constructors: AES blocks with their CTR and CFB streams,
    ChaCha20 by key and nonce, MD5, RC4. *)
Variable aes_NewCipher : list byte -> B + error.
Variable BlockSize : B -> Z.
Variables NewCTR NewCFBEncrypter NewCFBDecrypter : B -> list byte -> K.
Variable NewUnauthenticatedCipher : list byte -> list byte -> K + error.
Variable md5_Sum : list byte -> list byte.
Variable rc4_NewCipher : list byte -> K.

Definition ctrStream (b : B) : Cipher K :=
  mkCipher (BlockSize b) (fun iv => Some (NewCTR b iv)) (fun iv => Some (NewCTR b iv)).

Definition AESCTR (key : list byte) : Cipher K + error :=
  match aes_NewCipher key with
  | inr e => inr e
  | inl blk => inl (ctrStream blk)
  end.

Definition cfbStream (b : B) : Cipher K :=
  mkCipher (BlockSize b) (fun iv => Some (NewCFBEncrypter b iv))
    (fun iv => Some (NewCFBDecrypter b iv)).

Definition AESCFB (key : list byte) : Cipher K + error :=
  match aes_NewCipher key with
  | inr e => inr e
  | inl blk => inl (cfbStream blk)
  end.

Definition chachaStream (key iv : list byte) : option K :=
  match NewUnauthenticatedCipher key iv with
  | inr _ => None
  | inl ciph => Some ciph
  end.

Definition chacha20ietfkey (k : list byte) : Cipher K :=
  mkCipher 12 (chachaStream k) (chachaStream k).

Definition Chacha20IETF (key : list byte) : Cipher K + error :=
  if negb (len key =? 32) then inr (shadowaead.KeySizeError 32) else inl (chacha20ietfkey key).

Definition xchacha20key (k : list byte) : Cipher K :=
  mkCipher 24 (chachaStream k) (chachaStream k).

Definition Xchacha20 (key : list byte) : Cipher K + error :=
  if negb (len key =? 32) then inr (shadowaead.KeySizeError 32) else inl (xchacha20key key).

Definition rc4Md5Stream (k iv : list byte) : option K :=
  Some (rc4_NewCipher (md5_Sum (k ++ iv))).

Definition rc4Md5Key (k : list byte) : Cipher K :=
  mkCipher 16 (rc4Md5Stream k) (rc4Md5Stream k).

Definition RC4MD5 (key : list byte) : Cipher K + error := inl (rc4Md5Key key).
End Ciphers.

(** Decryption with an IV undoes encryption with it. *)
Class CipherOk {K} `{Stream K} (c : Cipher K) : Prop := {
  iv_size : 0 <= IVSize c <= 1024;
  cipher_ok : forall iv, len iv = IVSize c ->
    exists ke kd, Encrypter c iv = Some ke /\ Decrypter c iv = Some kd /\
      forall p, (XORKeyStream kd (XORKeyStream ke p).1).1 = p }.

(** ** stream.go *)

Definition bufSize : Z := 2048.

Record WriterState (S K : Type) := mkWriter { w_Writer : S; w_Stream : K }.
Arguments mkWriter {S K}. Arguments w_Writer {S K}. Arguments w_Stream {S K}.

Fixpoint Write_loop {S K} `{Writer S, Stream K} (fuel : nat) (w : WriterState S K)
    (p : list byte) (n : Z) (e : err) : option (Z * err * WriterState S K) :=
  if (n <? len p) && is_nil e then
    match fuel with
    | O => None
    | Datatypes.S f =>
        let end_ := if len p <? n + bufSize then len p else n + bufSize in
        src ← p.[n:end_];
        let '(buf, k) := XORKeyStream (w_Stream w) src in
        '(nw, e, s) ← Write buf (w_Writer w);
        Write_loop f (mkWriter s k) p (n + nw) e
    end
  else Some (n, e, w).

(** A writer that keeps its promise takes at least a byte or fails. *)
#[global] Instance Stream_Writer {S K} `{Writer S, Stream K} : Writer (WriterState S K) :=
  fun p w => Write_loop (length p) w p 0 None.

Fixpoint ReadFrom_loop {S K T} `{Writer S, Stream K, Reader T} (fuel : nat)
    (w : WriterState S K) (r : T) (n : Z) : option (Z * err * WriterState S K * T) :=
  match fuel with
  | O => None
  | Datatypes.S f =>
      '(d, er, r) ← Read bufSize r;
      let n := i64 (n + len d) in
      let '(b, k) := XORKeyStream (w_Stream w) d in
      '(_, e, s) ← Write b (w_Writer w);
      let w := mkWriter s k in
      check e else Some (n, e, w, r) ;;
      match er with
      | Some x => Some (n, if bool_decide (x = EOF) then None else Some x, w, r)
      | None => ReadFrom_loop f w r n
      end
  end.

Record ReaderState (S K : Type) := mkReader { r_Reader : S; r_Stream : K }.
Arguments mkReader {S K}. Arguments r_Reader {S K}. Arguments r_Stream {S K}.

#[global] Instance Stream_Reader {S K} `{Reader S, Stream K} : Reader (ReaderState S K) :=
  fun n r =>
    '(d, e, s) ← Read n (r_Reader r);
    check e else Some ([], e, mkReader s (r_Stream r)) ;;
    let '(p, k) := XORKeyStream (r_Stream r) d in
    Some (p, None, mkReader s k).

Fixpoint WriteTo_loop {S K W} `{Reader S, Stream K, Writer W} (fuel : nat)
    (r : ReaderState S K) (w : W) (n : Z) : option (Z * err * ReaderState S K * W) :=
  match fuel with
  | O => None
  | Datatypes.S f =>
      '(d, er, s) ← Read bufSize (r_Reader r);
      '(n, ew, k, w) ←
        (if 0 <? len d then
           let '(p, k) := XORKeyStream (r_Stream r) d in
           '(nw, ew, w) ← Write p w;
           Some (i64 (n + nw), ew, k, w)
         else Some (n, None, r_Stream r, w));
      let r := mkReader s k in
      check ew else Some (n, ew, r, w) ;;
      match er with
      | Some x => Some (n, if bool_decide (x = EOF) then None else Some x, r, w)
      | None => WriteTo_loop f r w n
      end
  end.

Record ConnState (S K R : Type) := mkConn {
  c_Conn : S; c_Cipher : Cipher K; c_rand : R;
  c_r : option K; c_w : option K; readIV : list byte; writeIV : list byte }.
Arguments mkConn {S K R}. Arguments c_Conn {S K R}. Arguments c_Cipher {S K R}.
Arguments c_rand {S K R}. Arguments c_r {S K R}. Arguments c_w {S K R}.
Arguments readIV {S K R}. Arguments writeIV {S K R}.

Definition NewConn {S K R} (c : S) (ciph : Cipher K) (g : R) : ConnState S K R :=
  mkConn c ciph g None None [] [].

Section Conn.
Context {S K R : Type} `{Reader S, Writer S, Stream K, Rand R}.

Definition ObtainReadIV (c : ConnState S K R) : option (list byte * err * ConnState S K R) :=
  if len (readIV c) =? IVSize (c_Cipher c) then Some (readIV c, None, c)
  else
    '(iv, e, s) ← ReadFull (IVSize (c_Cipher c)) (c_Conn c);
    let set iv := mkConn s (c_Cipher c) (c_rand c) (c_r c) (c_w c) iv (writeIV c) in
    check e else Some ([], e, set (readIV c)) ;;
    Some (iv, None, set iv).

Definition initReader (c : ConnState S K R) : option (err * ConnState S K R) :=
  match c_r c with
  | Some _ => Some (None, c)
  | None =>
      '(iv, e, c) ← ObtainReadIV c;
      check e else Some (e, c) ;;
      k ← Decrypter (c_Cipher c) iv;
      Some (None, mkConn (c_Conn c) (c_Cipher c) (c_rand c) (Some k) (c_w c)
        (readIV c) (writeIV c))
  end.

(** [c.r] and [c.w] share the connection with [c]. *)
Definition getReader (c : ConnState S K R) : option (ReaderState S K) :=
  k ← c_r c; Some (mkReader (c_Conn c) k).
Definition putReader (c : ConnState S K R) (r : ReaderState S K) : ConnState S K R :=
  mkConn (r_Reader r) (c_Cipher c) (c_rand c) (Some (r_Stream r)) (c_w c)
    (readIV c) (writeIV c).
Definition getWriter (c : ConnState S K R) : option (WriterState S K) :=
  k ← c_w c; Some (mkWriter (c_Conn c) k).
Definition putWriter (c : ConnState S K R) (w : WriterState S K) : ConnState S K R :=
  mkConn (w_Writer w) (c_Cipher c) (c_rand c) (c_r c) (Some (w_Stream w))
    (readIV c) (writeIV c).

#[global] Instance Conn_Reader : Reader (ConnState S K R) := fun n c =>
  '(e, c) ← initReader c;
  check e else Some ([], e, c) ;;
  r ← getReader c;
  '(d, e, r) ← Read n r;
  Some (d, e, putReader c r).

Definition ConnWriteTo {W} `{Writer W} (fuel : nat) (w : W) (c : ConnState S K R)
  : option (Z * err * ConnState S K R * W) :=
  '(e, c) ← initReader c;
  check e else Some (0, e, c, w) ;;
  r ← getReader c;
  '(n, e, r, w) ← WriteTo_loop fuel r w 0;
  Some (n, e, putReader c r, w).

Definition ObtainWriteIV (c : ConnState S K R) : list byte * err * ConnState S K R :=
  if len (writeIV c) =? IVSize (c_Cipher c) then (writeIV c, None, c)
  else
    let '(iv, e, g) := rand_Read (IVSize (c_Cipher c)) (c_rand c) in
    let set iv := mkConn (c_Conn c) (c_Cipher c) g (c_r c) (c_w c) (readIV c) iv in
    check e else ([], e, set (writeIV c)) ;;
    (iv, None, set iv).

Definition initWriter (c : ConnState S K R) : option (err * ConnState S K R) :=
  match c_w c with
  | Some _ => Some (None, c)
  | None =>
      let '(iv, e, c) := ObtainWriteIV c in
      check e else Some (e, c) ;;
      '(_, e, s) ← Write iv (c_Conn c);
      let set w := mkConn s (c_Cipher c) (c_rand c) (c_r c) w (readIV c) (writeIV c) in
      check e else Some (e, set (c_w c)) ;;
      k ← Encrypter (c_Cipher c) iv;
      Some (None, set (Some k))
  end.

#[global] Instance Conn_Writer : Writer (ConnState S K R) := fun p c =>
  '(e, c) ← initWriter c;
  check e else Some (0, e, c) ;;
  w ← getWriter c;
  '(n, e, w) ← Write p w;
  Some (n, e, putWriter c w).

Definition ConnReadFrom {T} `{Reader T} (fuel : nat) (r : T) (c : ConnState S K R)
  : option (Z * err * ConnState S K R * T) :=
  '(e, c) ← initWriter c;
  check e else Some (0, e, c, r) ;;
  w ← getWriter c;
  '(n, e, w, r) ← ReadFrom_loop fuel w r 0;
  Some (n, e, putWriter c w, r).
End Conn.

(** ** packet.go *)

Definition ErrShortPacket : error := errorsNew "short packet".
Definition maxPacketSize : Z := 64 * 1024.

(** [Pack] into a [dst] of [n] bytes. *)
Definition Pack {K R} `{Stream K, Rand R} (n : Z) (plaintext : list byte) (s : Cipher K) (g : R)
  : option (option (list byte) * err * R) :=
  if n <? IVSize s + len plaintext then Some (None, Some ErrShortBuffer, g)
  else
    _ ← reslice (mkSlice 0 n n) (IVSize s);
    let '(iv, e, g) := rand_Read (IVSize s) g in
    check e else Some (None, e, g) ;;
    k ← Encrypter s iv;
    Some (Some (iv ++ (XORKeyStream k plaintext).1), None, g).

(** [Unpack] into a [dst] of [n] bytes. *)
Definition Unpack {K} `{Stream K} (n : Z) (pkt : list byte) (s : Cipher K)
  : option (option (list byte) * err) :=
  if len pkt <? IVSize s then Some (None, Some ErrShortPacket)
  else if n <? len pkt - IVSize s then Some (None, Some ErrShortBuffer)
  else
    iv ← pkt.[0:IVSize s];
    k ← Decrypter s iv;
    c ← pkt.[len iv:len pkt];
    Some (Some (XORKeyStream k c).1, None).

Record PacketState (S K R : Type) := mkPacketConn {
  p_PacketConn : S; p_Cipher : Cipher K; p_rand : R }.
Arguments mkPacketConn {S K R}. Arguments p_PacketConn {S K R}.
Arguments p_Cipher {S K R}. Arguments p_rand {S K R}.

#[global] Instance Stream_PacketConn {S K R A} `{PacketConn S A, Stream K, Rand R}
  : PacketConn (PacketState S K R) A := {
  WriteTo b addr c :=
    '(buf, e, g) ← Pack maxPacketSize b (p_Cipher c) (p_rand c);
    match e, buf with
    | None, Some buf =>
        '(_, e, s) ← WriteTo buf addr (p_PacketConn c);
        Some (len b, e, mkPacketConn s (p_Cipher c) g)
    | _, _ => Some (0, e, mkPacketConn (p_PacketConn c) (p_Cipher c) g)
    end;
  ReadFrom n c :=
    '(b, m, addr, e, s) ← ReadFrom n (p_PacketConn c);
    let c' := mkPacketConn s (p_Cipher c) (p_rand c) in
    check e else Some (b, m, addr, e, c') ;;
    let ivSize := IVSize (p_Cipher c) in
    _ ← reslice (mkSlice 0 n n) ivSize;
    '(bb, e) ← Unpack (n - ivSize) b (p_Cipher c);
    check e else Some (b, m, addr, e, c') ;;
    let bb := default [] bb in
    Some (bb, len bb, addr, None, c') }.

(** ** Lemmas *)

Section Stream_facts.
Context {K : Type} `{StreamOk K}.

Lemma xor_split k p q :
  (XORKeyStream k (p ++ q)).1 =
    (XORKeyStream k p).1 ++ (XORKeyStream (XORKeyStream k p).2 q).1 /\
  (XORKeyStream k (p ++ q)).2 = (XORKeyStream (XORKeyStream k p).2 q).2.
Proof.
  rewrite xor_app. destruct (XORKeyStream k p) as [x k1]. simpl.
  by destruct (XORKeyStream k1 q).
Qed.

Lemma sWrite_loop_spec {S} `{ConnOk S} p fuel : forall (s : S) k n bs e out,
  Live s bs e out -> 0 <= n <= len p -> len p - n <= Z.of_nat fuel ->
  exists s', let r := XORKeyStream k (zdrop n p) in
    Write_loop fuel (mkWriter s k) p n None = Some (len p, None, mkWriter s' r.2) /\
    Live s' bs e (out ++ r.1).
Proof.
  induction fuel as [|fuel IH]; intros s k n bs e out HL Hn Hf; cbn [Write_loop].
  - replace (n <? len p) with false by lia. assert (n = len p) as -> by lia.
    rewrite zdrop_all, xor_nil, app_nil_r by lia. by exists s.
  - destruct (Z.ltb_spec n (len p)) as [Hlt|Hge]; cbn [andb is_nil].
    2:{ assert (n = len p) as -> by lia.
        rewrite zdrop_all, xor_nil, app_nil_r by lia. by exists s. }
    cbn [w_Stream w_Writer]. set (nd := if len p <? _ then _ else _).
    assert (n < nd <= len p) as Hnd.
    { subst nd. unfold bufSize. destruct (Z.ltb_spec (len p) (n + 2048)); lia. }
    rewrite slice_ok by lia. bind_simpl. set (c := ztake (nd - n) (zdrop n p)).
    assert (len c = nd - n) as Hc by (subst c; len_lia).
    destruct (XORKeyStream k c) as [x k1] eqn:Ex.
    assert (len x = len c) as Hx by (rewrite <- (xor_len k c), Ex; done).
    destruct (Live_Write x _ _ _ _ HL) as (s1 & -> & HL1). bind_simpl.
    replace (n + len x) with nd by lia.
    destruct (IH s1 k1 nd bs e (out ++ x) HL1) as (s' & Hw & HL'); [lia|lia|].
    cbn zeta in Hw, HL'. rewrite Hw. exists s'. cbn zeta.
    rewrite <- (ztake_zdrop (nd - n) (zdrop n p)). fold c.
    rewrite zdrop_zdrop by lia. replace (n + (nd - n)) with nd by lia.
    destruct (xor_split k c (zdrop nd p)) as [-> ->]. rewrite Ex. simpl.
    rewrite app_assoc. done.
Qed.
End Stream_facts.

(** ** The layers keep the reading promise

    [k] at the reader is where decrypting [ct] gives what is delivered. *)

#[global, program] Instance Stream_ReaderOk {S K} `{ReaderOk S, StreamOk K}
  : ReaderOk (ReaderState S K) := {
  Delivers r bs e := exists ct, Delivers (r_Reader r) ct e /\
    bs = (XORKeyStream (r_Stream r) ct).1 }.
Next Obligation.
  intros S K HR HO HK HKo [s k] bs e n (ct & Hd & ->) Hn. cbn [r_Reader r_Stream] in *.
  unfold Read, Stream_Reader. cbn [r_Reader r_Stream].
  destruct (read_ok s ct e n Hd Hn) as (d & er & s' & -> & Hl & Hpost). bind_simpl.
  destruct er as [er|].
  - destruct Hpost as (-> & -> & -> & Hd'). rewrite xor_nil.
    eexists _, _, _. split; [done|]. split; [len_lia|]. do 3 (split; [done|]).
    exists []. by rewrite xor_nil.
  - destruct Hpost as (Hne & ct' & -> & Hd').
    destruct (xor_split k d ct') as [-> _]. pose proof (xor_len k d) as Hx.
    destruct (XORKeyStream k d) as [x k1]. cbn [fst snd] in *.
    eexists _, _, _. split; [done|]. split; [lia|]. split.
    { intros ->. rewrite len_nil in Hx. by symmetry in Hx; apply len_zero in Hx. }
    eexists. split; [done|]. by exists ct'.
Qed.

(** A session: the IV, then [p] encrypted. *)
Definition Session {K} `{Stream K} (ciph : Cipher K) (p ct : list byte) : Prop :=
  exists iv k, len iv = IVSize ciph /\ Encrypter ciph iv = Some k /\
    ct = iv ++ (XORKeyStream k p).1.

Definition ConnReadingFrom {S K R} `{ReaderOk S, StreamOk K} (c : ConnState S K R)
    (bs : list byte) (e : error) : Prop :=
  CipherOk (c_Cipher c) /\
  match c_r c with
  | None => readIV c = [] /\ IVSize (c_Cipher c) <> 0 /\
      ((bs = [] /\ Delivers (c_Conn c) [] e) \/
       exists ct, Delivers (c_Conn c) ct e /\ Session (c_Cipher c) bs ct)
  | Some k => Delivers (mkReader (c_Conn c) k) bs e
  end.

Lemma initReader_spec {S K R} `{ReaderOk S, StreamOk K} (c : ConnState S K R) bs e :
  ConnReadingFrom c bs e ->
  exists er c', initReader c = Some (er, c') /\ ConnReadingFrom c' bs e /\
    match er with
    | None => exists r, getReader c' = Some r /\ Delivers r bs e
    | Some e' => bs = [] /\ e' = e
    end.
Proof.
  destruct c as [s ciph g cr cw ri wi]. intros [Hc Hx]. cbn [c_r c_Cipher c_Conn readIV] in Hx.
  unfold initReader. cbn [c_r]. destruct cr as [k|].
  { eexists _, _. split; [done|]. split; [done|]. by eexists. }
  destruct Hx as (-> & Hnz & Hx). pose proof (@iv_size _ _ ciph Hc) as Hs.
  unfold ObtainReadIV. cbn [c_Conn c_Cipher c_rand c_r c_w readIV writeIV].
  replace (len [] =? IVSize ciph) with false by (symmetry; apply Z.eqb_neq; len_lia).
  destruct Hx as [[-> Hd]|(ct & Hd & iv & k & Hl & He & ->)].
  - destruct (ReadFull_spec (IVSize ciph) s [] e Hd) as (s' & -> & Hd'); [lia|]. bind_simpl.
    replace (IVSize ciph <=? len []) with false by len_lia.
    change (short_error [] e) with e. bind_simpl. eexists _, _. split; [done|].
    split; [|done]. split; [done|]. do 2 (split; [done|]). left.
    unfold zdrop in Hd'. by rewrite drop_nil in Hd'.
  - destruct (ReadFull_app _ _ (IVSize ciph) s e Hd) as (s' & -> & Hd'); [done|]. bind_simpl.
    cbn [c_Cipher]. destruct (cipher_ok iv Hl) as (ke & kd & He' & Hdec & Hinv).
    rewrite Hdec. bind_simpl. rewrite He in He'. injection He' as <-.
    assert (Delivers (mkReader s' kd) bs e) as HR.
    { exists (XORKeyStream k bs).1. by rewrite Hinv. }
    eexists _, _. split; [done|]. split; [by split|]. eexists. by split.
Qed.

#[global, program] Instance Conn_ReaderOk {S K R} `{ReaderOk S, StreamOk K}
  : ReaderOk (ConnState S K R) := { Delivers := ConnReadingFrom }.
Next Obligation.
  intros S K R HR HO HK HKo c bs e n Hc Hn.
  destruct (initReader_spec c bs e Hc) as (er & c' & E & Hc' & Hx).
  unfold Read, Conn_Reader. rewrite E. bind_simpl. destruct er as [er|].
  { destruct Hx as [-> ->]. eexists _, _, _. split; [done|]. split; [len_lia|]. done. }
  destruct Hx as (r & -> & Hd). bind_simpl.
  destruct (read_ok r bs e n Hd Hn) as (d & er & r' & -> & Hl & Hpost). bind_simpl.
  eexists _, _, _. split; [done|]. split; [done|].
  assert (forall bs', Delivers r' bs' e -> ConnReadingFrom (putReader c' r') bs' e) as Hput.
  { intros bs' Hd'. split; [apply Hc'|]. cbn [putReader c_r c_Conn]. by destruct r'. }
  destruct er as [er|].
  - destruct Hpost as (-> & -> & -> & Hd'). eauto.
  - destruct Hpost as (Hne & bs' & -> & Hd'). eauto.
Qed.

(** ** The writing side *)

(** The connection has sent [ct], which carries [p]. *)
Definition Written {S K R} `{Stream K} (c : ConnState S K R) (p ct : list byte) : Prop :=
  CipherOk (c_Cipher c) /\
  match c_w c with
  | None => p = [] /\ ct = [] /\ writeIV c = [] /\ IVSize (c_Cipher c) <> 0
  | Some k => exists iv k0, len iv = IVSize (c_Cipher c) /\
      Encrypter (c_Cipher c) iv = Some k0 /\
      ct = iv ++ (XORKeyStream k0 p).1 /\ k = (XORKeyStream k0 p).2
  end.

Lemma initWriter_spec {S K R} `{ConnOk S, StreamOk K, RandOk R} (c : ConnState S K R) p ct bs e out :
  Written c p ct -> Live (c_Conn c) bs e (out ++ ct) ->
  exists c' ct' k, initWriter c = Some (None, c') /\ c_Cipher c' = c_Cipher c /\
    c_w c' = Some k /\ Written c' p ct' /\ Live (c_Conn c') bs e (out ++ ct').
Proof.
  destruct c as [s ciph g cr [k|] ri wi]; intros [Hc Hw] HL; cbn [c_w c_Cipher c_Conn writeIV] in *.
  { eexists _, ct, k. split; [done|]. split; [done|]. split; [done|]. split; [|done]. by split. }
  destruct Hw as (-> & -> & -> & Hnz). unfold initWriter, ObtainWriteIV.
  cbn [c_w c_Cipher c_Conn c_rand c_r readIV writeIV].
  replace (len [] =? IVSize ciph) with false by (symmetry; apply Z.eqb_neq; len_lia).
  pose proof (@iv_size _ _ ciph Hc). destruct (rand_ok (IVSize ciph) g) as (iv & g' & -> & Hl); [lia|].
  destruct (cipher_ok iv Hl) as (k & kd & He & _). cbn [c_Conn c_Cipher c_w c_rand c_r readIV writeIV].
  destruct (Live_Write iv _ _ _ _ HL) as (s' & -> & HL'). bind_simpl. rewrite He. bind_simpl.
  rewrite app_nil_r in HL'. eexists _, iv, k. split; [done|]. split; [done|]. split; [done|].
  split; [|done]. split; [done|]. exists iv, k. rewrite xor_nil, app_nil_r. done.
Qed.

Lemma sConn_Write_spec {S K R} `{ConnOk S, StreamOk K, RandOk R} (c : ConnState S K R) p ct q bs e out :
  Written c p ct -> Live (c_Conn c) bs e (out ++ ct) ->
  exists c' ct', Write q c = Some (len q, None, c') /\ c_Cipher c' = c_Cipher c /\
    is_Some (c_w c') /\ Written c' (p ++ q) ct' /\ Live (c_Conn c') bs e (out ++ ct').
Proof.
  intros Hw HL.
  destruct (initWriter_spec c p ct bs e out Hw HL) as (c1 & ct1 & k & E & Hciph & Hcw & [Hc1 Hw1] & HL1).
  unfold Write, Conn_Writer. rewrite E. bind_simpl. rewrite Hcw in Hw1.
  destruct Hw1 as (iv & k0 & Hl & He & -> & ->). unfold getWriter. rewrite Hcw. bind_simpl.
  destruct (sWrite_loop_spec q (length q) (c_Conn c1) (XORKeyStream k0 p).2 0 bs e _ HL1)
    as (s' & Hr & HL'); [len_lia|unfold len; lia|].
  cbn zeta in Hr, HL'. rewrite zdrop_neg in Hr, HL' by lia.
  unfold Write, Stream_Writer. rewrite Hr. bind_simpl.
  destruct (xor_split k0 p q) as [E1 E2].
  eexists _, (iv ++ (XORKeyStream k0 (p ++ q)).1). split; [done|]. split; [done|].
  split; [by eexists|]. rewrite E1. rewrite <- !app_assoc in HL'. split; [|done].
  split; [done|]. cbn [putWriter c_w w_Stream c_Cipher].
  exists iv, k0. by rewrite E1, E2.
Qed.

Lemma sConn_write_all {S K R} `{ConnOk S, StreamOk K, RandOk R} qs :
  forall (c : ConnState S K R) p ct bs e out,
  Written c p ct -> Live (c_Conn c) bs e (out ++ ct) ->
  exists c' ct', write_all qs c = Some (None, c') /\ c_Cipher c' = c_Cipher c /\
    (qs <> [] -> is_Some (c_w c')) /\
    Written c' (p ++ concat qs) ct' /\ Live (c_Conn c') bs e (out ++ ct').
Proof.
  induction qs as [|q qs IH]; intros c p ct bs e out Hw HL; cbn [write_all concat].
  - exists c, ct. by rewrite app_nil_r.
  - destruct (sConn_Write_spec c p ct q bs e out Hw HL) as (c1 & ct1 & -> & Hc1 & Hs1 & Hw1 & HL1).
    bind_simpl. destruct (IH c1 (p ++ q) ct1 bs e out Hw1 HL1) as (c2 & ct2 & Ew & Hc2 & Hs2 & Hw2 & HL2).
    exists c2, ct2. rewrite <- app_assoc in Hw2. split; [done|]. split; [congruence|].
    split; [|done]. intros _. destruct qs as [|q' qs]; [|by apply Hs2].
    by injection Ew as <-.
Qed.

(** What a failing transport has been sent is what [Write] counts. *)
Lemma Write_loop_any {S K} `{WriterOk S, StreamOk K} p fuel : forall (s : S) k n,
  0 <= n <= len p -> len p - n <= Z.of_nat fuel ->
  exists m er s' k', Write_loop fuel (mkWriter s k) p n None = Some (m, er, mkWriter s' k') /\
    n <= m <= len p /\ (er = None -> m = len p) /\
    Sent s' = Sent s ++ ztake (m - n) (XORKeyStream k (zdrop n p)).1.
Proof.
  induction fuel as [|fuel IH]; intros s k n Hn Hf; cbn [Write_loop].
  - replace (n <? len p) with false by lia. eexists _, _, s, k. split; [done|].
    split; [lia|]. split; [lia|]. by rewrite ztake_neg, app_nil_r by lia.
  - destruct (Z.ltb_spec n (len p)) as [Hlt|Hge]; cbn [andb is_nil].
    2:{ eexists _, _, s, k. split; [done|]. split; [lia|]. split; [lia|].
        by rewrite ztake_neg, app_nil_r by lia. }
    cbn [w_Stream w_Writer]. set (nd := if len p <? _ then _ else _).
    assert (n < nd <= len p) as Hnd.
    { subst nd. unfold bufSize. destruct (Z.ltb_spec (len p) (n + 2048)); lia. }
    rewrite slice_ok by lia. bind_simpl. set (c := ztake (nd - n) (zdrop n p)).
    assert (len c = nd - n) as Hc by (subst c; len_lia).
    assert (zdrop n p = c ++ zdrop nd p) as Hsp.
    { rewrite <- (ztake_zdrop (nd - n) (zdrop n p)). fold c.
      rewrite zdrop_zdrop by lia. by replace (n + (nd - n)) with nd by lia. }
    rewrite Hsp. destruct (xor_split k c (zdrop nd p)) as [E1 _].
    pose proof (xor_len k c) as Hx. rewrite E1. clear E1.
    destruct (XORKeyStream k c) as [x k1]. cbn [fst snd] in *.
    destruct (write_ok s x) as (nw & er & s1 & -> & _ & Hpost). bind_simpl.
    destruct er as [er|].
    + destruct Hpost as [Hnw Hs1]. exists (n + nw), (Some er), s1, k1.
      split; [destruct fuel; cbn [Write_loop]; by rewrite andb_false_r|].
      split; [lia|]. split; [done|]. rewrite Hs1. f_equal.
      replace (n + nw - n) with nw by lia. unfold ztake. rewrite take_app_le; [done|].
      unfold len in *. lia.
    + destruct Hpost as [-> Hs1]. replace (n + len x) with nd by lia.
      destruct (IH s1 k1 nd) as (m & er & s' & k' & -> & Hm & He & Hs'); [lia|lia|].
      exists m, er, s', k'. split; [done|]. split; [lia|]. split; [done|].
      rewrite Hs', Hs1, <- app_assoc. f_equal.
      replace (m - n) with (len x + (m - nd)) by lia.
      rewrite ztake_add, ztake_app_len, zdrop_app_len by (done || len_lia). done.
Qed.

(** ** Properties *)

(** Whatever is written to one stream-cipher connection is read at the
    other end, exactly and in order, over any transports and segmentation and
    any sizes of writes (the 2048-byte chunks of the writer do not show). *)
Theorem StreamConn_roundtrip {S T K R} `{ConnOk S, ReaderOk T, StreamOk K, RandOk R}
    ciph (s : S) (t : T) (g g' : R) ps bs e out e' :
  CipherOk ciph -> IVSize ciph <> 0 -> Live s bs e out -> ps <> [] ->
  exists c ct, write_all ps (NewConn s ciph g : ConnState S K R) = Some (None, c) /\
    Sent (c_Conn c) = out ++ ct /\
    (Delivers t ct e' ->
     exists t', ReadFull (len (concat ps)) (NewConn t ciph g' : ConnState T K R) =
         Some (concat ps, None, t') /\ Delivers t' [] e').
Proof.
  intros Hc Hnz HL Hne.
  destruct (sConn_write_all ps (NewConn s ciph g : ConnState S K R) [] [] bs e out)
    as (c & ct & Hw & Hciph & Hs & [_ HW] & HL'); [done|by rewrite app_nil_r|].
  exists c, ct. split; [done|]. split; [apply HL'|]. intros Hd.
  apply (ReadFull_app (concat ps) []); [|done]. rewrite app_nil_r.
  split; [done|]. cbn [NewConn c_r readIV c_Cipher c_Conn]. do 2 (split; [done|]). right.
  exists ct. split; [done|]. destruct (Hs Hne) as [k Hk]. rewrite Hk, Hciph in HW.
  destruct HW as (iv & k0 & Hl & He & -> & _). by exists iv, k0.
Qed.

(** On any transport, failing ones included, [Write] neither panics nor
    loops, and the count it returns is the number of plaintext bytes whose
    encryption reached the connection; without an error that is all of them. *)
Theorem Write_count {S K} `{WriterOk S, StreamOk K} (s : S) (k : K) p :
  exists n er s' k', Write p (mkWriter s k) = Some (n, er, mkWriter s' k') /\
    0 <= n <= len p /\ (er = None -> n = len p) /\
    Sent s' = Sent s ++ ztake n (XORKeyStream k p).1.
Proof.
  destruct (Write_loop_any p (length p) s k 0) as (n & er & s' & k' & Hw & Hn & He & Hs);
    [len_lia|unfold len; lia|].
  exists n, er, s', k'. rewrite zdrop_neg, Z.sub_0_r in Hs by lia. done.
Qed.

(** A packet packed in a large enough buffer is unpacked to its plaintext,
    and [Pack] and [Unpack] panic on no input: what does not fit or is too
    short is an error. *)
Theorem Packet_roundtrip {K R} `{StreamOk K, RandOk R} (ciph : Cipher K) n m p pkt (g : R) :
  CipherOk ciph -> 0 <= n ->
  (exists r er g', Pack n p ciph g = Some (r, er, g') /\
     (er = None <-> IVSize ciph + len p <= n) /\
     forall q, r = Some q -> len q = IVSize ciph + len p /\
       Unpack m q ciph = Some (if m <? len p then (None, Some ErrShortBuffer) else (Some p, None))) /\
  exists r er, Unpack m pkt ciph = Some (r, er) /\
    (er = None <-> IVSize ciph <= len pkt <= IVSize ciph + m).
Proof.
  intros Hc Hn. pose proof (@iv_size _ _ ciph Hc). split.
  - unfold Pack. destruct (Z.ltb_spec n (IVSize ciph + len p)) as [Hlt|Hge].
    { eexists _, _, _. split; [done|]. split; [split; [done|lia]|done]. }
    unfold reslice. simpl scap. pose proof (len_nonneg p).
    replace ((0 <=? IVSize ciph) && (IVSize ciph <=? n)) with true by lia. bind_simpl.
    destruct (rand_ok (IVSize ciph) g) as (iv & g' & -> & Hl); [lia|].
    destruct (cipher_ok iv Hl) as (ke & kd & -> & Hdec & Hinv). bind_simpl.
    eexists _, _, _. split; [done|]. split; [split; [lia|done]|]. intros q [= <-].
    pose proof (xor_len ke p) as Hx. split; [len_lia|]. unfold Unpack.
    replace (len (_ ++ _) <? IVSize ciph) with false by len_lia.
    replace (m <? len (_ ++ _) - IVSize ciph) with (m <? len p) by len_lia.
    destruct (m <? len p); [done|].
    rewrite slice_app_0 by lia. bind_simpl. rewrite Hdec. bind_simpl.
    rewrite (slice_app_end iv) by (len_lia || lia). bind_simpl. by rewrite Hinv.
  - unfold Unpack. destruct (Z.ltb_spec (len pkt) (IVSize ciph)) as [Hs|Hs].
    { eexists _, _. split; [done|]. split; [done|lia]. }
    destruct (Z.ltb_spec m (len pkt - IVSize ciph)) as [Hm|Hm].
    { eexists _, _. split; [done|]. split; [done|lia]. }
    rewrite slice_prefix by lia. bind_simpl. set (iv := ztake _ _).
    assert (len iv = IVSize ciph) as Hl by (subst iv; len_lia).
    destruct (cipher_ok iv Hl) as (ke & kd & _ & -> & _). bind_simpl.
    rewrite slice_suffix by lia. bind_simpl. eexists _, _. split; [done|]. split; [lia|done].
Qed.

(** ** Witnesses

    A stream that adds its position to every byte or, for the other sign,
    subtracts it. *)

Definition Signed : Type := bool * Z.

#[global] Instance SignedCounter : Stream Signed :=
  fun k p => let '(x, n) :=
    (fix go k' p := match p with
      | [] => ([], k')
      | b :: p => let '(x, k2) := go (k' + 1) p in
          (z2b (if k.1 then b2z b + k' else b2z b - k') :: x, k2)
      end) k.2 p in (x, (k.1, n)).

#[global] Instance SignedCounter_ok : StreamOk Signed.
Proof.
  split.
  - intros [b k] p. unfold XORKeyStream, SignedCounter. simpl. revert k.
    induction p as [|x p IH]; intros k; [done|]. specialize (IH (k + 1)).
    match goal with |- context [?f (k + 1) p] => destruct (f (k + 1) p) end.
    simpl in *. rewrite !len_cons, IH. done.
  - by intros [b k].
  - intros [b k] p q. unfold XORKeyStream, SignedCounter. simpl. revert k.
    induction p as [|x p IH]; intros k; simpl.
    + match goal with |- context [?f k q] => by destruct (f k q) end.
    + specialize (IH (k + 1)).
      match goal with |- context [?f (k + 1) (p ++ q)] => destruct (f (k + 1) (p ++ q)) eqn:E1;
        destruct (f (k + 1) p) as [y k1] eqn:E2; simpl in *; destruct (f k1 q) eqn:E3 end.
      simpl in *. by simplify_eq.
Defined.

Lemma SignedCounter_inverse p :
  (XORKeyStream (false, 0) (XORKeyStream (true, 0) p : list byte * Signed).1 : list byte * Signed).1 = p.
Proof.
  unfold XORKeyStream, SignedCounter. simpl. generalize 0. induction p as [|x p IH]; intros k; [done|].
  specialize (IH (k + 1)).
  match goal with |- context [let '(_, _) := ?f (k + 1) p in _] => destruct (f (k + 1) p) eqn:E1 end.
  simpl in *.
  match goal with |- context [let '(_, _) := ?f (k + 1) ?l in _] => destruct (f (k + 1) l) eqn:E2 end.
  simpl in *. f_equal; [|done]. apply b2z_inj. rewrite !b2z_z2b, Zminus_mod_idemp_l.
  replace (b2z x + k - k) with (b2z x) by lia. apply Z.mod_small, b2z_range.
Qed.

Definition toyCipher : Cipher Signed := mkCipher 2 (fun _ => Some (true, 0)) (fun _ => Some (false, 0)).

#[global] Instance toyCipher_ok : CipherOk toyCipher.
Proof.
  split; [done|]. intros iv _. exists (true, 0), (false, 0).
  split; [done|]. split; [done|apply SignedCounter_inverse].
Defined.

Lemma StreamConn_roundtrip_witness :
  let ps := [str "hello"; []; str "world"] in
  let s := dialed [] EOF in
  let t := dialed [[z2b 0]; [z2b 0] ++ (XORKeyStream (true, 0) (concat ps) : _ * Signed).1] EOF in
  exists c ct, write_all ps (NewConn s toyCipher tt : ConnState Wire Signed unit) = Some (None, c) /\
    Sent (c_Conn c) = [] ++ ct /\
    (Delivers t ct EOF ->
     exists t', ReadFull (len (concat ps)) (NewConn t toyCipher tt : ConnState Wire Signed unit) =
         Some (concat ps, None, t') /\ Delivers t' [] EOF).
Proof.
  intros ps s t. apply (StreamConn_roundtrip toyCipher s t tt tt ps [] EOF [] EOF);
    [apply _|discriminate|by apply (dialed_Live [])|discriminate].
Defined.

(** On a connection that breaks after three bytes. *)
Lemma Write_count_witness :
  let s := mkWire [] EOF [] (Some 3) false in
  exists n er s' k', Write (str "hello") (mkWriter s ((true, 0) : Signed)) = Some (n, er, mkWriter s' k') /\
    0 <= n <= len (str "hello") /\ (er = None -> n = len (str "hello")) /\
    Sent s' = Sent s ++ ztake n (XORKeyStream ((true, 0) : Signed) (str "hello")).1.
Proof. intros s. apply (Write_count s ((true, 0) : Signed) (str "hello")). Defined.

Lemma Packet_roundtrip_witness :
  let p := str "data" in
  (exists r er g', Pack 100 p toyCipher tt = Some (r, er, g') /\
     (er = None <-> IVSize toyCipher + len p <= 100) /\
     forall q, r = Some q -> len q = IVSize toyCipher + len p /\
       Unpack 4 q toyCipher =
         Some (if 4 <? len p then (None, Some ErrShortBuffer) else (Some p, None))) /\
  exists r er, Unpack 4 (str "x") toyCipher = Some (r, er) /\
    (er = None <-> IVSize toyCipher <= len (str "x") <= IVSize toyCipher + 4).
Proof. apply (Packet_roundtrip toyCipher 100 4 (str "data") (str "x") tt); [apply _|done]. Defined.
End shadowstream.
