(* ===== verification/SSCore.v ===== *)
(** * SSCore: transport/shadowsocks/core/cipher.go

    The choice of a Shadowsocks cipher by name, the derivation of its key from
    a password, and the wrapping of connections in the chosen cipher. *)

From S2P Require Import Prelude Conn Allocator ShadowAEAD ShadowStream.
From stdpp Require Import sorting.

Open Scope Z_scope.

(** ** The crypto libraries the ciphers are made of, and what is relied on *)

Record Lib (K B : Type) := mkLib {
  hkdf : list byte -> list byte -> list byte -> Z -> list byte;
  gcm : list byte -> AEAD + error;
  chachapoly : list byte -> AEAD + error;
  xchachapoly : list byte -> AEAD + error;
  md5 : list byte -> list byte;
  aes : list byte -> B + error;
  blockSize : B -> Z;
  ctr : B -> list byte -> K;
  cfbEnc : B -> list byte -> K;
  cfbDec : B -> list byte -> K;
  chacha20 : list byte -> list byte -> K + error;
  rc4 : list byte -> K }.
Arguments mkLib {K B}. Arguments hkdf {K B}. Arguments gcm {K B}.
Arguments chachapoly {K B}. Arguments xchachapoly {K B}. Arguments md5 {K B}.
Arguments aes {K B}. Arguments blockSize {K B}. Arguments ctr {K B}.
Arguments cfbEnc {K B}. Arguments cfbDec {K B}. Arguments chacha20 {K B}.
Arguments rc4 {K B}.

(** [undoes d e]: decrypting with [d] what [e] encrypted gives it back. *)
Definition undoes {K} `{Stream K} (d e : K) : Prop :=
  forall p, (XORKeyStream d (XORKeyStream e p).1).1 = p.

Class LibOk {K B} `{Stream K} (L : Lib K B) : Prop := {
  lib_hkdf : forall s t i n, 0 <= n <= 255 * 20 -> len (hkdf L s t i n) = n;
  lib_gcm : forall k, len k ∈ [16; 24; 32] -> exists a, gcm L k = inl a /\ AEADOk a;
  lib_chachapoly : forall k, len k = 32 -> exists a, chachapoly L k = inl a /\ AEADOk a;
  lib_xchachapoly : forall k, len k = 32 -> exists a, xchachapoly L k = inl a /\ AEADOk a;
  lib_md5 : forall b, len (md5 L b) = 16;
  lib_aes : forall k, len k ∈ [16; 24; 32] -> exists b, aes L k = inl b /\ blockSize L b = 16;
  lib_ctr : forall b iv, undoes (ctr L b iv) (ctr L b iv);
  lib_cfb : forall b iv, undoes (cfbDec L b iv) (cfbEnc L b iv);
  lib_chacha20 : forall k iv, len k = 32 -> len iv ∈ [12; 24] ->
    exists c, chacha20 L k iv = inl c /\ undoes c c;
  lib_rc4 : forall k, undoes (rc4 L k) (rc4 L k) }.

Module core.

(** [strings.ToUpper] of an ASCII string. *)
Definition ToUpper (s : gostring) : gostring :=
  (fun b => if (97 <=? b2z b) && (b2z b <=? 122) then z2b (b2z b - 32) else b) <$> s.

Definition ErrCipherNotSupported : error := errorsNew "cipher not supported".

Definition aeadAes128Gcm := str "AEAD_AES_128_GCM".
Definition aeadAes192Gcm := str "AEAD_AES_192_GCM".
Definition aeadAes256Gcm := str "AEAD_AES_256_GCM".
Definition aeadChacha20Poly1305 := str "AEAD_CHACHA20_POLY1305".
Definition aeadXChacha20Poly1305 := str "AEAD_XCHACHA20_POLY1305".

(** A [Cipher]: the embedded cipher is nil when its constructor failed. *)
Inductive Cipher (K : Type) :=
| dummy
| AeadCipher (c : option shadowaead.Cipher) (Key : list byte)
| StreamCipher (c : option (shadowstream.Cipher K)) (Key : list byte).
Arguments dummy {K}. Arguments AeadCipher {K}. Arguments StreamCipher {K}.

Section Pick.
Context {K B : Type} (L : Lib K B).

Definition aeadList : gmap gostring (Z * (list byte -> shadowaead.Cipher + error)) :=
  list_to_map [
    (aeadAes128Gcm, (16, shadowaead.AESGCM (hkdf L) (gcm L)));
    (aeadAes192Gcm, (24, shadowaead.AESGCM (hkdf L) (gcm L)));
    (aeadAes256Gcm, (32, shadowaead.AESGCM (hkdf L) (gcm L)));
    (aeadChacha20Poly1305, (32, shadowaead.Chacha20Poly1305 (hkdf L) (chachapoly L)));
    (aeadXChacha20Poly1305, (32, shadowaead.XChacha20Poly1305 (hkdf L) (xchachapoly L)))].

Definition aesCTR := shadowstream.AESCTR (aes L) (blockSize L) (ctr L).
Definition aesCFB := shadowstream.AESCFB (aes L) (blockSize L) (cfbEnc L) (cfbDec L).

Definition streamList : gmap gostring (Z * (list byte -> shadowstream.Cipher K + error)) :=
  list_to_map [
    (str "RC4-MD5", (16, shadowstream.RC4MD5 (md5 L) (rc4 L)));
    (str "AES-128-CTR", (16, aesCTR));
    (str "AES-192-CTR", (24, aesCTR));
    (str "AES-256-CTR", (32, aesCTR));
    (str "AES-128-CFB", (16, aesCFB));
    (str "AES-192-CFB", (24, aesCFB));
    (str "AES-256-CFB", (32, aesCFB));
    (str "CHACHA20-IETF", (32, shadowstream.Chacha20IETF (chacha20 L)));
    (str "XCHACHA20", (32, shadowstream.Xchacha20 (chacha20 L)))].

(** Go's order on strings. *)
Fixpoint str_leb (a b : gostring) : bool :=
  match a, b with
  | [], _ => true
  | _, [] => false
  | x :: a, y :: b => (b2z x <? b2z y) || ((b2z x =? b2z y) && str_leb a b)
  end.

Definition str_le (a b : gostring) : Prop := str_leb a b = true.

#[local] Instance str_le_dec : RelDecision str_le.
Proof. intros a b. unfold str_le. apply _. Defined.

(** Both maps are ranged over in an order of the runtime's choosing. *)
Definition ListCipher : list gostring :=
  merge_sort str_le ((map_to_list aeadList).*1 ++ (map_to_list streamList).*1).

(** The loop of [Kdf]; [h.Size()] is 16, so one turn per byte is enough. *)
Fixpoint Kdf_loop (fuel : nat) (password : gostring) (keyLen : Z) (b prev : list byte)
  : option (list byte) :=
  if len b <? keyLen then
    match fuel with
    | O => None
    | S f =>
        let b := b ++ md5 L (prev ++ password) in
        prev ← b.[len b - 16:len b];
        Kdf_loop f password keyLen b prev
    end
  else b.[0:keyLen].

Definition Kdf (password : gostring) (keyLen : Z) : option (list byte) :=
  Kdf_loop (Z.to_nat keyLen) password keyLen [] [].

(** The aliases of [PickCipher]. *)
Definition canonical (name : gostring) : gostring :=
  if str_eqb name (str "CHACHA20-IETF-POLY1305") then aeadChacha20Poly1305
  else if str_eqb name (str "XCHACHA20-IETF-POLY1305") then aeadXChacha20Poly1305
  else if str_eqb name (str "AES-128-GCM") then aeadAes128Gcm
  else if str_eqb name (str "AES-192-GCM") then aeadAes192Gcm
  else if str_eqb name (str "AES-256-GCM") then aeadAes256Gcm
  else name.

(** One [if choice, ok := list[name]; ok] block: the key, then the cipher. *)
Definition keyed {C : Type} (KeySize : Z) (New : list byte -> C + error)
    (wrap : option C -> list byte -> Cipher K) (key : list byte) (password : gostring)
  : option (option (Cipher K) * err) :=
  key ← (if len key =? 0 then Kdf password KeySize else Some key);
  if negb (len key =? KeySize) then Some (None, Some (shadowaead.KeySizeError KeySize))
  else match New key with
       | inl c => Some (Some (wrap (Some c) key), None)
       | inr e => Some (Some (wrap None key), Some e)
       end.

Definition PickCipher (name : gostring) (key : list byte) (password : gostring)
  : option (option (Cipher K) * err) :=
  let name := ToUpper name in
  if str_eqb name (str "DUMMY") then Some (Some dummy, None)
  else
    let name := canonical name in
    match aeadList !! name with
    | Some (KeySize, New) => keyed KeySize New AeadCipher key password
    | None =>
        match streamList !! name with
        | Some (KeySize, New) => keyed KeySize New StreamCipher key password
        | None => Some (None, Some ErrCipherNotSupported)
        end
    end.
End Pick.

(** ** [StreamConn]: a connection wrapped in a cipher *)

Inductive SSConn (S K R : Type) :=
| plainConn (c : S)
| aeadConn (c : shadowaead.ConnState S R)
| streamConn (c : shadowstream.ConnState S K R).
Arguments plainConn {S K R}. Arguments aeadConn {S K R}. Arguments streamConn {S K R}.

(** [None]: a nil embedded cipher is dereferenced. *)
Definition StreamConn {S K R} (ciph : Cipher K) (c : S) (g : R) : option (SSConn S K R) :=
  match ciph with
  | dummy => Some (plainConn c)
  | AeadCipher a _ => a ← a; Some (aeadConn (shadowaead.NewConn c a g))
  | StreamCipher s _ => s ← s; Some (streamConn (shadowstream.NewConn c s g))
  end.

#[global] Instance SSConn_Reader {S K R} `{Reader S, Stream K} : Reader (SSConn S K R) :=
  fun n c => match c with
  | plainConn c => '(d, e, c) ← Read n c; Some (d, e, plainConn c)
  | aeadConn c => '(d, e, c) ← Read n c; Some (d, e, aeadConn c)
  | streamConn c => '(d, e, c) ← Read n c; Some (d, e, streamConn c)
  end.

#[global] Instance SSConn_Writer {S K R} `{Writer S, Stream K, Rand R} : Writer (SSConn S K R) :=
  fun p c => match c with
  | plainConn c => '(n, e, c) ← Write p c; Some (n, e, plainConn c)
  | aeadConn c => '(n, e, c) ← Write p c; Some (n, e, aeadConn c)
  | streamConn c => '(n, e, c) ← Write p c; Some (n, e, streamConn c)
  end.

(** ** [PacketConn]: a socket wrapped in a cipher *)

Inductive SSPacketConn (P K R : Type) :=
| plainPacket (c : P)
| aeadPacket (c : shadowaead.PacketState P R)
| streamPacket (c : shadowstream.PacketState P K R).
Arguments plainPacket {P K R}. Arguments aeadPacket {P K R}. Arguments streamPacket {P K R}.

(** [None]: a nil embedded cipher is dereferenced. *)
Definition PacketConn {P K R} (ciph : Cipher K) (c : P) (g : R) : option (SSPacketConn P K R) :=
  match ciph with
  | dummy => Some (plainPacket c)
  | AeadCipher a _ => a ← a; Some (aeadPacket (shadowaead.mkPacketConn c a g))
  | StreamCipher s _ => s ← s; Some (streamPacket (shadowstream.mkPacketConn c s g))
  end.

#[global] Instance SSPacketConn_PacketConn {P K R A} `{Conn.PacketConn P A, Stream K, Rand R}
  : Conn.PacketConn (SSPacketConn P K R) A := {
  WriteTo b a c :=
    match c with
    | plainPacket c => '(n, e, c) ← WriteTo b a c; Some (n, e, plainPacket c)
    | aeadPacket c => '(n, e, c) ← WriteTo b a c; Some (n, e, aeadPacket c)
    | streamPacket c => '(n, e, c) ← WriteTo b a c; Some (n, e, streamPacket c)
    end;
  ReadFrom n c :=
    match c with
    | plainPacket c => '(d, m, a, e, c) ← ReadFrom n c; Some (d, m, a, e, plainPacket c)
    | aeadPacket c => '(d, m, a, e, c) ← ReadFrom n c; Some (d, m, a, e, aeadPacket c)
    | streamPacket c => '(d, m, a, e, c) ← ReadFrom n c; Some (d, m, a, e, streamPacket c)
    end }.

(** The connection underneath. *)
Definition inner {S K R} (c : SSConn S K R) : S :=
  match c with
  | plainConn c => c
  | aeadConn c => shadowaead.c_Conn c
  | streamConn c => shadowstream.c_Conn c
  end.

(** ** Key derivation *)

Fixpoint digests {K B} (L : Lib K B) (password : gostring) (m : nat) (prev : list byte)
  : list byte :=
  match m with
  | O => []
  | S m => let d := md5 L (prev ++ password) in d ++ digests L password m d
  end.

Section Facts.
Context {K B : Type} (L : Lib K B) `{HL : LibOk K B L}.

Lemma len_digests pw m : forall prev, len (digests L pw m prev) = 16 * Z.of_nat m.
Proof.
  induction m as [|m IH]; intros prev; [done|]. cbn [digests].
  rewrite len_app, IH, lib_md5. lia.
Qed.

Lemma Kdf_loop_spec fuel : forall pw n b prev m,
  0 <= n -> n - len b <= Z.of_nat fuel -> n <= len b + 16 * Z.of_nat m ->
  Kdf_loop L fuel pw n b prev = Some (ztake n (b ++ digests L pw m prev)).
Proof.
  induction fuel as [|fuel IH]; intros pw n b prev m Hn Hf Hm; cbn [Kdf_loop].
  - replace (len b <? n) with false by lia. rewrite slice_prefix by lia.
    f_equal. unfold ztake. rewrite take_app_le; [done|unfold len in *; lia].
  - destruct (Z.ltb_spec (len b) n) as [Hlt|Hge].
    2:{ rewrite slice_prefix by lia. f_equal. unfold ztake.
        rewrite take_app_le; [done|unfold len in *; lia]. }
    set (d := md5 L (prev ++ pw)). pose proof (lib_md5 (L:=L) (prev ++ pw)) as Hd. fold d in Hd.
    rewrite slice_app_end by (rewrite ?len_app; lia). bind_simpl.
    destruct m as [|m]; [lia|].
    rewrite (IH pw n (b ++ d) d m) by (rewrite ?len_app; lia).
    cbn [digests]. fold d. by rewrite <- app_assoc.
Qed.

(** ** The constructors keep the promises of their layers *)

Lemma stream_ok iv (c : shadowstream.Cipher K) : 0 <= iv <= 1024 ->
  shadowstream.IVSize c = iv ->
  (forall x, len x = iv -> exists e d, shadowstream.Encrypter c x = Some e /\
     shadowstream.Decrypter c x = Some d /\ undoes d e) ->
  shadowstream.CipherOk c.
Proof. intros Hi Hs Hx. split; [lia|]. intros x Hl. apply Hx. lia. Qed.

(** A cipher as [PickCipher] returns it without an error. *)
Definition picked (c : Cipher K) : Prop :=
  match c with
  | dummy => True
  | AeadCipher a _ => exists x, a = Some x /\ shadowaead.CipherOk x
  | StreamCipher s _ => exists x, s = Some x /\ shadowstream.CipherOk x /\
      shadowstream.IVSize x <> 0
  end.

Lemma undoes_chacha20 k iv : len k = 32 -> len iv ∈ [12; 24] ->
  exists e d, shadowstream.chachaStream (chacha20 L) k iv = Some e /\
    shadowstream.chachaStream (chacha20 L) k iv = Some d /\ undoes d e.
Proof.
  intros Hk Hiv. destruct (lib_chacha20 k iv Hk Hiv) as (c & Hc & Hu).
  unfold shadowstream.chachaStream. rewrite Hc. eauto.
Qed.

Lemma aead_entry name n New :
  aeadList L !! name = Some (n, New) -> n ∈ [16; 24; 32] /\
  forall key, len key = n -> exists c, New key = inl c /\ shadowaead.CipherOk c.
Proof.
  intros Hin%elem_of_list_to_map_2.
  assert (Hgcm : forall n key, len key = n -> n ∈ [16; 24; 32] ->
    exists c, shadowaead.AESGCM (hkdf L) (gcm L) key = inl c /\ shadowaead.CipherOk c).
  { intros m key <- Hm. unfold shadowaead.AESGCM.
    replace ((len key =? 16) || (len key =? 24) || (len key =? 32)) with true
      by (symmetry; rewrite !orb_true_iff, !Z.eqb_eq; set_solver).
    eexists. split; [done|]. apply shadowaead.metaCipher_ok; [apply lib_hkdf| |].
    - assert (len key = 16 \/ len key = 24 \/ len key = 32) by set_solver. lia.
    - intros k Hkl. apply lib_gcm. by rewrite Hkl. }
  rewrite !elem_of_cons in Hin.
  destruct Hin as [[= -> -> ->]|[[= -> -> ->]|[[= -> -> ->]|[[= -> -> ->]|[[= -> -> ->]|Hin]]]]];
    [..|by apply elem_of_nil in Hin]; (split; [set_solver|]); intros key Hk;
    [apply (Hgcm _ key Hk); set_solver..| |];
    unfold shadowaead.Chacha20Poly1305, shadowaead.XChacha20Poly1305; rewrite Hk;
    (eexists; split; [done|]); apply shadowaead.metaCipher_ok; try apply lib_hkdf; try lia;
    intros k Hkl; [apply lib_chachapoly|apply lib_xchachapoly]; lia.
Qed.

Lemma stream_entry name n New :
  streamList L !! name = Some (n, New) -> n ∈ [16; 24; 32] /\
  forall key, len key = n ->
    exists c, New key = inl c /\ shadowstream.CipherOk c /\ shadowstream.IVSize c <> 0.
Proof.
  intros Hin%elem_of_list_to_map_2.
  assert (Haes : forall n key, len key = n -> n ∈ [16; 24; 32] ->
    (exists c, aesCTR L key = inl c /\ shadowstream.CipherOk c /\ shadowstream.IVSize c <> 0) /\
    (exists c, aesCFB L key = inl c /\ shadowstream.CipherOk c /\ shadowstream.IVSize c <> 0)).
  { intros m key <- Hm. destruct (lib_aes key Hm) as (b & Hb & Hbs).
    unfold aesCTR, aesCFB, shadowstream.AESCTR, shadowstream.AESCFB. rewrite Hb.
    split; (eexists; split; [done|]); (split; [|cbn; lia]); apply (stream_ok 16); try done;
      intros x _; eexists _, _; (do 2 (split; [done|])); [apply lib_ctr|apply lib_cfb]. }
  rewrite !elem_of_cons in Hin.
  destruct Hin as [[= -> -> ->]|[[= -> -> ->]|[[= -> -> ->]|[[= -> -> ->]|[[= -> -> ->]|
    [[= -> -> ->]|[[= -> -> ->]|[[= -> -> ->]|[[= -> -> ->]|Hin]]]]]]]]];
    [..|by apply elem_of_nil in Hin]; (split; [set_solver|]); intros key Hk;
    try (apply (Haes _ key Hk); set_solver).
  - eexists. split; [done|]. split; [|done]. apply (stream_ok 16); try done.
    intros x _. eexists _, _. do 2 (split; [done|]). apply lib_rc4.
  - unfold shadowstream.Chacha20IETF. rewrite Hk. eexists. split; [done|].
    split; [|done]. apply (stream_ok 12); try done. intros x Hx.
    apply undoes_chacha20; [done|set_solver].
  - unfold shadowstream.Xchacha20. rewrite Hk. eexists. split; [done|].
    split; [|done]. apply (stream_ok 24); try done. intros x Hx.
    apply undoes_chacha20; [done|set_solver].
Qed.

Lemma Kdf_len pw n : 0 <= n -> exists b, Kdf L pw n = Some b /\ len b = n.
Proof.
  intros Hn. unfold Kdf.
  rewrite (Kdf_loop_spec _ pw n [] [] (Z.to_nat n)) by len_lia.
  eexists. split; [done|]. rewrite len_ztake. simpl. rewrite len_digests. lia.
Qed.

Lemma keyed_spec {C} n (New : list byte -> C + error) wrap key pw (good : C -> Prop) :
  n ∈ [16; 24; 32] -> (forall k, len k = n -> exists c, New k = inl c /\ good c) ->
  exists k, (if len key =? 0 then Kdf L pw n else Some key) = Some k /\
    if len k =? n
    then exists c, good c /\ keyed L n New wrap key pw = Some (Some (wrap (Some c) k), None)
    else keyed L n New wrap key pw = Some (None, Some (shadowaead.KeySizeError n)).
Proof.
  intros Hn Hnew. assert (0 <= n) as H0 by (assert (n = 16 \/ n = 24 \/ n = 32) by set_solver; lia).
  unfold keyed.
  assert (exists k, (if len key =? 0 then Kdf L pw n else Some key) = Some k) as [k Hk].
  { destruct (len key =? 0); [|eauto]. destruct (Kdf_len pw n H0) as (b & -> & _). eauto. }
  exists k. split; [done|]. rewrite Hk. bind_simpl.
  destruct (Z.eqb_spec (len k) n) as [Hl|Hl]; simpl negb; cbv iota; [|done].
  destruct (Hnew k Hl) as (c & -> & Hg). by exists c.
Qed.

(** The key size of a canonical name that is not the dummy's. *)
Definition keySize (name : gostring) : option Z :=
  match aeadList L !! name with
  | Some (n, _) => Some n
  | None => fst <$> streamList L !! name
  end.

Definition cipherKey (c : Cipher K) : list byte :=
  match c with dummy => [] | AeadCipher _ k => k | StreamCipher _ k => k end.

Lemma PickCipher_cases name key pw :
  let up := ToUpper name in
  if str_eqb up (str "DUMMY") then PickCipher L name key pw = Some (Some dummy, None)
  else match keySize (canonical up) with
  | None => PickCipher L name key pw = Some (None, Some ErrCipherNotSupported)
  | Some n => exists k, (if len key =? 0 then Kdf L pw n else Some key) = Some k /\
      if len k =? n
      then exists c, PickCipher L name key pw = Some (Some c, None) /\ picked c /\ cipherKey c = k
      else PickCipher L name key pw = Some (None, Some (shadowaead.KeySizeError n))
  end.
Proof.
  intros up. unfold PickCipher. fold up. destruct (str_eqb up (str "DUMMY")); [done|].
  unfold keySize. destruct (aeadList L !! canonical up) as [[n New]|] eqn:Ea.
  - destruct (aead_entry _ _ _ Ea) as [Hn Hnew].
    destruct (keyed_spec n New AeadCipher key pw _ Hn Hnew) as (k & Hk & Hx).
    exists k. split; [done|]. destruct (len k =? n); [|done].
    destruct Hx as (c & Hc & ->). eexists. split; [done|]. split; [|done]. by exists c.
  - destruct (streamList L !! canonical up) as [[n New]|] eqn:Es; simpl; [|done].
    destruct (stream_entry _ _ _ Es) as [Hn Hnew].
    destruct (keyed_spec n New StreamCipher key pw _ Hn Hnew) as (k & Hk & Hx).
    exists k. split; [done|]. destruct (len k =? n); [|done].
    destruct Hx as (c & Hc & ->). eexists. split; [done|]. split; [|done]. by exists c.
Qed.
End Facts.

Lemma PickCipher_picked {K B} `{StreamOk K} (L : Lib K B) `{!LibOk L} name key pw c :
  PickCipher L name key pw = Some (Some c, None) -> picked c.
Proof.
  intros Hpick. pose proof (PickCipher_cases L name key pw) as Hx. cbv zeta in Hx.
  destruct (str_eqb _ _); [rewrite Hpick in Hx; by injection Hx as ->|].
  destruct (keySize L _) as [n|]; [|congruence]. destruct Hx as (k & _ & Hx).
  destruct (len k =? n); [|congruence]. destruct Hx as (c' & Hx & Hc' & _). congruence.
Qed.

(** ** A wrapped connection behaves as the layer in it *)

#[global, program] Instance SSConn_ReaderOk {S K R} `{ReaderOk S, StreamOk K}
  : ReaderOk (SSConn S K R) := {
  Delivers c bs e := match c with
    | plainConn c => Delivers c bs e
    | aeadConn c => Delivers c bs e
    | streamConn c => Delivers c bs e
    end }.
Next Obligation.
  intros S K R HR HO HK HKo c bs e n Hd Hn. unfold Read, SSConn_Reader.
  destruct c as [c|c|c]; destruct (read_ok c bs e n Hd Hn) as (d & er & c' & -> & Hl & Hp);
    bind_simpl; eexists _, _, _; (split; [done|]); (split; [done|]); destruct er; exact Hp.
Qed.

Lemma write_all_plain {S K R} `{Writer S, Stream K, Rand R} ps : forall c : S,
  write_all ps (plainConn c : SSConn S K R) =
    ('(e, c) ← write_all ps c; Some (e, plainConn c)).
Proof.
  induction ps as [|p ps IH]; intros c; [done|]. cbn [write_all].
  unfold Write at 1. cbn [SSConn_Writer].
  destruct (Write p c) as [[[n [e|]] c']|]; simpl; [done|apply IH|done].
Qed.

Lemma write_all_aead {S K R} `{Writer S, Stream K, Rand R} ps : forall c : shadowaead.ConnState S R,
  write_all ps (aeadConn c : SSConn S K R) =
    ('(e, c) ← write_all ps c; Some (e, aeadConn c)).
Proof.
  induction ps as [|p ps IH]; intros c; [done|]. cbn [write_all].
  unfold Write at 1. cbn [SSConn_Writer].
  destruct (Write p c) as [[[n [e|]] c']|]; simpl; [done|apply IH|done].
Qed.

Lemma write_all_stream {S K R} `{Writer S, Stream K, Rand R} ps : forall c : shadowstream.ConnState S K R,
  write_all ps (streamConn c : SSConn S K R) =
    ('(e, c) ← write_all ps c; Some (e, streamConn c)).
Proof.
  induction ps as [|p ps IH]; intros c; [done|]. cbn [write_all].
  unfold Write at 1. cbn [SSConn_Writer].
  destruct (Write p c) as [[[n [e|]] c']|]; simpl; [done|apply IH|done].
Qed.

(** Both ends of a wrapped connection, from the state each starts in. *)
Lemma wrapped_transfer {S T K R} `{ConnOk S, ReaderOk T, StreamOk K, RandOk R} (c : Cipher K)
    (s : S) (t : T) (g g' : R) ps bs e out e' :
  picked c -> Live s bs e out -> Forall (fun p => p <> []) ps -> ps <> [] ->
  exists s0 w ct, StreamConn c s g = Some s0 /\ write_all ps s0 = Some (None, w) /\
    Sent (inner w) = out ++ ct /\
    (Delivers t ct e' -> exists t0, StreamConn c t g' = Some t0 /\ Delivers t0 (concat ps) e').
Proof.
  intros Hc HL Hps Hne. destruct c as [|a k|x k].
  - destruct (Live_write_all ps s bs e out HL) as (s' & Hw & HL').
    eexists _, _, (concat ps). split; [done|]. rewrite write_all_plain, Hw. split; [done|].
    split; [apply HL'|]. eauto.
  - destruct Hc as (c & -> & Hc).
    destruct (shadowaead.Conn_write_all ps (shadowaead.NewConn s c g) [] [] bs e out)
      as (w & ct & Hw & Hciph & HW & HL'); [done|by rewrite app_nil_r|done|].
    eexists _, _, ct. split; [done|]. rewrite write_all_aead, Hw. split; [done|].
    split; [apply HL'|]. intros Hd. eexists. split; [done|]. split; [done|].
    right. exists ct. split; [done|]. apply shadowaead.Written_Session in HW.
    + by rewrite Hciph in HW.
    + destruct ps as [|q qs]; [done|]. inversion Hps; subst. by destruct q.
  - destruct Hc as (c & -> & Hc & Hnz).
    destruct (shadowstream.sConn_write_all ps (shadowstream.NewConn s c g) [] [] bs e out)
      as (w & ct & Hw & Hciph & Hs & [_ HW] & HL'); [done|by rewrite app_nil_r|].
    eexists _, _, ct. split; [done|]. rewrite write_all_stream, Hw. split; [done|].
    split; [apply HL'|]. intros Hd. eexists. split; [done|]. split; [done|].
    do 2 (split; [done|]). right. exists ct. split; [done|].
    destruct (Hs Hne) as [k0 Hk]. rewrite Hk, Hciph in HW.
    destruct HW as (iv & k1 & Hl & He & -> & _). by exists iv, k1.
Qed.

(** ** Properties *)

(** C10: two ends that pick the same cipher (any name, key and password that are
    accepted) carry a stream: what one writes, in any non-empty pieces, the
    other reads, over any transports and segmentation. *)
Theorem Cipher_roundtrip {S T K B R} `{ConnOk S, ReaderOk T, StreamOk K, RandOk R}
    (L : Lib K B) name key pw c (s : S) (t : T) (g g' : R) ps bs e out e' :
  LibOk L -> PickCipher L name key pw = Some (Some c, None) ->
  Live s bs e out -> Forall (fun p => p <> []) ps -> ps <> [] ->
  exists s0 w ct, StreamConn c s g = Some s0 /\ write_all ps s0 = Some (None, w) /\
    Sent (inner w) = out ++ ct /\
    (Delivers t ct e' -> exists t0 t1, StreamConn c t g' = Some t0 /\
       ReadFull (len (concat ps)) t0 = Some (concat ps, None, t1) /\ Delivers t1 [] e').
Proof.
  intros HL Hpick HLive Hps Hne. pose proof (PickCipher_picked L name key pw c Hpick) as Hc.
  destruct (wrapped_transfer c s t g g' ps bs e out e' Hc HLive Hps Hne)
    as (s0 & w & ct & Hs0 & Hw & Hs & Ht).
  exists s0, w, ct. do 3 (split; [done|]). intros Hd. destruct (Ht Hd) as (t0 & Ht0 & Hd0).
  rewrite <- (app_nil_r (concat ps)) in Hd0.
  destruct (ReadFull_app _ _ (len (concat ps)) t0 e' Hd0 eq_refl) as (t1 & Hr & Hd1).
  exists t0, t1. done.
Qed.

(** [PickCipher] never panics. A name is looked up in upper case and after
    its aliases; with a cipher of key size [n] it succeeds exactly when the
    key, or the one derived from the password when no key is given, has [n]
    bytes, and then the cipher works and has that key; an unknown name is
    [ErrCipherNotSupported]. *)
Theorem PickCipher_spec {K B} `{Stream K} (L : Lib K B) name key pw :
  LibOk L ->
  let up := ToUpper name in
  if str_eqb up (str "DUMMY") then PickCipher L name key pw = Some (Some dummy, None)
  else match keySize L (canonical up) with
  | None => PickCipher L name key pw = Some (None, Some ErrCipherNotSupported)
  | Some n =>
      exists k, (if len key =? 0 then Kdf L pw n = Some k /\ len k = n else k = key) /\
        if len k =? n
        then exists c, PickCipher L name key pw = Some (Some c, None) /\ picked c /\ cipherKey c = k
        else PickCipher L name key pw = Some (None, Some (shadowaead.KeySizeError n))
  end.
Proof.
  intros HL up. pose proof (PickCipher_cases L name key pw) as Hx. cbv zeta in Hx. fold up in Hx.
  destruct (str_eqb up (str "DUMMY")); [done|].
  destruct (keySize L (canonical up)) as [n|] eqn:Ek; [|done].
  destruct Hx as (k & Hk & Hx). exists k. split; [|done].
  destruct (len key =? 0); [|by injection Hk as ->].
  split; [done|]. destruct (Kdf_len L pw n) as (b & Hb & Hl); [|congruence].
  unfold keySize in Ek.
  assert (n ∈ [16; 24; 32]) as Hn.
  { destruct (aeadList L !! canonical up) as [[m New]|] eqn:Ea.
    - injection Ek as <-. exact (proj1 (aead_entry L _ _ _ Ea)).
    - destruct (streamList L !! canonical up) as [[m New]|] eqn:Es; [|done].
      injection Ek as <-. exact (proj1 (stream_entry L _ _ _ Es)). }
  assert (n = 16 \/ n = 24 \/ n = 32) by set_solver. lia.
Qed.

(** [Kdf] ends for every key length and is the original Shadowsocks key
    derivation: the first bytes of the chain of digests in which each digest
    is of the one before it and the password. *)
Theorem Kdf_spec {K B} `{Stream K} (L : Lib K B) pw n m :
  LibOk L -> 0 <= n <= 16 * Z.of_nat m ->
  Kdf L pw n = Some (ztake n (digests L pw m [])) /\ len (ztake n (digests L pw m [])) = n.
Proof.
  intros HL Hn. pose proof (Kdf_loop_spec L (Z.to_nat n) pw n [] [] m) as E.
  pose proof (len_digests L pw m []) as Hl. split; [apply E; len_lia|].
  rewrite len_ztake, Hl. lia.
Qed.

(** ** Witnesses: a library whose stream is a constant XOR *)

#[export] Instance Xor55 : Stream unit :=
  fun k p => ((fun b => z2b (Z.lxor (b2z b) 85)) <$> p, k).

#[export] Instance Xor55_ok : StreamOk unit.
Proof.
  split.
  - intros k p. unfold XORKeyStream, Xor55, len. simpl. by rewrite length_fmap.
  - done.
  - intros k p q. unfold XORKeyStream, Xor55. simpl. by rewrite fmap_app.
Defined.

Lemma Xor55_undoes : undoes tt tt.
Proof.
  intros p. induction p as [|b p IH]; [done|]. unfold XORKeyStream, Xor55 in *. simpl in *.
  f_equal; [by destruct b|exact IH].
Qed.

Definition toyLib : Lib unit unit :=
  mkLib (fun _ _ _ n => replicate (Z.to_nat n) (z2b 0)) (fun _ => inl shadowaead.toyAEAD)
    (fun _ => inl shadowaead.toyAEAD) (fun _ => inl shadowaead.toyAEAD)
    (fun _ => replicate 16 (z2b 1)) (fun _ => inl tt) (fun _ => 16) (fun _ _ => tt)
    (fun _ _ => tt) (fun _ _ => tt) (fun _ _ => inl tt) (fun _ => tt).

#[export] Instance toyLib_ok : LibOk toyLib.
Proof.
  pose proof shadowaead.toyAEAD_ok.
  split; try (intros; exists shadowaead.toyAEAD; done); try (intros; apply Xor55_undoes); try done.
  - intros s t i n Hn. simpl. rewrite len_replicate. apply Z2Nat.id. lia.
  - intros k _. by exists tt.
  - intros k iv _ _. exists tt. split; [done|apply Xor55_undoes].
Defined.

Lemma Cipher_roundtrip_witness :
  let ps := [str "hello"; str "world"] in
  let c := AeadCipher (Some (shadowaead.metaCipher (hkdf toyLib) (replicate 16 (z2b 1))
             (gcm toyLib))) (replicate 16 (z2b 1)) : Cipher unit in
  let s := dialed [] EOF in
  let t := dialed [replicate 16 (z2b 0) ++ shadowaead.recordAt shadowaead.toyAEAD 0 (str "hello") ++
                   shadowaead.recordAt shadowaead.toyAEAD 2 (str "world")] EOF in
  exists s0 w ct, StreamConn c s tt = Some s0 /\ write_all ps s0 = Some (None, w) /\
    Sent (inner w) = [] ++ ct /\
    (Delivers t ct EOF -> exists t0 t1, StreamConn c t tt = Some t0 /\
       ReadFull (len (concat ps)) t0 = Some (concat ps, None, t1) /\ Delivers t1 [] EOF).
Proof.
  intros ps c s t.
  apply (Cipher_roundtrip toyLib (str "aes-128-gcm") [] (str "secret") c s t tt tt ps [] EOF [] EOF);
    [apply _|vm_compute; reflexivity|by apply (dialed_Live [])| |discriminate].
  repeat constructor; discriminate.
Defined.

Lemma PickCipher_spec_witness :
  let up := ToUpper (str "xchacha20") in
  if str_eqb up (str "DUMMY")
  then PickCipher toyLib (str "xchacha20") [] (str "pw") = Some (Some dummy, None)
  else match keySize toyLib (canonical up) with
  | None => PickCipher toyLib (str "xchacha20") [] (str "pw") = Some (None, Some ErrCipherNotSupported)
  | Some n =>
      exists k, (if len (@nil byte) =? 0 then Kdf toyLib (str "pw") n = Some k /\ len k = n else k = []) /\
        if len k =? n
        then exists c, PickCipher toyLib (str "xchacha20") [] (str "pw") = Some (Some c, None) /\
               picked c /\ cipherKey c = k
        else PickCipher toyLib (str "xchacha20") [] (str "pw") =
               Some (None, Some (shadowaead.KeySizeError n))
  end.
Proof. apply (PickCipher_spec toyLib (str "xchacha20") [] (str "pw")). apply _. Defined.

Lemma Kdf_spec_witness :
  Kdf toyLib (str "pw") 24 = Some (ztake 24 (digests toyLib (str "pw") 2 [])) /\
  len (ztake 24 (digests toyLib (str "pw") 2 [])) = 24.
Proof. apply (Kdf_spec toyLib (str "pw") 24 2); [apply _|lia]. Defined.
End core.
