(* ===== verification/Obfs.v ===== *)
(** * Obfs: transport/simple-obfs (TLS and HTTP) and transport/internal/bufferpool

    [TLSObfs] and [HTTPObfs] are layers over any connection.  The server's
    reading of what the client sends ([parseHello], [Frames]) is the
    specification of the framing.  The last part models the pooled
    [bytes.Buffer]s with their shared arrays. *)

From S2P Require Import Prelude Net Conn Allocator.

Open Scope Z_scope.

(** ** transport/internal/bufferpool: pooled [bytes.Buffer]s

    A buffer is a slice of an array of the heap; a pooled buffer keeps its
    array, and [Bytes] returns a view of it, not a copy. *)

Module bufferpool.

Definition _size : Z := 1024.

Record Store := mkStore {
  arrays : Heap;
  bufs : gmap nat Slice;
  free : pool.Pool nat }.

Definition emptyStore : Store := mkStore emptyHeap ∅ [].

(** [bytes.NewBuffer(make([]byte, 0, _size))]. *)
Definition newBuffer (st : Heap * gmap nat Slice) : nat * (Heap * gmap nat Slice) :=
  let '(h, m) := st in
  let '(s, h) := make _size h in
  let id := arr s in
  (id, (h, <[id := mkSlice (arr s) 0 (scap s)]> m)).

(** [Get]: a pooled buffer or a new one, reset. *)
Definition getBuffer (choice : nat) (st : Store) : nat * Store :=
  let '(id, p, (h, m)) := pool.PoolGet newBuffer choice (free st) (arrays st, bufs st) in
  let m := alter (fun s => mkSlice (arr s) 0 (scap s)) id m in
  (id, mkStore h m p).

Definition putBuffer (id : nat) (st : Store) : Store :=
  mkStore (arrays st) (bufs st) (pool.PoolPut id (free st)).

(** [bytes.Buffer.Write]: in place when it fits, else in a larger array. *)
Definition bufWrite (id : nat) (p : list byte) (st : Store) : Store :=
  match bufs st !! id with
  | None => st
  | Some s =>
      if slen s + len p <=? scap s then
        let h := mkHeap (next (arrays st))
          (alter (fun c => blit c (slen s) p) (arr s) (cells (arrays st))) in
        mkStore h (<[id := mkSlice (arr s) (slen s + len p) (scap s)]> (bufs st)) (free st)
      else
        let old := view (arrays st) s in
        let '(n, h) := make (2 * scap s + len p) (arrays st) in
        let h := mkHeap (next h) (alter (fun c => blit c 0 (old ++ p)) (arr n) (cells h)) in
        mkStore h (<[id := mkSlice (arr n) (slen s + len p) (scap n)]> (bufs st)) (free st)
  end.

(** [buf.Bytes()]. *)
Definition Bytes (id : nat) (st : Store) : Slice := default (mkSlice 0 0 0) (bufs st !! id).

Definition writeAll (id : nat) (ps : list (list byte)) (st : Store) : Store :=
  fold_left (fun st p => bufWrite id p st) ps st.

Lemma blit_blit {A} (c p q : list A) a :
  0 <= a -> a + len p + len q <= len c ->
  blit (blit c a p) (a + len p) q = blit c a (p ++ q).
Proof.
  intros Ha Hl. pose proof (len_nonneg p). pose proof (len_nonneg q).
  rewrite (blit_fits c a p), (blit_fits c a (p ++ q)) by (rewrite ?len_app; lia).
  rewrite app_assoc. rewrite (blit_app (ztake a c ++ p)) by len_lia.
  rewrite <- !app_assoc. do 3 f_equal. rewrite zdrop_zdrop by lia. rewrite len_app.
  f_equal. lia.
Qed.

(** Writes that fit go to the buffer's own array, one after the other. *)
Lemma writeAll_inplace ps : forall st id s c,
  bufs st !! id = Some s -> cells (arrays st) !! arr s = Some c -> len c = scap s ->
  0 <= slen s -> slen s + len (concat ps) <= scap s ->
  let st' := writeAll id ps st in
  bufs st' !! id = Some (mkSlice (arr s) (slen s + len (concat ps)) (scap s)) /\
  cells (arrays st') !! arr s = Some (blit c (slen s) (concat ps)) /\ free st' = free st.
Proof.
  induction ps as [|p ps IH]; intros st id s c Hs Hc Hl H0 Hle; cbn [writeAll fold_left concat] in *.
  - rewrite len_nil, Z.add_0_r. split; [by destruct s|]. split; [|done].
    rewrite blit_fits by len_lia. rewrite len_nil, Z.add_0_r. simpl. by rewrite ztake_zdrop.
  - rewrite len_app in *. pose proof (len_nonneg (concat ps)). pose proof (len_nonneg p).
    unfold bufWrite at 2 4 6. rewrite Hs. rewrite (proj2 (Z.leb_le _ _)) by lia.
    match goal with |- context [fold_left _ ps ?st1] =>
      destruct (IH st1 id (mkSlice (arr s) (slen s + len p) (scap s)) (blit c (slen s) p))
        as (E1 & E2 & E3) end; cbn [bufs arrays cells arr slen scap free] in *.
    + apply lookup_insert_eq.
    + by rewrite lookup_alter_eq, Hc.
    + rewrite len_blit; lia.
    + lia.
    + lia.
    + unfold writeAll in *. rewrite E1, E2, E3. split; [do 2 f_equal; lia|]. split; [|done].
      f_equal. apply blit_blit; lia.
Qed.
End bufferpool.

(** ** tls.go *)

Module obfs.

Definition chunkSize : Z := Z.shiftl 1 14.

Record TLSObfs (S R : Type) := mkTLS {
  t_Conn : S; server : gostring; remain : Z;
  t_firstRequest : bool; t_firstResponse : bool;
  t_rand : R; t_now : Z }.
Arguments mkTLS {S R}. Arguments t_Conn {S R}. Arguments server {S R}.
Arguments remain {S R}. Arguments t_firstRequest {S R}.
Arguments t_firstResponse {S R}. Arguments t_rand {S R}. Arguments t_now {S R}.

(** [now] is what [time.Now().Unix()] will answer. *)
Definition NewTLSObfs {S R} (conn : S) (server : gostring) (g : R) (now : Z) : TLSObfs S R :=
  mkTLS conn server 0 true true g now.

Definition setConn {S R} (t : TLSObfs S R) (s : S) : TLSObfs S R :=
  mkTLS s (server t) (remain t) (t_firstRequest t) (t_firstResponse t) (t_rand t) (t_now t).
Definition setRemain {S R} (t : TLSObfs S R) (n : Z) : TLSObfs S R :=
  mkTLS (t_Conn t) (server t) n (t_firstRequest t) (t_firstResponse t) (t_rand t) (t_now t).

(** [to.read(b, discardN)] with [len b = n].  The error of the second
    [ReadFull] is dropped. *)
Definition tls_read {S R} `{Reader S} (n discardN : Z) (t : TLSObfs S R)
  : option (list byte * err * TLSObfs S R) :=
  '(_, e, s) ← ReadFull discardN (t_Conn t);
  check e else Some ([], e, setConn t s) ;;
  '(sizeBuf, e, s) ← ReadFull 2 s;
  check e else Some ([], None, setConn t s) ;;
  length ← Uint16 sizeBuf;
  if n <? length then
    '(d, e, s) ← Read n s;
    check e else Some (d, e, setConn t s) ;;
    Some (d, None, setRemain (setConn t s) (length - len d))
  else
    '(d, e, s) ← ReadFull length s;
    Some (d, e, setConn t s).

#[global] Instance TLS_Reader {S R} `{Reader S} : Reader (TLSObfs S R) := fun n t =>
  if 0 <? remain t then
    let length := if n <? remain t then n else remain t in
    '(d, e, s) ← ReadFull length (t_Conn t);
    Some (d, e, setRemain (setConn t s) (remain t - len d))
  else if t_firstResponse t then
    tls_read n 105 (mkTLS (t_Conn t) (server t) (remain t) (t_firstRequest t) false
                      (t_rand t) (t_now t))
  else tls_read n 3 t.

Definition bytesZ (l : list Z) : list byte := z2b <$> l.

Definition cipherSuites : list byte := bytesZ [
  0xc0; 0x2c; 0xc0; 0x30; 0x00; 0x9f; 0xcc; 0xa9; 0xcc; 0xa8; 0xcc; 0xaa; 0xc0; 0x2b; 0xc0; 0x2f;
  0x00; 0x9e; 0xc0; 0x24; 0xc0; 0x28; 0x00; 0x6b; 0xc0; 0x23; 0xc0; 0x27; 0x00; 0x67; 0xc0; 0x0a;
  0xc0; 0x14; 0x00; 0x39; 0xc0; 0x09; 0xc0; 0x13; 0x00; 0x33; 0x00; 0x9d; 0x00; 0x9c; 0x00; 0x3d;
  0x00; 0x3c; 0x00; 0x35; 0x00; 0x2f; 0x00; 0xff].

Definition ecPoint : list byte := bytesZ [0x00; 0x0b; 0x00; 0x04; 0x03; 0x01; 0x00; 0x02].
Definition groups : list byte :=
  bytesZ [0x00; 0x0a; 0x00; 0x0a; 0x00; 0x08; 0x00; 0x1d; 0x00; 0x17; 0x00; 0x19; 0x00; 0x18].
Definition signature : list byte := bytesZ [
  0x00; 0x0d; 0x00; 0x20; 0x00; 0x1e; 0x06; 0x01; 0x06; 0x02; 0x06; 0x03; 0x05;
  0x01; 0x05; 0x02; 0x05; 0x03; 0x04; 0x01; 0x04; 0x02; 0x04; 0x03; 0x03; 0x01;
  0x03; 0x02; 0x03; 0x03; 0x02; 0x01; 0x02; 0x02; 0x02; 0x03].

(** What is written to the buffer of [makeClientHelloMsg], in its pieces. *)
Definition helloMsg (random sessionID : list byte) (now : Z) (data : list byte)
    (server : gostring) : list (list byte) :=
  let length := u16 (212 + len data + len server) in
  [ [z2b 22]; bytesZ [0x03; 0x01]; [z2b (Z.shiftr length 8)]; [z2b (Z.land length 0xff)];
    [z2b 1]; [z2b 0]; PutUint16 (u16 (208 + len data + len server)); bytesZ [0x03; 0x03];
    PutUint32 (u32 now); random; [z2b 32]; sessionID;
    bytesZ [0x00; 0x38]; cipherSuites; bytesZ [0x01; 0x00];
    PutUint16 (u16 (79 + len data + len server));
    bytesZ [0x00; 0x23]; PutUint16 (u16 (len data)); data;
    bytesZ [0x00; 0x00]; PutUint16 (u16 (len server + 5)); PutUint16 (u16 (len server + 3));
    [z2b 0]; PutUint16 (u16 (len server)); server;
    ecPoint; groups; signature; bytesZ [0x00; 0x16; 0x00; 0x00]; bytesZ [0x00; 0x17; 0x00; 0x00] ].

(** [makeClientHelloMsg] as a value: the errors of [rand.Read] are ignored. *)
Definition makeClientHelloMsg {R} `{Rand R} (data : list byte) (server : gostring) (now : Z) (g : R)
  : list byte * R :=
  let '(random, _, g) := rand_Read 28 g in
  let '(sessionID, _, g) := rand_Read 32 g in
  (concat (helloMsg random sessionID now data server), g).

(** [makeClientHelloMsg] with the buffer it uses: taken from the pool, written,
    put back by the deferred call, and its bytes returned. *)
Definition pooledHello (choice : nat) (random sessionID : list byte) (now : Z)
    (data : list byte) (server : gostring) (st : bufferpool.Store) : Slice * bufferpool.Store :=
  let '(buf, st) := bufferpool.getBuffer choice st in
  let st := bufferpool.writeAll buf (helloMsg random sessionID now data server) st in
  let ret := bufferpool.Bytes buf st in
  (ret, bufferpool.putBuffer buf st).

Definition frame (b : list byte) : list byte :=
  bytesZ [0x17; 0x03; 0x03] ++ PutUint16 (u16 (len b)) ++ b.

Definition tls_write {S R} `{Writer S, Rand R} (b : list byte) (t : TLSObfs S R)
  : option (Z * err * TLSObfs S R) :=
  if t_firstRequest t then
    let '(helloMsg, g) := makeClientHelloMsg b (server t) (t_now t) (t_rand t) in
    '(_, e, s) ← Write helloMsg (t_Conn t);
    Some (len b, e, mkTLS s (server t) (remain t) false (t_firstResponse t) g (t_now t))
  else
    '(_, e, s) ← Write (frame b) (t_Conn t);
    Some (len b, e, setConn t s).

(** One turn per chunk; a chunk has at least a byte. *)
Fixpoint tls_Write_loop {S R} `{Writer S, Rand R} (fuel : nat) (b : list byte) (i : Z)
    (t : TLSObfs S R) : option (Z * err * TLSObfs S R) :=
  if i <? len b then
    match fuel with
    | O => None
    | Datatypes.S f =>
        let end_ := if len b <? i + chunkSize then len b else i + chunkSize in
        p ← b.[i:end_];
        '(n, e, t) ← tls_write p t;
        check e else Some (n, e, t) ;;
        tls_Write_loop f b (i + chunkSize) t
    end
  else Some (len b, None, t).

#[global] Instance TLS_Writer {S R} `{Writer S, Rand R} : Writer (TLSObfs S R) :=
  fun b t => tls_Write_loop (length b) b 0 t.

(** ** http.go *)

Definition CRLF : list byte := bytesZ [13; 10].

(** [bytes.Index(b, "\r\n\r\n")]. *)
Fixpoint indexHeaderEnd (b : list byte) : option nat :=
  if bool_decide (take 4 b = CRLF ++ CRLF) then Some 0%nat
  else match b with [] => None | _ :: r => S <$> indexHeaderEnd r end.

Record HTTPObfs (S R : Type) := mkHTTP {
  h_Conn : S; host : gostring; port : gostring; h_buf : option (list byte); offset : Z;
  h_firstRequest : bool; h_firstResponse : bool; h_rand : R }.
Arguments mkHTTP {S R}. Arguments h_Conn {S R}. Arguments host {S R}. Arguments port {S R}.
Arguments h_buf {S R}. Arguments offset {S R}. Arguments h_firstRequest {S R}.
Arguments h_firstResponse {S R}. Arguments h_rand {S R}.

Definition NewHTTPObfs {S R} (conn : S) (host port : gostring) (g : R) : HTTPObfs S R :=
  mkHTTP conn host port None 0 true true g.

Definition withConn {S R} (h : HTTPObfs S R) (s : S) : HTTPObfs S R :=
  mkHTTP s (host h) (port h) (h_buf h) (offset h) (h_firstRequest h) (h_firstResponse h) (h_rand h).

#[global] Instance HTTP_Reader {S R} `{Reader S} : Reader (HTTPObfs S R) := fun m h =>
  match h_buf h with
  | Some buf =>
      rest ← buf.[offset h:len buf];
      let d := ztake m rest in
      let off := offset h + len d in
      Some (d, None, mkHTTP (h_Conn h) (host h) (port h)
        (if off =? len buf then None else Some buf) off
        (h_firstRequest h) (h_firstResponse h) (h_rand h))
  | None =>
      if h_firstResponse h then
        '(buf, e, s) ← Read RelayBufferSize (h_Conn h);
        check e else Some ([], e, withConn h s) ;;
        match indexHeaderEnd buf with
        | None => Some ([], Some EOF, withConn h s)
        | Some i =>
            let idx := Z.of_nat i in
            let length := len buf - (idx + 4) in
            body ← buf.[idx + 4:len buf];
            let d := ztake m body in
            let n := len d in
            ho ← (if n <? length then
                    buf ← buf.[0:idx + 4 + length]; Some (Some buf, idx + 4 + n)
                  else Some (h_buf h, offset h));
            Some (d, None, mkHTTP s (host h) (port h) ho.1 ho.2
              (h_firstRequest h) false (h_rand h))
        end
      else '(d, e, s) ← Read m (h_Conn h); Some (d, e, withConn h s)
  end.

(** [math/rand.Int] and [base64.URLEncoding.EncodeToString]. *)
Class MathRand (R : Type) := mRand_Int : R -> Z * R.

Section HTTP.
Variable EncodeToString : list byte -> gostring.

(** [req.Write] of net/http for a GET with these headers: the request line,
    Host, User-Agent, Content-Length when there is a body, the other headers in
    order, a blank line and the body. *)
Definition requestBytes (hostHeader userAgent key body : list byte) : list byte :=
  str "GET / HTTP/1.1" ++ CRLF ++
  str "Host: " ++ hostHeader ++ CRLF ++
  str "User-Agent: " ++ userAgent ++ CRLF ++
  (if 0 <? len body then str "Content-Length: " ++ Itoa (len body) ++ CRLF else []) ++
  str "Connection: Upgrade" ++ CRLF ++
  str "Sec-Websocket-Key: " ++ key ++ CRLF ++
  str "Upgrade: websocket" ++ CRLF ++ CRLF ++ body.

Definition http_Write {S R} `{Writer S, Rand R, MathRand R} (b : list byte) (h : HTTPObfs S R)
  : option (Z * err * HTTPObfs S R) :=
  if h_firstRequest h then
    let '(randBytes, _, g) := rand_Read 16 (h_rand h) in
    let '(x, g) := mRand_Int g in
    let '(y, g) := mRand_Int g in
    let userAgent := str "curl/7." ++ Itoa (x mod 54) ++ str "." ++ Itoa (y mod 2) in
    let hostHeader := if negb (str_eqb (port h) (str "80"))
                      then host h ++ str ":" ++ port h else host h in
    '(_, e, s) ← Write (requestBytes hostHeader userAgent (EncodeToString randBytes) b) (h_Conn h);
    Some (len b, e, mkHTTP s (host h) (port h) (h_buf h) (offset h) false (h_firstResponse h) g)
  else '(n, e, s) ← Write b (h_Conn h); Some (n, e, withConn h s).
End HTTP.

(** The buffer of a later [write] while it is being filled. *)
Definition pooledFrame (choice : nat) (b : list byte) (st : bufferpool.Store)
  : Slice * bufferpool.Store :=
  let '(buf, st) := bufferpool.getBuffer choice st in
  let st := bufferpool.writeAll buf [bytesZ [0x17; 0x03; 0x03]; PutUint16 (u16 (len b)); b] st in
  (bufferpool.Bytes buf st, st).

(** ** The server's reading of a ClientHello

    By the length fields only: the record, the handshake, the session id, the
    cipher suites, the compression methods, the extensions; the payload is the
    session ticket, the server name follows it. *)

Definition vec16 (b : list byte) : option (list byte * list byte) :=
  n ← Uint16 b;
  p ← b.[2:2 + n];
  r ← b.[2 + n:len b];
  Some (p, r).

Definition parseHello (b : list byte) : option (list byte * gostring * list byte) :=
  t ← b.[0:3];
  if bool_decide (t = bytesZ [22; 3; 1]) then
    r ← b.[3:len b];
    '(rec, rest) ← vec16 r;
    h ← rec.[0:2];
    if bool_decide (h = bytesZ [1; 0]) then
      r ← rec.[2:len rec];
      '(body, nothing) ← vec16 r;
      r ← body.[34:len body];
      sid ← r.[0];
      r ← r.[1 + b2z sid:len r];
      '(_, r) ← vec16 r;
      cm ← r.[0];
      r ← r.[1 + b2z cm:len r];
      '(exts, nothing2) ← vec16 r;
      t1 ← exts.[0:2];
      r ← exts.[2:len exts];
      '(data, r) ← vec16 r;
      t2 ← r.[0:2];
      r ← r.[2:len r];
      '(sni, r) ← vec16 r;
      l ← sni.[0:len sni];
      '(names, nothing3) ← vec16 l;
      y ← names.[0];
      r2 ← names.[1:len names];
      '(name, nothing4) ← vec16 r2;
      if bool_decide (t1 = bytesZ [0; 35] /\ t2 = bytesZ [0; 0] /\ b2z y = 0 /\
                      nothing = [] /\ nothing2 = [] /\ nothing3 = [] /\ nothing4 = [])
      then Some (data, name, rest) else None
    else None
  else None.

(** What a server sends: after its handshake of 105 bytes (later 3), a length
    and that many bytes. *)
Inductive Frames : bool -> list byte -> list byte -> Prop :=
| fr_nil f : Frames f [] []
| fr_cons (f : bool) h p bs ct : len h = (if f then 105 else 3) -> 1 <= len p < 65536 ->
    Frames false bs ct -> Frames f (p ++ bs) (h ++ PutUint16 (len p) ++ p ++ ct).

(** ** Lemmas on the ClientHello *)

Lemma vec16_app p r : len p < 65536 -> vec16 (PutUint16 (len p) ++ p ++ r) = Some (p, r).
Proof.
  intros Hp. unfold vec16. rewrite Uint16_PutUint16 by len_lia. bind_simpl.
  rewrite (slice_app_mid (PutUint16 (len p)) p r 2 (2 + len p)) by len_lia. bind_simpl.
  rewrite app_assoc, slice_app_end by len_lia. done.
Qed.

Lemma vec16_all p : len p < 65536 -> vec16 (PutUint16 (len p) ++ p) = Some (p, []).
Proof. intros. rewrite <- (app_nil_r p) at 2. by apply vec16_app. Qed.

Lemma PutUint16_shift n : 0 <= n < 65536 ->
  [z2b (Z.shiftr n 8)] ++ [z2b (Z.land n 0xff)] = PutUint16 n.
Proof.
  intros Hn. unfold PutUint16. simpl. f_equal; [|f_equal].
  - by rewrite Z.shiftr_div_pow2.
  - change 0xff with (Z.ones 8). rewrite Z.land_ones by lia.
    change (2 ^ 8) with 256. apply z2b_mod.
Qed.

Lemma len_bytesZ l : len (bytesZ l) = len l.
Proof. unfold bytesZ, len. by rewrite length_fmap. Qed.

Lemma len_PutUint32 n : len (PutUint32 n) = 4.
Proof. done. Qed.

Definition hello_names (server : gostring) : list byte :=
  [z2b 0] ++ PutUint16 (len server) ++ server.
Definition hello_sni (server : gostring) : list byte :=
  PutUint16 (len (hello_names server)) ++ hello_names server.
Definition hello_tail : list byte :=
  ecPoint ++ groups ++ signature ++ bytesZ [0x00; 0x16; 0x00; 0x00] ++
  bytesZ [0x00; 0x17; 0x00; 0x00].
Definition hello_exts (data : list byte) (server : gostring) : list byte :=
  bytesZ [0; 35] ++ PutUint16 (len data) ++ data ++
  bytesZ [0; 0] ++ PutUint16 (len (hello_sni server)) ++ hello_sni server ++ hello_tail.
Definition hello_body (front sid : list byte) (data : list byte) (server : gostring)
  : list byte :=
  front ++ [z2b 32] ++ sid ++ PutUint16 (len cipherSuites) ++ cipherSuites ++
  [z2b 1] ++ [z2b 0] ++ PutUint16 (len (hello_exts data server)) ++ hello_exts data server.
Definition hello_handshake (front sid : list byte) (data : list byte) (server : gostring)
  : list byte :=
  bytesZ [1; 0] ++ PutUint16 (len (hello_body front sid data server)) ++
  hello_body front sid data server.

Lemma len_hello_exts data server : len (hello_exts data server) = 79 + len data + len server.
Proof.
  unfold hello_exts, hello_sni, hello_names.
  rewrite !len_app, !len_PutUint16, !len_bytesZ.
  change (len hello_tail) with 66. change (len [z2b 0]) with 1.
  change (len [0; 35]) with 2. change (len [0; 0]) with 2. lia.
Qed.

Lemma len_hello_body front sid data server : len front = 34 -> len sid = 32 ->
  len (hello_body front sid data server) = 208 + len data + len server.
Proof.
  intros Hf Hs. unfold hello_body.
  rewrite !len_app, !len_PutUint16, len_hello_exts, Hf, Hs.
  change (len cipherSuites) with 56. change (len [z2b 32]) with 1.
  change (len [z2b 1]) with 1. change (len [z2b 0]) with 1. lia.
Qed.

Lemma len_hello_handshake front sid data server : len front = 34 -> len sid = 32 ->
  len (hello_handshake front sid data server) = 212 + len data + len server.
Proof.
  intros Hf Hs. unfold hello_handshake.
  rewrite !len_app, len_PutUint16, len_hello_body by done.
  change (len (bytesZ [1; 0])) with 2. lia.
Qed.

(** The message is the TLS record the length fields claim. *)
Lemma helloMsg_shape random sid now data server :
  len random = 28 -> len sid = 32 -> 212 + len data + len server < 65536 ->
  let front := bytesZ [3; 3] ++ PutUint32 (u32 now) ++ random in
  len front = 34 /\
  concat (helloMsg random sid now data server) =
    bytesZ [22; 3; 1] ++ PutUint16 (len (hello_handshake front sid data server)) ++
    hello_handshake front sid data server.
Proof.
  intros Hr Hs Hl front. pose proof (len_nonneg data). pose proof (len_nonneg server).
  assert (len front = 34) as Hf by (subst front; rewrite !len_app, Hr; done).
  split; [done|]. rewrite len_hello_handshake by done.
  unfold helloMsg. rewrite !u16_small by lia.
  cbn [concat]. rewrite (app_assoc [z2b (Z.shiftr _ 8)]), PutUint16_shift by lia.
  unfold hello_handshake. rewrite len_hello_body by done.
  unfold hello_body. rewrite len_hello_exts. unfold hello_exts, hello_sni.
  assert (len (hello_names server) = len server + 3) as -> by (unfold hello_names; len_lia).
  assert (len (PutUint16 (len server + 3) ++ hello_names server) = len server + 5) as ->
    by (unfold hello_names; len_lia).
  unfold hello_names, hello_tail, front. rewrite app_nil_r. by rewrite <- !app_assoc.
Qed.

Lemma parseHello_shape front sid data server rest :
  len front = 34 -> len sid = 32 -> 212 + len data + len server < 65536 ->
  parseHello ((bytesZ [22; 3; 1] ++ PutUint16 (len (hello_handshake front sid data server)) ++
    hello_handshake front sid data server) ++ rest) = Some (data, server, rest).
Proof.
  intros Hf Hs Hl. pose proof (len_nonneg data). pose proof (len_nonneg server).
  pose proof (len_hello_handshake front sid data server Hf Hs) as Hhs.
  pose proof (len_hello_body front sid data server Hf Hs) as Hbd.
  pose proof (len_hello_exts data server) as Hex.
  unfold parseHello. rewrite <- !app_assoc.
  rewrite slice_app_0 by done. bind_simpl. rewrite bool_decide_eq_true_2 by done.
  rewrite slice_app_end by (rewrite ?len_app; done). bind_simpl.
  rewrite vec16_app by lia. bind_simpl.
  unfold hello_handshake.
  rewrite slice_app_0 by done. bind_simpl. rewrite bool_decide_eq_true_2 by done.
  rewrite slice_app_end by (rewrite ?len_app; done). bind_simpl.
  rewrite vec16_all by lia. bind_simpl.
  unfold hello_body. rewrite slice_app_end by (rewrite ?len_app; lia). bind_simpl.
  change (index ([z2b 32] ++ _) 0) with (Some (z2b 32)). bind_simpl.
  change (1 + b2z (z2b 32)) with 33. rewrite (app_assoc [z2b 32] sid).
  rewrite slice_app_end by (rewrite ?len_app, ?Hs; done). bind_simpl.
  rewrite vec16_app by done. bind_simpl.
  change (index ([z2b 1] ++ _) 0) with (Some (z2b 1)). bind_simpl.
  change (1 + b2z (z2b 1)) with 2. rewrite (app_assoc [z2b 1] [z2b 0]).
  rewrite slice_app_end by (rewrite ?len_app; done). bind_simpl.
  rewrite vec16_all by lia. bind_simpl.
  unfold hello_exts. rewrite slice_app_0 by done. bind_simpl.
  rewrite slice_app_end by (rewrite ?len_app; done). bind_simpl.
  rewrite vec16_app by lia. bind_simpl.
  rewrite slice_app_0 by done. bind_simpl.
  rewrite slice_app_end by (rewrite ?len_app; done). bind_simpl.
  assert (len (hello_names server) = len server + 3) as Hnm by (unfold hello_names; len_lia).
  assert (len (hello_sni server) = len server + 5) as Hsn by (unfold hello_sni; len_lia).
  rewrite vec16_app by lia. bind_simpl.
  rewrite slice_prefix, ztake_all by lia. bind_simpl.
  unfold hello_sni. rewrite vec16_all by lia. bind_simpl.
  unfold hello_names. change (index ([z2b 0] ++ _) 0) with (Some (z2b 0)). bind_simpl.
  rewrite slice_app_end by (rewrite ?len_app; done). bind_simpl.
  rewrite vec16_all by lia. bind_simpl. by rewrite bool_decide_eq_true_2.
Qed.

(** ** The TLS layer keeps the reading promise *)

Definition TLSReading {S R} `{ReaderOk S} (t : TLSObfs S R) (bs : list byte) (e : error) : Prop :=
  exists p bs' ct, bs = p ++ bs' /\ len p = remain t /\
    Delivers (t_Conn t) (p ++ ct) e /\ Frames (t_firstResponse t) bs' ct.

Lemma ReadFull_end {S} `{ReaderOk S} n (s : S) e : Delivers s [] e -> 0 < n ->
  exists s', ReadFull n s = Some ([], Some e, s') /\ Delivers s' [] e.
Proof.
  intros Hd Hn. destruct (ReadFull_spec n s [] e Hd) as (s' & -> & Hd'); [lia|].
  exists s'. replace (n <=? len []) with false by len_lia.
  unfold ztake, zdrop in *. rewrite take_nil, drop_nil in *. done.
Qed.

Lemma tls_read_frames {S R} `{ReaderOk S} n (f : bool) (t : TLSObfs S R) bs ct e :
  Delivers (t_Conn t) ct e -> Frames f bs ct -> remain t = 0 ->
  t_firstResponse t = false -> 0 < n ->
  exists d er t', tls_read n (if f then 105 else 3) t = Some (d, er, t') /\ len d <= n /\
    match er with
    | None => d <> [] /\ exists bs', bs = d ++ bs' /\ TLSReading t' bs' e
    | Some e' => d = [] /\ bs = [] /\ e' = e /\ TLSReading t' [] e
    end.
Proof.
  intros Hd Hf Hrem Hfirst Hn. unfold tls_read. destruct Hf as [f|f h p bs ct Hh Hp Hf].
  - destruct (ReadFull_end (if f then 105 else 3) _ e Hd) as (s' & -> & Hd'); [by destruct f|].
    bind_simpl. eexists _, _, _. split; [done|]. split; [len_lia|]. do 3 (split; [done|]).
    exists [], [], []. cbn. rewrite Hrem. split; [done|]. split; [done|]. split; [done|constructor].
  - destruct (ReadFull_app _ _ (if f then 105 else 3) _ e Hd) as (s1 & -> & Hd1); [by rewrite Hh|].
    bind_simpl. destruct (ReadFull_app _ _ 2 _ e Hd1) as (s2 & -> & Hd2); [done|]. bind_simpl.
    rewrite Uint16_Put by lia. bind_simpl.
    destruct (Z.ltb_spec n (len p)) as [Hlt|Hge].
    + destruct (read_ok s2 _ e n Hd2 Hn) as (d & er & s3 & -> & Hl & Hpost). bind_simpl.
      destruct er as [er|].
      { destruct Hpost as (_ & E & _). apply (f_equal len) in E. len_lia. }
      destruct Hpost as (Hne & x & E & Hd3).
      assert (d = ztake (len d) p) as Hdp.
      { apply (f_equal (ztake (len d))) in E. rewrite (ztake_app_len (len d) d) in E by done.
        rewrite <- E at 1. unfold ztake. apply take_app_le. unfold len in *. lia. }
      assert (x = zdrop (len d) p ++ ct) as ->.
      { rewrite <- (ztake_zdrop (len d) p) in E. rewrite <- Hdp, <- app_assoc in E.
        by apply app_inv_head in E. }
      eexists _, _, _. split; [done|]. split; [done|]. split; [done|].
      exists (zdrop (len d) p ++ bs). split.
      { rewrite app_assoc. rewrite Hdp at 1. by rewrite ztake_zdrop. }
      exists (zdrop (len d) p), bs, ct. cbn. rewrite Hfirst. split; [done|]. split; [len_lia|done].
    + destruct (ReadFull_app _ _ (len p) _ e Hd2) as (s3 & -> & Hd3); [done|]. bind_simpl.
      eexists _, _, _. split; [done|]. split; [done|]. split; [intros ->; len_lia|].
      exists bs. split; [done|]. exists [], bs, ct. cbn. by rewrite Hrem, Hfirst.
Qed.

#[global, program] Instance TLS_ReaderOk {S R} `{ReaderOk S} : ReaderOk (TLSObfs S R) := {
  Delivers := TLSReading }.
Next Obligation.
  intros S R HR HO t bs e n (p & bs' & ct & -> & Hp & Hd & Hf) Hn. unfold Read, TLS_Reader.
  destruct (Z.ltb_spec 0 (remain t)) as [Hr|Hr].
  - set (l := if n <? remain t then n else remain t).
    assert (0 < l <= n /\ l <= remain t) as [Hl Hlr].
    { subst l. destruct (Z.ltb_spec n (remain t)); lia. }
    rewrite <- (ztake_zdrop l p), <- app_assoc in Hd.
    destruct (ReadFull_app _ _ l _ e Hd) as (s' & -> & Hd'); [len_lia|]. bind_simpl.
    eexists _, _, _. split; [done|]. split; [len_lia|]. split.
    { intros Hz. apply (f_equal len) in Hz. len_lia. }
    exists (zdrop l p ++ bs'). split; [by rewrite app_assoc, ztake_zdrop|].
    exists (zdrop l p), bs', ct. cbn. split; [done|]. split; [len_lia|done].
  - assert (p = []) as -> by (apply len_zero; len_lia). simpl in Hd.
    assert (remain t = 0) as Hz by len_lia. cbn [app].
    destruct (t_firstResponse t) eqn:E.
    + by apply (tls_read_frames n true (mkTLS (t_Conn t) (server t) (remain t) (t_firstRequest t)
        false (t_rand t) (t_now t)) bs' ct e).
    + by apply (tls_read_frames n false t bs' ct e).
Qed.

(** ** The TLS writer *)

Lemma frame_Frames p bs ct : 1 <= len p < 65536 -> Frames false bs ct ->
  Frames false (p ++ bs) (frame p ++ ct).
Proof.
  intros Hp Hf. unfold frame. rewrite u16_small by lia. rewrite <- !app_assoc.
  by constructor.
Qed.

Lemma tls_Write_loop_frames {S R} `{ConnOk S, RandOk R} b fuel : forall i (t : TLSObfs S R) bs e out,
  Live (t_Conn t) bs e out -> t_firstRequest t = false ->
  0 <= i -> len b - i <= Z.of_nat fuel ->
  exists t' ct, tls_Write_loop fuel b i t = Some (len b, None, t') /\
    t_firstRequest t' = false /\ Live (t_Conn t') bs e (out ++ ct) /\
    Frames false (zdrop i b) ct.
Proof.
  induction fuel as [|fuel IH]; intros i t bs e out HL Hf Hi Hfuel; cbn [tls_Write_loop].
  - replace (i <? len b) with false by lia. exists t, []. rewrite app_nil_r, zdrop_all by lia.
    split; [done|]. split; [done|]. split; [done|constructor].
  - destruct (Z.ltb_spec i (len b)) as [Hlt|Hge].
    2:{ exists t, []. rewrite app_nil_r, zdrop_all by lia.
        split; [done|]. split; [done|]. split; [done|constructor]. }
    set (nd := if len b <? _ then _ else _). change chunkSize with 16384 in *.
    assert (i < nd <= len b /\ nd - i <= 16384 /\ (nd = i + 16384 \/ nd = len b /\ len b < i + 16384))
      as (Hnd & Hc & Hx) by (subst nd; destruct (Z.ltb_spec (len b) (i + 16384)); lia).
    rewrite slice_ok by lia. bind_simpl. set (p := ztake (nd - i) (zdrop i b)).
    assert (len p = nd - i) as Hp by (subst p; len_lia).
    unfold tls_write. rewrite Hf.
    destruct (Live_Write (frame p) _ _ _ _ HL) as (s1 & -> & HL1). bind_simpl.
    destruct (IH (i + 16384) (setConn t s1) bs e (out ++ frame p)) as (t' & ct & -> & Hf' & HL' & Hfr);
      [done|done|lia|lia|].
    exists t', (frame p ++ ct). split; [done|]. split; [done|]. rewrite app_assoc. split; [done|].
    rewrite <- (ztake_zdrop (nd - i) (zdrop i b)). fold p.
    assert (zdrop (nd - i) (zdrop i b) = zdrop (i + 16384) b) as ->.
    { rewrite zdrop_zdrop by lia. replace (i + (nd - i)) with nd by lia.
      destruct Hx as [->|[-> Hx]]; [done|]. by rewrite !zdrop_all by lia. }
    apply frame_Frames; [lia|done].
Qed.

(** ** The HTTP layer *)

Lemma indexHeaderEnd_app l r : z2b 13 ∉ l ->
  indexHeaderEnd (l ++ r) = (fun i => length l + i)%nat <$> indexHeaderEnd r.
Proof.
  induction l as [|x l IH]; intros Hl; simpl; [by destruct (indexHeaderEnd r)|].
  rewrite not_elem_of_cons in Hl. destruct Hl as [Hx Hl].
  rewrite bool_decide_eq_false_2 by (intros [= E]; by apply Hx).
  rewrite IH by done. by destruct (indexHeaderEnd r).
Qed.

Lemma indexHeaderEnd_CRLF r : take 2 r <> CRLF ->
  indexHeaderEnd (CRLF ++ r) = (fun i => 2 + i)%nat <$> indexHeaderEnd r.
Proof.
  intros Hr. change (CRLF ++ r) with (z2b 13 :: z2b 10 :: r). cbn [indexHeaderEnd].
  rewrite bool_decide_eq_false_2.
  2:{ intros E. apply Hr. change (take 4 (z2b 13 :: z2b 10 :: r)) with (CRLF ++ take 2 r) in E.
      by apply app_inv_head in E. }
  rewrite bool_decide_eq_false_2 by discriminate.
  by destruct (indexHeaderEnd r).
Qed.

(** A line and what follows it: the end of the header is not in the line. *)
Lemma indexHeaderEnd_line l r : z2b 13 ∉ l -> take 2 r <> CRLF ->
  indexHeaderEnd (l ++ CRLF ++ r) = (fun i => length (l ++ CRLF) + i)%nat <$> indexHeaderEnd r.
Proof.
  intros Hl Hr. rewrite indexHeaderEnd_app, indexHeaderEnd_CRLF by done.
  destruct (indexHeaderEnd r); simpl; [|done]. rewrite length_app. simpl. f_equal. lia.
Qed.

(** [body] is what follows the first blank line of [b]. *)
Definition bodyAt (b body : list byte) : Prop :=
  exists i, indexHeaderEnd b = Some i /\ drop (i + 4) b = body.

Lemma bodyAt_line l r body : z2b 13 ∉ l -> take 2 r <> CRLF ->
  bodyAt r body -> bodyAt (l ++ CRLF ++ r) body.
Proof.
  intros Hl Hr (i & Hi & Hb). exists (length (l ++ CRLF) + i)%nat.
  rewrite indexHeaderEnd_line, Hi by done. split; [done|].
  rewrite app_assoc. rewrite drop_app_ge by lia.
  by replace (length (l ++ CRLF) + i + 4 - length (l ++ CRLF))%nat with (i + 4)%nat by lia.
Qed.

Lemma no_cr_app (a b : list byte) : z2b 13 ∉ a -> z2b 13 ∉ b -> z2b 13 ∉ a ++ b.
Proof. intros. rewrite not_elem_of_app. done. Qed.

Lemma no_cr_Itoa n : 0 <= n -> z2b 13 ∉ Itoa n.
Proof. intros. by apply Itoa_not_elem. Qed.

Lemma no_cr_str (s : string) : has_byte (str s) (z2b 13) = false -> z2b 13 ∉ str s.
Proof. apply has_byte_false. Qed.

Lemma requestBytes_body hostHeader ua key body :
  z2b 13 ∉ hostHeader -> z2b 13 ∉ ua -> z2b 13 ∉ key ->
  bodyAt (requestBytes hostHeader ua key body) body.
Proof.
  intros Hh Hu Hk. unfold requestBytes.
  assert (Hend : bodyAt (str "Connection: Upgrade" ++ CRLF ++ str "Sec-Websocket-Key: " ++ key ++
    CRLF ++ str "Upgrade: websocket" ++ CRLF ++ CRLF ++ body) body).
  { apply bodyAt_line; [by apply no_cr_str|discriminate|].
    rewrite (app_assoc (str _) key). apply bodyAt_line;
      [apply no_cr_app; [by apply no_cr_str|done]|discriminate|].
    exists (length (str "Upgrade: websocket")). split; [|done].
    rewrite indexHeaderEnd_app by by apply no_cr_str. done. }
  apply bodyAt_line; [by apply no_cr_str|discriminate|].
  rewrite (app_assoc (str _) hostHeader). apply bodyAt_line;
    [apply no_cr_app; [by apply no_cr_str|done]|discriminate|].
  rewrite (app_assoc (str _) ua). apply bodyAt_line;
    [apply no_cr_app; [by apply no_cr_str|done]| |].
  - destruct (0 <? len body); discriminate.
  - destruct (0 <? len body); [|done].
    rewrite <- !app_assoc. rewrite (app_assoc (str "Content-Length: ")).
    apply bodyAt_line; [|discriminate|done].
    apply no_cr_app; [by apply no_cr_str|apply no_cr_Itoa, len_nonneg].
Qed.

(** Past the first response. *)
Definition HTTPReading {S R} `{ReaderOk S} (h : HTTPObfs S R) (bs : list byte) (e : error) : Prop :=
  h_firstResponse h = false /\ exists bs', Delivers (h_Conn h) bs' e /\
    match h_buf h with
    | None => bs = bs'
    | Some b => 0 <= offset h < len b /\ bs = zdrop (offset h) b ++ bs'
    end.

#[global, program] Instance HTTP_ReaderOk {S R} `{ReaderOk S} : ReaderOk (HTTPObfs S R) := {
  Delivers := HTTPReading }.
Next Obligation.
  intros S R HR HO h bs e n (Hf & bs' & Hd & Hb) Hn. unfold Read, HTTP_Reader. rewrite Hf.
  destruct (h_buf h) as [b|] eqn:Eb.
  - destruct Hb as [Ho ->]. rewrite slice_suffix by lia. bind_simpl.
    set (rest := zdrop (offset h) b).
    assert (len rest = len b - offset h) as Hr by (subst rest; len_lia).
    eexists _, _, _. split; [done|]. split; [len_lia|].
    split; [intros Hz; apply (f_equal len) in Hz; len_lia|].
    exists (zdrop n rest ++ bs'). split; [by rewrite app_assoc, ztake_zdrop|].
    split; [done|]. exists bs'. cbn. split; [done|]. set (d := ztake n rest).
    assert (len d = Z.min n (len rest)) as Hdl by (subst d; len_lia).
    destruct (Z.eqb_spec (offset h + len d) (len b)) as [He|Hne].
    + by rewrite zdrop_all by lia.
    + split; [lia|]. f_equal. subst rest. rewrite zdrop_zdrop by lia. f_equal. lia.
  - subst bs'. destruct (read_ok (h_Conn h) bs e n Hd Hn) as (d & er & s' & -> & Hl & Hp).
    bind_simpl. eexists _, _, _. split; [done|]. split; [done|]. destruct er as [er|].
    + destruct Hp as (-> & -> & -> & Hd'). do 3 (split; [done|]). split; [done|].
      exists []. cbn. by rewrite Eb.
    + destruct Hp as (Hne & bs1 & -> & Hd'). split; [done|]. exists bs1. split; [done|].
      split; [done|]. exists bs1. cbn. by rewrite Eb.
Qed.

(** ** Properties *)

(** C14: the first Write of a TLS-obfuscated connection sends a ClientHello whose
    length fields are consistent and from which a server recovers the server
    name and the first 16 KiB of the data, then the rest in application-data
    records; nothing is lost or reordered, for data of any size. *)
Theorem TLS_Write_spec {S R} `{ConnOk S, RandOk R} (s : S) srv (g : R) now b bs e out :
  Live s bs e out -> b <> [] -> len srv <= 48000 ->
  exists t hello ct, Write b (NewTLSObfs s srv g now) = Some (len b, None, t) /\
    t_firstRequest t = false /\ Live (t_Conn t) bs e (out ++ hello ++ ct) /\
    (forall rest, parseHello (hello ++ rest) = Some (ztake chunkSize b, srv, rest)) /\
    Frames false (zdrop chunkSize b) ct.
Proof.
  intros HL Hb Hs. unfold Write, TLS_Writer.
  destruct (length b) as [|f] eqn:Ef; [by destruct b|]. cbn [tls_Write_loop].
  change chunkSize with 16384 in *.
  assert (len b = Z.of_nat (Datatypes.S f)) as Hlb by (unfold len; lia).
  replace (0 <? len b) with true by lia. set (nd := if len b <? _ then _ else _).
  assert (0 < nd <= len b /\ nd <= 16384 /\ (nd = 16384 \/ nd = len b)) as (Hnd & Hc & Hx)
    by (subst nd; destruct (Z.ltb_spec (len b) (0 + 16384)); lia).
  rewrite slice_prefix by lia. bind_simpl.
  assert (ztake nd b = ztake 16384 b) as ->.
  { destruct Hx as [->| ->]; [done|]. by rewrite !ztake_all by lia. }
  set (p := ztake 16384 b). assert (len p <= 16384) as Hp by (subst p; len_lia).
  unfold tls_write. cbn [NewTLSObfs t_firstRequest t_now t_rand server t_Conn].
  unfold makeClientHelloMsg.
  destruct (rand_ok 28 g) as (rnd & g1 & -> & Hr); [done|].
  destruct (rand_ok 32 g1) as (sid & g2 & -> & Hsid); [done|].
  destruct (helloMsg_shape rnd sid now p srv Hr Hsid) as [Hfront Hsh]; [lia|].
  destruct (Live_Write (concat (helloMsg rnd sid now p srv)) _ _ _ _ HL) as (s1 & Hw & HL1).
  rewrite Hw. bind_simpl.
  match goal with |- context [tls_Write_loop f b _ ?t] =>
    destruct (tls_Write_loop_frames b f (0 + 16384) t bs e _ HL1) as (t' & ct & -> & Hf' & HL' & Hfr);
      [done|lia|lia|] end.
  rewrite <- app_assoc in HL'. eexists t', _, ct. split; [done|]. split; [done|]. split; [done|].
  split; [|done]. intros rest. rewrite Hsh. apply parseHello_shape; [done|done|lia].
Qed.

(** Whatever the pieces the network delivers and whatever the sizes of the
    buffers, reading a TLS-obfuscated connection gives the payloads of the
    server's frames in order (the first after its 105 bytes of handshake), and
    then the end of the transport. *)
Theorem TLS_Read_spec {S R} `{ReaderOk S} (s : S) srv (g : R) now bs ct e n :
  Delivers s ct e -> Frames true bs ct -> 0 <= n ->
  exists t, ReadFull n (NewTLSObfs s srv g now) =
      Some (ztake n bs, if n <=? len bs then None else Some (short_error bs e), t) /\
    Delivers t (zdrop n bs) e.
Proof.
  intros Hd Hf Hn. apply ReadFull_spec; [|done]. by exists [], bs, ct.
Qed.

(** A connection that ends inside a frame's length field is not reported:
    Read answers no bytes and a nil error. *)
Theorem TLS_Read_swallows {S R} `{ReaderOk S} (s : S) srv (g : R) now h x e n :
  Delivers s (h ++ x) e -> len h = 105 -> len x < 2 -> 0 < n ->
  exists t, Read n (NewTLSObfs s srv g now) = Some ([], None, t).
Proof.
  intros Hd Hh Hx Hn. unfold Read, TLS_Reader, NewTLSObfs. cbn [remain t_firstResponse].
  change (0 <? 0) with false. cbv iota. unfold tls_read. cbn [t_Conn].
  destruct (ReadFull_app _ _ 105 s e Hd) as (s1 & -> & Hd1); [done|]. bind_simpl.
  destruct (ReadFull_spec 2 s1 x e Hd1) as (s2 & -> & _); [lia|]. bind_simpl.
  replace (2 <=? len x) with false by lia. by eexists.
Qed.

(** The first Write of an HTTP-obfuscated connection sends one request
    whose body, after its first blank line, is the data; later writes go
    through unchanged. Host and port are assumed free of carriage returns. *)
Theorem HTTP_Write_spec {S R} `{ConnOk S, RandOk R, MathRand R} enc (s : S) hst prt (g : R) b c bs e out :
  Live s bs e out -> z2b 13 ∉ hst -> z2b 13 ∉ prt -> (forall x, z2b 13 ∉ enc x) ->
  exists h h' req, http_Write enc b (NewHTTPObfs s hst prt g) = Some (len b, None, h) /\
    http_Write enc c h = Some (len c, None, h') /\
    Live (h_Conn h') bs e (out ++ req ++ c) /\ bodyAt req b.
Proof.
  intros HL Hh Hp Henc. unfold http_Write at 1. cbn [NewHTTPObfs h_firstRequest h_rand host port h_Conn].
  destruct (rand_ok 16 g) as (key & g1 & -> & _); [done|].
  destruct (mRand_Int g1) as [x g2]. destruct (mRand_Int g2) as [y g3].
  set (req := requestBytes _ _ _ _).
  destruct (Live_Write req _ _ _ _ HL) as (s1 & -> & HL1). bind_simpl.
  destruct (Live_Write c _ _ _ _ HL1) as (s2 & Hw2 & HL2).
  eexists _, _, req. split; [done|]. unfold http_Write. cbn [h_firstRequest h_Conn].
  rewrite Hw2. bind_simpl. split; [done|].
  rewrite <- app_assoc in HL2. split; [done|]. apply requestBytes_body.
  - destruct (negb _); [|done]. apply no_cr_app; [done|]. apply no_cr_app; [by apply no_cr_str|done].
  - pose proof (Z.mod_pos_bound x 54). pose proof (Z.mod_pos_bound y 2).
    apply no_cr_app; [by apply no_cr_str|]. apply no_cr_app; [apply no_cr_Itoa; lia|].
    apply no_cr_app; [by apply no_cr_str|apply no_cr_Itoa; lia].
  - apply Henc.
Qed.

(** The first Read of an HTTP-obfuscated connection looks at one read of
    the connection: when the response header ends in it, the header is
    dropped and everything after it is delivered, through buffers of any
    size; when it does not, Read reports EOF although the connection lives. *)
Theorem HTTP_first_response {S R} `{ReaderOk S} (s s' : S) hst prt (g : R) seg bs e n :
  Read RelayBufferSize s = Some (seg, None, s') -> Delivers s' bs e -> 0 <= n ->
  let r := NewHTTPObfs s hst prt g in
  match indexHeaderEnd seg with
  | Some i => let body := drop (i + 4) seg in
      exists h, Read n r = Some (ztake n body, None, h) /\ Delivers h (zdrop n body ++ bs) e
  | None => exists h, Read n r = Some ([], Some EOF, h)
  end.
Proof.
  intros Hr Hd Hn r. unfold Read at 1 2, HTTP_Reader. subst r.
  cbn [NewHTTPObfs h_buf h_firstResponse h_Conn]. rewrite Hr. bind_simpl.
  destruct (indexHeaderEnd seg) as [i|] eqn:Ei; [|by eexists].
  assert (Z.of_nat i + 4 <= len seg) as Hi.
  { clear -Ei. revert i Ei. induction seg as [|x seg IH]; intros i; cbn [indexHeaderEnd].
    - by rewrite bool_decide_eq_false_2.
    - case_bool_decide as E.
      + intros [= <-]. apply (f_equal length) in E. rewrite length_take in E. unfold len.
        change (length (CRLF ++ CRLF)) with 4%nat in E. lia.
      + destruct (indexHeaderEnd seg) as [j|]; [|done]. intros [= <-].
        specialize (IH j eq_refl). rewrite len_cons. lia. }
  rewrite slice_suffix by lia. bind_simpl.
  assert (zdrop (Z.of_nat i + 4) seg = drop (i + 4) seg) as ->.
  { unfold zdrop. f_equal. lia. }
  set (body := drop (i + 4) seg).
  assert (len body = len seg - (Z.of_nat i + 4)) as Hb.
  { subst body. unfold len in *. rewrite length_drop. lia. }
  rewrite <- Hb. destruct (Z.ltb_spec (len (ztake n body)) (len body)) as [Hlt|Hge].
  - rewrite slice_prefix by lia. bind_simpl. eexists. split; [done|]. split; [done|].
    exists bs. cbn. split; [done|]. rewrite (ztake_all _ seg) by lia.
    rewrite len_ztake in *. split; [lia|]. f_equal. unfold zdrop, body. rewrite drop_drop.
    f_equal. fold body. lia.
  - bind_simpl. eexists. split; [done|]. split; [done|]. exists bs. cbn. split; [done|].
    rewrite len_ztake in Hge. by rewrite zdrop_all by lia.
Qed.

(** ** The returned hello message is a view of a pooled buffer *)

Lemma default_Some {A} (x y : A) : default x (Some y) = y.
Proof. done. Qed.

Lemma getBuffer_empty : exists m, bufferpool.getBuffer 0 bufferpool.emptyStore = (0%nat, m) /\
  bufferpool.bufs m !! 0%nat = Some (mkSlice 0 0 1024) /\
  cells (bufferpool.arrays m) !! 0%nat = Some (replicate 1024 (z2b 0)) /\
  bufferpool.free m = [].
Proof. eexists. split; [reflexivity|]. vm_compute. done. Qed.

Lemma getBuffer_put id st s : bufferpool.bufs st !! id = Some s ->
  exists m, bufferpool.getBuffer 0 (bufferpool.putBuffer id st) = (id, m) /\
    bufferpool.bufs m !! id = Some (mkSlice (arr s) 0 (scap s)) /\
    bufferpool.arrays m = bufferpool.arrays st.
Proof.
  intros Hs. eexists. split; [reflexivity|]. split; [|done].
  cbn [bufferpool.bufs bufferpool.putBuffer]. by rewrite lookup_alter_eq, Hs.
Qed.

(** [makeClientHelloMsg] returns the bytes of a buffer it has already put
    back in the pool: they are the message as long as nobody else gets the
    buffer, but the next user of the pool that does overwrites them before
    they are sent. *)
Theorem pooledHello_aliased random sid now data server b :
  len random = 28 -> len sid = 32 -> len data + len server <= 700 -> len b <= 200 ->
  let '(msg, st) := pooledHello 0 random sid now data server bufferpool.emptyStore in
  view (bufferpool.arrays st) msg = concat (helloMsg random sid now data server) /\
  view (bufferpool.arrays (pooledFrame 0 b st).2) msg =
    frame b ++ zdrop (len (frame b)) (concat (helloMsg random sid now data server)).
Proof.
  intros Hr Hs Hl Hb. set (ps := helloMsg random sid now data server).
  pose proof (len_nonneg data). pose proof (len_nonneg server). pose proof (len_nonneg b).
  destruct (helloMsg_shape random sid now data server Hr Hs) as [Hf Hsh]; [lia|].
  assert (len (concat ps) = 217 + len data + len server) as Hps.
  { unfold ps. rewrite Hsh, !len_app, len_hello_handshake, len_PutUint16, len_bytesZ by done.
    change (len [22; 3; 1]) with 3. lia. }
  unfold pooledHello. destruct getBuffer_empty as (m & -> & Hb0 & Hc0 & _).
  set (z := replicate 1024 (z2b 0)) in *.
  assert (len z = 1024) as Hz by (unfold z; by rewrite len_replicate).
  clearbody z. fold ps.
  destruct (bufferpool.writeAll_inplace ps m 0%nat (mkSlice 0 0 1024) z) as (E1 & E2 & _);
    [done|done|done|done|cbn [slen scap]; lia|].
  cbn [arr slen scap] in *. rewrite Z.add_0_l in E1. rewrite blit_0 in E2 by lia.
  set (m1 := bufferpool.writeAll 0 ps m) in *. 
  assert (bufferpool.Bytes 0 m1 = mkSlice 0 (len (concat ps)) 1024) as ->
    by (unfold bufferpool.Bytes; by rewrite E1).
  unfold view at 1. cbn [arr slen bufferpool.arrays bufferpool.putBuffer]. rewrite E2, default_Some.
  split; [by apply ztake_app_len|]. unfold pooledFrame.
  destruct (getBuffer_put 0%nat m1 _ E1) as (m2 & -> & Hb2 & Ha2). cbn [arr scap] in Hb2.
  set (fs := [_; _; b]).
  assert (concat fs = frame b) as Hfs by (unfold fs, frame; simpl; by rewrite app_nil_r).
  assert (len (frame b) = 5 + len b) as Hlf.
  { unfold frame. rewrite !len_app, len_PutUint16, len_bytesZ. change (len [0x17; 3; 3]) with 3. lia. }
  destruct (bufferpool.writeAll_inplace fs m2 0%nat (mkSlice 0 0 1024)
    (concat ps ++ zdrop (len (concat ps)) z)) as (E4 & E5 & _);
    [done|by rewrite Ha2| |done|rewrite Hfs; cbn [slen scap]; lia|].
  { cbn [scap]. rewrite len_app, len_zdrop. lia. }
  cbn [snd arr slen] in *. unfold view. cbn [arr slen]. rewrite E5, default_Some.
  rewrite Hfs, blit_0 by (rewrite len_app; pose proof (len_nonneg (zdrop (len (concat ps)) z)); lia).
  rewrite <- (ztake_zdrop (len (frame b)) (concat ps)) at 2.
  rewrite <- app_assoc, zdrop_app_len by (rewrite len_ztake; lia).
  rewrite app_assoc. apply ztake_app_len. rewrite len_app, len_zdrop. lia.
Qed.

(** ** Witnesses *)

#[export] Instance zeroMath : MathRand unit := fun g => (7, g).

Lemma TLS_Write_spec_witness :
  exists t hello ct, Write (str "data") (NewTLSObfs (dialed [] EOF) (str "bing.com") tt 1700000000) =
      Some (len (str "data"), None, t) /\
    t_firstRequest t = false /\ Live (t_Conn t) [] EOF ([] ++ hello ++ ct) /\
    (forall rest, parseHello (hello ++ rest) =
       Some (ztake chunkSize (str "data"), str "bing.com", rest)) /\
    Frames false (zdrop chunkSize (str "data")) ct.
Proof.
  apply (TLS_Write_spec (dialed [] EOF) (str "bing.com") tt 1700000000 (str "data") [] EOF []);
    [by apply (dialed_Live [])|discriminate|vm_compute; discriminate].
Defined.

Lemma TLS_Read_spec_witness :
  let s := dialed [replicate 105 (z2b 0) ++ [z2b 0]; [z2b 4] ++ str "da"; str "ta"] EOF in
  exists t, ReadFull 3 (NewTLSObfs s (str "bing.com") tt 0) =
      Some (ztake 3 (str "data"), if 3 <=? len (str "data") then None
            else Some (short_error (str "data") EOF), t) /\
    Delivers t (zdrop 3 (str "data")) EOF.
Proof.
  apply (TLS_Read_spec (dialed [replicate 105 (z2b 0) ++ [z2b 0]; [z2b 4] ++ str "da"; str "ta"] EOF)
    (str "bing.com") tt 0 (str "data" ++ []) (replicate 105 (z2b 0) ++ PutUint16 4 ++ str "data" ++ []) EOF 3);
    [split; [reflexivity|split; [repeat constructor; discriminate|done]]| |done].
  apply (fr_cons true (replicate 105 (z2b 0)) (str "data") [] []); [reflexivity|done|constructor].
Defined.

Lemma TLS_Read_swallows_witness :
  exists t, Read 10 (NewTLSObfs (dialed [replicate 105 (z2b 0)] EOF) (str "bing.com") tt 0) =
    Some ([], None, t).
Proof.
  apply (TLS_Read_swallows (dialed [replicate 105 (z2b 0)] EOF) (str "bing.com") tt 0
    (replicate 105 (z2b 0)) [] EOF 10); [|reflexivity|done|done].
  split; [reflexivity|]. split; [repeat constructor; discriminate|done].
Defined.

Lemma pooledHello_aliased_witness :
  let '(msg, st) := pooledHello 0 (replicate 28 (z2b 0)) (replicate 32 (z2b 0)) 0 (str "data")
    (str "bing.com") bufferpool.emptyStore in
  let hello := concat (helloMsg (replicate 28 (z2b 0)) (replicate 32 (z2b 0)) 0 (str "data")
    (str "bing.com")) in
  view (bufferpool.arrays st) msg = hello /\
  view (bufferpool.arrays (pooledFrame 0 (str "other") st).2) msg =
    frame (str "other") ++ zdrop (len (frame (str "other"))) hello.
Proof.
  apply (pooledHello_aliased (replicate 28 (z2b 0)) (replicate 32 (z2b 0)) 0 (str "data")
    (str "bing.com") (str "other")); vm_compute; done || discriminate.
Defined.

Lemma HTTP_Write_spec_witness :
  exists h h' req,
    http_Write (fun x => x ≫= fun _ => str "k") (str "data")
      (NewHTTPObfs (dialed [] EOF) (str "bing.com") (str "8388") tt) = Some (len (str "data"), None, h) /\
    http_Write (fun x => x ≫= fun _ => str "k") (str "more") h = Some (len (str "more"), None, h') /\
    Live (h_Conn h') [] EOF ([] ++ req ++ str "more") /\ bodyAt req (str "data").
Proof.
  apply (HTTP_Write_spec (fun x => x ≫= fun _ => str "k") (dialed [] EOF) (str "bing.com") (str "8388") tt
    (str "data") (str "more") [] EOF []); [by apply (dialed_Live [])|by apply no_cr_str..|].
  intros x. induction x as [|y x IH]; simpl; [by apply not_elem_of_nil|].
  apply not_elem_of_cons. split; [discriminate|exact IH].
Defined.

Lemma HTTP_first_response_witness :
  let seg := str "HTTP/1.1 101 Switching Protocols" ++ CRLF ++ CRLF ++ str "data" in
  let r := NewHTTPObfs (dialed [seg; str "more"] EOF) (str "bing.com") (str "80") tt in
  match indexHeaderEnd seg with
  | Some i => let body := drop (i + 4) seg in
      exists h, Read 3 r = Some (ztake 3 body, None, h) /\
        Delivers h (zdrop 3 body ++ str "more") EOF
  | None => exists h, Read 3 r = Some ([], Some EOF, h)
  end.
Proof.
  intros seg r. apply (HTTP_first_response (dialed [seg; str "more"] EOF) (dialed [str "more"] EOF)
    (str "bing.com") (str "80") tt seg (str "more") EOF 3); [vm_compute; reflexivity| |done].
  split; [reflexivity|]. split; [repeat constructor; discriminate|done].
Defined.
End obfs.
