(* ===== verification/Metadata.v ===== *)
(** * Metadata: package metadata, and the [net.Addr] values the program passes

    The endpoints of a session and their textual forms, from which proxies,
    filters and logs take the addresses. *)

From S2P Require Import Prelude Net.

Open Scope Z_scope.

Module metadata.

(** ** network.go *)

Definition Network : Type := Z.
Definition TCP : Network := 0.
Definition UDP : Network := 1.

Definition NetworkString (n : Network) : gostring :=
  if n =? TCP then str "tcp"
  else if n =? UDP then str "udp"
  else str "network(" ++ Itoa n ++ str ")".

Definition MarshalText (n : Network) : list byte * err := (NetworkString n, None).

(** ** metadata.go *)

Record Metadata := mkMetadata {
  network : Network;
  SrcIP : Addr; MidIP : Addr; DstIP : Addr;
  SrcPort : Z; MidPort : Z; DstPort : Z }.

#[global] Instance Metadata_eq_dec : EqDecision Metadata.
Proof. solve_decision. Defined.

Definition DestinationAddrPort (m : Metadata) : Addr * Z := (DstIP m, DstPort m).
Definition DestinationAddress (m : Metadata) : gostring :=
  AddrPortString (DestinationAddrPort m).1 (DestinationAddrPort m).2.
Definition SourceAddrPort (m : Metadata) : Addr * Z := (SrcIP m, SrcPort m).
Definition SourceAddress (m : Metadata) : gostring :=
  AddrPortString (SourceAddrPort m).1 (SourceAddrPort m).2.

(** [net.TCPAddrFromAddrPort] and [net.UDPAddrFromAddrPort]. *)
Definition fromAddrPort (ap : Addr * Z) : UDPAddr := mkUDPAddr (AsSlice ap.1) ap.2.

(** [nil] when the session is of the other network or has no address. *)
Definition TCPAddr (m : Metadata) : option UDPAddr :=
  if negb (network m =? TCP) || negb (IsValid (DstIP m)) then None
  else Some (fromAddrPort (DestinationAddrPort m)).

Definition toUDPAddr (m : Metadata) : option UDPAddr :=
  if negb (network m =? UDP) || negb (IsValid (DstIP m)) then None
  else Some (fromAddrPort (DestinationAddrPort m)).
End metadata.
Import metadata.

(** ** [net.Addr]

    The dynamic types the program makes or gets: [*net.TCPAddr],
    [*net.UDPAddr], [*metadata.Addr], and any other, of which only the network
    and the string are seen.  A nil interface is [None]. *)

Inductive NetAddr :=
| ATCP (a : UDPAddr)
| AUDP (a : UDPAddr)
| AMeta (m : Metadata)
| AOther (net s : gostring).

#[global] Instance NetAddr_eq_dec : EqDecision NetAddr.
Proof. solve_decision. Defined.

Definition NetAddrNetwork (a : NetAddr) : gostring :=
  match a with
  | ATCP _ => str "tcp"
  | AUDP _ => str "udp"
  | AMeta m => NetworkString (network m)
  | AOther n _ => n
  end.

Definition NetAddrString (a : NetAddr) : gostring :=
  match a with
  | ATCP a | AUDP a => UDPAddrString a
  | AMeta m => DestinationAddress m
  | AOther _ s => s
  end.

(** [interface{ AddrPort() netip.AddrPort }]. *)
Definition AddrPortOf (a : NetAddr) : option (Addr * Z) :=
  match a with
  | ATCP a | AUDP a => Some ((AddrFromSlice (udpIP a)).1, u16 (udpPort a))
  | _ => None
  end.

(** [metadata.Addr()] and where a UDP session sends: its UDP address when it
    has one. *)
Definition sessionAddr (m : Metadata) : NetAddr :=
  match toUDPAddr m with Some a => AUDP a | None => AMeta m end.

(** The textual form of an IPv4 UDP destination is the same whether it is
    printed as an [AddrPort] or as a [*net.UDPAddr]. *)
Lemma sessionAddr_string4 m a b c d :
  network m = UDP -> DstIP m = Addr4 a b c d ->
  NetAddrString (sessionAddr m) = DestinationAddress m.
Proof.
  intros Hn Hd. unfold sessionAddr, toUDPAddr. rewrite Hn, Hd. simpl.
  unfold UDPAddrString, DestinationAddress, JoinHostPort. simpl. rewrite Hd. simpl.
  destruct (has_byte (string4 a b c d) colon) eqn:E; [|done].
  apply has_byte_true in E. by apply string4_not_elem in E.
Qed.
