(* ===== verification/Statistic.v ===== *)
(** * Statistic: package tunnel/statistic

    The trackers wrap connections and push counts to the shared [Manager],
    whose counters are atomics read and reset by a ticker.  A thread is the
    sequence of its atomic operations; [run_threads] runs threads under any
    schedule. *)

From S2P Require Import Prelude Net Conn Metadata.

Open Scope Z_scope.

Module statistic.

(** ** manager.go: the state and its atomic operations *)

Record Manager := mkManager {
  connections : gset gostring;
  uploadTemp : Z; downloadTemp : Z;
  uploadBlip : Z; downloadBlip : Z;
  uploadTotal : Z; downloadTotal : Z;
  tickUp : Z; tickDown : Z (* what [handle] has loaded and not yet stored *) }.

Definition newManager : Manager := mkManager ∅ 0 0 0 0 0 0 0 0.

Inductive counter := UpTemp | DownTemp | UpBlip | DownBlip | UpTotal | DownTotal.

Inductive atom :=
| AAdd (c : counter) (n : Z)
| AZero (c : counter)
| ALoadUp | AStoreUpBlip | ALoadDown | AStoreDownBlip
| AStoreConn (id : gostring) | ADeleteConn (id : gostring).

Definition getC (c : counter) (m : Manager) : Z :=
  match c with
  | UpTemp => uploadTemp m | DownTemp => downloadTemp m
  | UpBlip => uploadBlip m | DownBlip => downloadBlip m
  | UpTotal => uploadTotal m | DownTotal => downloadTotal m
  end.

Definition setC (c : counter) (v : Z) (m : Manager) : Manager :=
  let '(mkManager cs ut dt ub db uT dT ku kd) := m in
  match c with
  | UpTemp => mkManager cs v dt ub db uT dT ku kd
  | DownTemp => mkManager cs ut v ub db uT dT ku kd
  | UpBlip => mkManager cs ut dt v db uT dT ku kd
  | DownBlip => mkManager cs ut dt ub v uT dT ku kd
  | UpTotal => mkManager cs ut dt ub db v dT ku kd
  | DownTotal => mkManager cs ut dt ub db uT v ku kd
  end.

Definition setConns (cs : gset gostring) (m : Manager) : Manager :=
  mkManager cs (uploadTemp m) (downloadTemp m) (uploadBlip m) (downloadBlip m)
    (uploadTotal m) (downloadTotal m) (tickUp m) (tickDown m).

Definition setTick (u d : Z) (m : Manager) : Manager :=
  mkManager (connections m) (uploadTemp m) (downloadTemp m) (uploadBlip m) (downloadBlip m)
    (uploadTotal m) (downloadTotal m) u d.

Definition exec (a : atom) (m : Manager) : Manager :=
  match a with
  | AAdd c n => setC c (i64 (getC c m + n)) m
  | AZero c => setC c 0 m
  | ALoadUp => setTick (uploadTemp m) (tickDown m) m
  | AStoreUpBlip => setC UpBlip (tickUp m) m
  | ALoadDown => setTick (tickUp m) (downloadTemp m) m
  | AStoreDownBlip => setC DownBlip (tickDown m) m
  | AStoreConn id => setConns ({[id]} ∪ connections m) m
  | ADeleteConn id => setConns (connections m ∖ {[id]}) m
  end.

(** The calls, as the atomic operations each makes in order. *)
Inductive call :=
| Join (id : gostring) | Leave (id : gostring)
| PushUploaded (size : Z) | PushDownloaded (size : Z)
| Tick.

(** One turn of the ticker's loop. *)
Definition handle : list atom :=
  [ALoadUp; AStoreUpBlip; AZero UpTemp; ALoadDown; AStoreDownBlip; AZero DownTemp].

Definition atoms (c : call) : list atom :=
  match c with
  | Join id => [AStoreConn id]
  | Leave id => [ADeleteConn id]
  | PushUploaded n => [AAdd UpTemp n; AAdd UpTotal n]
  | PushDownloaded n => [AAdd DownTemp n; AAdd DownTotal n]
  | Tick => handle
  end.

Definition ResetStatistic : list atom :=
  [AZero UpTemp; AZero UpBlip; AZero UpTotal; AZero DownTemp; AZero DownBlip; AZero DownTotal].

Definition Now (m : Manager) : Z * Z := (uploadBlip m, downloadBlip m).

(** [Snapshot] visits the connections in some order. *)
Definition Snapshot (m : Manager) : Z * Z * list gostring :=
  (uploadTotal m, downloadTotal m, elements (connections m)).

Definition exec_all (l : list atom) (m : Manager) : Manager :=
  fold_left (fun m a => exec a m) l m.

(** One atomic step of thread [i], for each [i] of the schedule. *)
Fixpoint run_threads (sched : list nat) (ts : list (list atom)) (m : Manager)
  : list (list atom) * Manager :=
  match sched with
  | [] => (ts, m)
  | i :: sched =>
      match ts !! i with
      | Some (a :: rest) => run_threads sched (<[i := rest]> ts) (exec a m)
      | _ => run_threads sched ts m
      end
  end.

Definition thread (cs : list call) : list atom := cs ≫= atoms.

(** ** tracker.go

    A tracker adds to its own counters and calls the manager; [calls] is the
    sequence of the calls it has made. *)

Record Tracker (S : Type) := mkTracker {
  t_Conn : S; ID : gostring; t_Metadata : metadata.Metadata;
  UploadTotal : Z; DownloadTotal : Z; calls : list call }.
Arguments mkTracker {S}. Arguments t_Conn {S}. Arguments ID {S}.
Arguments t_Metadata {S}. Arguments UploadTotal {S}. Arguments DownloadTotal {S}.
Arguments calls {S}.

(** [id] is the UUID of [uuid.NewRandom]. *)
Definition NewTCPTracker {S} (conn : S) (m : metadata.Metadata) (id : gostring) : Tracker S :=
  mkTracker conn id m 0 0 [Join id].
Definition NewUDPTracker {S} (conn : S) (m : metadata.Metadata) (id : gostring) : Tracker S :=
  mkTracker conn id m 0 0 [Join id].

Definition downloaded {S} (n : Z) (s : S) (t : Tracker S) : Tracker S :=
  mkTracker s (ID t) (t_Metadata t) (UploadTotal t) (i64 (DownloadTotal t + n))
    (calls t ++ [PushDownloaded n]).
Definition uploaded {S} (n : Z) (s : S) (t : Tracker S) : Tracker S :=
  mkTracker s (ID t) (t_Metadata t) (i64 (UploadTotal t + n)) (DownloadTotal t)
    (calls t ++ [PushUploaded n]).

#[global] Instance Tracker_Reader {S} `{Reader S} : Reader (Tracker S) := fun n t =>
  '(d, e, s) ← Read n (t_Conn t);
  Some (d, e, downloaded (len d) s t).

#[global] Instance Tracker_Writer {S} `{Writer S} : Writer (Tracker S) := fun p t =>
  '(n, e, s) ← Write p (t_Conn t);
  Some (n, e, uploaded n s t).

#[global] Instance Tracker_Closer {S} `{Closer S} : Closer (Tracker S) := fun t =>
  let t := mkTracker (t_Conn t) (ID t) (t_Metadata t) (UploadTotal t) (DownloadTotal t)
             (calls t ++ [Leave (ID t)]) in
  let '(e, s) := Close (t_Conn t) in
  (e, mkTracker s (ID t) (t_Metadata t) (UploadTotal t) (DownloadTotal t) (calls t)).

#[global] Instance Tracker_PacketConn {S A} `{PacketConn S A} : PacketConn (Tracker S) A := {
  ReadFrom n t :=
    '(d, m, a, e, s) ← ReadFrom n (t_Conn t);
    Some (d, m, a, e, downloaded m s t);
  WriteTo p a t :=
    '(n, e, s) ← WriteTo p a (t_Conn t);
    Some (n, e, uploaded n s t) }.

(** What a client of a tracked stream does. *)
Inductive op := ORead (n : Z) | OWrite (p : list byte).

(** The data read, and the tracker. *)
Fixpoint run_ops {S} `{Reader S, Writer S} (os : list op) (s : S) : option (list byte * S) :=
  match os with
  | [] => Some ([], s)
  | ORead n :: os =>
      '(d, _, s) ← Read n s; '(d', s) ← run_ops os s; Some (d ++ d', s)
  | OWrite p :: os =>
      '(_, _, s) ← Write p s; run_ops os s
  end.

(** ** Sums of what was pushed *)

Definition zsum (l : list Z) : Z := foldr Z.add 0 l.

Lemma zsum_app l k : zsum (l ++ k) = zsum l + zsum k.
Proof. induction l; simpl; lia. Qed.

(** A sum does not depend on the order. *)
#[global] Instance zsum_proper : Proper ((≡ₚ) ==> eq) zsum.
Proof. induction 1; simpl in *; lia. Qed.

(** What an atom adds to counter [c]. *)
Definition adds (c : counter) (a : atom) : Z :=
  match a, c with
  | AAdd UpTotal n, UpTotal => n
  | AAdd DownTotal n, DownTotal => n
  | _, _ => 0
  end.

Definition upBytes (c : call) : Z := if c is PushUploaded n then n else 0.
Definition downBytes (c : call) : Z := if c is PushDownloaded n then n else 0.

Definition no_reset (a : atom) : bool :=
  match a with AZero UpTotal | AZero DownTotal => false | _ => true end.

Lemma adds_atoms c : zsum (adds UpTotal <$> atoms c) = upBytes c /\
  zsum (adds DownTotal <$> atoms c) = downBytes c /\ forallb no_reset (atoms c) = true.
Proof. destruct c; simpl; repeat split; try done; lia. Qed.

Lemma adds_thread cs : zsum (adds UpTotal <$> thread cs) = zsum (upBytes <$> cs) /\
  zsum (adds DownTotal <$> thread cs) = zsum (downBytes <$> cs) /\
  forallb no_reset (thread cs) = true.
Proof.
  induction cs as [|c cs (IH1 & IH2 & IH3)]; [done|]. unfold thread in *. cbn [mbind list_bind fmap list_fmap].
  destruct (adds_atoms c) as (E1 & E2 & E3).
  rewrite !fmap_app, !zsum_app, E1, E2, forallb_app, E3. unfold zsum in *. simpl.
  rewrite IH1, IH2, IH3. by repeat split.
Qed.

Lemma i64_idem x : i64 (i64 x) = i64 x.
Proof. pose proof (i64_add_l x 0) as E. by rewrite !Z.add_0_r in E. Qed.

(** One atom moves its weight from the threads to the totals. *)
Lemma exec_total a m : no_reset a = true ->
  i64 (uploadTotal (exec a m)) = i64 (uploadTotal m + adds UpTotal a) /\
  i64 (downloadTotal (exec a m)) = i64 (downloadTotal m + adds DownTotal a).
Proof.
  intros Hr. destruct m.
  destruct a as [[] n|[]| | | | | |]; simpl in *; rewrite ?Z.add_0_r, ?i64_idem; done.
Qed.

Lemma run_threads_total sched : forall ts m ts' m',
  run_threads sched ts m = (ts', m') ->
  Forall (fun t => forallb no_reset t = true) ts ->
  Forall (fun t => forallb no_reset t = true) ts' /\
  i64 (uploadTotal m' + zsum (adds UpTotal <$> concat ts')) =
    i64 (uploadTotal m + zsum (adds UpTotal <$> concat ts)) /\
  i64 (downloadTotal m' + zsum (adds DownTotal <$> concat ts')) =
    i64 (downloadTotal m + zsum (adds DownTotal <$> concat ts)).
Proof.
  induction sched as [|i sched IH]; intros ts m ts' m' Hr Hf; cbn [run_threads] in Hr;
    [by simplify_eq|].
  destruct (ts !! i) as [[|a rest]|] eqn:Hi; [by apply (IH _ _ _ _ Hr)| |by apply (IH _ _ _ _ Hr)].
  destruct (concat_insert ts i (a :: rest) rest Hi) as (x & y & E1 & E2).
  assert (forallb no_reset (a :: rest) = true) as Ha.
  { rewrite Forall_forall in Hf. apply Hf. by eapply list_elem_of_lookup_2. }
  apply andb_true_iff in Ha as [Ha Hrest].
  destruct (exec_total a m Ha) as (Eu & Ed).
  apply IH in Hr as (Hf' & IHu & IHd); [|by apply Forall_insert].
  split; [done|]. rewrite IHu, IHd, E1, E2. rewrite !fmap_app, !zsum_app, !fmap_cons. unfold zsum. cbn [foldr].
  rewrite <- (i64_add_l (uploadTotal (exec a m))), Eu, i64_add_l.
  rewrite <- (i64_add_l (downloadTotal (exec a m))), Ed, i64_add_l.
  split; f_equal; lia.
Qed.

Lemma zsum_concat (f : atom -> Z) (g : call -> Z) cs :
  (forall c, zsum (f <$> thread c) = zsum (g <$> c)) ->
  zsum (f <$> concat (thread <$> cs)) = zsum (g <$> concat cs).
Proof.
  intros Hf. induction cs as [|c cs IH]; [done|].
  rewrite fmap_cons. cbn [concat]. by rewrite !fmap_app, !zsum_app, Hf, IH.
Qed.

Lemma exec_tot_i64 a m : no_reset a = true ->
  uploadTotal m = i64 (uploadTotal m) -> downloadTotal m = i64 (downloadTotal m) ->
  uploadTotal (exec a m) = i64 (uploadTotal (exec a m)) /\
  downloadTotal (exec a m) = i64 (downloadTotal (exec a m)).
Proof.
  intros Hr Hu Hd. destruct m.
  destruct a as [[] n|[]| | | | | |]; simpl in *; rewrite ?i64_idem; done.
Qed.

Lemma run_tot_i64 sched : forall ts m ts' m',
  run_threads sched ts m = (ts', m') ->
  Forall (fun t => forallb no_reset t = true) ts ->
  uploadTotal m = i64 (uploadTotal m) -> downloadTotal m = i64 (downloadTotal m) ->
  uploadTotal m' = i64 (uploadTotal m') /\ downloadTotal m' = i64 (downloadTotal m').
Proof.
  induction sched as [|i sched IH]; intros ts m ts' m' Hr Hf Hu Hd; cbn [run_threads] in Hr;
    [by simplify_eq|].
  destruct (ts !! i) as [[|a rest]|] eqn:Hi;
    [by apply (IH _ _ _ _ Hr)| |by apply (IH _ _ _ _ Hr)].
  assert (forallb no_reset (a :: rest) = true) as Ha.
  { rewrite Forall_forall in Hf. apply Hf. by eapply list_elem_of_lookup_2. }
  apply andb_true_iff in Ha as [Ha Hrest].
  destruct (exec_tot_i64 a m Ha Hu Hd). apply (IH _ _ _ _ Hr); [|done..].
  by apply Forall_insert.
Qed.

Lemma threads_no_reset (css : list (list call)) :
  Forall (fun t => forallb no_reset t = true) (thread <$> css).
Proof. rewrite Forall_fmap. apply Forall_true. intros cs. apply (adds_thread cs). Qed.

Lemma concat_nil_threads (ts : list (list atom)) :
  Forall (fun t => t = []) ts -> concat ts = [].
Proof. induction 1; [done|]. by simplify_eq/=. Qed.

(** ** A tracked stream *)

Lemma Tracker_Read {S} `{Reader S} n (t : Tracker S) d e s :
  Read n (t_Conn t) = Some (d, e, s) -> Read n t = Some (d, e, downloaded (len d) s t).
Proof. intros Hr. unfold Read at 1, Tracker_Reader. by rewrite Hr. Qed.

Lemma Tracker_Write {S} `{Writer S} p (t : Tracker S) n e s :
  Write p (t_Conn t) = Some (n, e, s) -> Write p t = Some (n, e, uploaded n s t).
Proof. intros Hr. unfold Write at 1, Tracker_Writer. by rewrite Hr. Qed.

Lemma Tracker_Close_calls {S} `{Closer S} (t : Tracker S) :
  calls (Close t).2 = calls t ++ [Leave (ID t)].
Proof.
  change (Close t) with (Tracker_Closer t). unfold Tracker_Closer. cbn [t_Conn].
  by destruct (Close (t_Conn t)).
Qed.

Lemma Tracker_Close_total {S} `{Closer S} (t : Tracker S) : UploadTotal (Close t).2 = UploadTotal t.
Proof.
  change (Close t) with (Tracker_Closer t). unfold Tracker_Closer. cbn [t_Conn].
  by destruct (Close (t_Conn t)).
Qed.

#[export, program] Instance Tracker_ReaderOk {S} `{ReaderOk S} : ReaderOk (Tracker S) := {
  Delivers t := Delivers (t_Conn t) }.
Next Obligation.
  intros S ? ? t bs e n Hd Hn.
  destruct (read_ok (t_Conn t) bs e n Hd Hn) as (d & er & s & Hr & Hl & Hp).
  exists d, er, (downloaded (len d) s t). by rewrite (Tracker_Read _ _ _ _ _ Hr).
Qed.

#[export, program] Instance Tracker_WriterOk {S} `{WriterOk S} : WriterOk (Tracker S) := {
  Sent t := Sent (t_Conn t); Writable t := Writable (t_Conn t) }.
Next Obligation.
  intros S ? ? t p. destruct (write_ok (t_Conn t) p) as (n & er & s & Hw & Hp).
  exists n, er, (uploaded n s t). by rewrite (Tracker_Write _ _ _ _ _ Hw).
Qed.

#[export, program] Instance Tracker_ConnOk {S} `{ConnOk S} : ConnOk (Tracker S).
Next Obligation.
  intros S ?? ? ? ? n t d e t' Hr. unfold Read, Tracker_Reader in Hr.
  destruct (Read n (t_Conn t)) as [[[d' e'] s]|] eqn:E; [|done]. simplify_eq/=.
  by apply (read_frame _ _ _ _ _ E).
Qed.
Next Obligation.
  intros S ?? ? ? ? p t n e t' bs er Hw Hd. unfold Write, Tracker_Writer in Hw.
  destruct (Write p (t_Conn t)) as [[[n' e'] s]|] eqn:E; [|done]. simplify_eq/=.
  by apply (write_frame _ _ _ _ _ bs er E).
Qed.

(** The tracker's books: what it has pushed is what it counts. *)
Definition balanced {S} (t : Tracker S) : Prop :=
  UploadTotal t = i64 (zsum (upBytes <$> calls t)) /\
  DownloadTotal t = i64 (zsum (downBytes <$> calls t)).

Lemma balanced_downloaded {S} n s (t : Tracker S) : balanced t -> balanced (downloaded n s t).
Proof.
  intros [Hu Hd]. unfold balanced, downloaded. cbn [UploadTotal DownloadTotal calls].
  rewrite !fmap_app, !zsum_app, Hu, Hd, i64_add_l. simpl. rewrite !Z.add_0_r. done.
Qed.

Lemma balanced_uploaded {S} n s (t : Tracker S) : balanced t -> balanced (uploaded n s t).
Proof.
  intros [Hu Hd]. unfold balanced, uploaded. cbn [UploadTotal DownloadTotal calls].
  rewrite !fmap_app, !zsum_app, Hu, Hd, i64_add_l. simpl. rewrite !Z.add_0_r. done.
Qed.

Section TrackerOk.
Context {S : Type} `{ConnOk S}.

Lemma run_ops_tracked os : forall (t : Tracker S) bs e,
  Delivers (t_Conn t) bs e -> Forall (fun o => if o is ORead n then 0 < n else True) os ->
  balanced t ->
  exists d rest t', run_ops os t = Some (d, t') /\
    run_ops os (t_Conn t) = Some (d, t_Conn t') /\
    bs = d ++ rest /\ Delivers (t_Conn t') rest e /\ balanced t' /\
    UploadTotal t' = i64 (UploadTotal t + (len (Sent (t_Conn t')) - len (Sent (t_Conn t)))) /\
    DownloadTotal t' = i64 (DownloadTotal t + len d).
Proof.
  induction os as [|o os IH]; intros t bs e Hd Hf Hb.
  - exists [], bs, t. split_and!; try done; rewrite ?len_nil, ?Z.sub_diag, Z.add_0_r;
      destruct Hb as [Hu Hw]; (rewrite Hu || rewrite Hw); by rewrite i64_idem.
  - apply Forall_cons in Hf as [Ho Hf]. destruct o as [n|p]; cbn [run_ops].
    + destruct (read_ok _ _ _ n Hd Ho) as (d & er & s & Hr & _ & Hp).
      rewrite (Tracker_Read _ _ _ _ _ Hr), Hr. cbn [mbind option_bind].
      assert (exists bs', bs = d ++ bs' /\ Delivers s bs' e) as (bs' & -> & Hd').
      { destruct er; [destruct Hp as (-> & -> & _ & Hp); by exists []|].
        destruct Hp as (_ & bs' & ? & ?). by exists bs'. }
      destruct (IH (downloaded (len d) s t) bs' e Hd' Hf) as
        (d' & rest & t' & E & E' & -> & Hd'' & Hb' & Hu & Hn); [by apply balanced_downloaded|].
      exists (d ++ d'), rest, t'. rewrite E. cbn [t_Conn downloaded] in E'. rewrite E'.
      apply read_frame in Hr as [Hs _]. cbn [t_Conn UploadTotal DownloadTotal downloaded] in Hu, Hn.
      rewrite Hs in Hu. rewrite Hu, Hn, i64_add_l, len_app, <- Z.add_assoc, app_assoc. done.
    + destruct (write_ok (t_Conn t) p) as (n & er & s & Hw & _ & Hp).
      rewrite (Tracker_Write _ _ _ _ _ Hw), Hw. cbn [mbind option_bind].
      assert (len (Sent s) = len (Sent (t_Conn t)) + n) as Hs.
      { destruct er; [destruct Hp as [? ->]|destruct Hp as [-> ->]]; len_lia. }
      apply (write_frame _ _ _ _ _ bs e) in Hw; [|done].
      destruct (IH (uploaded n s t) bs e Hw Hf) as
        (d' & rest & t' & E & E' & -> & Hd'' & Hb' & Hu & Hn); [by apply balanced_uploaded|].
      exists d', rest, t'. rewrite E. cbn [t_Conn uploaded] in E'. rewrite E'.
      cbn [t_Conn UploadTotal DownloadTotal uploaded] in Hu, Hn.
      rewrite Hu, Hn, i64_add_l, Hs. split_and!; try done. f_equal. lia.
Qed.

(** A TCP tracker is invisible and keeps exact books: over any transport
    and for any sequence of reads and writes, failing ones included, the data
    and the transport are those of the untracked connection, the tracker's
    upload counter is the number of bytes the transport has sent since, its
    download counter the number of bytes read (in two's complement), and the
    calls it has made push exactly those to the manager. *)
Theorem tracker_accounts os (s : S) m id bs e :
  Delivers s bs e -> Forall (fun o => if o is ORead n then 0 < n else True) os ->
  exists d rest t', run_ops os (NewTCPTracker s m id) = Some (d, t') /\
    run_ops os s = Some (d, t_Conn t') /\ bs = d ++ rest /\
    UploadTotal t' = i64 (len (Sent (t_Conn t')) - len (Sent s)) /\
    DownloadTotal t' = i64 (len d) /\
    UploadTotal t' = i64 (zsum (upBytes <$> calls t')) /\
    DownloadTotal t' = i64 (zsum (downBytes <$> calls t')).
Proof.
  intros Hd Hf.
  destruct (run_ops_tracked os (NewTCPTracker s m id) bs e Hd Hf) as
    (d & rest & t' & E & E' & -> & _ & [Hb1 Hb2] & Hu & Hn); [done|].
  exists d, rest, t'. by split_and!.
Qed.
End TrackerOk.

(** ** Properties *)

(** The lemma behind the property. *)
Lemma totals_run css sched ts m :
  run_threads sched (thread <$> css) newManager = (ts, m) ->
  Forall (fun t => t = []) ts ->
  uploadTotal m = i64 (zsum (upBytes <$> concat css)) /\
  downloadTotal m = i64 (zsum (downBytes <$> concat css)).
Proof.
  intros Hr Hdone. pose proof (threads_no_reset css) as Hf.
  destruct (run_threads_total _ _ _ _ _ Hr Hf) as (_ & Hu & Hd).
  destruct (run_tot_i64 _ _ _ _ _ Hr Hf eq_refl eq_refl) as [Eu Ed].
  rewrite (concat_nil_threads ts) in * by done. simpl in Hu, Hd.
  rewrite Z.add_0_r in Hu, Hd. rewrite Eu, Ed, Hu, Hd.
  rewrite (zsum_concat _ upBytes) by (intros c; apply adds_thread).
  rewrite (zsum_concat _ downBytes) by (intros c; apply adds_thread). done.
Qed.

(** Whatever the interleaving of the atomic operations of any number of
    goroutines (trackers joining, pushing and leaving, and the ticker), once
    they have all run the totals are exactly the sums of what was pushed, in
    two's complement: no upload or download is lost or counted twice. *)
Theorem totals_exact css sched ts m :
  run_threads sched (thread <$> css) newManager = (ts, m) ->
  Forall (fun t => t = []) ts ->
  uploadTotal m = i64 (zsum (upBytes <$> concat css)) /\
  downloadTotal m = i64 (zsum (downBytes <$> concat css)).
Proof. apply totals_run. Qed.

(** An uninterrupted tick publishes what was pushed since the last one. *)
Lemma tick_publishes m :
  exec_all (atoms Tick) m =
    mkManager (connections m) 0 0 (uploadTemp m) (downloadTemp m)
      (uploadTotal m) (downloadTotal m) (uploadTemp m) (downloadTemp m).
Proof. by destruct m. Qed.

(** A push that falls between the load and the reset of a tick reaches the
    total and never the rate: both ticks publish zero. *)
Example tick_loses_push :
  let m := (run_threads [0;0;1;1;0;0;0;0]%nat [thread [Tick]; thread [PushUploaded 5]] newManager).2 in
  Now m = (0, 0) /\ Now (exec_all (atoms Tick) m) = (0, 0) /\ uploadTotal m = 5.
Proof. by vm_compute. Qed.

(** Two uploads and a download in two goroutines, interleaved with a tick. *)
Lemma totals_exact_witness :
  let css := [[Join (str "a"); PushUploaded 5; Leave (str "a")];
              [PushDownloaded 7; PushUploaded 9]; [Tick]] in
  let r := run_threads [1;0;0;2;1;2;1;0;2;2;2;1;0;2]%nat (thread <$> css) newManager in
  uploadTotal r.2 = i64 (zsum (upBytes <$> concat css)) /\
  downloadTotal r.2 = i64 (zsum (downBytes <$> concat css)).
Proof.
  intros css r. apply (totals_exact css _ r.1 r.2 (surjective_pairing r)). vm_compute. repeat constructor.
Defined.

(** Two writes, the second cut short by the peer, and two reads. *)
Lemma tracker_accounts_witness :
  let s := mkWire [str "abc"; str "d"] EOF [] (Some 3) false in
  let os := [OWrite (str "xy"); ORead 2; OWrite (str "zzz"); ORead 10] in
  exists d rest t', run_ops os (NewTCPTracker s (metadata.mkMetadata 0 Addr0 Addr0 Addr0 0 0 0) (str "id"))
      = Some (d, t') /\
    run_ops os s = Some (d, t_Conn t') /\ str "abcd" = d ++ rest /\
    UploadTotal t' = i64 (len (Sent (t_Conn t')) - len (Sent s)) /\
    DownloadTotal t' = i64 (len d) /\
    UploadTotal t' = i64 (zsum (upBytes <$> calls t')) /\
    DownloadTotal t' = i64 (zsum (downBytes <$> calls t')).
Proof.
  intros s os. apply (tracker_accounts os s _ _ (str "abcd") EOF).
  - split; [reflexivity|]. split; [|done]. by repeat constructor.
  - by repeat constructor.
Defined.
End statistic.
