(* ===== verification/Tunnel.v ===== *)
(** * Tunnel: package tunnel

    Sessions between the network stack ("origin") and the proxy ("remote"):
    the addresses of a session, the TCP relay as two goroutines over shared
    connections, the UDP relay with its symmetric NAT filter, and the queues of
    the [Tunnel] itself. *)

From S2P Require Import Prelude Net Conn Allocator Metadata Statistic.
Import metadata statistic.

Open Scope Z_scope.

Module tunnel.

(** ** addr.go *)

Definition parseAddrString (s : gostring) : Addr * Z :=
  let '((a, p), e) := ParseAddrPort s in
  check e else (Addr0, 0) ;;
  (a, p).

Definition parseNetAddr (addr : option NetAddr) : Addr * Z :=
  match addr with
  | None => (Addr0, 0)
  | Some a =>
      match AddrPortOf a with
      | Some ap => ap
      | None => parseAddrString (NetAddrString a)
      end
  end.

(** [tcpip.Address] is its bytes. *)
Definition parseTCPIPAddress (addr : list byte) : Addr := (AddrFromSlice addr).1.

(** [stack.TransportEndpointID]: local is what the client dialled. *)
Record TransportEndpointID := mkID {
  LocalPort : Z; LocalAddress : list byte;
  RemotePort : Z; RemoteAddress : list byte }.

Definition idMetadata (n : Network) (id : TransportEndpointID) : Metadata :=
  {| network := n;
     SrcIP := parseTCPIPAddress (RemoteAddress id); SrcPort := RemotePort id;
     DstIP := parseTCPIPAddress (LocalAddress id); DstPort := LocalPort id;
     MidIP := Addr0; MidPort := 0 |}.

Definition setMid (mid : Addr * Z) (m : Metadata) : Metadata :=
  {| network := network m; SrcIP := SrcIP m; MidIP := mid.1; DstIP := DstIP m;
     SrcPort := SrcPort m; MidPort := mid.2; DstPort := DstPort m |}.

(** Durations, in nanoseconds. *)
Definition Second : Z := 1000000000.
Definition tcpConnectTimeout : Z := 5 * Second.
Definition tcpWaitTimeout : Z := 60 * Second.
Definition udpSessionTimeout : Z := 60 * Second.

(** ** What the relay uses of a [net.Conn] besides Read and Write

    [CloseRead] and [CloseWrite] are optional methods; [SetReadDeadline d] is
    [SetReadDeadline(time.Now().Add(d))]. *)

Class HalfClose (S : Type) := {
  CloseRead : option (S -> err * S);
  CloseWrite : option (S -> err * S) }.

Class Deadline (S : Type) := SetReadDeadline : Z -> S -> err * S.

(** tracker.go: the methods exist and delegate. *)
#[global] Instance Tracker_HalfClose {S} `{HalfClose S} : HalfClose (Tracker S) := {
  CloseRead := Some (fun t =>
    match CloseRead with
    | Some f => let '(e, s) := f (t_Conn t) in
        (e, mkTracker s (ID t) (t_Metadata t) (UploadTotal t) (DownloadTotal t) (calls t))
    | None => (Some (errorsNew "CloseRead is not implemented"), t)
    end);
  CloseWrite := Some (fun t =>
    match CloseWrite with
    | Some f => let '(e, s) := f (t_Conn t) in
        (e, mkTracker s (ID t) (t_Metadata t) (UploadTotal t) (DownloadTotal t) (calls t))
    | None => (Some (errorsNew "CloseWrite is not implemented"), t)
    end) }.

#[global] Instance Tracker_Deadline {S} `{Deadline S} : Deadline (Tracker S) := fun d t =>
  let '(e, s) := SetReadDeadline d (t_Conn t) in
  (e, mkTracker s (ID t) (t_Metadata t) (UploadTotal t) (DownloadTotal t) (calls t)).

(** ** [io.CopyBuffer], of connections without [WriterTo] or [ReaderFrom] *)

Definition ErrShortWrite : error := errorsNew "short write".
Definition errInvalidWrite : error := errorsNew "invalid write result".

(** The error of the copy after [Write] of [nr] bytes returned [nw], [ew]. *)
Definition write_error (nr nw : Z) (ew : err) : err :=
  let ew := if (nw <? 0) || (nr <? nw) then Some (default errInvalidWrite ew) else ew in
  match ew with
  | Some e => Some e
  | None => if nr =? nw then None else Some ErrShortWrite
  end.

Definition no_EOF (er : err) : err := if bool_decide (er = Some EOF) then None else er.

Section stream.
Context {D S : Type} `{Reader S, Writer D, HalfClose D, HalfClose S, Deadline D}.

(** [fuel] bounds the turns; [n] is the length of the buffer. *)
Fixpoint CopyBuffer (fuel : nat) (n : Z) (dst : D) (src : S) : option (err * D * S) :=
  match fuel with
  | O => None
  | Datatypes.S f =>
      '(d, er, src) ← Read n src;
      if 0 <? len d then
        '(nw, ew, dst) ← Write d dst;
        match write_error (len d) nw ew with
        | Some e => Some (Some e, dst, src)
        | None =>
            match er with
            | Some _ => Some (no_EOF er, dst, src)
            | None => CopyBuffer f n dst src
            end
        end
      else
        match er with
        | Some _ => Some (no_EOF er, dst, src)
        | None => CopyBuffer f n dst src
        end
  end.

Definition callOpt {X} (f : option (X -> err * X)) (x : X) : X :=
  match f with Some f => (f x).2 | None => x end.

(** The half-close that follows the copy. *)
Definition unidirectionalStream (fuel : nat) (dst : D) (src : S) : option (D * S) :=
  '(_, dst, src) ← CopyBuffer fuel RelayBufferSize dst src;
  let src := callOpt CloseRead src in
  let dst := callOpt CloseWrite dst in
  let dst := (SetReadDeadline tcpWaitTimeout dst).2 in
  Some (dst, src).

(** The same goroutine, one call on a connection at a time. *)
Inductive gstate :=
| GRead
| GWrite (d : list byte) (er : err)
| GCloseRead | GCloseWrite | GDeadline
| GDone.

(** Where the loop goes after the data of a read is dealt with. *)
Definition after (er : err) : gstate := if er then GCloseRead else GRead.

Definition gstep (g : gstate) (dst : D) (src : S) : option (gstate * D * S) :=
  match g with
  | GRead =>
      '(d, er, src) ← Read RelayBufferSize src;
      Some (if 0 <? len d then GWrite d er else after er, dst, src)
  | GWrite d er =>
      '(nw, ew, dst) ← Write d dst;
      Some (if write_error (len d) nw ew then GCloseRead else after er, dst, src)
  | GCloseRead => Some (GCloseWrite, dst, callOpt CloseRead src)
  | GCloseWrite => Some (GDeadline, callOpt CloseWrite dst, src)
  | GDeadline => Some (GDone, (SetReadDeadline tcpWaitTimeout dst).2, src)
  | GDone => Some (GDone, dst, src)
  end.
End stream.

(** ** pipe: two goroutines over the same two connections *)

Section pipe.
Context {O R : Type} `{Reader O, Writer O, HalfClose O, Deadline O}.
Context `{Reader R, Writer R, HalfClose R, Deadline R}.

Record Pipe := mkPipe { up : gstate; down : gstate; origin : O; remote : R }.

(** One step of the goroutine origin->remote ([true]) or remote->origin. *)
Definition pstep (who : bool) (p : Pipe) : option Pipe :=
  if who then
    '(g, r, o) ← gstep (up p) (remote p) (origin p);
    Some (mkPipe g (down p) o r)
  else
    '(g, o, r) ← gstep (down p) (origin p) (remote p);
    Some (mkPipe (up p) g o r).

Fixpoint psteps (sched : list bool) (p : Pipe) : option Pipe :=
  match sched with
  | [] => Some p
  | w :: sched => p ← pstep w p; psteps sched p
  end.

(** [None] when the schedule ends before [wg.Wait] returns. *)
Definition pipe (sched : list bool) (o : O) (r : R) : option (O * R) :=
  p ← psteps sched (mkPipe GRead GRead o r);
  match up p, down p with
  | GDone, GDone => Some (origin p, remote p)
  | _, _ => None
  end.
End pipe.
Arguments Pipe : clear implicits.
Arguments mkPipe {O R}.

(** ** tcp.go: one session

    [DialContext d m] is the proxy's dial with a context that expires after
    [d]: a connection or an error, [None] a panic. *)

Record TCPDialer (R : Type) := { DialContext : Z -> Metadata -> option (option R * err) }.
Arguments DialContext {R}.

Class LocalAddr (S : Type) := localAddr : S -> option NetAddr.

(** [uuid] is the identifier the tracker draws.  The deferred calls close the
    remote connection first, then the origin; the result is both at the end,
    [None] a schedule too short for the relay to finish. *)
Definition handleTCPConn {O R} `{Reader O, Writer O, HalfClose O, Deadline O, Closer O}
    `{Reader R, Writer R, HalfClose R, Deadline R, Closer R, LocalAddr R}
    (sched : list bool) (uuid : gostring) (p : TCPDialer R)
    (id : TransportEndpointID) (originConn : O) : option (O * option (Tracker R)) :=
  let metadata := idMetadata TCP id in
  '(remoteConn, e) ← DialContext p tcpConnectTimeout metadata;
  check e else Some ((Close originConn).2, None) ;;
  remoteConn ← remoteConn;
  let metadata := setMid (parseNetAddr (localAddr remoteConn)) metadata in
  '(originConn, tracker) ← pipe sched originConn (NewTCPTracker remoteConn metadata uuid);
  let tracker := (Close tracker).2 in
  Some ((Close originConn).2, Some tracker).

(** ** udp.go: the packet relay *)

(** The filter drops what does not come from the session's destination; [fuel]
    bounds the packets one call can drop. *)
Record symmetricNATPacketConn (fuel : nat) (S : Type) := mkNAT {
  nat_PacketConn : S; src : gostring; dst : gostring }.
Arguments mkNAT {fuel S}. Arguments nat_PacketConn {fuel S}.
Arguments src {fuel S}. Arguments dst {fuel S}.

Definition newSymmetricNATPacketConn {fuel S} (pc : S) (m : Metadata)
  : symmetricNATPacketConn fuel S :=
  {| nat_PacketConn := pc; src := SourceAddress m; dst := DestinationAddress m |}.

Section NAT.
Context {S : Type} `{PacketConn S (option NetAddr)}.

(** [from != nil && from.String() != pc.dst] *)
Definition foreign (dst : gostring) (from : option NetAddr) : bool :=
  match from with Some a => negb (str_eqb (NetAddrString a) dst) | None => false end.

Fixpoint NAT_ReadFrom (fuel : nat) (dst : gostring) (n : Z) (pc : S)
  : option (list byte * Z * option NetAddr * err * S) :=
  match fuel with
  | O => None
  | Datatypes.S f =>
      '(d, m, from, e, pc) ← ReadFrom n pc;
      if foreign dst from then NAT_ReadFrom f dst n pc
      else Some (d, m, from, e, pc)
  end.

#[global] Instance NAT_PacketConn fuel
  : PacketConn (symmetricNATPacketConn fuel S) (option NetAddr) := {
  ReadFrom n t :=
    '(d, m, from, e, pc) ← NAT_ReadFrom fuel (dst t) n (nat_PacketConn t);
    Some (d, m, from, e, mkNAT pc (src t) (dst t));
  WriteTo p a t :=
    '(n, e, pc) ← WriteTo p a (nat_PacketConn t);
    Some (n, e, mkNAT pc (src t) (dst t)) }.

#[global] Instance NAT_Deadline `{Deadline S} fuel
  : Deadline (symmetricNATPacketConn fuel S) := fun d t =>
  let '(e, pc) := SetReadDeadline d (nat_PacketConn t) in (e, mkNAT pc (src t) (dst t)).
End NAT.

Definition is_timeout (e : error) : bool := bool_decide (e = ErrTimeout).

(** What the loop returns for an error of the source. *)
Definition copy_result (e : error) : err :=
  if is_timeout e then None else if bool_decide (e = EOF) then None else Some e.

Section packets.
Context {D S : Type} `{PacketConn D (option NetAddr), PacketConn S (option NetAddr)}.
Context `{Deadline D, Deadline S}.
Context (to : option NetAddr) (timeout : Z).

(** [buf] is the pooled buffer, with whatever it holds. *)
Fixpoint copyPacketData (fuel : nat) (buf : list byte) (dst : D) (src : S) : option (err * D * S) :=
  match fuel with
  | O => None
  | Datatypes.S f =>
      let src := (SetReadDeadline timeout src).2 in
      '(d, n, _, e, src) ← ReadFrom (len buf) src;
      let buf := blit buf 0 d in
      match e with
      | Some e => Some (copy_result e, dst, src)
      | None =>
          p ← buf.[0:n];
          '(_, e, dst) ← WriteTo p to dst;
          match e with
          | Some e => Some (Some e, dst, src)
          | None =>
              let dst := (SetReadDeadline timeout dst).2 in
              copyPacketData f buf dst src
          end
      end
  end.

(** The same goroutine, one call on a socket at a time. *)
Inductive cstate :=
| CStart (buf : list byte)
| CRead (buf : list byte)
| CWrite (buf : list byte) (n : Z)
| CDeadline (buf : list byte)
| CDone (e : err).

Definition cstep (g : cstate) (dst : D) (src : S) : option (cstate * D * S) :=
  match g with
  | CStart buf => Some (CRead buf, dst, (SetReadDeadline timeout src).2)
  | CRead buf =>
      '(d, n, _, e, src) ← ReadFrom (len buf) src;
      let buf := blit buf 0 d in
      Some (match e with Some e => CDone (copy_result e) | None => CWrite buf n end, dst, src)
  | CWrite buf n =>
      p ← buf.[0:n];
      '(_, e, dst) ← WriteTo p to dst;
      Some (match e with Some e => CDone (Some e) | None => CDeadline buf end, dst, src)
  | CDeadline buf => Some (CStart buf, (SetReadDeadline timeout dst).2, src)
  | CDone e => Some (CDone e, dst, src)
  end.
End packets.

Section pipePacket.
Context {O R : Type} `{PacketConn O (option NetAddr), PacketConn R (option NetAddr)}.
Context `{Deadline O, Deadline R} (to : option NetAddr) (timeout : Z).

Record PacketPipe := mkPP { pup : cstate; pdown : cstate; porigin : O; premote : R }.

Definition ppstep (who : bool) (p : PacketPipe) : option PacketPipe :=
  if who then
    '(g, r, o) ← cstep to timeout (pup p) (premote p) (porigin p);
    Some (mkPP g (pdown p) o r)
  else
    '(g, o, r) ← cstep None timeout (pdown p) (porigin p) (premote p);
    Some (mkPP (pup p) g o r).

Fixpoint ppsteps (sched : list bool) (p : PacketPipe) : option PacketPipe :=
  match sched with
  | [] => Some p
  | w :: sched => p ← ppstep w p; ppsteps sched p
  end.

(** [b1] and [b2] are the buffers the two goroutines get from the pool. *)
Definition pipePacket (sched : list bool) (b1 b2 : list byte) (o : O) (r : R) : option (O * R) :=
  p ← ppsteps sched (mkPP (CStart b1) (CStart b2) o r);
  match pup p, pdown p with
  | CDone _, CDone _ => Some (porigin p, premote p)
  | _, _ => None
  end.
End pipePacket.
Arguments PacketPipe : clear implicits.
Arguments mkPP {O R}.

Record UDPDialer (R : Type) := { DialUDP : Metadata -> option (option R * err) }.
Arguments DialUDP {R}.

(** The deferred [pc.Close] is the tracker's: it was evaluated before the
    filter was put around it. *)
Definition handleUDPConn {O R} `{PacketConn O (option NetAddr), PacketConn R (option NetAddr)}
    `{Deadline O, Deadline R, Closer O, Closer R, LocalAddr R}
    (fuel : nat) (sched : list bool) (b1 b2 : list byte) (uuid : gostring) (timeout : Z)
    (p : UDPDialer R) (id : TransportEndpointID) (uc : O) : option (O * option (Tracker R)) :=
  let metadata := idMetadata UDP id in
  '(pc, e) ← DialUDP p metadata;
  check e else Some ((Close uc).2, None) ;;
  pc ← pc;
  let metadata := setMid (parseNetAddr (localAddr pc)) metadata in
  let tracker := NewUDPTracker pc metadata uuid in
  let remote := match toUDPAddr metadata with Some a => AUDP a | None => AMeta metadata end in
  let pc : symmetricNATPacketConn fuel _ := newSymmetricNATPacketConn tracker metadata in
  '(uc, pc) ← pipePacket (Some remote) timeout sched b1 b2 uc pc;
  let tracker := (Close (nat_PacketConn pc)).2 in
  Some ((Close uc).2, Some tracker).

(** ** tunnel.go: the queues and the processing loop

    A channel is unbuffered: [tcpQueue] and [udpQueue] are the callers of
    HandleTCP and HandleUDP that wait, in order.  [running] is whether the
    goroutine of [process] exists, [cancelled] whether its context is.  The
    sessions are the goroutines it has started. *)

Record Tunnel (P C U : Type) := mkTunnel {
  tcpQueue : list C; udpQueue : list U;
  udpTimeout : Z; proxy : P;
  procOnce : bool; running : bool; cancelled : bool;
  tcpSessions : list C; udpSessions : list U }.
Arguments mkTunnel {P C U}. Arguments tcpQueue {P C U}. Arguments udpQueue {P C U}.
Arguments udpTimeout {P C U}. Arguments proxy {P C U}. Arguments procOnce {P C U}.
Arguments running {P C U}. Arguments cancelled {P C U}. Arguments tcpSessions {P C U}.
Arguments udpSessions {P C U}.

Section queues.
Context {P C U : Type}.

Definition New (p : P) : Tunnel P C U :=
  mkTunnel [] [] udpSessionTimeout p false false false [] [].

Definition HandleTCP (c : C) (t : Tunnel P C U) : Tunnel P C U :=
  mkTunnel (tcpQueue t ++ [c]) (udpQueue t) (udpTimeout t) (proxy t)
    (procOnce t) (running t) (cancelled t) (tcpSessions t) (udpSessions t).

Definition HandleUDP (c : U) (t : Tunnel P C U) : Tunnel P C U :=
  mkTunnel (tcpQueue t) (udpQueue t ++ [c]) (udpTimeout t) (proxy t)
    (procOnce t) (running t) (cancelled t) (tcpSessions t) (udpSessions t).

(** The cases of the [select]; a case that is not ready is not taken. *)
Inductive ready := RecvTCP | RecvUDP | CtxDone.

Definition process (r : ready) (t : Tunnel P C U) : option (Tunnel P C U) :=
  if negb (running t) then None
  else match r with
  | RecvTCP =>
      match tcpQueue t with
      | [] => None
      | c :: q => Some (mkTunnel q (udpQueue t) (udpTimeout t) (proxy t)
          (procOnce t) true (cancelled t) (tcpSessions t ++ [c]) (udpSessions t))
      end
  | RecvUDP =>
      match udpQueue t with
      | [] => None
      | c :: q => Some (mkTunnel (tcpQueue t) q (udpTimeout t) (proxy t)
          (procOnce t) true (cancelled t) (tcpSessions t) (udpSessions t ++ [c]))
      end
  | CtxDone =>
      if cancelled t
      then Some (mkTunnel (tcpQueue t) (udpQueue t) (udpTimeout t) (proxy t)
          (procOnce t) false true (tcpSessions t) (udpSessions t))
      else None
  end.

Definition ProcessAsync (t : Tunnel P C U) : Tunnel P C U :=
  if procOnce t then t
  else mkTunnel (tcpQueue t) (udpQueue t) (udpTimeout t) (proxy t)
         true true false (tcpSessions t) (udpSessions t).

(** [procCancel] does nothing before [ProcessAsync]. *)
Definition TunnelClose (t : Tunnel P C U) : Tunnel P C U :=
  mkTunnel (tcpQueue t) (udpQueue t) (udpTimeout t) (proxy t)
    (procOnce t) (running t) (procOnce t || cancelled t) (tcpSessions t) (udpSessions t).

Definition SetProxy (p : P) (t : Tunnel P C U) : Tunnel P C U :=
  mkTunnel (tcpQueue t) (udpQueue t) (udpTimeout t) p
    (procOnce t) (running t) (cancelled t) (tcpSessions t) (udpSessions t).

Definition SetUDPTimeout (d : Z) (t : Tunnel P C U) : Tunnel P C U :=
  mkTunnel (tcpQueue t) (udpQueue t) d (proxy t)
    (procOnce t) (running t) (cancelled t) (tcpSessions t) (udpSessions t).

Inductive tcall :=
| CallHandleTCP (c : C) | CallHandleUDP (c : U)
| CallProcessAsync | CallClose | CallSetProxy (p : P) | CallSetUDPTimeout (d : Z)
| Loop (r : ready).

(** The steps of the tunnel, of its callers and of its loop. *)
Definition tstep (l : tcall) (t : Tunnel P C U) : Tunnel P C U :=
  match l with
  | CallHandleTCP c => HandleTCP c t
  | CallHandleUDP c => HandleUDP c t
  | CallProcessAsync => ProcessAsync t
  | CallClose => TunnelClose t
  | CallSetProxy p => SetProxy p t
  | CallSetUDPTimeout d => SetUDPTimeout d t
  | Loop r => default t (process r t)
  end.

Definition truns (ls : list tcall) (t : Tunnel P C U) : Tunnel P C U :=
  fold_left (fun t l => tstep l t) ls t.
End queues.

(** ** global.go: the tunnel of the process

    [tunnels] are the tunnels that exist, by pointer; the mutex makes each
    operation on the pointer one step. *)

Section global.
Context {P C U : Type}.

Record Global := mkGlobal { tunnels : list (Tunnel P C U); globalT : option nat }.

Definition T (g : Global) : option nat := globalT g.

(** The function it returns restores the previous pointer, by the same
    operation. *)
Definition swapGlobal (t : option nat) (g : Global) : Global := mkGlobal (tunnels g) t.
Definition ReplaceGlobal (t : option nat) (g : Global) : (Global -> Global) * Global :=
  let prev := globalT g in
  (swapGlobal prev, swapGlobal t g).

(** A method of the tunnel a pointer points to: [None] is a nil pointer. *)
Definition onTunnel (t : option nat) (f : Tunnel P C U -> Tunnel P C U) (g : Global) : option Global :=
  i ← t; x ← tunnels g !! i; Some (mkGlobal (<[i := f x]> (tunnels g)) (globalT g)).

(** The package's [init]; [reject] is its proxy. *)
Definition global_init (reject : P) : option Global :=
  let g := mkGlobal [New reject] None in
  let '(_, g) := ReplaceGlobal (Some 0%nat) g in
  onTunnel (T g) ProcessAsync g.
End global.
Arguments Global : clear implicits.

(** Replacements undone in reverse order, as deferred calls are, restore the
    pointer whatever happened to the tunnels in between. *)
Fixpoint nested {P C U} (ts : list (option nat)) (use : Global P C U -> Global P C U) (g : Global P C U) : Global P C U :=
  match ts with
  | [] => use g
  | t :: ts => let '(restore, g) := ReplaceGlobal t g in restore (nested ts use g)
  end.

Lemma ReplaceGlobal_nested {P C U} ts use (g : Global P C U) : ts <> [] -> T (nested ts use g) = T g.
Proof. by destruct ts. Qed.

(** What a connection promises about half-closing and deadlines: closing one
    direction leaves the other alone; [Fin] says that the peer sees the end of
    what it is sent; a deadline may cut what is still to be read short, unless
    the peers are [patient]: answer before it. *)
Class HalfCloseOk (S : Type) `{ConnOk S} `{HalfClose S} `{Deadline S} := {
  Fin : S -> Prop;
  patient : bool;
  fin_read : forall n s d e s', Read n s = Some (d, e, s') -> Fin s -> Fin s';
  closeRead_ok : forall f s, CloseRead = Some f ->
    Sent (f s).2 = Sent s /\ (Writable s -> Writable (f s).2) /\ (Fin s -> Fin (f s).2);
  closeWrite_ok : forall f s, CloseWrite = Some f ->
    Sent (f s).2 = Sent s /\ Fin (f s).2 /\
    (forall bs e, Delivers s bs e -> Delivers (f s).2 bs e);
  deadline_ok : forall d s, let s' := (SetReadDeadline d s).2 in
    Sent s' = Sent s /\ (Writable s -> Writable s') /\ (Fin s -> Fin s') /\
    forall bs e, Delivers s bs e -> exists bs' e', Delivers s' bs' e' /\
      bs' `prefix_of` bs /\ (patient = true -> bs' = bs) }.

Arguments patient S {_ _ _ _ _ _ _ _}.

Definition copying (g : gstate) : bool :=
  match g with GRead | GWrite _ _ => true | _ => false end.

Definition finished (g : gstate) : bool :=
  match g with GDeadline | GDone => true | _ => false end.

Definition rank (g : gstate) : nat :=
  match g with GCloseRead => 3 | GCloseWrite => 2 | GDeadline => 1 | _ => 0 end.

(** ** One direction: what its destination has been sent *)

Section dir.
Context {D S : Type} `{HalfCloseOk D, HalfCloseOk S}.

(** [bs] is what the source was to deliver, [s0] what the destination had been
    sent, [w] that it does not fail, [c] that a deadline cut the source short;
    the index bounds the steps left. *)
Inductive Dir (bs s0 : list byte) (w : Prop) (c : bool) (dst : D) (src : S) : gstate -> nat -> Prop :=
| Dir_read q rest e :
    Delivers src rest e -> Sent dst = s0 ++ q -> (q ++ rest) `prefix_of` bs ->
    (c = false -> w -> q ++ rest = bs) -> (w -> Writable dst) ->
    Dir bs s0 w c dst src GRead (2 * length rest + 5)
| Dir_write q d rest e :
    Delivers src rest e -> Sent dst = s0 ++ q -> (q ++ d ++ rest) `prefix_of` bs ->
    (c = false -> w -> q ++ d ++ rest = bs) -> (w -> Writable dst) ->
    Dir bs s0 w c dst src (GWrite d None) (2 * length rest + 6)
| Dir_end q g :
    copying g = false -> Sent dst = s0 ++ q -> q `prefix_of` bs ->
    (c = false -> w -> q = bs) ->
    (finished g = true -> @CloseWrite D _ <> None -> Fin dst) ->
    Dir bs s0 w c dst src g (rank g).

Lemma callOpt_CloseRead (s : S) : let s' := callOpt CloseRead s in
  Sent s' = Sent s /\ (Writable s -> Writable s') /\ (Fin s -> Fin s').
Proof.
  unfold callOpt. destruct (@CloseRead S _) as [f|] eqn:E; [|done].
  by apply closeRead_ok.
Qed.

Lemma callOpt_CloseWrite (s : D) : let s' := callOpt CloseWrite s in
  Sent s' = Sent s /\ (@CloseWrite D _ <> None -> Fin s') /\
  (forall bs e, Delivers s bs e -> Delivers s' bs e).
Proof.
  unfold callOpt. destruct (@CloseWrite D _) as [f|] eqn:E; [|done].
  destruct (closeWrite_ok f s E) as (? & ? & ?). done.
Qed.

(** A step of the goroutine keeps its direction and uses up its steps. *)
Lemma gstep_Dir bs s0 w c dst src g k :
  Dir bs s0 w c dst src g k ->
  exists g' dst' src' k', gstep g dst src = Some (g', dst', src') /\
    Dir bs s0 w c dst' src' g' k' /\ (k' <= pred k)%nat.
Proof.
  intros HD. destruct HD as [q rest e Hd Hs Hp Hc Hw|q d rest e Hd Hs Hp Hc Hw|q g Hg Hs Hp Hc Hf].
  - destruct (read_ok src rest e RelayBufferSize Hd ltac:(done)) as (d & er & src' & Hr & _ & Hpost).
    cbn [gstep]. rewrite Hr. cbn [mbind option_bind]. destruct er as [e'|].
    + destruct Hpost as (-> & -> & -> & Hd'). eexists _, _, _, _. split; [done|].
      rewrite app_nil_r in *. split; [by apply (Dir_end _ _ _ _ _ _ q GCloseRead)|simpl; lia].
    + destruct Hpost as (Hne & rest' & -> & Hd').
      replace (0 <? len d) with true by (destruct d; [done|]; len_lia).
      eexists _, _, _, _. split; [done|]. split; [by eapply Dir_write|].
      rewrite length_app. destruct d; [done|]. simpl. lia.
  - cbn [gstep]. destruct (write_ok dst d) as (n & er & dst' & Hr & Hok & Hpost).
    rewrite Hr. cbn [mbind option_bind]. destruct er as [e'|].
    + destruct Hpost as [Hn Hs']. eexists _, _, _, 3%nat. split; [done|].
      replace (write_error (len d) n (Some e')) with (Some e')
        by (unfold write_error; by destruct ((n <? 0) || (len d <? n))).
      split; [|simpl; lia]. apply (Dir_end _ _ _ _ _ _ (q ++ ztake n d) GCloseRead); try done.
      * by rewrite Hs', Hs, app_assoc.
      * etransitivity; [|exact Hp]. rewrite <- (ztake_zdrop n d) at 2.
        rewrite <- !app_assoc, app_assoc. by eexists.
      * intros ? W. by destruct (Hok (Hw W)).
    + destruct Hpost as [-> Hs']. eexists _, _, _, (2 * length rest + 5)%nat. split; [done|].
      replace (write_error (len d) (len d) None) with (@None error).
      2:{ unfold write_error. replace ((len d <? 0) || (len d <? len d)) with false by len_lia.
          by rewrite Z.eqb_refl. }
      split; [|simpl; lia]. cbn [after].
      eapply (Dir_read _ _ _ _ _ _ (q ++ d)); try done; rewrite <- ?app_assoc; try done.
      * by rewrite Hs', Hs, app_assoc.
      * intros W. by apply Hok, Hw.
  - destruct g; try done; eexists _, _, _, (pred (rank _)); (split; [done|]); (split; [|done]).
    + by apply (Dir_end _ _ _ _ _ _ q GCloseWrite).
    + destruct (callOpt_CloseWrite dst) as (E & Hfin & _).
      apply (Dir_end _ _ _ _ _ _ q GDeadline); try done. by rewrite E.
    + destruct (deadline_ok tcpWaitTimeout dst) as (E & _ & Hfin & _).
      apply (Dir_end _ _ _ _ _ _ q GDone); try done; [by rewrite E|]. auto.
    + by apply (Dir_end _ _ _ _ _ _ q GDone).
Qed.

(** What the other goroutine does keeps a direction, and may cut it short. *)
Lemma Dir_frame bs s0 w c c' dst src dst' src' g k :
  Dir bs s0 w c dst src g k ->
  Sent dst' = Sent dst -> (Writable dst -> Writable dst') -> (Fin dst -> Fin dst') ->
  (copying g = true -> forall bs e, Delivers src bs e ->
     exists bs' e', Delivers src' bs' e' /\ bs' `prefix_of` bs /\ (c' = false -> bs' = bs)) ->
  (c' = false -> c = false) ->
  exists k', (k' <= k)%nat /\ Dir bs s0 w c' dst' src' g k'.
Proof.
  intros HD Es Ew Ef Ed Ec.
  destruct HD as [q rest e Hd Hs Hp Hc Hw|q d rest e Hd Hs Hp Hc Hw|q g Hg Hs Hp Hc Hf].
  - destruct (Ed eq_refl rest e Hd) as (rest' & e' & Hd' & Hpre & Heq).
    exists (2 * length rest' + 5)%nat. pose proof (prefix_length _ _ Hpre). split; [lia|].
    eapply Dir_read; [done|by rewrite Es| | |by auto].
    + etransitivity; [|exact Hp]. by apply prefix_app.
    + intros Hc' W. rewrite Heq by done. auto.
  - destruct (Ed eq_refl rest e Hd) as (rest' & e' & Hd' & Hpre & Heq).
    exists (2 * length rest' + 6)%nat. pose proof (prefix_length _ _ Hpre). split; [lia|].
    eapply Dir_write; [done|by rewrite Es| | |by auto].
    + etransitivity; [|exact Hp]. by do 2 apply prefix_app.
    + intros Hc' W. rewrite Heq by done. auto.
  - exists (rank g). split; [done|]. apply (Dir_end _ _ _ _ _ _ q); [done|by rewrite Es|done|auto|auto].
Qed.

Lemma Dir_rank bs s0 w c dst src g k : Dir bs s0 w c dst src g k -> k = 0%nat -> g = GDone.
Proof. intros HD Hk. destruct HD as [| |q g Hg]; try lia. by destruct g. Qed.

Lemma Dir_start (bs s0 : list byte) w e (dst : D) (src : S) :
  Delivers src bs e -> Sent dst = s0 -> (w -> Writable dst) ->
  Dir bs s0 w false dst src GRead (2 * length bs + 5).
Proof. intros Hd Hs Hw. eapply (Dir_read _ _ _ _ _ _ []); try done. by rewrite app_nil_r. Qed.
End dir.

(** Whether the step about to be taken cuts the other direction short. *)
Definition cuts (pat : bool) (g g2 : gstate) : bool :=
  match g with GDeadline => copying g2 && negb pat | _ => false end.

Lemma gstep_frame {D S} `{HalfCloseOk D, HalfCloseOk S} (dst : D) (src : S) g g' dst' src'
    bs s0 w c g2 k :
  gstep g dst src = Some (g', dst', src') -> Dir bs s0 w c src dst g2 k ->
  exists k', (k' <= k)%nat /\
    Dir bs s0 w (cuts (patient D) g g2 || c) src' dst' g2 k'.
Proof.
  intros Hg HD. destruct g; cbn [gstep] in Hg.
  - destruct (Read RelayBufferSize src) as [[[d er] src1]|] eqn:E; [|done]. simplify_eq/=.
    pose proof (read_frame _ _ _ _ _ E) as [E1 E2].
    eapply Dir_frame; try done; [by apply (fin_read _ _ _ _ _ E)|].
    intros _ bs' e' Hd. by exists bs', e'.
  - destruct (Write d dst) as [[[n ew] dst1]|] eqn:E; [|done]. simplify_eq/=.
    eapply Dir_frame; try done. intros _ bs' e' Hd. exists bs', e'.
    split; [by apply (write_frame _ _ _ _ _ _ _ E)|done].
  - simplify_eq/=. destruct (callOpt_CloseRead src) as (? & ? & ?).
    eapply Dir_frame; try done. intros _ bs' e' Hd. by exists bs', e'.
  - simplify_eq/=. destruct (callOpt_CloseWrite dst) as (_ & _ & E).
    eapply Dir_frame; try done. intros _ bs' e' Hd. exists bs', e'. split; [by apply E|done].
  - simplify_eq/=. destruct (deadline_ok tcpWaitTimeout dst) as (_ & _ & _ & E).
    eapply Dir_frame; try done.
    + intros Hcp bs' e' Hd. destruct (E bs' e' Hd) as (bs2 & e2 & ? & ? & Hpt).
      exists bs2, e2. rewrite Hcp. split; [done|]. split; [done|]. cbn [andb].
      destruct (patient D); [auto|done].
    + by intros [_ ?]%orb_false_iff.
  - simplify_eq/=. exists k. split; [done|]. done.
Qed.

Section pipe_ok.
Context {O R : Type} `{HalfCloseOk O, HalfCloseOk R}.

(** Both directions at once: at most one was cut short, and only by the end of
    the other. *)
Definition PInv (bo br so sr : list byte) (w : Prop) (c1 c2 : bool) (p : Pipe O R) (k1 k2 : nat) : Prop :=
  (exists k, (k <= k1)%nat /\ Dir bo sr w c1 (remote p) (origin p) (up p) k) /\
  (exists k, (k <= k2)%nat /\ Dir br so w c2 (origin p) (remote p) (down p) k) /\
  (c1 = true -> c2 = true -> False) /\
  (c1 = true -> down p = GDone /\ patient R && patient O = false) /\
  (c2 = true -> up p = GDone /\ patient R && patient O = false).

Lemma cuts_true pat g g2 : cuts pat g g2 = true -> g = GDeadline /\ copying g2 = true /\ pat = false.
Proof. destruct g; try done. cbn. intros [? ?%negb_true_iff]%andb_true_iff. done. Qed.

Lemma pstep_PInv bo br so sr w c1 c2 p k1 k2 who :
  PInv bo br so sr w c1 c2 p k1 k2 ->
  exists p' c1' c2', pstep who p = Some p' /\
    PInv bo br so sr w c1' c2' p' (if who then pred k1 else k1) (if who then k2 else pred k2).
Proof.
  intros ((ku & Hku & Hu) & (kd & Hkd & Hd) & Hcc & H1' & H2'). destruct who; unfold pstep.
  - destruct (gstep_Dir _ _ _ _ _ _ _ _ Hu) as (g & r & o & k & Hg & Hu' & Hk).
    destruct (gstep_frame _ _ _ _ _ _ _ _ _ _ _ _ Hg Hd) as (k' & Hk' & Hd').
    rewrite Hg. cbn [mbind option_bind]. eexists _, c1, _. split; [done|].
    split; [exists k; split; [lia|done]|]. split; [exists k'; split; [lia|exact Hd']|].
    split; [|split; [done|]].
    + intros Hc [(E & Hcp & _)%cuts_true|?]%orb_true_iff; [|auto].
      destruct (H1' Hc) as [Ed _]. by rewrite Ed in Hcp.
    + intros [(E & _ & Hpt)%cuts_true|Hc]%orb_true_iff.
      * rewrite E in Hg. simpl in Hg. simplify_eq. by rewrite Hpt.
      * destruct (H2' Hc) as [Eu ?]. rewrite Eu in Hg. simpl in Hg. by simplify_eq.
  - destruct (gstep_Dir _ _ _ _ _ _ _ _ Hd) as (g & o & r & k & Hg & Hd' & Hk).
    destruct (gstep_frame _ _ _ _ _ _ _ _ _ _ _ _ Hg Hu) as (k' & Hk' & Hu').
    rewrite Hg. cbn [mbind option_bind]. eexists _, _, c2. split; [done|].
    split; [exists k'; split; [lia|exact Hu']|]. split; [exists k; split; [lia|done]|].
    split; [|split; [|done]].
    + intros [(E & Hcp & _)%cuts_true|?]%orb_true_iff Hc; [|auto].
      destruct (H2' Hc) as [Ed _]. by rewrite Ed in Hcp.
    + intros [(E & _ & Hpt)%cuts_true|Hc]%orb_true_iff.
      * rewrite E in Hg. simpl in Hg. simplify_eq. by rewrite Hpt, andb_false_r.
      * destruct (H1' Hc) as [Eu ?]. rewrite Eu in Hg. simpl in Hg. by simplify_eq.
Qed.

Fixpoint turns (who : bool) (sched : list bool) : nat :=
  match sched with
  | [] => 0
  | b :: sched => (if Bool.eqb b who then 1 else 0) + turns who sched
  end.

Lemma psteps_PInv sched : forall bo br so sr w c1 c2 p k1 k2,
  PInv bo br so sr w c1 c2 p k1 k2 ->
  exists p' c1' c2', psteps sched p = Some p' /\
    PInv bo br so sr w c1' c2' p' (k1 - turns true sched) (k2 - turns false sched).
Proof.
  induction sched as [|b sched IH]; intros bo br so sr w c1 c2 p k1 k2 HP; cbn [psteps].
  - exists p, c1, c2. by rewrite !Nat.sub_0_r.
  - destruct (pstep_PInv _ _ _ _ _ _ _ _ _ _ b HP) as (p1 & d1 & d2 & -> & HP1).
    destruct (IH _ _ _ _ _ _ _ _ _ _ HP1) as (p2 & e1 & e2 & E & HP2).
    exists p2, e1, e2. split; [done|].
    replace (k1 - turns true (b :: sched))%nat
      with ((if b then pred k1 else k1) - turns true sched)%nat by (destruct b; simpl; lia).
    by replace (k2 - turns false (b :: sched))%nat
      with ((if b then k2 else pred k2) - turns false sched)%nat by (destruct b; simpl; lia).
Qed.

(** The lemma behind the properties of the relay. *)
Lemma pipe_Fin (o : O) (r : R) bo eo br er sched :
  Delivers o bo eo -> Delivers r br er ->
  (2 * length bo + 5 <= turns true sched)%nat -> (2 * length br + 5 <= turns false sched)%nat ->
  exists o' r' q1 q2, pipe sched o r = Some (o', r') /\
    Sent r' = Sent r ++ q1 /\ q1 `prefix_of` bo /\
    Sent o' = Sent o ++ q2 /\ q2 `prefix_of` br /\
    (@CloseWrite R _ <> None -> Fin r') /\ (@CloseWrite O _ <> None -> Fin o') /\
    (Writable o -> Writable r -> (q1 = bo \/ q2 = br) /\
       (patient R && patient O = true -> q1 = bo /\ q2 = br)).
Proof.
  intros Ho Hr Ht1 Ht2.
  assert (PInv bo br (Sent o) (Sent r) (Writable o /\ Writable r) false false
    (mkPipe GRead GRead o r) (2 * length bo + 5) (2 * length br + 5)) as HP.
  { split; [eexists; split; [done|]; by eapply Dir_start; [|done|intros [? ?]]|].
    split; [eexists; split; [done|]; by eapply Dir_start; [|done|intros [? ?]]|]. done. }
  destruct (psteps_PInv sched _ _ _ _ _ _ _ _ _ _ HP) as
    (p & c1 & c2 & E & (k & Hk & Hu) & (k' & Hk' & Hd) & Hcc & Hc1 & Hc2).
  assert (up p = GDone) as Eu by (apply (Dir_rank (D:=R) (S:=O) _ _ _ _ _ _ _ _ Hu); lia).
  assert (down p = GDone) as Ed by (apply (Dir_rank (D:=O) (S:=R) _ _ _ _ _ _ _ _ Hd); lia).
  unfold pipe. rewrite E. cbn [mbind option_bind]. rewrite Eu, Ed in *.
  inversion Hu as [| |q1 g1 _ Hs1 Hp1 Hq1 Hf1]; subst.
  inversion Hd as [| |q2 g2 _ Hs2 Hp2 Hq2 Hf2]; subst.
  exists (origin p), (remote p), q1, q2. split_and!; try done; [by apply Hf1|by apply Hf2|].
  intros Wo Wr. split.
  - destruct c1; [|left; auto]. right. apply Hq2; [|done]. by destruct c2; [destruct Hcc|].
  - intros Hpt. split; [apply Hq1|apply Hq2]; try done.
    + destruct c1; [|done]. destruct (Hc1 eq_refl). congruence.
    + destruct c2; [|done]. destruct (Hc2 eq_refl). congruence.
Qed.
End pipe_ok.

(** ** The goroutine is the source's function *)

Section alone.
Context {D S : Type} `{Reader S, Writer D, HalfClose D, HalfClose S, Deadline D}.

(** The goroutine run by itself. *)
Fixpoint gsteps (k : nat) (g : gstate) (dst : D) (src : S) : option (gstate * D * S) :=
  match k with
  | O => Some (g, dst, src)
  | Datatypes.S k => '(g, dst, src) ← gstep g dst src; gsteps k g dst src
  end.

Definition half_close (dst : D) (src : S) : D * S :=
  ((SetReadDeadline tcpWaitTimeout (callOpt CloseWrite dst)).2, callOpt CloseRead src).

Lemma gsteps_done k (dst : D) (src : S) : gsteps k GDone dst src = Some (GDone, dst, src).
Proof. induction k; [done|]. simpl. by rewrite IHk. Qed.

Lemma gsteps_close k (dst : D) (src : S) : (3 <= k)%nat ->
  gsteps k GCloseRead dst src = Some (GDone, (half_close dst src).1, (half_close dst src).2).
Proof. intros Hk. destruct k as [|[|[|k]]]; try lia. simpl. by rewrite gsteps_done. Qed.

Lemma gsteps_copy fuel : forall k (dst : D) (src : S) e dst' src',
  CopyBuffer fuel RelayBufferSize dst src = Some (e, dst', src') ->
  (2 * fuel + 3 <= k)%nat ->
  gsteps k GRead dst src = Some (GDone, (half_close dst' src').1, (half_close dst' src').2).
Proof.
  induction fuel as [|fuel IH]; intros k dst src e dst' src' Hc Hk; [done|].
  destruct k as [|[|k]]; try lia. cbn [CopyBuffer] in Hc. cbn [gsteps gstep].
  destruct (Read RelayBufferSize src) as [[[d er] src1]|]; [|done]. cbn [mbind option_bind] in *.
  destruct (0 <? len d).
  - cbn [gsteps gstep]. destruct (Write d dst) as [[[n ew] dst1]|]; [|done]. cbn [mbind option_bind] in *.
    destruct (write_error (len d) n ew); [simplify_eq; by apply gsteps_close; lia|].
    destruct er; cbn [after]; [simplify_eq; by apply gsteps_close; lia|].
    eapply IH; [done|lia].
  - destruct er; cbn [after]; [simplify_eq; by apply (gsteps_close (Datatypes.S k)); lia|].
    eapply (IH (Datatypes.S k)); [done|lia].
Qed.

(** The step machine run by the scheduler is the function of the source: a
    goroutine left to itself does exactly what [unidirectionalStream] does,
    over any connections. *)
Theorem stream_refines fuel k (dst : D) (src : S) dst' src' :
  unidirectionalStream fuel dst src = Some (dst', src') -> (2 * fuel + 3 <= k)%nat ->
  gsteps k GRead dst src = Some (GDone, dst', src').
Proof.
  unfold unidirectionalStream. intros Hu Hk.
  destruct (CopyBuffer fuel RelayBufferSize dst src) as [[[e dst1] src1]|] eqn:E; [|done].
  rewrite (gsteps_copy _ _ _ _ _ _ _ E Hk). cbn in Hu. by simplify_eq.
Qed.
End alone.

(** ** A tracked remote connection *)

#[export, program] Instance Tracker_HalfCloseOk {S} `{HalfCloseOk S} : HalfCloseOk (Tracker S) := {
  Fin t := @CloseWrite S _ <> None -> Fin (t_Conn t);
  patient := patient S }.
Next Obligation.
  intros S ? ? ? ? ? ? ? ? n t d e t' Hr Hf Hc. unfold Read, Tracker_Reader in Hr.
  destruct (Read n (t_Conn t)) as [[[d' e'] s]|] eqn:E; [|done]. simplify_eq/=.
  by apply (fin_read _ _ _ _ _ E), Hf.
Qed.
Next Obligation.
  intros S ? ? ? ? ? ? ? ? f t [= <-]. destruct (@CloseRead S _) as [g|] eqn:E; [|done].
  pose proof (closeRead_ok g (t_Conn t) E) as (? & ? & ?).
  destruct (g (t_Conn t)) as [e s]. naive_solver.
Qed.
Next Obligation.
  intros S ? ? ? ? ? ? ? ? f t [= <-]. destruct (@CloseWrite S _) as [g|] eqn:E; [|done].
  pose proof (closeWrite_ok g (t_Conn t) E) as (? & ? & ?).
  destruct (g (t_Conn t)) as [e s]. naive_solver.
Qed.
Next Obligation.
  intros S ? ? ? ? ? ? ? ? d t. cbn.
  pose proof (deadline_ok d (t_Conn t)) as (E & ? & ? & ?). unfold SetReadDeadline at 1 2 3 4, Tracker_Deadline.
  destruct (SetReadDeadline d (t_Conn t)) as [e s]. cbn [snd t_Conn] in *. naive_solver.
Qed.

(** A property of the remote connection that its operations keep. *)
Lemma psteps_remote {O R} `{HalfCloseOk O, HalfCloseOk R} (Q : R -> Prop) sched :
  (forall n r d e r', Q r -> Read n r = Some (d, e, r') -> Q r') ->
  (forall p r n e r', Q r -> Write p r = Some (n, e, r') -> Q r') ->
  (forall r, Q r -> Q (callOpt CloseRead r)) -> (forall r, Q r -> Q (callOpt CloseWrite r)) ->
  (forall d r, Q r -> Q (SetReadDeadline d r).2) ->
  forall p p' : Pipe O R, psteps sched p = Some p' -> Q (remote p) -> Q (remote p').
Proof.
  intros QR QW QCR QCW QD. induction sched as [|b sched IH]; intros p p' Hp HQ; cbn [psteps] in Hp;
    [by simplify_eq|].
  destruct (pstep b p) as [p1|] eqn:E; [|done]. cbn [mbind option_bind] in Hp.
  apply (IH _ _ Hp). clear IH Hp. destruct b; unfold pstep in E.
  - destruct (gstep _ _ _) as [[[g r] o]|] eqn:Eg; [|done]. simplify_eq/=.
    destruct (up p); simpl in Eg; try (simplify_eq; auto; done).
    + destruct (Read _ _) as [[[? ?] ?]|]; [|done]. by simplify_eq/=.
    + destruct (Write _ _) as [[[? ?] ?]|] eqn:Ew; [|done]. simplify_eq/=. by eapply QW.
  - destruct (gstep _ _ _) as [[[g o] r]|] eqn:Eg; [|done]. simplify_eq/=.
    destruct (down p); simpl in Eg; try (simplify_eq; auto; done).
    + destruct (Read _ _) as [[[? ?] ?]|] eqn:Er; [|done]. simplify_eq/=. by eapply QR.
    + destruct (Write _ _) as [[[? ?] ?]|]; [|done]. by simplify_eq/=.
Qed.

Definition is_push (c : call) : Prop :=
  match c with PushUploaded _ | PushDownloaded _ => True | _ => False end.

(** The tracker of a session: what it has told the manager. *)
Definition Booked {S} (uuid : gostring) (m : Metadata) (t : Tracker S) : Prop :=
  ID t = uuid /\ t_Metadata t = m /\ balanced t /\
  exists pushes, calls t = Join uuid :: pushes /\ Forall is_push pushes.

Lemma Booked_new {S} (s : S) uuid m : Booked uuid m (NewTCPTracker s m uuid).
Proof. split_and!; try done. by exists []. Qed.

Lemma Booked_push {S} uuid m (t t' : Tracker S) c :
  Booked uuid m t -> is_push c -> balanced t' ->
  ID t' = ID t -> t_Metadata t' = t_Metadata t -> calls t' = calls t ++ [c] -> Booked uuid m t'.
Proof.
  intros (Hi & Hm & _ & ps & Hc & Hf) Hpush Hb Ei Em Ec. split_and!; [congruence..|done|].
  exists (ps ++ [c]). rewrite Ec, Hc. split; [done|]. apply Forall_app. by split; [|constructor].
Qed.

Lemma Booked_downloaded {S} uuid m n s (t : Tracker S) : Booked uuid m t -> Booked uuid m (downloaded n s t).
Proof. intros HB. apply (Booked_push _ _ t _ (PushDownloaded n)); try done. by apply balanced_downloaded, HB. Qed.

Lemma Booked_uploaded {S} uuid m n s (t : Tracker S) : Booked uuid m t -> Booked uuid m (uploaded n s t).
Proof. intros HB. apply (Booked_push _ _ t _ (PushUploaded n)); try done. by apply balanced_uploaded, HB. Qed.

(** What the session has told the manager in the end. *)
Lemma Booked_close {S} `{Closer S} uuid m (t : Tracker S) : Booked uuid m t ->
  exists pushes, calls (Close t).2 = Join uuid :: pushes ++ [Leave uuid] /\ Forall is_push pushes /\
    UploadTotal t = i64 (zsum (upBytes <$> pushes)).
Proof.
  intros (Hi & _ & [Hb _] & ps & Hc & Hf). exists ps. rewrite Tracker_Close_calls, Hb, Hc, Hi. by split_and!.
Qed.

(** Over a stream the upload is what has been sent since [base]. *)
Definition Tracked {S} `{WriterOk S} (uuid : gostring) (m : Metadata) (base : Z) (t : Tracker S) : Prop :=
  Booked uuid m t /\ UploadTotal t = i64 (len (Sent (t_Conn t)) - base).

Lemma Tracked_psteps {O R} `{HalfCloseOk O, HalfCloseOk R} uuid m base sched (p p' : Pipe O (Tracker R)) :
  psteps sched p = Some p' -> Tracked uuid m base (remote p) -> Tracked uuid m base (remote p').
Proof.
  intros Hp. apply (psteps_remote (Tracked uuid m base) sched); [..|exact Hp]; clear p p' Hp.
  - intros n t d e t' [HB Hu] Hr. unfold Read, Tracker_Reader in Hr.
    destruct (Read n (t_Conn t)) as [[[d' e'] s]|] eqn:E; [|done]. simplify_eq/=.
    split; [by apply Booked_downloaded|]. apply read_frame in E as [Es _]. cbn. by rewrite Es.
  - intros p t n e t' [HB Hu] Hw. unfold Write, Tracker_Writer in Hw.
    destruct (Write p (t_Conn t)) as [[[n' e'] s]|] eqn:E; [|done]. simplify_eq/=.
    split; [by apply Booked_uploaded|]. cbn. rewrite Hu, i64_add_l. f_equal.
    destruct (write_ok (t_Conn t) p) as (n1 & e1 & s1 & E1 & _ & Hpost).
    rewrite E in E1. simplify_eq. destruct e1; [destruct Hpost as [? ->]|destruct Hpost as [-> ->]]; len_lia.
  - intros t [HB Hu]. destruct (callOpt_CloseRead (t_Conn t)) as (Es & _).
    unfold callOpt in *. cbn. destruct (@CloseRead R _) as [g|]; [|done].
    destruct (g (t_Conn t)). cbn in *. unfold Tracked. cbn. by rewrite Es.
  - intros t [HB Hu]. destruct (callOpt_CloseWrite (t_Conn t)) as (Es & _).
    unfold callOpt in *. cbn. destruct (@CloseWrite R _) as [g|]; [|done].
    destruct (g (t_Conn t)). cbn in *. unfold Tracked. cbn. by rewrite Es.
  - intros d t [HB Hu]. destruct (deadline_ok d (t_Conn t)) as (Es & _).
    change (SetReadDeadline d t) with (Tracker_Deadline d t). unfold Tracker_Deadline.
    destruct (SetReadDeadline d (t_Conn t)) as [e s]. unfold Tracked. cbn in *. by rewrite Es.
Qed.

Lemma pipe_psteps {O R} `{Reader O, Writer O, HalfClose O, Deadline O}
    `{Reader R, Writer R, HalfClose R, Deadline R} sched (o o' : O) (r r' : R) :
  pipe sched o r = Some (o', r') ->
  exists p, psteps sched (mkPipe GRead GRead o r) = Some p /\ origin p = o' /\ remote p = r'.
Proof.
  unfold pipe. destruct (psteps _ _) as [p|]; [|done]. cbn [mbind option_bind]. intros Hp.
  exists p. destruct (up p), (down p); by simplify_eq.
Qed.

(** ** What a packet connection promises

    [Queued s q e]: reads yield the datagrams [q], cut to the buffer, with
    their senders, then fail with [e].  A deadline may end them earlier, with a
    timeout, unless the peers are [prompt].  A [Postable] socket does not fail
    to send. *)
Class PacketOk (S : Type) `{PacketConn S (option NetAddr), Deadline S} := {
  Queued : S -> list (list byte * option NetAddr) -> error -> Prop;
  Posted : S -> list (list byte * option NetAddr);
  Postable : S -> Prop;
  prompt : bool;
  recv_ok : forall s q e n, Queued s q e -> 0 < n -> exists s', Posted s' = Posted s /\
    (Postable s -> Postable s') /\
    match q with
    | (p, a) :: q' => ReadFrom n s = Some (ztake n p, len (ztake n p), a, None, s') /\ Queued s' q' e
    | [] => ReadFrom n s = Some ([], 0, None, Some e, s') /\ Queued s' [] e
    end;
  send_ok : forall p a s, exists n er s', WriteTo p a s = Some (n, er, s') /\
    (forall q e, Queued s q e -> Queued s' q e) /\
    (Postable s -> er = None /\ Postable s') /\
    Posted s' = match er with None => Posted s ++ [(p, a)] | Some _ => Posted s end;
  pdeadline_ok : forall d s, let s' := (SetReadDeadline d s).2 in
    Posted s' = Posted s /\ (Postable s -> Postable s') /\
    forall q e, Queued s q e -> exists q' e', Queued s' q' e' /\ q' `prefix_of` q /\
      (prompt = true -> q' = q) }.
Arguments prompt S {_ _ _}.

(** The filter keeps the promise, for what passes it. *)
Definition passes (dst : gostring) (p : list byte * option NetAddr) : Prop := foreign dst p.2 = false.

#[global] Instance passes_dec dst p : Decision (passes dst p).
Proof. unfold passes. apply _. Defined.

Lemma filter_prefix {A} (P : A -> Prop) `{forall x, Decision (P x)} (l k : list A) :
  l `prefix_of` k -> filter P l `prefix_of` filter P k.
Proof. intros [r ->]. rewrite filter_app. by eexists. Qed.

Section NAT_ok.
Context {S : Type} `{PacketOk S}.

Lemma NAT_ReadFrom_spec fuel : forall dst n q e (pc : S),
  Queued pc q e -> 0 < n -> (length q < fuel)%nat -> exists pc' q',
    Posted pc' = Posted pc /\ (Postable pc -> Postable pc') /\ (length q' <= length q)%nat /\
    Queued pc' q' e /\
    match filter (passes dst) q with
    | (p, a) :: r => NAT_ReadFrom fuel dst n pc =
        Some (ztake n p, len (ztake n p), a, None, pc') /\ filter (passes dst) q' = r
    | [] => NAT_ReadFrom fuel dst n pc = Some ([], 0, None, Some e, pc') /\ q' = []
    end.
Proof.
  induction fuel as [|fuel IH]; intros dst n q e pc Hq Hn Hf; [lia|]. cbn [NAT_ReadFrom].
  destruct (recv_ok pc q e n Hq Hn) as (s' & Ep & Ew & Hr).
  destruct q as [|[p a] q]; destruct Hr as [-> Hq']; cbn [mbind option_bind foreign].
  - exists s', []. done.
  - rewrite filter_cons. destruct (foreign dst a) eqn:Ea.
    + rewrite decide_False by (unfold passes; simpl; congruence).
      destruct (IH dst n q e s' Hq' Hn) as (pc' & q' & E1 & E2 & E3 & E4 & E5); [simpl in Hf; lia|].
      exists pc', q'. split; [congruence|]. split; [auto|]. split; [simpl; lia|done].
    + rewrite decide_True by done. exists s', q. split_and!; try done. simpl. lia.
Qed.

#[export, program] Instance NAT_PacketOk fuel : PacketOk (symmetricNATPacketConn fuel S) := {
  Queued t q e := exists all, Queued (nat_PacketConn t) all e /\ (length all < fuel)%nat /\
    q = filter (passes (dst t)) all;
  Posted t := Posted (nat_PacketConn t);
  Postable t := Postable (nat_PacketConn t);
  prompt := prompt S }.
Next Obligation.
  intros fuel t q e n (all & Hq & Hf & ->) Hn.
  destruct (NAT_ReadFrom_spec fuel (dst t) n all e _ Hq Hn Hf) as (pc & all' & Ep & Ew & El & Hq' & Hr).
  exists (mkNAT pc (src t) (dst t)). split; [done|]. split; [done|].
  change (ReadFrom n t) with ('(d, m, from, e, pc) ← NAT_ReadFrom fuel (dst t) n (nat_PacketConn t);
    Some (d, m, from, e, mkNAT (fuel:=fuel) pc (src t) (dst t))).
  destruct (filter _ all) as [|[p a] r]; destruct Hr as [-> Hr]; (split; [done|]).
  - exists []. subst. simpl in El. split; [done|]. split; [simpl; lia|done].
  - exists all'. split; [done|]. split; [lia|done].
Qed.
Next Obligation.
  intros fuel p a t. destruct (send_ok p a (nat_PacketConn t)) as (n & er & s' & E & Hq & Hw & Hp).
  exists n, er, (mkNAT s' (src t) (dst t)).
  change (WriteTo p a t) with ('(n, e, pc) ← WriteTo p a (nat_PacketConn t);
    Some (n, e, mkNAT (fuel:=fuel) pc (src t) (dst t))).
  rewrite E. split_and!; try done. intros q e (all & ? & ? & ->). exists all. auto.
Qed.
Next Obligation.
  intros fuel d t. pose proof (pdeadline_ok d (nat_PacketConn t)) as (Ep & Ew & Hq).
  change (SetReadDeadline d t) with (NAT_Deadline fuel d t). unfold NAT_Deadline.
  destruct (SetReadDeadline d (nat_PacketConn t)) as [e' s']. cbn in *. split_and!; try done.
  intros q e (all & Ha & Hf & ->). destruct (Hq all e Ha) as (q' & e2 & Hq1 & Hpre & Heq).
  exists (filter (passes (dst t)) q'), e2. pose proof (prefix_length _ _ Hpre). split_and!.
  - exists q'. split; [done|]. split; [lia|done].
  - by apply filter_prefix.
  - intros Hp. by rewrite Heq.
Qed.
End NAT_ok.

#[export, program] Instance Tracker_PacketOk {S} `{PacketOk S} : PacketOk (Tracker S) := {
  Queued t := Queued (t_Conn t); Posted t := Posted (t_Conn t);
  Postable t := Postable (t_Conn t); prompt := prompt S }.
Next Obligation.
  intros S ? ? ? t q e n Hq Hn. destruct (recv_ok (t_Conn t) q e n Hq Hn) as (s & Ep & Ew & Hr).
  exists (downloaded (match q with (p, _) :: _ => len (ztake n p) | [] => 0 end) s t).
  split; [done|]. split; [done|].
  change (ReadFrom n t) with ('(d, m, a, e, s) ← ReadFrom n (t_Conn t);
    Some (d, m, a, e, downloaded m s t)).
  destruct q as [|[p a] q]; by destruct Hr as [-> Hr].
Qed.
Next Obligation.
  intros S ? ? ? p a t. destruct (send_ok p a (t_Conn t)) as (n & er & s' & E & Hq & Hw & Hp).
  exists n, er, (uploaded n s' t).
  change (WriteTo p a t) with ('(n, e, s) ← WriteTo p a (t_Conn t); Some (n, e, uploaded n s t)).
  by rewrite E.
Qed.
Next Obligation.
  intros S ? ? ? d t. pose proof (pdeadline_ok d (t_Conn t)) as (Ep & Ew & Hq).
  change (SetReadDeadline d t) with (Tracker_Deadline d t). unfold Tracker_Deadline.
  by destruct (SetReadDeadline d (t_Conn t)) as [e' s'].
Qed.

(** ** One direction of the packet relay *)

Definition crank (g : cstate) (left : nat) : nat :=
  match g with
  | CStart _ => 4 * left + 2 | CRead _ => 4 * left + 1
  | CWrite _ _ => 4 * left + 4 | CDeadline _ => 4 * left + 3 | CDone _ => 0
  end.

Section cdir.
Context {D S : Type} `{PacketOk D, PacketOk S} (to : option NetAddr) (timeout : Z).

(** A datagram as the other side gets it. *)
Definition relayed (p : list byte * option NetAddr) : list byte * option NetAddr :=
  (ztake MaxSegmentSize p.1, to).

(** The datagrams taken from the source, and the one in the buffer. *)
Definition in_hand (g : cstate) (h : list (list byte * option NetAddr)) : Prop :=
  match g with
  | CStart buf | CRead buf | CDeadline buf => h = [] /\ len buf = MaxSegmentSize
  | CWrite buf n => exists p tl, h = [p] /\ buf = ztake MaxSegmentSize p.1 ++ tl /\
      n = len (ztake MaxSegmentSize p.1) /\ len buf = MaxSegmentSize
  | CDone _ => h = []
  end.

(** [q0] is what was queued, [p0] what was posted, [w] that neither the
    deadlines nor the destination fail. *)
Definition CDir (q0 p0 : list (list byte * option NetAddr)) (w : Prop) (dst : D) (src : S)
    (g : cstate) (k : nat) : Prop :=
  exists done h rest, in_hand g h /\ Posted dst = p0 ++ (relayed <$> done) /\
    (done ++ h ++ rest) `prefix_of` q0 /\
    (w -> done ++ h ++ rest = q0 /\ Postable dst /\ (forall e, g = CDone e -> rest = [])) /\
    ((exists e, g = CDone e) \/ exists e, Queued src rest e) /\ k = crank g (length rest).

Lemma cstep_CDir q0 p0 (w : Prop) dst src g k :
  (w -> prompt S = true) -> CDir q0 p0 w dst src g k ->
  exists g' dst' src' k', cstep to timeout g dst src = Some (g', dst', src') /\
    CDir q0 p0 w dst' src' g' k' /\ (k' <= pred k)%nat.
Proof.
  intros Hw (dn & h & rest & Hh & Hp & Hpre & Hcomp & Hq & ->).
  destruct g as [buf|buf|buf n|buf|e]; cbn [cstep in_hand] in *.
  - destruct Hh as [-> Hl]. destruct Hq as [[? ?]|[e Hq]]; [done|].
    destruct (pdeadline_ok timeout src) as (_ & _ & Hd). destruct (Hd rest e Hq) as (q' & e' & Hq' & Hpr & Hpt).
    eexists _, _, _, _. split; [done|]. split.
    + exists dn, [], q'. split; [done|]. split; [done|]. split.
      { etransitivity; [|exact Hpre]. by do 2 apply prefix_app. }
      split; [|split; [right; by exists e'|done]].
      intros W. rewrite Hpt by auto. by destruct (Hcomp W) as (? & ? & _).
    + apply prefix_length in Hpr. simpl. lia.
  - destruct Hh as [-> Hl]. destruct Hq as [[? ?]|[e Hq]]; [done|]. rewrite Hl.
    destruct (recv_ok src rest e MaxSegmentSize Hq ltac:(done)) as (s' & _ & _ & Hr).
    destruct rest as [|[p a] rest]; destruct Hr as [-> Hq']; cbn [mbind option_bind].
    + eexists _, _, _, 0%nat. split; [done|]. split; [|simpl; lia].
      exists dn, [], []. split_and!; try done; [|left; by eexists].
      intros W. by destruct (Hcomp W) as (? & ? & _).
    + eexists _, _, _, (4 * length rest + 4)%nat. split; [done|]. split; [|simpl; lia].
      exists dn, [(p, a)], rest. split; [|split; [done|split; [done|split; [|split; [right; by exists e|done]]]]].
      * exists (p, a). assert (len (ztake MaxSegmentSize p) <= len buf) by (rewrite len_ztake, Hl; change MaxSegmentSize with 65535; lia).
        rewrite blit_0 by done. eexists. split; [done|]. split; [done|]. split; [done|].
        rewrite len_app, len_zdrop, Hl. len_lia.
      * intros W. by destruct (Hcomp W) as (? & ? & _).
  - destruct Hh as (p & tl & -> & -> & -> & Hl). rewrite slice_app_0 by done. cbn [mbind option_bind].
    destruct (send_ok (ztake MaxSegmentSize p.1) to dst) as (n & er & dst' & -> & _ & Hpw & Hp').
    cbn [mbind option_bind]. destruct er as [er|].
    + eexists _, _, _, 0%nat. split; [done|]. split; [|simpl; lia].
      exists dn, [], []. split; [done|]. split; [by rewrite Hp'|]. split.
      { etransitivity; [|exact Hpre]. apply prefix_app, prefix_nil. }
      split; [|split; [left; by eexists|done]].
      intros W. destruct (Hcomp W) as (_ & Hpo & _). by destruct (Hpw Hpo).
    + eexists _, _, _, (4 * length rest + 3)%nat. split; [done|]. split; [|simpl; lia].
      exists (dn ++ [p]), [], rest. split; [done|]. split.
      { by rewrite Hp', Hp, fmap_app, <- app_assoc. }
      rewrite <- app_assoc. split; [done|]. split; [|split; [right; by destruct Hq as [[? ?]|]|done]].
      intros W. destruct (Hcomp W) as (? & Hpo & _). split; [done|]. split; [by apply Hpw|done].
  - destruct Hh as [-> Hl]. destruct (pdeadline_ok timeout dst) as (Ep & Ew & _).
    eexists _, _, _, (4 * length rest + 2)%nat. split; [done|]. split; [|simpl; lia].
    exists dn, [], rest. split; [done|]. split; [by rewrite Ep|]. split; [done|].
    split; [|split; [right; by destruct Hq as [[? ?]|]|done]].
    intros W. destruct (Hcomp W) as (? & ? & _). split; [done|]. split; [auto|done].
  - eexists _, _, _, 0%nat. split; [done|]. split; [|lia].
    exists dn, h, rest. split_and!; try done.
Qed.

Lemma CDir_frame q0 p0 (w : Prop) dst src dst' src' g k :
  CDir q0 p0 w dst src g k -> Posted dst' = Posted dst -> (Postable dst -> Postable dst') ->
  (forall q e, Queued src q e -> exists q' e', Queued src' q' e' /\ q' `prefix_of` q /\ (w -> q' = q)) ->
  exists k', (k' <= k)%nat /\ CDir q0 p0 w dst' src' g k'.
Proof.
  intros (dn & h & rest & Hh & Hp & Hpre & Hcomp & Hq & ->) Ep Ew Eq.
  destruct Hq as [Hd|[e Hq]].
  - exists (crank g (length rest)). split; [done|]. exists dn, h, rest. rewrite Ep.
    split_and!; try done; [|by left]. intros W. destruct (Hcomp W) as (? & ? & ?). auto.
  - destruct (Eq rest e Hq) as (rest' & e' & Hq' & Hpr & Hw').
    exists (crank g (length rest')). split; [apply prefix_length in Hpr; destruct g; simpl; lia|].
    exists dn, h, rest'. rewrite Ep. split_and!; try done; [| |right; by exists e'].
    + etransitivity; [|exact Hpre]. by do 2 apply prefix_app.
    + intros W. rewrite Hw' by done. destruct (Hcomp W) as (? & ? & ?). auto.
Qed.

Lemma CDir_rank q0 p0 w dst src g k : CDir q0 p0 w dst src g k -> k = 0%nat -> exists e, g = CDone e.
Proof. intros (dn & h & rest & _ & _ & _ & _ & _ & ->) Hk. destruct g; simpl in Hk; try lia. eauto. Qed.

Lemma CDir_start w q0 e (dst : D) (src : S) buf :
  Queued src q0 e -> len buf = MaxSegmentSize -> (w -> Postable dst) ->
  CDir q0 (Posted dst) w dst src (CStart buf) (4 * length q0 + 2).
Proof.
  intros Hq Hl Hw. exists [], [], q0. cbn. rewrite app_nil_r. split_and!; try done; [|right; by exists e].
  intros W. split; [done|]. split; [auto|done].
Qed.

(** What a direction has delivered when its goroutine has ended. *)
Lemma CDir_done q0 p0 (w : Prop) dst src e k :
  CDir q0 p0 w dst src (CDone e) k -> exists q, Posted dst = p0 ++ (relayed <$> q) /\
    q `prefix_of` q0 /\ (w -> q = q0).
Proof.
  intros (dn & h & rest & -> & Hp & Hpre & Hcomp & _ & _). exists dn. split; [done|]. split.
  - etransitivity; [|exact Hpre]. by eexists.
  - intros W. destruct (Hcomp W) as (E & _ & Hr). by rewrite (Hr e), !app_nil_r in E.
Qed.
End cdir.

(** A step of the other goroutine: [to'] is where that one sends. *)
Lemma cstep_frame {D S} `{PacketOk D, PacketOk S} to to' timeout (dst : D) (src : S) g g' dst' src'
    q0 p0 q1 p1 (w : Prop) g2 k1 k :
  (w -> prompt D = true) ->
  cstep to' timeout g dst src = Some (g', dst', src') ->
  CDir to' q1 p1 w dst src g k1 -> CDir to q0 p0 w src dst g2 k ->
  exists k', (k' <= k)%nat /\ CDir to q0 p0 w src' dst' g2 k'.
Proof.
  intros Hpt Hg (dn & h & rest & Hh & _ & _ & _ & Hq & _) HD.
  assert (forall (s : D) q e, Queued s q e -> exists q' e', Queued s q' e' /\ q' `prefix_of` q /\ (w -> q' = q))
    as Hid by (intros s q e ?; by exists q, e).
  destruct g as [buf|buf|buf n|buf|e]; cbn [cstep in_hand] in *.
  - simplify_eq/=. destruct (pdeadline_ok timeout src) as (E1 & E2 & _).
    apply (CDir_frame _ _ _ _ _ _ _ _ _ _ HD); try apply Hid; auto.
  - destruct Hh as [-> Hl]. destruct Hq as [[? ?]|[e Hq]]; [done|]. rewrite Hl in Hg.
    destruct (recv_ok src rest e MaxSegmentSize Hq ltac:(done)) as (s' & E1 & E2 & Hr).
    destruct rest as [|[p a] rest]; destruct Hr as [E _]; rewrite E in Hg; simplify_eq/=;
      apply (CDir_frame _ _ _ _ _ _ _ _ _ _ HD); try apply Hid; auto.
  - destruct (buf.[0:n]) as [p|]; [|done]. cbn [mbind option_bind] in Hg.
    destruct (send_ok p to' dst) as (m & er & s' & E & Hqd & _ & _). rewrite E in Hg. simplify_eq/=.
    apply (CDir_frame _ _ _ _ _ _ _ _ _ _ HD); try done.
    intros q e Hqs. exists q, e. auto.
  - simplify_eq/=. destruct (pdeadline_ok timeout dst) as (_ & _ & E).
    apply (CDir_frame _ _ _ _ _ _ _ _ _ _ HD); try done.
    intros q e Hqs. destruct (E q e Hqs) as (q' & e' & ? & ? & ?). exists q', e'. auto.
  - simplify_eq/=. by exists k.
Qed.

Section pipePacket_ok.
Context {O R : Type} `{PacketOk O, PacketOk R} (to : option NetAddr) (timeout : Z).

Definition PPInv (qo qr po pr : list (list byte * option NetAddr)) (w : Prop) (p : PacketPipe O R) (k1 k2 : nat) : Prop :=
  (exists k, (k <= k1)%nat /\ CDir to qo pr w (premote p) (porigin p) (pup p) k) /\
  (exists k, (k <= k2)%nat /\ CDir None qr po w (porigin p) (premote p) (pdown p) k).

Lemma ppstep_PPInv qo qr po pr (w : Prop) p k1 k2 who :
  (w -> prompt O = true /\ prompt R = true) -> PPInv qo qr po pr w p k1 k2 ->
  exists p', ppstep to timeout who p = Some p' /\
    PPInv qo qr po pr w p' (if who then pred k1 else k1) (if who then k2 else pred k2).
Proof.
  intros Hw ((ku & Hku & Hu) & (kd & Hkd & Hd)).
  assert (w -> prompt O = true) as Hwo by (intros W; by apply Hw).
  assert (w -> prompt R = true) as Hwr by (intros W; by apply Hw).
  destruct who; unfold ppstep.
  - destruct (cstep_CDir to timeout _ _ _ _ _ _ _ Hwo Hu) as (g & r & o & k & Hg & Hu' & Hk).
    destruct (cstep_frame _ _ _ _ _ _ _ _ _ _ _ _ _ _ _ _ _ Hwr Hg Hu Hd) as (k' & Hk' & Hd').
    rewrite Hg. eexists. split; [done|]. split; eexists; (split; [|done]); lia.
  - destruct (cstep_CDir None timeout _ _ _ _ _ _ _ Hwr Hd) as (g & o & r & k & Hg & Hd' & Hk).
    destruct (cstep_frame _ _ _ _ _ _ _ _ _ _ _ _ _ _ _ _ _ Hwo Hg Hd Hu) as (k' & Hk' & Hu').
    rewrite Hg. eexists. split; [done|]. split; eexists; (split; [|done]); lia.
Qed.

Lemma ppsteps_PPInv sched : forall qo qr po pr (w : Prop) p k1 k2,
  (w -> prompt O = true /\ prompt R = true) -> PPInv qo qr po pr w p k1 k2 ->
  exists p', ppsteps to timeout sched p = Some p' /\
    PPInv qo qr po pr w p' (k1 - turns true sched) (k2 - turns false sched).
Proof.
  induction sched as [|b sched IH]; intros qo qr po pr w p k1 k2 Hw HP; cbn [ppsteps].
  - exists p. by rewrite !Nat.sub_0_r.
  - destruct (ppstep_PPInv _ _ _ _ _ _ _ _ b Hw HP) as (p1 & -> & HP1).
    destruct (IH _ _ _ _ _ _ _ _ Hw HP1) as (p2 & E & HP2).
    exists p2. split; [done|].
    replace (k1 - turns true (b :: sched))%nat
      with ((if b then pred k1 else k1) - turns true sched)%nat by (destruct b; simpl; lia).
    by replace (k2 - turns false (b :: sched))%nat
      with ((if b then k2 else pred k2) - turns false sched)%nat by (destruct b; simpl; lia).
Qed.

Lemma pipePacket_fin (o : O) (r : R) qo eo qr er sched b1 b2 :
  Queued o qo eo -> Queued r qr er -> len b1 = MaxSegmentSize -> len b2 = MaxSegmentSize ->
  (4 * length qo + 2 <= turns true sched)%nat -> (4 * length qr + 2 <= turns false sched)%nat ->
  exists o' r' q1 q2, pipePacket to timeout sched b1 b2 o r = Some (o', r') /\
    Posted r' = Posted r ++ (relayed to <$> q1) /\ q1 `prefix_of` qo /\
    Posted o' = Posted o ++ (relayed None <$> q2) /\ q2 `prefix_of` qr /\
    (Postable o -> Postable r -> prompt O = true -> prompt R = true -> q1 = qo /\ q2 = qr).
Proof.
  intros Ho Hr Hl1 Hl2 Ht1 Ht2.
  set (w := Postable o /\ Postable r /\ prompt O = true /\ prompt R = true).
  assert (PPInv qo qr (Posted o) (Posted r) w (mkPP (CStart b1) (CStart b2) o r)
    (4 * length qo + 2) (4 * length qr + 2)) as HP.
  { split; eexists; (split; [done|]); eapply CDir_start; try done; by intros (? & ? & _). }
  destruct (ppsteps_PPInv sched _ _ _ _ w _ _ _ ltac:(by intros (_ & _ & ? & ?)) HP) as
    (p & E & (k & Hk & Hu) & (k' & Hk' & Hd)).
  destruct (CDir_rank _ _ _ _ _ _ _ _ Hu) as [e1 Eu]; [lia|].
  destruct (CDir_rank _ _ _ _ _ _ _ _ Hd) as [e2 Ed]; [lia|].
  rewrite Eu in Hu. rewrite Ed in Hd.
  destruct (CDir_done _ _ _ _ _ _ _ _ Hu) as (q1 & E1 & P1 & W1).
  destruct (CDir_done _ _ _ _ _ _ _ _ Hd) as (q2 & E2 & P2 & W2).
  exists (porigin p), (premote p), q1, q2. unfold pipePacket. rewrite E. cbn [mbind option_bind].
  rewrite Eu, Ed. split_and!; try done. intros ????. by split; [apply W1|apply W2].
Qed.
End pipePacket_ok.

(** A property of the remote socket that its operations keep. *)
Lemma ppsteps_remote {O R} `{PacketConn O (option NetAddr), PacketConn R (option NetAddr), Deadline O, Deadline R}
    to timeout (Q : R -> Prop) sched :
  (forall n r d k a e r', Q r -> ReadFrom n r = Some (d, k, a, e, r') -> Q r') ->
  (forall p a r n e r', Q r -> WriteTo p a r = Some (n, e, r') -> Q r') ->
  (forall d r, Q r -> Q (SetReadDeadline d r).2) ->
  forall p p' : PacketPipe O R, ppsteps to timeout sched p = Some p' -> Q (premote p) -> Q (premote p').
Proof.
  intros QR QW QD. induction sched as [|b sched IH]; intros p p' Hp HQ; cbn [ppsteps] in Hp; [by simplify_eq|].
  destruct (ppstep to timeout b p) as [p1|] eqn:E; [|done]. cbn [mbind option_bind] in Hp.
  apply (IH _ _ Hp). clear IH Hp. destruct b; unfold ppstep in E.
  - destruct (cstep _ _ _ _ _) as [[[g r] o]|] eqn:Eg; [|done]. simplify_eq/=.
    destruct (pup p); cbn [cstep] in Eg; try (simplify_eq; auto; done).
    + destruct (ReadFrom _ _) as [[[[[? ?] ?] ?] ?]|]; [|done]. by simplify_eq/=.
    + destruct (slice _ _ _); [|done]. cbn [mbind option_bind] in Eg.
      destruct (WriteTo _ _ _) as [[[? ?] ?]|] eqn:Ew; [|done]. simplify_eq/=. by eapply QW.
  - destruct (cstep _ _ _ _ _) as [[[g o] r]|] eqn:Eg; [|done]. simplify_eq/=.
    destruct (pdown p); cbn [cstep] in Eg; try (simplify_eq; auto; done).
    + destruct (ReadFrom _ _) as [[[[[? ?] ?] ?] ?]|] eqn:Er; [|done]. simplify_eq/=. by eapply QR.
    + destruct (slice _ _ _); [|done]. cbn [mbind option_bind] in Eg.
      destruct (WriteTo _ _ _) as [[[? ?] ?]|]; [|done]. by simplify_eq/=.
Qed.

(** The tracker behind the filter keeps its books. *)
Lemma Booked_ppsteps {O R} `{PacketConn O (option NetAddr), PacketConn R (option NetAddr), Deadline O, Deadline R}
    fuel uuid m to timeout sched (p p' : PacketPipe O (symmetricNATPacketConn fuel (Tracker R))) :
  ppsteps to timeout sched p = Some p' ->
  Booked uuid m (nat_PacketConn (premote p)) -> Booked uuid m (nat_PacketConn (premote p')).
Proof.
  intros Hp. apply (ppsteps_remote to timeout (fun t => Booked uuid m (nat_PacketConn t)) sched); [..|exact Hp];
    clear p p' Hp.
  - intros n [t src dst] d k a e t' HB Hr. cbn in *.
    destruct (NAT_ReadFrom fuel dst n t) as [[[[[? ?] ?] ?] pc]|] eqn:E; [|done]. simplify_eq/=.
    revert t HB E. induction fuel as [|f IH]; intros t HB E; [done|]. cbn [NAT_ReadFrom] in E.
    unfold ReadFrom, Tracker_PacketConn in E.
    destruct (ReadFrom n (t_Conn t)) as [[[[[? ?] ?] ?] s]|]; [|done]. cbn [mbind option_bind] in E.
    destruct (foreign _ _); [|simplify_eq; by apply Booked_downloaded].
    by eapply IH, E; apply Booked_downloaded.
  - intros q a [t src dst] n e t' HB Hw. cbn in *.
    destruct (WriteTo q a (t_Conn t)) as [[[? ?] s]|]; [|done]. simplify_eq/=. by apply Booked_uploaded.
  - intros d t HB. change (SetReadDeadline d t) with (NAT_Deadline fuel d t). unfold NAT_Deadline.
    change (SetReadDeadline d (nat_PacketConn t)) with (Tracker_Deadline d (nat_PacketConn t)).
    unfold Tracker_Deadline. by destruct (SetReadDeadline d (t_Conn (nat_PacketConn t))).
Qed.

Lemma pipePacket_ppsteps {O R} `{PacketConn O (option NetAddr), PacketConn R (option NetAddr), Deadline O, Deadline R}
    to timeout sched b1 b2 (o o' : O) (r r' : R) :
  pipePacket to timeout sched b1 b2 o r = Some (o', r') ->
  exists p, ppsteps to timeout sched (mkPP (CStart b1) (CStart b2) o r) = Some p /\ porigin p = o' /\ premote p = r'.
Proof.
  unfold pipePacket. destruct (ppsteps _ _ _ _) as [p|]; [|done]. cbn [mbind option_bind]. intros Hp.
  exists p. destruct (pup p); try done. destruct (pdown p); try done. by simplify_eq.
Qed.

(** ** The host's connections, half-closed

    [CloseWrite] of a [Wire]: nothing more can be sent. *)

#[global] Instance Wire_HalfClose : HalfClose Wire := {
  CloseRead := None;
  CloseWrite := Some (fun w =>
    (None, mkWire (segs w) (fin w) (sent w) (Some 0) (closed w))) }.

#[global] Instance Wire_Deadline : Deadline Wire := fun _ w => (None, w).

#[global] Instance Wire_LocalAddr : LocalAddr Wire := fun _ =>
  Some (ATCP (mkUDPAddr (AsSlice (Addr4 (z2b 10) (z2b 0) (z2b 0) (z2b 1))) 4000)).

#[global, program] Instance Wire_HalfCloseOk : HalfCloseOk Wire := {
  Fin w := budget w = Some 0; patient := true }.
Next Obligation.
  intros n w d e w' Hr Hf. unfold Read, Wire_Reader in Hr.
  destruct (closed w); [by simplify_eq|]. destruct (segs w); by simplify_eq/=.
Qed.
Next Obligation. done. Qed.
Next Obligation. by intros f w [= <-]. Qed.
Next Obligation.
  intros d w. cbn. split_and!; try done. intros bs e Hd. by exists bs, e.
Qed.

(** ** Properties *)

(** C11: the TCP relay, for any schedule that gives each of its two goroutines
    enough turns: it does not panic and both goroutines end; each side has
    been sent a prefix of what the other delivered and then the end of the
    stream; when neither side fails to write, at least one direction is
    complete, and both are unless the half-close deadline of a finished
    direction cuts the other short. *)
Theorem pipe_relays {O R} `{HalfCloseOk O, HalfCloseOk R} (o : O) (r : R) bo eo br er sched :
  Delivers o bo eo -> Delivers r br er ->
  (2 * length bo + 5 <= turns true sched)%nat -> (2 * length br + 5 <= turns false sched)%nat ->
  exists o' r' q1 q2, pipe sched o r = Some (o', r') /\
    Sent r' = Sent r ++ q1 /\ q1 `prefix_of` bo /\
    Sent o' = Sent o ++ q2 /\ q2 `prefix_of` br /\
    (@CloseWrite R _ <> None -> Fin r') /\ (@CloseWrite O _ <> None -> Fin o') /\
    (Writable o -> Writable r -> (q1 = bo \/ q2 = br) /\
       (patient R && patient O = true -> q1 = bo /\ q2 = br)).
Proof. apply pipe_Fin. Qed.

(** The lemma behind the property, and behind those of each proxy. *)
Lemma handleTCPConn_run {O R} `{HalfCloseOk O, HalfCloseOk R, Closer O, Closer R, LocalAddr R}
    (p : TCPDialer R) uuid id (o : O) sched :
  let m := idMetadata TCP id in
  match DialContext p tcpConnectTimeout m with
  | Some (_, Some _) => handleTCPConn sched uuid p id o = Some ((Close o).2, None)
  | Some (None, None) | None => handleTCPConn sched uuid p id o = None
  | Some (Some r, None) => forall bo eo br er,
      Delivers o bo eo -> Delivers r br er ->
      (2 * length bo + 5 <= turns true sched)%nat -> (2 * length br + 5 <= turns false sched)%nat ->
      exists o' t q1 q2 pushes,
        handleTCPConn sched uuid p id o = Some ((Close o').2, Some (Close t).2) /\
        Sent (t_Conn t) = Sent r ++ q1 /\ q1 `prefix_of` bo /\
        Sent o' = Sent o ++ q2 /\ q2 `prefix_of` br /\
        (Writable o -> Writable r ->
           patient R && patient O = true -> q1 = bo /\ q2 = br) /\
        t_Metadata t = setMid (parseNetAddr (localAddr r)) m /\
        calls (Close t).2 = Join uuid :: pushes ++ [Leave uuid] /\ Forall is_push pushes /\
        i64 (zsum (upBytes <$> pushes)) = i64 (len q1)
  end.
Proof.
  intros m. destruct (DialContext p tcpConnectTimeout m) as [[[r|] [e|]]|] eqn:Ed;
    try (unfold handleTCPConn; fold m; by rewrite Ed).
  intros bo eo br er Ho Hr H1' H2'.
  set (t0 := NewTCPTracker r (setMid (parseNetAddr (localAddr r)) m) uuid).
  assert (Delivers t0 br er) as Hr0 by exact Hr.
  destruct (pipe_Fin o t0 bo eo br er sched Ho Hr0 H1' H2') as
    (o' & t & q1 & q2 & Hp & S1 & P1 & S2 & P2 & _ & _ & HW).
  destruct (pipe_psteps _ _ _ _ _ Hp) as (pp & Hs & <- & <-).
  assert (Tracked uuid (setMid (parseNetAddr (localAddr r)) m) (len (Sent r)) t0) as HT0.
  { split; [apply Booked_new|]. cbn. by rewrite Z.sub_diag. }
  destruct (Tracked_psteps _ _ _ _ _ _ Hs HT0) as [HB Hu].
  destruct (Booked_close _ _ _ HB) as (ps & Hc & Hf & Hb).
  exists (origin pp), (remote pp), q1, q2, ps. split_and!; try done.
  - unfold handleTCPConn. fold m. rewrite Ed. cbn [mbind option_bind]. fold t0. by rewrite Hp.
  - intros Wo Wr Hpt. by apply HW.
  - apply HB.
  - rewrite <- Hb, Hu. f_equal.
    change (Sent (remote pp)) with (Sent (t_Conn (remote pp))) in S1.
    change (Sent t0) with (Sent r) in S1. rewrite S1, len_app. lia.
Qed.

(** C8: a TCP session.  When the proxy cannot be dialled (with a five-second
    context) the origin is closed and nothing is relayed.  Otherwise, under
    any schedule with enough turns, both connections are closed in the end;
    each has been sent a prefix of what the other delivered (both complete
    with patient, writable peers); the tracker carries the session's
    addresses with the dialer's own, has joined the manager first and left it
    last, and what it pushed as upload is exactly what the proxy was sent. *)
Theorem handleTCPConn_spec {O R} `{HalfCloseOk O, HalfCloseOk R, Closer O, Closer R, LocalAddr R}
    (p : TCPDialer R) uuid id (o : O) sched :
  let m := idMetadata TCP id in
  match DialContext p tcpConnectTimeout m with
  | Some (_, Some _) => handleTCPConn sched uuid p id o = Some ((Close o).2, None)
  | Some (None, None) | None => handleTCPConn sched uuid p id o = None
  | Some (Some r, None) => forall bo eo br er,
      Delivers o bo eo -> Delivers r br er ->
      (2 * length bo + 5 <= turns true sched)%nat -> (2 * length br + 5 <= turns false sched)%nat ->
      exists o' t q1 q2 pushes,
        handleTCPConn sched uuid p id o = Some ((Close o').2, Some (Close t).2) /\
        Sent (t_Conn t) = Sent r ++ q1 /\ q1 `prefix_of` bo /\
        Sent o' = Sent o ++ q2 /\ q2 `prefix_of` br /\
        (Writable o -> Writable r ->
           patient R && patient O = true -> q1 = bo /\ q2 = br) /\
        t_Metadata t = setMid (parseNetAddr (localAddr r)) m /\
        calls (Close t).2 = Join uuid :: pushes ++ [Leave uuid] /\ Forall is_push pushes /\
        i64 (zsum (upBytes <$> pushes)) = i64 (len q1)
  end.
Proof. apply handleTCPConn_run. Qed.

(** The lemma behind the property, and behind those of the process. *)
Lemma handleUDPConn_run {O R} `{PacketOk O, PacketOk R, Closer O, Closer R, LocalAddr R}
    (p : UDPDialer R) uuid id (uc : O) fuel sched b1 b2 timeout :
  let m := idMetadata UDP id in
  match DialUDP p m with
  | Some (_, Some _) => handleUDPConn fuel sched b1 b2 uuid timeout p id uc = Some ((Close uc).2, None)
  | Some (None, None) | None => handleUDPConn fuel sched b1 b2 uuid timeout p id uc = None
  | Some (Some r, None) => forall qo eo qr er,
      let back := filter (passes (DestinationAddress m)) qr in
      let m' := setMid (parseNetAddr (localAddr r)) m in
      Queued uc qo eo -> Queued r qr er -> (length qr < fuel)%nat ->
      len b1 = MaxSegmentSize -> len b2 = MaxSegmentSize ->
      (4 * length qo + 2 <= turns true sched)%nat -> (4 * length back + 2 <= turns false sched)%nat ->
      exists o' t q1 q2 pushes,
        handleUDPConn fuel sched b1 b2 uuid timeout p id uc = Some ((Close o').2, Some (Close t).2) /\
        Posted (t_Conn t) = Posted r ++ (relayed (Some (sessionAddr m')) <$> q1) /\ q1 `prefix_of` qo /\
        Posted o' = Posted uc ++ (relayed None <$> q2) /\ q2 `prefix_of` back /\
        (Postable uc -> Postable r -> prompt O = true -> prompt R = true -> q1 = qo /\ q2 = back) /\
        t_Metadata t = m' /\
        calls (Close t).2 = Join uuid :: pushes ++ [Leave uuid] /\ Forall is_push pushes /\
        UploadTotal t = i64 (zsum (upBytes <$> pushes))
  end.
Proof.
  intros m. destruct (DialUDP p m) as [[[r|] [e|]]|] eqn:Ed;
    try (unfold handleUDPConn; fold m; by rewrite Ed).
  intros qo eo qr er back m' Ho Hr Hf Hl1 Hl2 Ht1 Ht2.
  set (t0 := NewUDPTracker r m' uuid).
  set (n0 := newSymmetricNATPacketConn t0 m' : symmetricNATPacketConn fuel _).
  assert (Queued n0 back er) as Hn by (exists qr; done).
  destruct (pipePacket_fin (Some (sessionAddr m')) timeout uc n0 qo eo back er sched b1 b2 Ho Hn Hl1 Hl2 Ht1 Ht2)
    as (o' & n' & q1 & q2 & Hp & S1 & P1 & S2 & P2 & HW).
  destruct (pipePacket_ppsteps _ _ _ _ _ _ _ _ _ Hp) as (pp & Hs & <- & <-).
  pose proof (Booked_ppsteps fuel uuid m' _ _ _ _ _ Hs (Booked_new r uuid m')) as HB.
  destruct (Booked_close _ _ _ HB) as (ps & Hc & Hps & Hb).
  exists (porigin pp), (nat_PacketConn (premote pp)), q1, q2, ps. split_and!; try done; [|apply HB].
  unfold handleUDPConn. fold m. rewrite Ed. cbn [mbind option_bind]. fold m' t0 n0.
  change (match toUDPAddr m' with Some a => AUDP a | None => AMeta m' end) with (sessionAddr m').
  by rewrite Hp.
Qed.

(** C12: a UDP session.  When the proxy cannot be dialled the origin is closed.
    Otherwise, whatever the stale contents of the pooled buffers and for any
    schedule with enough turns, neither goroutine panics, both connections are
    closed in the end; the proxy gets a prefix of the origin's datagrams, each
    cut to [MaxSegmentSize] and addressed to the session's destination; the
    origin gets a prefix of just those datagrams whose sender prints as the
    destination (or has none).  Both are complete when no deadline fires and
    no send fails.  The tracker carries the session's addresses with the
    dialer's own, has joined the manager first and left it last, and its
    upload total is what it pushed. *)
Theorem handleUDPConn_spec {O R} `{PacketOk O, PacketOk R, Closer O, Closer R, LocalAddr R}
    (p : UDPDialer R) uuid id (uc : O) fuel sched b1 b2 timeout :
  let m := idMetadata UDP id in
  match DialUDP p m with
  | Some (_, Some _) => handleUDPConn fuel sched b1 b2 uuid timeout p id uc = Some ((Close uc).2, None)
  | Some (None, None) | None => handleUDPConn fuel sched b1 b2 uuid timeout p id uc = None
  | Some (Some r, None) => forall qo eo qr er,
      let back := filter (passes (DestinationAddress m)) qr in
      let m' := setMid (parseNetAddr (localAddr r)) m in
      Queued uc qo eo -> Queued r qr er -> (length qr < fuel)%nat ->
      len b1 = MaxSegmentSize -> len b2 = MaxSegmentSize ->
      (4 * length qo + 2 <= turns true sched)%nat -> (4 * length back + 2 <= turns false sched)%nat ->
      exists o' t q1 q2 pushes,
        handleUDPConn fuel sched b1 b2 uuid timeout p id uc = Some ((Close o').2, Some (Close t).2) /\
        Posted (t_Conn t) = Posted r ++ (relayed (Some (sessionAddr m')) <$> q1) /\ q1 `prefix_of` qo /\
        Posted o' = Posted uc ++ (relayed None <$> q2) /\ q2 `prefix_of` back /\
        (Postable uc -> Postable r -> prompt O = true -> prompt R = true -> q1 = qo /\ q2 = back) /\
        t_Metadata t = m' /\
        calls (Close t).2 = Join uuid :: pushes ++ [Leave uuid] /\ Forall is_push pushes /\
        UploadTotal t = i64 (zsum (upBytes <$> pushes))
  end.
Proof. apply handleUDPConn_run. Qed.

(** The queues and the loop, from a new tunnel. *)
Definition submittedTCP {P C U} (ls : list (@tcall P C U)) : list C :=
  omap (fun l => match l with CallHandleTCP c => Some c | _ => None end) ls.
Definition submittedUDP {P C U} (ls : list (@tcall P C U)) : list U :=
  omap (fun l => match l with CallHandleUDP c => Some c | _ => None end) ls.

Lemma truns_inv {P C U} (ls : list (@tcall P C U)) : forall t,
  (running t = true -> procOnce t = true) ->
  let t' := truns ls t in
  tcpSessions t' ++ tcpQueue t' = (tcpSessions t ++ tcpQueue t) ++ submittedTCP ls /\
  udpSessions t' ++ udpQueue t' = (udpSessions t ++ udpQueue t) ++ submittedUDP ls /\
  (running t' = true -> procOnce t' = true) /\
  (procOnce t = true -> procOnce t' = true /\ (running t = false ->
     running t' = false /\ tcpSessions t' = tcpSessions t /\ udpSessions t' = udpSessions t)).
Proof.
  induction ls as [|l ls IH]; intros t Hr; cbn zeta; cbn [truns fold_left].
  - unfold submittedTCP, submittedUDP. simpl. by rewrite !app_nil_r.
  - change (fold_left _ ls ?u) with (truns ls u). pose proof (IH (tstep l t)) as IHl. cbn zeta in IHl.
    destruct l as [c|c| | |p|d|r]; cbn [tstep submittedTCP submittedUDP omap list_omap] in *.
    1,2: destruct IHl as (E1 & E2 & E3 & E4); [done|]; rewrite E1, E2; cbn; rewrite <- !app_assoc; by split_and!.
    + unfold ProcessAsync in *. destruct (procOnce t) eqn:Ep.
      * destruct IHl as (E1 & E2 & E3 & E4); [done|]. rewrite E1, E2, Ep in *. by split_and!.
      * destruct IHl as (E1 & E2 & E3 & E4); [done|]. rewrite E1, E2. by split_and!.
    + destruct IHl as (E1 & E2 & E3 & E4); [done|]. rewrite E1, E2. by split_and!.
    + destruct IHl as (E1 & E2 & E3 & E4); [done|]. rewrite E1, E2. by split_and!.
    + destruct IHl as (E1 & E2 & E3 & E4); [done|]. rewrite E1, E2. by split_and!.
    + destruct (process r t) as [u|] eqn:Eu; rewrite ?Eu in IHl; cbn [default from_option id] in *.
      2:{ destruct IHl as (E1 & E2 & E3 & E4); [done|]. rewrite E1, E2. by split_and!. }
      unfold process in Eu. destruct (running t) eqn:Er; [|done]. cbn [negb] in Eu.
      assert (procOnce t = true) as Ep by auto.
      assert (procOnce u = true /\ tcpSessions u ++ tcpQueue u = tcpSessions t ++ tcpQueue t /\
        udpSessions u ++ udpQueue u = udpSessions t ++ udpQueue t) as (Epu & F1 & F2).
      { destruct r; repeat case_match; simplify_eq/=; rewrite <- ?app_assoc; done. }
      destruct IHl as (E1 & E2 & E3 & E4); [done|]. rewrite E1, E2, F1, F2.
      split_and!; try done. intros _. split; [|done]. by apply E4.
Qed.

(** C34: the queues of a tunnel.  Whatever the callers and the loop do and in
    whatever order: every connection handed over is either waiting or has
    exactly one session, in the order handed over; there is a processing loop
    only after ProcessAsync, however often that is called; and once the loop
    has ended, after Close, no session is ever started again. *)
Theorem tunnel_queues {P C U} (p : P) (ls ls' : list (@tcall P C U)) :
  let t := truns ls (New p) in
  let t' := truns ls' t in
  tcpSessions t ++ tcpQueue t = submittedTCP ls /\
  udpSessions t ++ udpQueue t = submittedUDP ls /\
  (running t = true -> procOnce t = true) /\
  (procOnce t = true -> running t = false ->
     running t' = false /\ tcpSessions t' = tcpSessions t /\ udpSessions t' = udpSessions t).
Proof.
  intros t t'. destruct (truns_inv ls (New p)) as (E1 & E2 & E3 & _); [done|].
  fold t in E1, E2, E3. rewrite E1, E2. split_and!; try done.
  intros Ep Er. destruct (truns_inv ls' t) as (_ & _ & _ & E4); [done|]. by apply E4.
Qed.

(** ** The packet goroutine is the source's function *)

Section packets_alone.
Context {D S : Type} `{PacketConn D (option NetAddr), PacketConn S (option NetAddr)}.
Context `{Deadline D, Deadline S} (to : option NetAddr) (timeout : Z).

Fixpoint csteps (k : nat) (g : cstate) (dst : D) (src : S) : option (cstate * D * S) :=
  match k with
  | O => Some (g, dst, src)
  | Datatypes.S k => '(g, dst, src) ← cstep to timeout g dst src; csteps k g dst src
  end.

Lemma csteps_done k e (dst : D) (src : S) : csteps k (CDone e) dst src = Some (CDone e, dst, src).
Proof. induction k; [done|]. simpl. by rewrite IHk. Qed.

(** The packet step machine run by the scheduler is the function of the
    source: left to itself it does exactly what [copyPacketData] does, its
    result included, over any sockets and any contents of the buffer. *)
Theorem copyPacketData_refines fuel : forall k buf (dst : D) (src : S) e dst' src',
  copyPacketData to timeout fuel buf dst src = Some (e, dst', src') -> (4 * fuel <= k)%nat ->
  csteps k (CStart buf) dst src = Some (CDone e, dst', src').
Proof.
  induction fuel as [|fuel IH]; intros k buf dst src e dst' src' Hc Hk; [done|].
  destruct k as [|[|[|[|k]]]]; try lia. cbn [copyPacketData] in Hc. cbn [csteps cstep mbind option_bind].
  destruct (ReadFrom (len buf) _) as [[[[[d n] a] er] src1]|]; [|done]. cbn [mbind option_bind] in *.
  destruct er as [er|]; [simplify_eq; cbn; by rewrite csteps_done|]. cbn [csteps cstep mbind option_bind].
  destruct (slice (blit buf 0 d) 0 n) as [p|]; [|done]. cbn [mbind option_bind] in *.
  destruct (WriteTo p to dst) as [[[m ew] dst1]|]; [|done]. cbn [mbind option_bind] in *.
  destruct ew as [ew|]; [simplify_eq; cbn; by rewrite csteps_done|]. cbn [csteps cstep mbind option_bind].
  eapply IH; [done|lia].
Qed.
End packets_alone.

(** For an IPv4 session the addresses agree: the destination of the
    endpoint identifier is printed, and parsed back, as itself, whether from
    the metadata's [net.Addr] or a textual one, and a reply from where the
    relay sends to passes the symmetric NAT filter. *)
Theorem session_addresses net a b c d lport raddr rport :
  0 <= lport < 65536 ->
  let m := idMetadata UDP (mkID lport [a; b; c; d] rport raddr) in
  DstIP m = Addr4 a b c d /\
  DestinationAddress m = string4 a b c d ++ colon :: Itoa lport /\
  parseNetAddr (Some (AMeta m)) = (Addr4 a b c d, lport) /\
  parseNetAddr (Some (sessionAddr m)) = (Addr4 a b c d, lport) /\
  parseNetAddr (Some (AOther net (DestinationAddress m))) = (Addr4 a b c d, lport) /\
  foreign (DestinationAddress m) (Some (sessionAddr m)) = false.
Proof.
  intros Hp m.
  assert (parseAddrString (AddrPortString (Addr4 a b c d) lport) = (Addr4 a b c d, lport)) as E
    by (unfold parseAddrString; by rewrite ParseAddrPort_4).
  split_and!; try done.
  - unfold parseNetAddr, sessionAddr. cbn. by rewrite u16_small.
  - unfold foreign. rewrite (sessionAddr_string4 m a b c d) by done.
    by rewrite (proj2 (str_eqb_eq _ _)).
Qed.

(** An IPv4-mapped IPv6 destination is printed in two ways, so that the filter
    takes the destination's own replies for those of a stranger. *)
Example mapped_reply_dropped :
  let ip := replicate 10 (z2b 0) ++ [z2b 255; z2b 255; z2b 1; z2b 2; z2b 3; z2b 4] in
  let m := idMetadata UDP (mkID 53 ip 1234 ip) in
  foreign (DestinationAddress m) (Some (sessionAddr m)) = true.
Proof. vm_compute. reflexivity. Qed.

(** ** Witnesses *)

(** A schedule that alternates, then serves each goroutine in turn. *)
Definition fair (n : nat) : list bool :=
  mjoin (replicate n [true; false; false]) ++ replicate n true ++ replicate n false.

Lemma stream_refines_witness :
  let o := dialed [str "ab"; str "c"] EOF in
  let r := dialed [] EOF in
  let d := unidirectionalStream 4 r o in
  match d with
  | Some (r', o') => gsteps 11 GRead r o = Some (GDone, r', o')
  | None => False
  end.
Proof. intros o r d. apply (stream_refines 4 11 r o); [reflexivity|lia]. Defined.

Lemma pipe_relays_witness :
  let o := dialed [str "ab"; str "c"] EOF in
  let r := dialed [str "x"; str "yz"] (ErrIO 1) in
  exists o' r' q1 q2, pipe (fair 12) o r = Some (o', r') /\
    Sent r' = Sent r ++ q1 /\ q1 `prefix_of` str "abc" /\
    Sent o' = Sent o ++ q2 /\ q2 `prefix_of` str "xyz" /\
    (@CloseWrite Wire _ <> None -> Fin r') /\ (@CloseWrite Wire _ <> None -> Fin o') /\
    (Writable o -> Writable r -> (q1 = str "abc" \/ q2 = str "xyz") /\
       (patient Wire && patient Wire = true -> q1 = str "abc" /\ q2 = str "xyz")).
Proof.
  intros o r. apply (pipe_relays (O:=Wire) (R:=Wire) o r (str "abc") EOF (str "xyz") (ErrIO 1) (fair 12)).
  - split; [reflexivity|]. split; [|done]. by repeat constructor.
  - split; [reflexivity|]. split; [|done]. by repeat constructor.
  - apply Nat.leb_le. reflexivity.
  - apply Nat.leb_le. reflexivity.
Defined.

(** The session of a client 10.0.0.9:1234 that dials 1.2.3.4:80. *)
Definition demoID : TransportEndpointID :=
  mkID 80 [z2b 1; z2b 2; z2b 3; z2b 4] 1234 [z2b 10; z2b 0; z2b 0; z2b 9].

Lemma handleTCPConn_spec_witness :
  let o := dialed [str "GET"] EOF in
  let r := dialed [str "OK"] EOF in
  let p := {| DialContext := fun _ _ => Some (Some r, None) |} in
  exists o' t q1 q2 pushes,
    handleTCPConn (fair 12) (str "id") p demoID o = Some ((Close o').2, Some (Close t).2) /\
    Sent (t_Conn t) = Sent r ++ q1 /\ q1 `prefix_of` str "GET" /\
    Sent o' = Sent o ++ q2 /\ q2 `prefix_of` str "OK" /\
    (Writable o -> Writable r -> patient Wire && patient Wire = true -> q1 = str "GET" /\ q2 = str "OK") /\
    t_Metadata t = setMid (parseNetAddr (localAddr r)) (idMetadata TCP demoID) /\
    calls (Close t).2 = Join (str "id") :: pushes ++ [Leave (str "id")] /\ Forall is_push pushes /\
    i64 (zsum (upBytes <$> pushes)) = i64 (len q1).
Proof.
  intros o r p. apply (handleTCPConn_spec (O:=Wire) (R:=Wire) p (str "id") demoID o (fair 12) (str "GET") EOF (str "OK") EOF).
  - split; [reflexivity|]. split; [|done]. by repeat constructor.
  - split; [reflexivity|]. split; [|done]. by repeat constructor.
  - apply Nat.leb_le. reflexivity.
  - apply Nat.leb_le. reflexivity.
Defined.

(** A socket with the datagrams to come and those sent; nothing times out. *)
Definition Mail : Type := list (list byte * option NetAddr) * list (list byte * option NetAddr).

#[global] Instance Mail_PacketConn : PacketConn Mail (option NetAddr) := {
  WriteTo p a m := Some (len p, None, (m.1, m.2 ++ [(p, a)]));
  ReadFrom n m :=
    match m.1 with
    | (p, a) :: r => Some (ztake n p, len (ztake n p), a, None, (r, m.2))
    | [] => Some ([], 0, None, Some ErrTimeout, m)
    end }.
#[global] Instance Mail_Deadline : Deadline Mail := fun _ m => (None, m).
#[global] Instance Mail_Closer : Closer Mail := fun m => (None, m).
#[global] Instance Mail_LocalAddr : LocalAddr Mail := fun _ => None.

#[global, program] Instance Mail_PacketOk : PacketOk Mail := {
  Queued m q e := m.1 = q /\ e = ErrTimeout; Posted m := m.2;
  Postable _ := True; prompt := true }.
Next Obligation.
  intros [q out] q' e n [Hq ->] Hn. simpl in Hq. subst q'.
  destruct q as [|[p a] q]; [exists ([], out)|exists (q, out)]; by split_and!.
Qed.
Next Obligation.
  intros p a [q out]. eexists _, _, _. split; [reflexivity|]. by split_and!.
Qed.
Next Obligation.
  intros d m. cbn. split_and!; try done. intros q e Hq. by exists q, e.
Qed.

Definition host (x y : Z) (port : Z) : NetAddr :=
  AUDP (mkUDPAddr (AsSlice (Addr4 (z2b 1) (z2b 2) (z2b x) (z2b y))) port).

Lemma copyPacketData_refines_witness :
  let o : Mail := ([(str "ping", None)], []) in
  let r : Mail := ([], []) in
  match copyPacketData (Some (host 3 4 80)) 1000 2 (replicate 9 (z2b 1)) r o with
  | Some (e, r', o') =>
      csteps (Some (host 3 4 80)) 1000 8 (CStart (replicate 9 (z2b 1))) r o = Some (CDone e, r', o')
  | None => False
  end.
Proof. intros o r. apply (copyPacketData_refines (Some (host 3 4 80)) 1000 2 8); [reflexivity|lia]. Defined.

Lemma session_addresses_witness :
  let m := idMetadata UDP (mkID 53 [z2b 8; z2b 8; z2b 4; z2b 4] 1234 []) in
  DstIP m = Addr4 (z2b 8) (z2b 8) (z2b 4) (z2b 4) /\
  DestinationAddress m = string4 (z2b 8) (z2b 8) (z2b 4) (z2b 4) ++ colon :: Itoa 53 /\
  parseNetAddr (Some (AMeta m)) = (Addr4 (z2b 8) (z2b 8) (z2b 4) (z2b 4), 53) /\
  parseNetAddr (Some (sessionAddr m)) = (Addr4 (z2b 8) (z2b 8) (z2b 4) (z2b 4), 53) /\
  parseNetAddr (Some (AOther (str "udp") (DestinationAddress m))) = (Addr4 (z2b 8) (z2b 8) (z2b 4) (z2b 4), 53) /\
  foreign (DestinationAddress m) (Some (sessionAddr m)) = false.
Proof. apply (session_addresses (str "udp")). lia. Defined.

(** A reply from the destination, one from a stranger. *)
Lemma handleUDPConn_spec_witness :
  let uc : Mail := ([(str "ping", None)], []) in
  let r : Mail := ([(str "no", Some (host 9 9 80)); (str "pong", Some (host 3 4 80))], []) in
  let p := {| DialUDP := fun _ => Some (Some r, None) |} in
  let m := idMetadata UDP demoID in
  let back := filter (passes (DestinationAddress m)) r.1 in
  let m' := setMid (parseNetAddr (localAddr r)) m in
  let b := replicate (Z.to_nat MaxSegmentSize) (z2b 7) in
  back = [(str "pong", Some (host 3 4 80))] /\
  exists o' t q1 q2 pushes,
    handleUDPConn 3 (fair 12) b b (str "id") 1000 p demoID uc = Some ((Close o').2, Some (Close t).2) /\
    Posted (t_Conn t) = Posted r ++ (relayed (Some (sessionAddr m')) <$> q1) /\ q1 `prefix_of` uc.1 /\
    Posted o' = Posted uc ++ (relayed None <$> q2) /\ q2 `prefix_of` back /\
    (Postable uc -> Postable r -> prompt Mail = true -> prompt Mail = true -> q1 = uc.1 /\ q2 = back) /\
    t_Metadata t = m' /\ calls (Close t).2 = Join (str "id") :: pushes ++ [Leave (str "id")] /\ Forall is_push pushes /\
    UploadTotal t = i64 (zsum (upBytes <$> pushes)).
Proof.
  intros uc r p m back m' b. split; [vm_compute; reflexivity|].
  apply (handleUDPConn_spec (O:=Mail) (R:=Mail) p (str "id") demoID uc 3 (fair 12) b b 1000 uc.1 ErrTimeout r.1 ErrTimeout).
  - by split.
  - by split.
  - simpl. lia.
  - unfold b. by rewrite len_replicate, Z2Nat.id.
  - unfold b. by rewrite len_replicate, Z2Nat.id.
  - apply Nat.leb_le. reflexivity.
  - apply Nat.leb_le. vm_compute. reflexivity.
Defined.
End tunnel.
