(* ===== verification/Stack.v ===== *)
(** * Stack: packages core and core/option

    The set-up of the gVisor network stack and the handlers it calls back.
    gVisor is a third-party library: its stack is a state of any type, its
    calls are the constructors of [stackCall], and what a call answers is a
    parameter. *)

From S2P Require Import Prelude Net Tunnel.
Import tunnel.

Open Scope Z_scope.

(** ** The calls of gVisor's [stack.Stack] the program makes *)

Inductive NetworkProtocol := ipv4ProtocolNumber | ipv6ProtocolNumber.
Inductive TransportProtocol := tcpProtocolNumber | udpProtocolNumber | icmpProtocolNumber4.

Inductive NetworkOption := DefaultTTLOption (ttl : Z).

Inductive TransportOption :=
| TCPSendBufferSizeRangeOption (Min Default Max : Z)
| TCPReceiveBufferSizeRangeOption (Min Default Max : Z)
| CongestionControlOption (cc : gostring)
| TCPDelayEnabled (v : bool)
| TCPModerateReceiveBufferOption (v : bool)
| TCPSACKEnabled (v : bool)
| TCPRecovery (v : Z).

(** The handler of a transport protocol: [custom] says that a handler of the
    user's is asked first. *)
Inductive stackCall :=
| SetNetworkProtocolOption (p : NetworkProtocol) (o : NetworkOption)
| SetForwardingDefaultAndAllNICs (p : NetworkProtocol) (v : bool)
| SetICMPBurst (burst : Z)
| SetICMPLimit (limit : Z)
| SetTransportProtocolOption (p : TransportProtocol) (o : TransportOption)
| SetTransportProtocolHandler (p : TransportProtocol) (custom : bool)
| CreateNICWithOptions (nicID : Z)
| SetPromiscuousMode (nicID : Z) (v : bool)
| SetSpoofing (nicID : Z) (v : bool)
| SetRouteTable (routes : list (NetworkProtocol * Z))
| AddProtocolAddress (nicID : Z) (p : NetworkProtocol) (addr : list byte) (prefix : Z)
| JoinGroup (p : NetworkProtocol) (nicID : Z) (addr : list byte).

#[global] Instance NetworkProtocol_eq_dec : EqDecision NetworkProtocol.
Proof. solve_decision. Defined.
#[global] Instance TransportProtocol_eq_dec : EqDecision TransportProtocol.
Proof. solve_decision. Defined.
#[global] Instance NetworkOption_eq_dec : EqDecision NetworkOption.
Proof. solve_decision. Defined.
#[global] Instance TransportOption_eq_dec : EqDecision TransportOption.
Proof. solve_decision. Defined.
#[global] Instance stackCall_eq_dec : EqDecision stackCall.
Proof. solve_decision. Defined.

(** A stack of gVisor: its answers, and the constants of its TCP package. *)
Class GVisor (S : Type) := {
  api : stackCall -> S -> err * S;
  MinBufferSize : Z; MaxBufferSize : Z;
  DefaultSendBufferSize : Z; DefaultReceiveBufferSize : Z;
  TCPRACKLossDetection : Z }.

(** [fmt.Errorf("msg: %s", err)] *)
Definition Errorf (msg : string) (e : error) : error := ErrWrap (str msg) e.

Module option.
Section option.
Context {S : Type} `{GVisor S}.

Definition Option : Type := S -> err * S.

(** ** option.go *)

Definition defaultTimeToLive : Z := 64.
Definition ipForwardingEnabled : bool := true.
Definition icmpBurst : Z := 50.
Definition icmpLimit : Z := 1000.
Definition tcpCongestionControlAlgorithm : gostring := str "reno".
Definition tcpDelayEnabled : bool := false.
Definition tcpModerateReceiveBufferEnabled : bool := false.
Definition tcpSACKEnabled : bool := true.
Definition tcpRecovery : Z := TCPRACKLossDetection.
Definition tcpMinBufferSize : Z := MinBufferSize.
Definition tcpMaxBufferSize : Z := MaxBufferSize.
Definition tcpDefaultSendBufferSize : Z := DefaultSendBufferSize.
Definition tcpDefaultReceiveBufferSize : Z := DefaultReceiveBufferSize.

(** The loops over options stop at the first error. *)
Fixpoint applyAll (opts : list Option) : Option := fun s =>
  match opts with
  | [] => (None, s)
  | opt :: opts =>
      let '(e, s) := opt s in
      check e else (e, s) ;;
      applyAll opts s
  end.

Definition WithDefaultTTL (ttl : Z) : Option := fun s =>
  let opt := DefaultTTLOption ttl in
  let '(e, s) := api (SetNetworkProtocolOption ipv4ProtocolNumber opt) s in
  match e with
  | Some e => (Some (Errorf "set ipv4 default TTL" e), s)
  | None =>
      let '(e, s) := api (SetNetworkProtocolOption ipv6ProtocolNumber opt) s in
      match e with
      | Some e => (Some (Errorf "set ipv6 default TTL" e), s)
      | None => (None, s)
      end
  end.

Definition WithForwarding (v : bool) : Option := fun s =>
  let '(e, s) := api (SetForwardingDefaultAndAllNICs ipv4ProtocolNumber v) s in
  match e with
  | Some e => (Some (Errorf "set ipv4 forwarding" e), s)
  | None =>
      let '(e, s) := api (SetForwardingDefaultAndAllNICs ipv6ProtocolNumber v) s in
      match e with
      | Some e => (Some (Errorf "set ipv6 forwarding" e), s)
      | None => (None, s)
      end
  end.

Definition WithICMPBurst (burst : Z) : Option := fun s =>
  let '(_, s) := api (SetICMPBurst burst) s in (None, s).

Definition WithICMPLimit (limit : Z) : Option := fun s =>
  let '(_, s) := api (SetICMPLimit limit) s in (None, s).

Definition WithTCPSendBufferSize (size : Z) : Option := fun s =>
  let sndOpt := TCPSendBufferSizeRangeOption tcpMinBufferSize size tcpMaxBufferSize in
  let '(e, s) := api (SetTransportProtocolOption tcpProtocolNumber sndOpt) s in
  match e with
  | Some e => (Some (Errorf "set TCP send buffer size range" e), s)
  | None => (None, s)
  end.

Definition WithTCPSendBufferSizeRange (a b c : Z) : Option := fun s =>
  let sndOpt := TCPSendBufferSizeRangeOption a b c in
  let '(e, s) := api (SetTransportProtocolOption tcpProtocolNumber sndOpt) s in
  match e with
  | Some e => (Some (Errorf "set TCP send buffer size range" e), s)
  | None => (None, s)
  end.

Definition WithTCPReceiveBufferSize (size : Z) : Option := fun s =>
  let rcvOpt := TCPReceiveBufferSizeRangeOption tcpMinBufferSize size tcpMaxBufferSize in
  let '(e, s) := api (SetTransportProtocolOption tcpProtocolNumber rcvOpt) s in
  match e with
  | Some e => (Some (Errorf "set TCP receive buffer size range" e), s)
  | None => (None, s)
  end.

Definition WithTCPReceiveBufferSizeRange (a b c : Z) : Option := fun s =>
  let rcvOpt := TCPReceiveBufferSizeRangeOption a b c in
  let '(e, s) := api (SetTransportProtocolOption tcpProtocolNumber rcvOpt) s in
  match e with
  | Some e => (Some (Errorf "set TCP receive buffer size range" e), s)
  | None => (None, s)
  end.

Definition WithTCPCongestionControl (cc : gostring) : Option := fun s =>
  let '(e, s) := api (SetTransportProtocolOption tcpProtocolNumber (CongestionControlOption cc)) s in
  match e with
  | Some e => (Some (Errorf "set TCP congestion control algorithm" e), s)
  | None => (None, s)
  end.

Definition WithTCPDelay (v : bool) : Option := fun s =>
  let '(e, s) := api (SetTransportProtocolOption tcpProtocolNumber (TCPDelayEnabled v)) s in
  match e with
  | Some e => (Some (Errorf "set TCP delay" e), s)
  | None => (None, s)
  end.

Definition WithTCPModerateReceiveBuffer (v : bool) : Option := fun s =>
  let '(e, s) := api (SetTransportProtocolOption tcpProtocolNumber (TCPModerateReceiveBufferOption v)) s in
  match e with
  | Some e => (Some (Errorf "set TCP moderate receive buffer" e), s)
  | None => (None, s)
  end.

Definition WithTCPSACKEnabled (v : bool) : Option := fun s =>
  let '(e, s) := api (SetTransportProtocolOption tcpProtocolNumber (TCPSACKEnabled v)) s in
  match e with
  | Some e => (Some (Errorf "set TCP SACK" e), s)
  | None => (None, s)
  end.

Definition WithTCPRecovery (v : Z) : Option := fun s =>
  let '(e, s) := api (SetTransportProtocolOption tcpProtocolNumber (TCPRecovery v)) s in
  match e with
  | Some e => (Some (Errorf "set TCP Recovery" e), s)
  | None => (None, s)
  end.

Definition WithDefault : Option :=
  applyAll
    [ WithDefaultTTL defaultTimeToLive;
      WithForwarding ipForwardingEnabled;
      WithICMPBurst icmpBurst; WithICMPLimit icmpLimit;
      WithTCPSendBufferSizeRange tcpMinBufferSize tcpDefaultSendBufferSize tcpMaxBufferSize;
      WithTCPReceiveBufferSizeRange tcpMinBufferSize tcpDefaultReceiveBufferSize tcpMaxBufferSize;
      WithTCPCongestionControl tcpCongestionControlAlgorithm;
      WithTCPDelay tcpDelayEnabled;
      WithTCPModerateReceiveBuffer tcpModerateReceiveBufferEnabled;
      WithTCPSACKEnabled tcpSACKEnabled;
      WithTCPRecovery tcpRecovery ].
End option.
Arguments Option : clear implicits.
End option.

Module core.
Import option.
Section core.
Context {S : Type} `{GVisor S}.

(** ** nic.go, route.go *)

Definition nicPromiscuousModeEnabled : bool := true.
Definition nicSpoofingEnabled : bool := true.

Definition withCreatingNIC (nicID : Z) : Option S := fun s =>
  let '(e, s) := api (CreateNICWithOptions nicID) s in
  match e with
  | Some e => (Some (Errorf "create NIC" e), s)
  | None => (None, s)
  end.

Definition withPromiscuousMode (nicID : Z) (v : bool) : Option S := fun s =>
  let '(e, s) := api (SetPromiscuousMode nicID v) s in
  match e with
  | Some e => (Some (Errorf "set promiscuous mode" e), s)
  | None => (None, s)
  end.

Definition withSpoofing (nicID : Z) (v : bool) : Option S := fun s =>
  let '(e, s) := api (SetSpoofing nicID v) s in
  match e with
  | Some e => (Some (Errorf "set spoofing" e), s)
  | None => (None, s)
  end.

Definition withRouteTable (nicID : Z) : Option S := fun s =>
  let '(_, s) := api (SetRouteTable [(ipv4ProtocolNumber, nicID); (ipv6ProtocolNumber, nicID)]) s in
  (None, s).

(** A group that is neither of the two families is passed over. *)
Fixpoint joinGroups (nicID : Z) (groups : list Addr) : Option S := fun s =>
  match groups with
  | [] => (None, s)
  | group :: groups =>
      let '(e, s) :=
        match group with
        | Addr4 a b c d => api (JoinGroup ipv4ProtocolNumber nicID [a; b; c; d]) s
        | Addr6 bs _ => api (JoinGroup ipv6ProtocolNumber nicID bs) s
        | Addr0 => (None, s)
        end in
      match e with
      | Some e => (Some (Errorf "join multicast group" e), s)
      | None => joinGroups nicID groups s
      end
  end.

Definition ip4 : list byte := z2b <$> [0x0a; 0; 0; 0x01].
Definition ip6 : list byte := z2b <$> [0xfd; 0; 0; 0; 0; 0; 0; 0; 0; 0; 0; 0; 0; 0; 0x01; 0].

Definition withMulticastGroups (nicID : Z) (multicastGroups : list Addr) : Option S := fun s =>
  if len multicastGroups =? 0 then (None, s)
  else
    let '(_, s) := api (AddProtocolAddress nicID ipv4ProtocolNumber ip4 8) s in
    let '(_, s) := api (AddProtocolAddress nicID ipv6ProtocolNumber ip6 8) s in
    joinGroups nicID multicastGroups s.

(** ** tcp.go, udp.go, icmp.go: the handlers are installed *)

Definition withTCPHandler : Option S := fun s =>
  let '(_, s) := api (SetTransportProtocolHandler tcpProtocolNumber false) s in (None, s).
Definition withUDPHandler : Option S := fun s =>
  let '(_, s) := api (SetTransportProtocolHandler udpProtocolNumber false) s in (None, s).
Definition withICMPHandler (custom : bool) : Option S := fun s =>
  let '(_, s) := api (SetTransportProtocolHandler icmpProtocolNumber4 custom) s in (None, s).

(** ** stack.go

    [s] is the stack [stack.New] returns and [nicID] its next NIC.  The
    result is [nil] with an error, or the stack.  [ICMPHandler] says whether the
    user's handler of ICMP packets is not nil; the transport handler is the
    tunnel, the link endpoint that of the stack. *)
Record Config := mkConfig { ICMPHandler : bool; MulticastGroups : list Addr; Options : list (Option S) }.

Definition stackOptions (cfg : Config) (nicID : Z) : list (Option S) :=
  let opts := WithDefault :: Options cfg in
  opts ++
    [ withTCPHandler; withUDPHandler; withICMPHandler (ICMPHandler cfg);
      withCreatingNIC nicID;
      withPromiscuousMode nicID nicPromiscuousModeEnabled;
      withSpoofing nicID nicSpoofingEnabled;
      withRouteTable nicID;
      withMulticastGroups nicID (MulticastGroups cfg) ].

Definition CreateStack (cfg : Config) (nicID : Z) (s : S) : option S * err :=
  let '(e, s) := applyAll (stackOptions cfg nicID) s in
  check e else (None, e) ;;
  (Some s, None).
End core.
Arguments Config : clear implicits.
Arguments mkConfig {S}. Arguments ICMPHandler {S}. Arguments MulticastGroups {S}. Arguments Options {S}.

(** ** tcp.go: a connection request

    [sockopt] answers the calls on the new endpoint, [snd] and [rcv] are the
    default buffer sizes when the stack tells them.  What the callback does is
    the sequence of its effects. *)

Definition maxConnAttempts : Z := Z.shiftl 2 10.
Definition tcpKeepaliveCount : Z := 9.
Definition tcpKeepaliveIdle : Z := 60 * Second.
Definition tcpKeepaliveInterval : Z := 30 * Second.

Inductive sockCall :=
| SetKeepAlive (v : bool)
| KeepaliveIdleOption (d : Z) | KeepaliveIntervalOption (d : Z) | KeepaliveCountOption (n : Z)
| SetSendBufferSize (n : Z) | SetReceiveBufferSize (n : Z).

Inductive effect :=
| SockOpt (c : sockCall)
| CallHandleTCP (id : TransportEndpointID) | CallHandleUDP (id : TransportEndpointID)
| Complete (sendReset : bool).

Section forwarders.
Context (sockopt : sockCall -> err) (snd rcv : option Z).

Definition setSocketOptions : list effect * err :=
  let idle := KeepaliveIdleOption tcpKeepaliveIdle in
  let l := [SockOpt (SetKeepAlive true); SockOpt idle] in
  match sockopt idle with
  | Some e => (l, Some e)
  | None =>
      let interval := KeepaliveIntervalOption tcpKeepaliveInterval in
      let l := l ++ [SockOpt interval] in
      match sockopt interval with
      | Some e => (l, Some e)
      | None =>
          let count := KeepaliveCountOption tcpKeepaliveCount in
          let l := l ++ [SockOpt count] in
          match sockopt count with
          | Some e => (l, Some e)
          | None =>
              let l := l ++ match snd with Some n => [SockOpt (SetSendBufferSize n)] | None => [] end in
              let l := l ++ match rcv with Some n => [SockOpt (SetReceiveBufferSize n)] | None => [] end in
              (l, None)
          end
      end
  end.

(** [create] is what [r.CreateEndpoint] answers; the deferred [Complete] comes
    last. *)
Definition forwardTCP (create : err) (id : TransportEndpointID) : list effect :=
  match create with
  | Some _ => [Complete true]
  | None =>
      let '(l, _) := setSocketOptions in
      l ++ [CallHandleTCP id] ++ [Complete false]
  end.

(** udp.go: the result says whether the packet was handled. *)
Definition forwardUDP (create : err) (id : TransportEndpointID) : list effect * bool :=
  match create with
  | Some _ => ([], false)
  | None => ([CallHandleUDP id], true)
  end.
End forwarders.

(** ** icmp.go

    A packet as gVisor delivers it; the route a reply takes and the write on
    it are gVisor's, as is [Checksum]. *)

Record PacketBuffer := mkPacket {
  NetworkProtocolNumber : option NetworkProtocol;
  SourceAddress : list byte; DestinationAddress : list byte (* of the IPv4 header *);
  LocalAddressBroadcast : bool;
  TransportHeader : list byte; Data : list byte }.

Definition ICMPv4Echo : Z := 8.
Definition ICMPv4EchoReply : Z := 0.

Inductive icmpEffect :=
| WritePacket (local remote : list byte) (payload : list byte)
| IncrementDropped | IncrementEchoReply.

Section icmp.
Context (IsV4MulticastAddress : list byte -> bool).
Context (FindRoute : list byte -> list byte -> err) (writePacket : list byte -> err).
Context (Checksum : list byte -> Z).

(** The setters of [header.ICMPv4] on the header's layout (RFC 792). *)
Definition SetType (v : Z) (h : list byte) : list byte := blit h 0 [z2b v].
Definition SetCode (v : Z) (h : list byte) : list byte := blit h 1 [z2b v].
Definition SetChecksum (v : Z) (h : list byte) : list byte := blit h 2 (PutUint16 v).

Definition handlePacket4 (pkt : PacketBuffer) : option (bool * list icmpEffect) :=
  ty ← (TransportHeader pkt).[0];
  if negb (b2z ty =? ICMPv4Echo) then Some (false, [])
  else
    let localAddr := DestinationAddress pkt in
    let localAddr :=
      if LocalAddressBroadcast pkt || IsV4MulticastAddress localAddr then [] else localAddr in
    match FindRoute localAddr (SourceAddress pkt) with
    | Some _ => Some (false, [])
    | None =>
        let replyData := TransportHeader pkt ++ Data pkt in
        let replyData := SetType ICMPv4EchoReply replyData in
        let replyData := SetCode 0 replyData in
        let replyData := SetChecksum 0 replyData in
        let replyData := SetChecksum (65535 - Checksum replyData) replyData in
        let w := WritePacket localAddr (SourceAddress pkt) replyData in
        match writePacket replyData with
        | Some _ => Some (false, [w; IncrementDropped])
        | None => Some (true, [w; IncrementEchoReply])
        end
    end.

Definition handlePacket6 (pkt : PacketBuffer) : option (bool * list icmpEffect) := Some (false, []).

(** [h] is the configured handler, given a clone of the packet; [None] is nil. *)
Definition HandlePacket (h : option (PacketBuffer -> bool)) (pkt : PacketBuffer)
  : option (bool * list icmpEffect) :=
  if match h with Some h => h pkt | None => false end then Some (true, [])
  else match NetworkProtocolNumber pkt with
  | Some ipv4ProtocolNumber => handlePacket4 pkt
  | Some ipv6ProtocolNumber => handlePacket6 pkt
  | None => Some (false, [])
  end.
End icmp.

(** ** What setting up a stack comes to: a script

    The calls, in order, each with the message of its error, or none when the
    error is ignored. *)

Definition script : Type := list (stackCall * option string).

Fixpoint run_script {S} `{GVisor S} (l : script) (s : S) : err * S :=
  match l with
  | [] => (None, s)
  | (c, m) :: l =>
      let '(e, s) := api c s in
      match e, m with
      | Some e, Some m => (Some (Errorf m e), s)
      | _, _ => run_script l s
      end
  end.

(** An option that follows a script. *)
Definition follows {S} `{GVisor S} (o : Option S) (l : script) : Prop :=
  forall s, o s = run_script l s.

Section scripts.
Context {S : Type} `{GVisor S}.

Definition tcpOpt (o : TransportOption) (m : string) : stackCall * option string :=
  (SetTransportProtocolOption tcpProtocolNumber o, Some m).

Definition default_script : script :=
  [ (SetNetworkProtocolOption ipv4ProtocolNumber (DefaultTTLOption 64), Some "set ipv4 default TTL");
    (SetNetworkProtocolOption ipv6ProtocolNumber (DefaultTTLOption 64), Some "set ipv6 default TTL");
    (SetForwardingDefaultAndAllNICs ipv4ProtocolNumber true, Some "set ipv4 forwarding");
    (SetForwardingDefaultAndAllNICs ipv6ProtocolNumber true, Some "set ipv6 forwarding");
    (SetICMPBurst 50, None); (SetICMPLimit 1000, None);
    tcpOpt (TCPSendBufferSizeRangeOption MinBufferSize DefaultSendBufferSize MaxBufferSize)
      "set TCP send buffer size range";
    tcpOpt (TCPReceiveBufferSizeRangeOption MinBufferSize DefaultReceiveBufferSize MaxBufferSize)
      "set TCP receive buffer size range";
    tcpOpt (CongestionControlOption (str "reno")) "set TCP congestion control algorithm";
    tcpOpt (TCPDelayEnabled false) "set TCP delay";
    tcpOpt (TCPModerateReceiveBufferOption false) "set TCP moderate receive buffer";
    tcpOpt (TCPSACKEnabled true) "set TCP SACK";
    tcpOpt (TCPRecovery TCPRACKLossDetection) "set TCP Recovery" ]%string.

Definition join_script (nicID : Z) (groups : list Addr) : script :=
  omap (fun g => match g with
    | Addr4 a b c d => Some (JoinGroup ipv4ProtocolNumber nicID [a; b; c; d], Some "join multicast group"%string)
    | Addr6 bs _ => Some (JoinGroup ipv6ProtocolNumber nicID bs, Some "join multicast group"%string)
    | Addr0 => None end) groups.

Definition nic_script (nicID : Z) (custom : bool) (groups : list Addr) : script :=
  [ (SetTransportProtocolHandler tcpProtocolNumber false, None);
    (SetTransportProtocolHandler udpProtocolNumber false, None);
    (SetTransportProtocolHandler icmpProtocolNumber4 custom, None);
    (CreateNICWithOptions nicID, Some "create NIC");
    (SetPromiscuousMode nicID true, Some "set promiscuous mode");
    (SetSpoofing nicID true, Some "set spoofing");
    (SetRouteTable [(ipv4ProtocolNumber, nicID); (ipv6ProtocolNumber, nicID)], None) ]%string ++
  match groups with
  | [] => []
  | _ => (AddProtocolAddress nicID ipv4ProtocolNumber ip4 8, None) ::
         (AddProtocolAddress nicID ipv6ProtocolNumber ip6 8, None) :: join_script nicID groups
  end.

Lemma run_script_app l k (s : S) : run_script (l ++ k) s =
  let '(e, s) := run_script l s in match e with Some e => (Some e, s) | None => run_script k s end.
Proof.
  revert s. induction l as [|[c m] l IH]; intros s; [done|]. cbn [app run_script].
  destruct (api c s) as [[e|] s1], m; apply IH || done.
Qed.

Lemma follows_nil : follows (applyAll []) [].
Proof. done. Qed.

Lemma follows_cons o os l k :
  follows o l -> follows (applyAll os) k -> follows (applyAll (o :: os)) (l ++ k).
Proof.
  intros Ho Hos s. rewrite run_script_app. cbn [applyAll]. rewrite Ho.
  destruct (run_script l s) as [[e|] s1]; [done|]. apply Hos.
Qed.

Lemma follows_app os os' l k :
  follows (applyAll os) l -> follows (applyAll os') k -> follows (applyAll (os ++ os')) (l ++ k).
Proof.
  intros Hos Hos' s. rewrite run_script_app, <- Hos. clear Hos. revert s.
  induction os as [|o os IH]; intros s; cbn [applyAll app]; [by rewrite Hos'|].
  destruct (o s) as [[e|] s1]; [done|]. apply IH.
Qed.

(** An option that makes its calls in a straight line. *)
Ltac follow o :=
  intros ?;
  unfold o, defaultTimeToLive, ipForwardingEnabled, icmpBurst, icmpLimit, tcpMinBufferSize,
    tcpMaxBufferSize, tcpDefaultSendBufferSize, tcpDefaultReceiveBufferSize,
    tcpCongestionControlAlgorithm, tcpDelayEnabled, tcpModerateReceiveBufferEnabled,
    tcpSACKEnabled, tcpRecovery, tcpOpt, nicPromiscuousModeEnabled, nicSpoofingEnabled;
  cbv zeta; cbn [run_script];
  repeat match goal with |- context [api ?c ?s] => destruct (api c s) as [[?|] ?] end; reflexivity.

Lemma WithDefault_follows : follows WithDefault default_script.
Proof.
  unfold WithDefault, default_script.
  apply (follows_cons _ _ [_; _]); [follow (@WithDefaultTTL)|].
  apply (follows_cons _ _ [_; _]); [follow (@WithForwarding)|].
  apply (follows_cons _ _ [_]); [follow (@WithICMPBurst)|].
  apply (follows_cons _ _ [_]); [follow (@WithICMPLimit)|].
  apply (follows_cons _ _ [_]); [follow (@WithTCPSendBufferSizeRange)|].
  apply (follows_cons _ _ [_]); [follow (@WithTCPReceiveBufferSizeRange)|].
  apply (follows_cons _ _ [_]); [follow (@WithTCPCongestionControl)|].
  apply (follows_cons _ _ [_]); [follow (@WithTCPDelay)|].
  apply (follows_cons _ _ [_]); [follow (@WithTCPModerateReceiveBuffer)|].
  apply (follows_cons _ _ [_]); [follow (@WithTCPSACKEnabled)|].
  apply (follows_cons _ _ [_] []); [follow (@WithTCPRecovery)|apply follows_nil].
Qed.

Lemma joinGroups_follows nicID groups : follows (joinGroups nicID groups) (join_script nicID groups).
Proof.
  induction groups as [|g groups IH]; intros s; [done|].
  destruct g; cbn; [apply IH| |]; destruct (api _ _) as [[?|] ?]; done || apply IH.
Qed.

Lemma withMulticastGroups_follows nicID groups :
  follows (withMulticastGroups nicID groups)
    (match groups with
     | [] => []
     | _ => (AddProtocolAddress nicID ipv4ProtocolNumber ip4 8, None) ::
            (AddProtocolAddress nicID ipv6ProtocolNumber ip6 8, None) :: join_script nicID groups
     end).
Proof.
  intros s. unfold withMulticastGroups. destruct groups as [|g groups]; [done|].
  replace (len (g :: groups) =? 0) with false by len_lia. cbn [run_script].
  destruct (api _ s) as [e1 s1]. destruct (api _ s1) as [e2 s2].
  rewrite joinGroups_follows. by destruct e1, e2.
Qed.

Definition full_script (us : list script) (nicID : Z) (custom : bool) (groups : list Addr) : script :=
  default_script ++ concat us ++ nic_script nicID custom groups.

Lemma follows_user os us : Forall2 follows os us -> follows (applyAll os) (concat us).
Proof. induction 1; [apply follows_nil|]. by apply follows_cons. Qed.

Lemma nic_follows nicID custom groups : follows
  (applyAll [withTCPHandler; withUDPHandler; withICMPHandler custom; withCreatingNIC nicID;
    withPromiscuousMode nicID nicPromiscuousModeEnabled; withSpoofing nicID nicSpoofingEnabled;
    withRouteTable nicID; withMulticastGroups nicID groups]) (nic_script nicID custom groups).
Proof.
  unfold nic_script. cbn [app].
  apply (follows_cons _ _ [_]); [follow (@withTCPHandler)|].
  apply (follows_cons _ _ [_]); [follow (@withUDPHandler)|].
  apply (follows_cons _ _ [_]); [follow (@withICMPHandler)|].
  apply (follows_cons _ _ [_]); [follow (@withCreatingNIC)|].
  apply (follows_cons _ _ [_]); [follow (@withPromiscuousMode)|].
  apply (follows_cons _ _ [_]); [follow (@withSpoofing)|].
  apply (follows_cons _ _ [_]); [follow (@withRouteTable)|].
  rewrite <- (app_nil_r (match groups with [] => [] | _ => _ end)).
  apply follows_cons; [apply withMulticastGroups_follows|apply follows_nil].
Qed.

Lemma stackOptions_follows (cfg : Config S) us nicID :
  Forall2 follows (Options cfg) us ->
  follows (applyAll (stackOptions cfg nicID)) (full_script us nicID (ICMPHandler cfg) (MulticastGroups cfg)).
Proof.
  intros Hu. unfold stackOptions, full_script. cbn [app].
  apply follows_cons; [apply WithDefault_follows|].
  apply follows_app; [by apply follows_user|apply nic_follows].
Qed.
End scripts.

(** A stack that records the calls made. *)
#[export] Instance Logged_GVisor {S} `{GVisor S} : GVisor (S * list stackCall) := {
  api c s := let '(e, s') := api c s.1 in (e, (s', s.2 ++ [c]));
  MinBufferSize := MinBufferSize; MaxBufferSize := MaxBufferSize;
  DefaultSendBufferSize := DefaultSendBufferSize;
  DefaultReceiveBufferSize := DefaultReceiveBufferSize;
  TCPRACKLossDetection := TCPRACKLossDetection }.

Lemma api_logged {S} `{GVisor S} c (s : S) log :
  api c (s, log) = let '(e, s') := api c s in (e, (s', log ++ [c])).
Proof. done. Qed.

Lemma run_script_log {S} `{GVisor S} (l : script) : forall (s : S) log,
  exists s' k, (run_script l (s, log)).2 = (s', log ++ k) /\ k `prefix_of` l.*1 /\
    ((run_script l (s, log)).1 = None -> k = l.*1).
Proof.
  induction l as [|[c m] l IH]; intros s log; cbn [run_script].
  - exists s, []. by rewrite app_nil_r.
  - rewrite api_logged. destruct (api c s) as [e s1].
    destruct (IH s1 (log ++ [c])) as (s' & k & E & Hk & Hc).
    destruct e as [e|], m as [m|]; [exists s1, [c]|exists s', (c :: k)..].
    1: split; [done|]; split; [by exists (l.*1)|done].
    all: rewrite E, <- app_assoc; split; [done|]; split; [by apply prefix_cons|].
    all: intros Hn; by rewrite Hc.
Qed.

Definition is_CreateNIC (c : stackCall) : bool :=
  match c with CreateNICWithOptions _ => true | _ => false end.

Lemma no_CreateNIC_join nicID groups : existsb is_CreateNIC (join_script nicID groups).*1 = false.
Proof. induction groups as [|[] groups IH]; done. Qed.

Lemma existsb_app_false {A} (f : A -> bool) l k :
  existsb f (l ++ k) = false <-> existsb f l = false /\ existsb f k = false.
Proof. rewrite existsb_app. apply orb_false_iff. Qed.

Lemma existsb_lookup {A} (f : A -> bool) l i x : existsb f l = false -> l !! i = Some x -> f x = false.
Proof.
  revert i. induction l as [|y l IH]; intros i Hf Hi; [done|]. cbn in Hf.
  apply orb_false_iff in Hf as [Hy Hf]. destruct i; simplify_eq/=; [done|by eapply IH].
Qed.

(** Where the only call that creates a NIC stands. *)
Lemma full_script_shape {S} `{GVisor S} us nicID custom groups :
  existsb is_CreateNIC (concat us).*1 = false ->
  exists x y, (full_script us nicID custom groups).*1 =
      x ++ [SetTransportProtocolHandler tcpProtocolNumber false; SetTransportProtocolHandler udpProtocolNumber false;
            SetTransportProtocolHandler icmpProtocolNumber4 custom] ++ CreateNICWithOptions nicID :: y /\
    existsb is_CreateNIC x = false /\ existsb is_CreateNIC y = false.
Proof.
  intros Hu. unfold full_script, nic_script. rewrite !fmap_app. cbn [app fmap list_fmap fst].
  exists (default_script.*1 ++ (concat us).*1). eexists. split; [by rewrite <- app_assoc|].
  split; [apply existsb_app_false; by split|].
  destruct groups as [|g groups]; [done|]. cbn. destruct g; cbn; apply (no_CreateNIC_join nicID groups).
Qed.

(** ** The checksum of RFC 1071 *)

(** The sum of the 16-bit words, an odd last byte padded with zero. *)
Fixpoint wordsum (b : list byte) : Z :=
  match b with
  | hi :: lo :: r => b2z hi * 256 + b2z lo + wordsum r
  | [hi] => b2z hi * 256
  | [] => 0
  end.

(** The sum in ones' complement: carries are added back. *)
Definition ones (n : Z) : Z := if n =? 0 then 0 else (n - 1) mod 65535 + 1.

Lemma wordsum_nonneg b : 0 <= wordsum b.
Proof.
  enough (0 <= wordsum b /\ forall x, 0 <= wordsum (x :: b)) by naive_solver.
  induction b as [|y b [IH IH2]]; [split; [done|]; intros x; simpl; pose proof (b2z_range x); lia|].
  split; [apply IH2|]. intros x. simpl. pose proof (b2z_range x). pose proof (b2z_range y). lia.
Qed.

Lemma ones_range n : 0 <= n -> 0 <= ones n <= 65535.
Proof.
  intros Hn. unfold ones. destruct (Z.eqb_spec n 0); [lia|].
  pose proof (Z.mod_pos_bound (n - 1) 65535). lia.
Qed.

(** Adding the complement of the sum makes the sum all ones. *)
Lemma ones_complement n : 0 <= n -> ones (65535 - ones n + n) = 65535.
Proof.
  intros Hn. unfold ones. destruct (Z.eqb_spec n 0) as [->|Hz]; [done|].
  pose proof (Z.div_mod (n - 1) 65535). pose proof (Z.mod_pos_bound (n - 1) 65535 ltac:(lia)).
  pose proof (Z.div_pos (n - 1) 65535 ltac:(lia) ltac:(lia)).
  destruct (Z.eqb_spec (65535 - ((n - 1) mod 65535 + 1) + n) 0) as [He|He]; [lia|].
  replace (65535 - ((n - 1) mod 65535 + 1) + n - 1)
    with (65534 + ((n - 1) / 65535) * 65535) by lia.
  rewrite Z.mod_add by lia. done.
Qed.

(** Storing into the middle of a header. *)
Lemma blit_mid {A} (p r d b : list A) off :
  b = p ++ r -> off = len p -> len d <= len r -> blit b off d = p ++ d ++ zdrop (len d) r.
Proof. intros ->. apply blit_app. Qed.

(** The reply before its checksum: type 0, code 0; the rest is the request. *)
Lemma reply_zero ty code c1 c2 rest :
  SetChecksum 0 (SetCode 0 (SetType ICMPv4EchoReply (ty :: code :: c1 :: c2 :: rest))) =
  z2b 0 :: z2b 0 :: PutUint16 0 ++ rest.
Proof.
  unfold SetChecksum, SetCode, SetType, ICMPv4EchoReply.
  rewrite (blit_mid [] (ty :: code :: c1 :: c2 :: rest) [z2b 0] _ 0) by (done || len_lia).
  rewrite (blit_mid [z2b 0] (code :: c1 :: c2 :: rest) [z2b 0] _ 1) by (done || len_lia).
  by rewrite (blit_mid [z2b 0; z2b 0] (c1 :: c2 :: rest) (PutUint16 0) _ 2) by (done || len_lia).
Qed.

Lemma reply_bytes ck rest :
  SetChecksum ck (z2b 0 :: z2b 0 :: PutUint16 0 ++ rest) = z2b 0 :: z2b 0 :: PutUint16 ck ++ rest.
Proof.
  unfold SetChecksum.
  by rewrite (blit_mid [z2b 0; z2b 0] (PutUint16 0 ++ rest) (PutUint16 ck) _ 2) by (done || len_lia).
Qed.

(** ** Properties *)

(** C30: setting a stack up.  On any stack, whatever its calls answer and for
    any user options that follow scripts of their own without creating a NIC:
    the calls made are an initial part of one fixed script (the defaults, the
    user's options, the handlers, the NIC and its modes, the routes, the
    multicast groups), all of it when there is no error; the result is the
    stack exactly when there is none and nil otherwise; and the NIC is never
    created before the TCP, UDP and ICMP handlers are all installed, the last
    with the user's handler if there is one. *)
Theorem CreateStack_calls {S} `{GVisor S} (cfg : Config (S * list stackCall)) us nicID (s : S) :
  Forall2 follows (Options cfg) us -> existsb is_CreateNIC (concat us).*1 = false ->
  let '(e, (s', log)) := applyAll (stackOptions cfg nicID) (s, []) in
  let calls := (full_script us nicID (ICMPHandler cfg) (MulticastGroups cfg)).*1 in
  CreateStack cfg nicID (s, []) =
    match e with None => (Some (s', log), None) | Some _ => (None, e) end /\
  log `prefix_of` calls /\ (e = None -> log = calls) /\
  forall i id p, log !! i = Some (CreateNICWithOptions id) ->
    SetTransportProtocolHandler p (bool_decide (p = icmpProtocolNumber4) && ICMPHandler cfg) ∈ take i log.
Proof.
  intros Hu Hn. pose proof (stackOptions_follows cfg us nicID Hu (s, [])) as Hf.
  destruct (run_script_log (full_script us nicID (ICMPHandler cfg) (MulticastGroups cfg)) s []) as (s' & log & E & Hp & Hc).
  unfold CreateStack. rewrite Hf.
  destruct (run_script _ (s, [])) as [e sl]. cbn [fst snd app] in *. subst sl.
  split; [by destruct e|]. split; [done|]. split; [done|].
  intros i id p Hi.
  destruct (full_script_shape us nicID (ICMPHandler cfg) (MulticastGroups cfg) Hn) as (x & y & Es & Hx & Hy).
  change (full_script us nicID (ICMPHandler cfg) (MulticastGroups cfg)) with
    (full_script (S := S) us nicID (ICMPHandler cfg) (MulticastGroups cfg)) in Hp.
  rewrite Es in Hp. destruct Hp as [k Hk].
  assert ((log ++ k) !! i = Some (CreateNICWithOptions id)) as Hl by by apply lookup_app_l_Some.
  rewrite <- Hk in Hl.
  destruct (Nat.lt_trichotomy i (length x + 3)) as [Hlt|[->|Hgt]].
  - rewrite app_assoc, lookup_app_l in Hl by (rewrite length_app; simpl; lia).
    assert (is_CreateNIC (CreateNICWithOptions id) = false); [|done].
    eapply existsb_lookup; [|exact Hl]. apply existsb_app_false. by split.
  - assert (take (length x + 3) log = x ++ [SetTransportProtocolHandler tcpProtocolNumber false; SetTransportProtocolHandler udpProtocolNumber false;
      SetTransportProtocolHandler icmpProtocolNumber4 (ICMPHandler cfg)]) as ->.
    { apply lookup_lt_Some in Hi. rewrite <- (take_app_le log k) by lia. rewrite <- Hk, app_assoc.
      apply take_app_length'. rewrite length_app. simpl. lia. }
    rewrite elem_of_app. right. destruct p; cbn; set_solver.
  - rewrite lookup_app_r in Hl by lia.
    change ([_; _; _] ++ ?l) with ([SetTransportProtocolHandler tcpProtocolNumber false; SetTransportProtocolHandler udpProtocolNumber false;
      SetTransportProtocolHandler icmpProtocolNumber4 (ICMPHandler cfg);
      CreateNICWithOptions nicID] ++ y) in Hl.
    rewrite lookup_app_r in Hl by (simpl; lia).
    pose proof (existsb_lookup _ _ _ _ Hy Hl) as Hf'. done.
Qed.

Definition is_Complete (e : effect) : bool := match e with Complete _ => true | _ => false end.
Definition is_handover (e : effect) : bool :=
  match e with CallHandleTCP _ | CallHandleUDP _ => true | _ => false end.

(** Connection requests.  Whatever the endpoint and the stack answer, a
    TCP request is completed exactly once and last: with a reset exactly when
    no endpoint could be created, in which case nothing is handed over;
    otherwise the connection is handed over exactly once with the identifier
    of the request, even when a socket option fails.  A UDP packet counts as
    handled exactly when its connection was handed over. *)
Theorem forwarders_spec sockopt snd rcv create id :
  let l := forwardTCP sockopt snd rcv create id in
  filter is_Complete l = [Complete (negb (is_nil create))] /\
  last l = Some (Complete (negb (is_nil create))) /\
  filter is_handover l = (if is_nil create then [CallHandleTCP id] else []) /\
  forwardUDP create id = (if is_nil create then ([CallHandleUDP id], true) else ([], false)).
Proof.
  intros l. unfold l, forwardTCP, setSocketOptions. destruct create as [e|]; [done|]. simpl.
  repeat (destruct (sockopt _); simpl; [by split_and!|]).
  by destruct snd, rcv; split_and!.
Qed.

(** C40: ICMP.  A configured handler that takes the packet is all that happens.
    Otherwise, for gVisor's checksum being that of RFC 1071: an IPv4 echo
    request for which there is a route is answered by exactly one packet from
    the address it was sent to (any address if that was a broadcast or
    multicast one), whose header has type and code zero and a valid checksum
    and which otherwise repeats the request byte for byte; it counts as
    handled when the reply could be written.  Nothing else is answered. *)
Theorem icmp_echo mcast route write cksum h pkt ty code c1 c2 rest :
  (forall b, cksum b = ones (wordsum b)) ->
  TransportHeader pkt = ty :: code :: c1 :: c2 :: rest ->
  let local := if LocalAddressBroadcast pkt || mcast (DestinationAddress pkt)
               then [] else DestinationAddress pkt in
  exists reply, drop 4 reply = rest ++ Data pkt /\ take 2 reply = [z2b 0; z2b 0] /\
    length reply = length (TransportHeader pkt ++ Data pkt) /\ cksum reply = 65535 /\
    let w := WritePacket local (SourceAddress pkt) reply in
    HandlePacket mcast route write cksum h pkt = Some
      (if match h with Some h => h pkt | None => false end then (true, [])
       else if bool_decide (NetworkProtocolNumber pkt = Some ipv4ProtocolNumber) &&
               (b2z ty =? 8) && is_nil (route local (SourceAddress pkt))
       then if is_nil (write reply) then (true, [w; IncrementEchoReply])
            else (false, [w; IncrementDropped])
       else (false, [])).
Proof.
  intros Hck Hh local. set (all := rest ++ Data pkt).
  set (ck := 65535 - ones (wordsum (z2b 0 :: z2b 0 :: PutUint16 0 ++ all))).
  pose proof (wordsum_nonneg all) as Hw.
  assert (wordsum (z2b 0 :: z2b 0 :: PutUint16 0 ++ all) = wordsum all) as E0 by done.
  assert (0 <= ck < 65536) as Hr by (unfold ck; rewrite E0; pose proof (ones_range _ Hw); lia).
  exists (z2b 0 :: z2b 0 :: PutUint16 ck ++ all). split_and!; try done.
  - rewrite Hh. done.
  - rewrite Hck. pose proof (Uint16_Put ck Hr) as Hput. unfold Uint16, PutUint16 in Hput.
    injection Hput as Hput. unfold PutUint16. cbn [app wordsum]. rewrite Hput.
    change (b2z (z2b 0)) with 0. replace (0 * 256 + 0 + (ck + wordsum all)) with (ck + wordsum all) by lia.
    unfold ck. rewrite E0. apply ones_complement, Hw.
  - unfold HandlePacket. destruct (match h with Some h => h pkt | None => false end); [done|].
    destruct (NetworkProtocolNumber pkt) as [[]|]; [|done..].
    rewrite bool_decide_eq_true_2 by done. unfold handlePacket4. rewrite Hh.
    change ((ty :: code :: c1 :: c2 :: rest).[0]) with (Some ty). cbn [mbind option_bind andb].
    unfold ICMPv4Echo. destruct (b2z ty =? 8); [|done]. cbn [negb andb]. fold local.
    destruct (route local (SourceAddress pkt)); [done|]. cbn [is_nil app].
    change (rest ++ Data pkt) with all.
    cbv zeta. rewrite reply_zero, Hck. fold ck. rewrite reply_bytes.
    by destruct (write _).
Qed.

(** The permanent IPv6 address has fifteen initialisers for sixteen bytes: the
    one is in the last but one byte. *)
Example ip6_value : AddrString (AddrFromSlice ip6).1 = str "fd00::100".
Proof. vm_compute. reflexivity. Qed.

(** ** Witnesses *)

(** A stack on which every call but joining a group succeeds. *)
#[global] Instance noGroups : GVisor unit := {
  api c s := (match c with JoinGroup _ _ _ => Some (ErrIO 1) | _ => None end, s);
  MinBufferSize := 4096; MaxBufferSize := 8388608;
  DefaultSendBufferSize := 1048576; DefaultReceiveBufferSize := 1048576;
  TCPRACKLossDetection := 1 }.

Lemma CreateStack_calls_witness :
  let cfg := mkConfig true [Addr4 (z2b 224) (z2b 0) (z2b 0) (z2b 1)] [WithTCPSendBufferSize (S := unit * list stackCall) 9000] in
  let us := [[tcpOpt (TCPSendBufferSizeRangeOption 4096 9000 8388608) "set TCP send buffer size range"]] in
  let '(e, (s', log)) := applyAll (stackOptions cfg 1) (tt, []) in
  let calls := (full_script us 1 (ICMPHandler cfg) (MulticastGroups cfg)).*1 in
  CreateStack cfg 1 (tt, []) =
    match e with None => (Some (s', log), None) | Some _ => (None, e) end /\
  log `prefix_of` calls /\ (e = None -> log = calls) /\
  forall i id p, log !! i = Some (CreateNICWithOptions id) ->
    SetTransportProtocolHandler p (bool_decide (p = icmpProtocolNumber4) && ICMPHandler cfg) ∈ take i log.
Proof.
  intros cfg us. apply (CreateStack_calls cfg us 1 tt); [|reflexivity].
  constructor; [|constructor]. intros [[] log]. reflexivity.
Defined.

(** An echo request with an odd number of bytes. *)
Lemma icmp_echo_witness :
  let pkt := mkPacket (Some ipv4ProtocolNumber) (z2b <$> [10; 0; 0; 1]) (z2b <$> [8; 8; 8; 8]) false
    (z2b <$> [8; 0; 1; 2; 3; 4; 5; 6]) (str "abc") in
  exists reply, drop 4 reply = (z2b <$> [3; 4; 5; 6]) ++ Data pkt /\ take 2 reply = [z2b 0; z2b 0] /\
    length reply = length (TransportHeader pkt ++ Data pkt) /\ ones (wordsum reply) = 65535 /\
    let w := WritePacket (DestinationAddress pkt) (SourceAddress pkt) reply in
    HandlePacket (fun _ => false) (fun _ _ => None) (fun _ => None) (fun b => ones (wordsum b)) None pkt =
    Some (if false then (true, [])
       else if bool_decide (NetworkProtocolNumber pkt = Some ipv4ProtocolNumber) &&
               (b2z (z2b 8) =? 8) && true
       then if true then (true, [w; IncrementEchoReply]) else (false, [w; IncrementDropped])
       else (false, [])).
Proof.
  intros pkt. apply (icmp_echo (fun _ => false) (fun _ _ => None) (fun _ => None)
    (fun b => ones (wordsum b)) None pkt (z2b 8) (z2b 0) (z2b 1) (z2b 2) (z2b <$> [3; 4; 5; 6])).
  - reflexivity.
  - reflexivity.
Defined.
End core.
