(* ===== verification/Proxy.v ===== *)
(** * Proxy: packages under proxy

    The registry of protocols, the helpers they share, and the proxies built on
    the transports of the other files.  The host's network is a parameter:
    what [dialer.DialContext], [dialer.ListenPacket] and
    [net.ResolveUDPAddr] answer. *)

From S2P Require Import Prelude Net Conn Allocator Socks5 Socks4 ShadowAEAD ShadowStream SSCore Obfs.
From S2P Require Import Metadata Statistic Tunnel.
Import metadata statistic tunnel.

Open Scope Z_scope.

(** ** protocol.go *)

Module proxy.

(** What of a [*url.URL] the constructors use: the host, the path, the user's
    name and password, whether there is one, the query. *)
Record URL := mkURL {
  Scheme : gostring; Host : gostring; Path : gostring;
  UserName : gostring; UserPassword : gostring; PasswordSet : bool; RawQuery : gostring }.

Definition ErrProtocol : error := errorsNew "proxy: unknown protocol".

Section registry.
Context {P : Type}.

(** [parse = None] is the nil of the zero [protocol]; a parse that panics
    answers [None]. *)
Record protocol := mkProtocol { name : gostring; parse : option (URL -> option (option P * err)) }.

Definition RegisterProtocol (n : gostring) (f : URL -> option (option P * err))
    (formats : list protocol) : list protocol :=
  formats ++ [mkProtocol n (Some f)].

Fixpoint pick (n : gostring) (protocols : list protocol) : protocol :=
  match protocols with
  | [] => mkProtocol [] None
  | p :: protocols => if str_eqb (name p) n then p else pick n protocols
  end.

Definition Parse (protocols : list protocol) (proxyURL : URL) : option (option P * err) :=
  match parse (pick (Scheme proxyURL) protocols) with
  | None => Some (None, Some ErrProtocol)
  | Some f => f proxyURL
  end.
End registry.
Arguments protocol : clear implicits.
End proxy.

(** ** internal/utils *)

Module utils.
Definition TCPConnectTimeout : Z := 5 * Second.
Definition TCPKeepAlivePeriod : Z := 30 * Second.

(** [c] is nil or a connection; the connection afterwards. *)
Definition SafeConnClose {S} `{Closer S} (c : option S) (e : err) : option S :=
  match c, e with
  | Some c, Some _ => Some (Close c).2
  | _, _ => c
  end.

Definition SerializeSocksAddr (m : Metadata) : list byte :=
  socks5.SerializeAddr [] (DstIP m) (DstPort m).
End utils.

(** [socks5.ParseAddr] of transport/socks5; [None] inside is nil.  The method
    call on a nil [net.Addr] panics. *)
Definition ParseAddr (addr : option NetAddr) : option (option (list byte)) :=
  addr ← addr;
  Some (match AddrPortOf addr with
        | Some (a, p) => Some (socks5.SerializeAddr [] a p)
        | None => socks5.ParseAddrString (NetAddrString addr)
        end).

(** ** reject.go *)

Module reject.
Inductive nopConn := nop.
#[global] Instance nop_Reader : Reader nopConn := fun _ c => Some ([], Some EOF, c).
#[global] Instance nop_Writer : Writer nopConn := fun _ c => Some (0, Some EOF, c).
#[global] Instance nop_Closer : Closer nopConn := fun c => (None, c).
#[global] Instance nop_LocalAddr : LocalAddr nopConn := fun _ => None.
#[global] Instance nop_Deadline : Deadline nopConn := fun _ c => (None, c).
(** It has neither CloseRead nor CloseWrite. *)
#[global] Instance nop_HalfClose : HalfClose nopConn := { CloseRead := None; CloseWrite := None }.

Inductive nopPacketConn := nopPacket.
#[global] Instance nopPacket_PacketConn : PacketConn nopPacketConn (option NetAddr) := {
  WriteTo b _ c := Some (len b, None, c);
  ReadFrom _ c := Some ([], 0, None, Some EOF, c) }.
#[global] Instance nopPacket_Closer : Closer nopPacketConn := fun c => (None, c).
#[global] Instance nopPacket_Deadline : Deadline nopPacketConn := fun _ c => (None, c).
#[global] Instance nopPacket_LocalAddr : LocalAddr nopPacketConn := fun _ =>
  Some (AUDP (mkUDPAddr (replicate 16 (z2b 0)) 0)).

Definition DialContext : Z -> Metadata -> option (option nopConn * err) := fun _ _ => Some (Some nop, None).
Definition DialUDP : Metadata -> option (option nopPacketConn * err) := fun _ => Some (Some nopPacket, None).
End reject.

(** ** socks5.go *)

Module proxysocks5.
Record Socks5 := mkSocks5 { addr : gostring; user : gostring; pass : gostring; unix : bool }.

(** [None]: [addr[1]] is out of range. *)
Definition New (addr user pass : gostring) : option (option Socks5 * err) :=
  let unix := (0 <? len addr) && bool_decide (head addr = Some (z2b 47)) in
  abstract ←
    (if 2 <? len addr then
       b ← addr.[1];
       if b2z b =? 64 then Some true else Some (b2z b =? 0)
     else b ← addr.[1]; Some (b2z b =? 0));
  addr ← (if abstract : bool then addr.[1 : len addr] else Some addr);
  Some (Some (mkSocks5 addr user pass unix), None).

Definition connectTo (addr : gostring) (e : error) : error := ErrWrap (str "connect to " ++ addr) e.

Definition userOf (ss : Socks5) : option socks5.User :=
  if str_eqb (user ss) [] then None
  else Some (socks5.mkUser (user ss) (pass ss)).

Section dial.
Context {S : Type} `{Reader S, Writer S, Closer S}.
(** [dial ctx network address]. *)
Context (dial : Z -> gostring -> gostring -> option S * err).

Definition DialContext (ss : Socks5) (ctx : Z) (metadata : Metadata) : option (option S * err) :=
  let network := if unix ss then str "unix" else str "tcp" in
  let '(c, e) := dial ctx network (addr ss) in
  match e with
  | Some e => Some (None, Some (connectTo (addr ss) e))
  | None =>
      c ← c;
      '(_, e, c) ← socks5.ClientHandshake c (utils.SerializeSocksAddr metadata)
                     socks5.CmdConnect (userOf ss);
      Some (utils.SafeConnClose (Some c) e, e)
  end.
End dial.

(** [ip.IsUnspecified()] of a [net.IP]. *)
Definition IPIsUnspecified (ip : list byte) : bool :=
  bool_decide (ip = replicate 4 (z2b 0)) || bool_decide (ip = replicate 16 (z2b 0)) ||
  bool_decide (ip = v4InV6Prefix ++ replicate 4 (z2b 0)).

Record socksPacketConn (P S : Type) := mkPacketConn { pc_PacketConn : P; rAddr : UDPAddr; tcpConn : S }.
Arguments mkPacketConn {P S}. Arguments pc_PacketConn {P S}. Arguments rAddr {P S}. Arguments tcpConn {P S}.

Definition targetAddr : list byte := z2b <$> [socks5.AtypIPv4; 0; 0; 0; 0; 0; 0].

Section packets.
Context {P S : Type} `{Reader S, Writer S, Closer S, PacketConn P (option NetAddr), Closer P}.
Context (dial : Z -> gostring -> gostring -> option S * err).
Context (listen : gostring -> gostring -> option P * err).
Context (resolve : gostring -> list byte * err).

(** The control connection is also returned: it is closed on every error.  The
    goroutine that waits for it to end and then closes the socket is started
    once the socket exists. *)
Definition DialUDP (ss : Socks5)
  : option (option (socksPacketConn P S) * err * option S) :=
  if unix ss then Some (None, Some (ErrWrap (str "when unix domain socket is enabled") ErrUnsupported), None)
  else
    let '(c, e) := dial utils.TCPConnectTimeout (str "tcp") (addr ss) in
    match e with
    | Some e => Some (None, Some (connectTo (addr ss) e), None)
    | None =>
        c ← c;
        let fail e c := Some (None, Some e, utils.SafeConnClose (Some c) (Some e)) in
        '(a, e, c) ← socks5.ClientHandshake c targetAddr socks5.CmdUDPAssociate (userOf ss);
        match e with
        | Some e => fail (ErrWrap (str "client handshake") e) c
        | None =>
            let '(pc, e) := listen (str "udp") [] in
            match e with
            | Some e => fail (ErrWrap (str "listen packet") e) c
            | None =>
                pc ← pc;
                bindAddr ← socks5.ToUDPAddr (default [] a);
                match bindAddr with
                | None => fail (errorsNew "invalid UDP binding address") c
                | Some bindAddr =>
                    if IPIsUnspecified (udpIP bindAddr) then
                      let '(ip, e) := resolve (addr ss) in
                      match e with
                      | Some e => fail (ErrWrap (str "resolve udp address " ++ addr ss) e) c
                      | None => Some (Some (mkPacketConn pc (mkUDPAddr ip (udpPort bindAddr)) c), None, Some c)
                      end
                    else Some (Some (mkPacketConn pc bindAddr c), None, Some c)
                end
            end
        end
    end.

Definition packetFor (b : list byte) (a : option NetAddr) : option (list byte * err) :=
  match a with
  | Some (AMeta m) => Some (socks5.EncodeUDPPacket (Some (utils.SerializeSocksAddr m)) b)
  | _ => a ← ParseAddr a; Some (socks5.EncodeUDPPacket a b)
  end.

Definition WriteTo (b : list byte) (a : option NetAddr) (pc : socksPacketConn P S)
  : option (Z * err * socksPacketConn P S) :=
  '(packet, e) ← packetFor b a;
  check e else Some (0, e, pc) ;;
  '(n, e, p) ← Conn.WriteTo packet (Some (AUDP (rAddr pc))) (pc_PacketConn pc);
  Some (n, e, mkPacketConn p (rAddr pc) (tcpConn pc)).

(** [b] is the caller's buffer; its contents afterwards come first. *)
Definition ReadFrom (b : list byte) (pc : socksPacketConn P S)
  : option (list byte * Z * option NetAddr * err * socksPacketConn P S) :=
  '(d, n, _, e, p) ← Conn.ReadFrom (len b) (pc_PacketConn pc);
  let pc := mkPacketConn p (rAddr pc) (tcpConn pc) in
  let b := blit b 0 d in
  check e else Some (b, 0, None, e, pc) ;;
  '(a, payload, e) ← socks5.DecodeUDPPacket b;
  check e else Some (b, 0, None, e, pc) ;;
  let a := default [] a in
  udpAddr ← socks5.ToUDPAddr a;
  match udpAddr with
  | None => Some (b, 0, None, Some (errorsNew "convert to UDPAddr is nil"), pc)
  | Some u => Some (blit b 0 payload, n - len a - 3, Some (AUDP u), None, pc)
  end.

Definition PacketClose (pc : socksPacketConn P S) : err * socksPacketConn P S :=
  let '(_, c) := Close (tcpConn pc) in
  let '(e, p) := Close (pc_PacketConn pc) in
  (e, mkPacketConn p (rAddr pc) c).
End packets.

Definition Parse (u : proxy.URL) : option (option Socks5 * err) :=
  let address := proxy.Host u in
  let address := if str_eqb address [] then proxy.Path u else address in
  New address (proxy.UserName u) (proxy.UserPassword u).
End proxysocks5.

(** ** socks4.go *)

Module proxysocks4.
Record Socks4 := mkSocks4 { addr : gostring; userID : gostring }.

Definition New (addr userID : gostring) : option (option Socks4 * err) :=
  Some (Some (mkSocks4 addr userID), None).

Section dial.
Context {S : Type} `{Reader S, Writer S, Closer S}.
Context (dial : Z -> gostring -> gostring -> option S * err).

Definition DialContext (ss : Socks4) (ctx : Z) (metadata : Metadata) : option (option S * err) :=
  let '(c, e) := dial ctx (str "tcp") (addr ss) in
  match e with
  | Some e => Some (None, Some (proxysocks5.connectTo (addr ss) e))
  | None =>
      c ← c;
      '(e, c) ← socks4.ClientHandshake c (DestinationAddress metadata) socks4.CmdConnect (userID ss);
      Some (utils.SafeConnClose (Some c) e, e)
  end.
End dial.

Definition DialUDP {P} (m : Metadata) : option (option P * err) := Some (None, Some ErrUnsupported).

Definition Parse (u : proxy.URL) : option (option Socks4 * err) :=
  New (proxy.Host u) (proxy.UserName u).
End proxysocks4.

(** ** shadowsocks.go *)

Module proxyss.
Record Shadowsocks (K : Type) := mkSS {
  addr : gostring; cipher : core.Cipher K; obfsMode : gostring; obfsHost : gostring }.
Arguments mkSS {K}. Arguments addr {K}. Arguments cipher {K}. Arguments obfsMode {K}. Arguments obfsHost {K}.

Definition New {K B} (L : Lib K B) (addr method password obfsMode obfsHost : gostring)
  : option (option (Shadowsocks K) * err) :=
  '(cipher, e) ← core.PickCipher L method [] password;
  match e with
  | Some e => Some (None, Some (ErrWrap (str "ss initialize") e))
  | None => cipher ← cipher; Some (Some (mkSS addr cipher obfsMode obfsHost), None)
  end.

(** A dialled connection: the cipher over the plugin over the host's. *)
Inductive ssConn (S K R : Type) :=
| overPlain (c : core.SSConn S K R)
| overTLS (c : core.SSConn (obfs.TLSObfs S R) K R)
| overHTTP (c : core.SSConn (obfs.HTTPObfs S R) K R).
Arguments overPlain {S K R}. Arguments overTLS {S K R}. Arguments overHTTP {S K R}.

(** The host's connection underneath. *)
Definition raw {S K R} (c : ssConn S K R) : S :=
  match c with
  | overPlain c => core.inner c
  | overTLS c => obfs.t_Conn (core.inner c)
  | overHTTP c => obfs.h_Conn (core.inner c)
  end.

(** [EncodeToString] of base64. *)
Class Base64 := EncodeToString : list byte -> gostring.

#[global] Instance HTTP_Writer {S R} `{Writer S, Rand R, obfs.MathRand R, Base64}
  : Writer (obfs.HTTPObfs S R) := obfs.http_Write EncodeToString.

#[global] Instance ssConn_Reader {S K R} `{Reader S, Stream K} : Reader (ssConn S K R) := fun n c =>
  match c with
  | overPlain c => '(d, e, c) ← Read n c; Some (d, e, overPlain c)
  | overTLS c => '(d, e, c) ← Read n c; Some (d, e, overTLS c)
  | overHTTP c => '(d, e, c) ← Read n c; Some (d, e, overHTTP c)
  end.

#[global] Instance ssConn_Writer {S K R} `{Writer S, Stream K, Rand R, obfs.MathRand R, Base64}
  : Writer (ssConn S K R) := fun p c =>
  match c with
  | overPlain c => '(n, e, c) ← Write p c; Some (n, e, overPlain c)
  | overTLS c => '(n, e, c) ← Write p c; Some (n, e, overTLS c)
  | overHTTP c => '(n, e, c) ← Write p c; Some (n, e, overHTTP c)
  end.

Section dial.
Context {S K R : Type} `{Writer S, Closer S, Stream K, Rand R, obfs.MathRand R, Base64}.
Context (dial : Z -> gostring -> gostring -> option S * err).

(** [g] is the randomness of the connection, [now] the clock.  The last
    component is the host's connection, closed when there is an error. *)
Definition DialContext (g : R) (now : Z) (ss : Shadowsocks K) (ctx : Z) (metadata : Metadata)
  : option (option (ssConn S K R) * err * option S) :=
  let '(c, e) := dial ctx (str "tcp") (addr ss) in
  match e with
  | Some e => Some (None, Some (proxysocks5.connectTo (addr ss) e), None)
  | None =>
      c ← c;
      c ← (if str_eqb (obfsMode ss) (str "tls") then
             c ← core.StreamConn (cipher ss) (obfs.NewTLSObfs c (obfsHost ss) g now) g;
             Some (overTLS c)
           else if str_eqb (obfsMode ss) (str "http") then
             let '(_, port, _) := SplitHostPort (addr ss) in
             c ← core.StreamConn (cipher ss) (obfs.NewHTTPObfs c (obfsHost ss) port g) g;
             Some (overHTTP c)
           else c ← core.StreamConn (cipher ss) c g; Some (overPlain c));
      '(_, e, c) ← Write (utils.SerializeSocksAddr metadata) c;
      Some (Some c, e, utils.SafeConnClose (Some (raw c)) e)
  end.
End dial.

Record ssPacketConn (P : Type) := mkPacketConn { pc_PacketConn : P; rAddr : UDPAddr }.
Arguments mkPacketConn {P}. Arguments pc_PacketConn {P}. Arguments rAddr {P}.

Section packets.
Context {P : Type} `{PacketConn P (option NetAddr)}.

Definition WriteTo (b : list byte) (a : option NetAddr) (pc : ssPacketConn P)
  : option (Z * err * ssPacketConn P) :=
  '(packet, e) ← proxysocks5.packetFor b a;
  check e else Some (0, e, pc) ;;
  packet ← packet.[3 : len packet];
  '(n, e, p) ← Conn.WriteTo packet (Some (AUDP (rAddr pc))) (pc_PacketConn pc);
  Some (n, e, mkPacketConn p (rAddr pc)).

(** [b] is the caller's buffer; its contents afterwards come first. *)
Definition ReadFrom (b : list byte) (pc : ssPacketConn P)
  : option (list byte * Z * option NetAddr * err * ssPacketConn P) :=
  '(d, n, _, e, p) ← Conn.ReadFrom (len b) (pc_PacketConn pc);
  let pc := mkPacketConn p (rAddr pc) in
  let b := blit b 0 d in
  check e else Some (b, 0, None, e, pc) ;;
  bn ← b.[0:n];
  a ← socks5.SplitAddr bn;
  match a with
  | None => Some (b, 0, None, Some (errorsNew "parse addr error"), pc)
  | Some a =>
      udpAddr ← socks5.ToUDPAddr a;
      match udpAddr with
      | None => Some (b, 0, None, Some (errorsNew "parse addr error"), pc)
      | Some u =>
          rest ← b.[len a : len b];
          Some (blit b 0 rest, n - len a, Some (AUDP u), None, pc)
      end
  end.
End packets.
End proxyss.

(** ** relay.go *)

Module proxyrelay.
Record Relay := mkRelay { addr : gostring; user : gostring; pass : gostring; noDelay : bool }.

Definition New (addr user pass : gostring) (noDelay : bool) : option (option Relay * err) :=
  Some (Some (mkRelay addr user pass noDelay), None).

(** The request of the go-gost/relay library, its constants and its encoding. *)
Inductive Feature :=
| NetworkFeature (Network : Z)
| UserAuthFeature (Username Password : gostring)
| AddrFeature (AType : Z) (Host : gostring) (Port : Z).

Record Request := mkRequest { Version : Z; Cmd : Z; Features : list Feature }.

Record GoGost := mkGoGost {
  Version1 : Z; CmdConnect : Z; FUDP : Z; NetworkUDP : Z;
  AddrIPv4 : Z; AddrIPv6 : Z; StatusOK : Z;
  wire : Request -> list byte }.

Section relay.
Context {S : Type} `{Reader S, Writer S}.
Context (L : GoGost).

Definition serializeRelayAddr (m : Metadata) : Feature :=
  AddrFeature (if Is4 (DstIP m) then AddrIPv4 L else AddrIPv6 L) (AddrString (DstIP m)) (DstPort m).

Definition requestFor (rl : Relay) (m : Metadata) : Request :=
  let udp := network m =? UDP in
  mkRequest (Version1 L)
    (if udp then Z.lor (CmdConnect L) (FUDP L) else CmdConnect L)
    ((if udp then [NetworkFeature (NetworkUDP L)] else []) ++
     (if str_eqb (user rl) [] then [] else [UserAuthFeature (user rl) (pass rl)]) ++
     [serializeRelayAddr m]).

(** [resp.ReadFrom]: the version, the status and the error. *)
Context (response : S -> option (Z * Z * err * S)).

Definition ErrBadVersion : error := errorsNew "bad version".

Definition readRelayResponse (r : S) : option (err * S) :=
  '(v, st, e, r) ← response r;
  check e else Some (e, r) ;;
  if negb (v =? Version1 L) then Some (Some ErrBadVersion, r)
  else if negb (st =? StatusOK L) then Some (Some (ErrNew (str "status " ++ Itoa st)), r)
  else Some (None, r).

(** [wbuf] is [None] for nil; [once] is whether the first read is done. *)
Record relayConn := mkRelayConn { rl_Conn : S; udp : bool; rl_addr : NetAddr; once : bool; wbuf : option (list byte) }.

Definition newRelayConn (c : S) (addr : NetAddr) (noDelay udp : bool) : relayConn :=
  mkRelayConn c udp addr false (if noDelay then None else Some []).

Definition onConn (rc : relayConn) (c : S) : relayConn :=
  mkRelayConn c (udp rc) (rl_addr rc) (once rc) (wbuf rc).

(** What the pool's buffer of a size holds. *)
Context (pool : Z -> list byte).

Definition relayRead (n : Z) (rc : relayConn) : option (list byte * err * relayConn) :=
  '(e, rc) ←
    (if once rc then Some (None, rc)
     else
       '(e, c) ← (if wbuf rc then readRelayResponse (rl_Conn rc) else Some (None, rl_Conn rc));
       Some (e, mkRelayConn c (udp rc) (rl_addr rc) true (wbuf rc)));
  check e else Some ([], e, rc) ;;
  if negb (udp rc) then
    '(d, e, c) ← Read n (rl_Conn rc); Some (d, e, onConn rc c)
  else
    '(bb, e, c) ← ReadFull 2 (rl_Conn rc);
    check e else Some ([], e, onConn rc c) ;;
    dLen ← Uint16 bb;
    '(d, e, c) ← ReadFull dLen c;
    Some (if dLen <=? n then d else ztake n (blit (pool dLen) 0 d), e, onConn rc c).

Definition tcpWrite (b : list byte) (rc : relayConn) : option (Z * err * relayConn) :=
  match wbuf rc with
  | Some (x :: w) =>
      '(_, e, c) ← Write ((x :: w) ++ b) (rl_Conn rc);
      Some (len b, e, mkRelayConn c (udp rc) (rl_addr rc) (once rc) (Some []))
  | _ => '(n, e, c) ← Write b (rl_Conn rc); Some (n, e, onConn rc c)
  end.

Definition udpWrite (b : list byte) (rc : relayConn) : option (Z * err * relayConn) :=
  if 65535 <? len b then Some (0, Some (errorsNew "write: data maximum exceeded"), rc)
  else
    let bb := PutUint16 (u16 (len b)) in
    match wbuf rc with
    | Some (x :: w) =>
        (* [bytes.Buffer.WriteTo] keeps what was not written *)
        let all := (x :: w) ++ bb ++ b in
        '(m, e, c) ← Write all (rl_Conn rc);
        let e := match e with
                 | Some _ => e
                 | None => if m =? len all then None else Some ErrShortWrite
                 end in
        Some (len b, e, mkRelayConn c (udp rc) (rl_addr rc) (once rc) (Some (zdrop m all)))
    | _ =>
        '(_, e, c) ← Write bb (rl_Conn rc);
        check e else Some (len b, e, onConn rc c) ;;
        '(n, e, c) ← Write b c;
        Some (n, e, onConn rc c)
    end.

Definition relayWrite (b : list byte) (rc : relayConn) : option (Z * err * relayConn) :=
  if udp rc then udpWrite b rc else tcpWrite b rc.

Definition relay_PacketConn : PacketConn relayConn (option NetAddr) := {|
  ReadFrom := fun n rc =>
    '(d, e, rc) ← relayRead n rc; Some (d, len d, Some (rl_addr rc), e, rc);
  WriteTo := fun b _ rc => relayWrite b rc |}.

Context `{Closer S}.
Context (dial : Z -> gostring -> gostring -> option S * err).

(** The connection is closed on an error. *)
Definition dialContext (rl : Relay) (ctx : Z) (metadata : Metadata)
  : option (option relayConn * err * option S) :=
  let '(c, e) := dial ctx (str "tcp") (addr rl) in
  match e with
  | Some e => Some (None, Some (proxysocks5.connectTo (addr rl) e), None)
  | None =>
      c ← c;
      let req := wire L (requestFor rl metadata) in
      '(e, c) ←
        (if noDelay rl then
           '(_, e, c) ← Write req c;
           check e else Some (e, c) ;;
           readRelayResponse c
         else Some (None, c));
      check e else Some (None, e, utils.SafeConnClose (Some c) e) ;;
      let start udp :=
        let rc := newRelayConn c (AMeta metadata) (noDelay rl) udp in
        let rc := mkRelayConn (rl_Conn rc) udp (rl_addr rc) (once rc)
                    (if noDelay rl then wbuf rc else Some (default [] (wbuf rc) ++ req)) in
        Some (Some rc, None, Some c) in
      if network metadata =? TCP then start false
      else if network metadata =? UDP then start true
      else
        let e := Some (ErrNew (str "network " ++ NetworkString (network metadata) ++ str " is unsupported")) in
        Some (None, e, utils.SafeConnClose (Some c) e)
  end.

Definition DialContext (rl : Relay) (ctx : Z) (metadata : Metadata) := dialContext rl ctx metadata.

(** Its own deadline, and not that of the caller. *)
Definition DialUDP (rl : Relay) (metadata : Metadata) := dialContext rl utils.TCPConnectTimeout metadata.
End relay.
End proxyrelay.

(** ** Properties: the registry *)

Module proxyfacts.
Import proxy.

Lemma pick_app {P} n (l k : list (protocol P)) :
  pick n (l ++ k) = if existsb (fun p => str_eqb (name p) n) l then pick n l else pick n k.
Proof. induction l as [|p l IH]; [done|]. cbn. by destruct (str_eqb (name p) n). Qed.

(** The protocols after a sequence of registrations. *)
Definition registered {P} (rs : list (gostring * (URL -> option (option P * err)))) : list (protocol P) :=
  fold_left (fun l r => RegisterProtocol r.1 r.2 l) rs [].

Lemma registered_snoc {P} (rs : list (gostring * (URL -> option (option P * err)))) r :
  registered (rs ++ [r]) = RegisterProtocol r.1 r.2 (registered rs).
Proof. unfold registered. by rewrite fold_left_app. Qed.

Lemma registered_map {P} (rs : list (gostring * (URL -> option (option P * err)))) :
  registered rs = (fun r => mkProtocol r.1 (Some r.2)) <$> rs.
Proof.
  induction rs as [|r rs IH] using rev_ind; [done|].
  rewrite registered_snoc, IH, fmap_app. done.
Qed.

(** Whatever protocols have been registered, and in whatever order, parsing
    a URL calls the first one registered under its scheme, so that a later
    registration of the same name never takes effect, and answers the
    unknown-protocol error exactly when there is none. *)
Theorem registry_first {P} (rs : list (gostring * (URL -> option (option P * err)))) u :
  (exists l f k, rs = l ++ (Scheme u, f) :: k /\ Scheme u ∉ l.*1 /\ Parse (registered rs) u = f u) \/
  (Scheme u ∉ rs.*1 /\ Parse (registered rs) u = Some (None, Some ErrProtocol)).
Proof.
  rewrite registered_map. unfold Parse. induction rs as [|[n f] rs IH].
  { right. split; [by apply not_elem_of_nil|done]. }
  cbn [fmap list_fmap pick name fst snd]. destruct (str_eqb n (Scheme u)) eqn:E.
  - apply str_eqb_eq in E as ->. left. exists [], f, rs. split; [done|].
    split; [by apply not_elem_of_nil|done].
  - assert (Scheme u <> n) as Hne.
    { intros <-. by rewrite (proj2 (str_eqb_eq _ _)) in E. }
    destruct IH as [(l & g & k & -> & Hl & IH)|[Hn IH]].
    + left. exists ((n, f) :: l), g, k. split; [done|]. split; [|done].
      cbn. by rewrite not_elem_of_cons.
    + right. split; [|done]. cbn. by rewrite not_elem_of_cons.
Qed.

(** ** Reject *)

Import reject.

#[export, program] Instance nop_ReaderOk : ReaderOk nopConn := {
  Delivers _ bs e := bs = [] /\ e = EOF }.
Next Obligation.
  intros c bs e n [-> ->] Hn. exists [], (Some EOF), c. split; [done|]. split; [len_lia|done].
Qed.
#[export, program] Instance nop_WriterOk : WriterOk nopConn := {
  Sent _ := []; Writable _ := False }.
Next Obligation.
  intros c p. exists 0, (Some EOF), c. split; [done|]. split; [done|]. split; [len_lia|].
  by rewrite ztake_neg.
Qed.
#[export, program] Instance nop_ConnOk : ConnOk nopConn.
Next Obligation. done. Qed.
Next Obligation. done. Qed.
#[export, program] Instance nop_HalfCloseOk : HalfCloseOk nopConn := {
  Fin _ := True; patient := true }.
Next Obligation. done. Qed.
Next Obligation. done. Qed.
Next Obligation. done. Qed.
Next Obligation. intros d s. cbn. split_and!; try done. intros bs e Hd. by exists bs, e. Qed.

(** A TCP session through the reject proxy, under any schedule with enough
    turns, relays nothing: the client gets no byte and its connection is
    closed, nothing counts as uploaded, and the tracker has left the manager. *)
Theorem reject_relays_nothing {O} `{HalfCloseOk O, Closer O} uuid id (o : O) bo eo sched :
  Delivers o bo eo ->
  (2 * length bo + 5 <= turns true sched)%nat -> (5 <= turns false sched)%nat ->
  exists o' t pushes,
    handleTCPConn sched uuid {| tunnel.DialContext := reject.DialContext |} id o =
      Some ((Close o').2, Some (Close t).2) /\
    Sent o' = Sent o /\ calls (Close t).2 = Join uuid :: pushes ++ [Leave uuid] /\
    i64 (zsum (upBytes <$> pushes)) = 0.
Proof.
  intros Ho Ht1 Ht2.
  pose proof (handleTCPConn_run (R := nopConn) {| tunnel.DialContext := reject.DialContext |} uuid id o sched
    bo eo [] EOF Ho) as Hrun.
  destruct Hrun as (o' & t & q1 & q2 & ps & E & S1 & _ & S2 & P2 & _ & _ & Hc & _ & Hz); [done..|].
  exists o', t, ps. split; [done|].
  apply prefix_nil_inv in P2 as ->. rewrite app_nil_r in S2. split; [done|]. split; [done|].
  change ([] = [] ++ q1) in S1. simpl in S1. subst q1. by rewrite Hz.
Qed.
End proxyfacts.

(** ** Properties: SOCKS5 *)

Module socks5facts.
Import proxysocks5.

(** The constructor panics exactly on addresses shorter than two bytes, the
    empty one of a URL without host and path included; otherwise it drops the
    first byte exactly when the second one marks an abstract socket. *)
Theorem socks5_New_spec a u p :
  (New a u p = None <-> len a < 2) /\
  (2 <= len a -> exists c d r ss, a = c :: d :: r /\ New a u p = Some (Some ss, None) /\
     user ss = u /\ pass ss = p /\ (unix ss = true <-> c = z2b 47) /\
     addr ss = if ((3 <=? len a) && (b2z d =? 64)) || (b2z d =? 0) then d :: r else a).
Proof.
  destruct a as [|c [|d r]].
  - split; [by split|len_lia].
  - split; [by split|len_lia].
  - assert (forall x : bool, (if x then (c :: d :: r).[1 : len (c :: d :: r)] else Some (c :: d :: r)) =
      Some (if x then d :: r else c :: d :: r)) as Hs.
    { intros []; [|done]. rewrite slice_suffix by len_lia. by rewrite zdrop_cons, zdrop_neg by lia. }
    unfold New. replace (0 <? len (c :: d :: r)) with true by len_lia. cbn [head andb].
    change ((c :: d :: r).[1]) with (Some d). cbn [mbind option_bind].
    assert (forall x : bool, (if x then if b2z d =? 64 then Some true else Some (b2z d =? 0)
      else Some (b2z d =? 0)) = Some ((x && (b2z d =? 64)) || (b2z d =? 0))) as Hb.
    { intros []; [|done]. by destruct (b2z d =? 64). }
    rewrite Hb. cbn [mbind option_bind]. rewrite Hs. cbn [mbind option_bind].
    split; [split; [done|len_lia]|]. intros _.
    exists c, d, r. eexists. split; [done|]. split; [done|]. cbn [user pass unix addr].
    split; [done|]. split; [done|]. split.
    + rewrite bool_decide_eq_true. split; [by intros [= ->]|by intros ->].
    + by replace (2 <? len (c :: d :: r)) with (3 <=? len (c :: d :: r)) by len_lia.
Qed.

(** C33: dialling a TCP session through a SOCKS5 proxy.  A refused connection is
    reported; otherwise, whatever the server sends and however it is cut into
    segments, there is no panic, the dialogue with the server is that of
    RFC 1928 for the session's destination, or a message of it could not be
    written and nothing after it was, the result is its error, and the
    connection is closed exactly when there is one. *)
Theorem socks5_dial_spec {S} `{ConnOk S, Closer S}
    (dial : Z -> gostring -> gostring -> option S * err) (ss : Socks5) ctx m :
  let network := if unix ss then str "unix" else str "tcp" in
  match dial ctx network (addr ss) with
  | (_, Some e) => DialContext (S := S) dial ss ctx m = Some (None, Some (connectTo (addr ss) e))
  | (None, None) => True
  | (Some s, None) => forall bs e, Delivers s bs e ->
      exists r (er : err) s' sent rest,
        DialContext dial ss ctx m = Some (Some (if er then (Close s').2 else s'), er) /\
        Delivers s' rest e /\ Sent s' = Sent s ++ sent /\ (Writable s -> Writable s') /\
        (socks5.Dialogue (userOf ss) 1 (utils.SerializeSocksAddr m) e bs r er sent rest \/
         ~ Writable s /\ r = None /\
         socks5.Broken (userOf ss) 1 (utils.SerializeSocksAddr m) s' bs er sent rest)
  end.
Proof.
  intros network. unfold DialContext. fold network.
  destruct (dial ctx network (addr ss)) as [[s|] [e|]]; try done.
  intros bs e Hs%Alive_any. cbn [mbind option_bind].
  destruct (socks5.handshake_any s (utils.SerializeSocksAddr m) socks5.CmdConnect (userOf ss) _ _ _ Hs)
    as (r & er & s' & sent & rest & -> & [] & Hd).
  exists r, er, s', sent, rest. cbn [mbind option_bind]. by destruct er.
Qed.

(** C4: end to end.  A TCP session of the tunnel through a SOCKS5 proxy that
    accepts the offered method and grants the request: under any schedule with
    enough turns, the proxy is sent the greeting, the credentials if it asks,
    the CONNECT request for the address the client dialled and then exactly
    the client's bytes; the client is sent exactly what the proxy sent after
    its reply; both connections are closed. *)
Theorem socks5_session {O R} `{HalfCloseOk O, HalfCloseOk R, Closer O, Closer R, LocalAddr R}
    (dial : Z -> gostring -> gostring -> option R * err) (ss : Socks5) uuid id (o : O) (r : R) sched auth v rsv a bo eo br er out :
  dial tcpConnectTimeout (if unix ss then str "unix" else str "tcp") (addr ss) = (Some r, None) ->
  Live r ([z2b 5; z2b (if auth : bool then 2 else 0)] ++
          (if auth then [v; z2b 0] else []) ++ [v; z2b 0; rsv] ++ a ++ br) er out ->
  socks5.SocksAddr a -> (auth = true -> exists u, userOf ss = Some u /\ socks5.creds_ok u) ->
  Delivers o bo eo -> Writable o -> patient O = true -> patient R = true ->
  (2 * length bo + 5 <= turns true sched)%nat -> (2 * length br + 5 <= turns false sched)%nat ->
  exists o' t,
    handleTCPConn sched uuid {| tunnel.DialContext := DialContext dial ss |} id o =
      Some ((Close o').2, Some (Close t).2) /\
    Sent (t_Conn t) = out ++ socks5.hello (userOf ss) ++
      (if auth then default [] (socks5.credentials <$> userOf ss) else []) ++
      socks5.connect 1
        (socks5.SerializeAddr [] (parseTCPIPAddress (LocalAddress id)) (LocalPort id)) ++ bo /\
    Sent o' = Sent o ++ br.
Proof.
  intros Hdial HL Ha Hauth Ho Hwo Hpo Hpr Ht1 Ht2.
  destruct (socks5.handshake_granted r (utils.SerializeSocksAddr (idMetadata TCP id)) socks5.CmdConnect
    (userOf ss) auth v rsv a br er out HL Ha Hauth) as (r' & Hh & HL').
  pose proof (handleTCPConn_run {| tunnel.DialContext := DialContext dial ss |} uuid id o sched) as Hrun.
  cbn [tunnel.DialContext] in Hrun. unfold DialContext in Hrun at 1. rewrite Hdial in Hrun.
  cbn [mbind option_bind] in Hrun. rewrite Hh in Hrun. cbn [mbind option_bind utils.SafeConnClose] in Hrun.
  destruct (Hrun bo eo br er Ho (live_delivers _ _ _ _ HL') Ht1 Ht2)
    as (o' & t & q1 & q2 & ps & E & S1 & _ & S2 & _ & HW & _).
  destruct (HW Hwo (live_writable _ _ _ _ HL')) as [-> ->]; [by rewrite Hpo, Hpr|].
  exists o', t. split; [done|]. split; [|done].
  rewrite S1, (live_sent _ _ _ _ HL'). by rewrite <- !app_assoc.
Qed.
End socks5facts.

(** ** Properties: datagrams through SOCKS5 and Shadowsocks *)

Module packetfacts.

(** The address of a session, as both proxies serialise it. *)
Lemma packetFor_session b m :
  network m = UDP -> IsValid (DstIP m) = true -> addr_wf (DstIP m) -> 0 <= DstPort m < 65536 ->
  proxysocks5.packetFor b (Some (sessionAddr m)) =
    Some ([z2b 0; z2b 0; z2b 0] ++ utils.SerializeSocksAddr m ++ b, None).
Proof.
  intros Hn Hv Hw Hp. unfold sessionAddr, toUDPAddr. rewrite Hn, Hv.
  unfold proxysocks5.packetFor, ParseAddr, utils.SerializeSocksAddr, DestinationAddrPort.
  destruct (DstIP m) as [|x1 x2 x3 x4|bs z]; [done| |]; cbn -[u16 socks5.SerializeAddr socks5.EncodeUDPPacket app].
  - by rewrite u16_small.
  - unfold AddrFromSlice. simpl in Hw. rewrite Hw. cbn [fst]. by rewrite u16_small.
Qed.

Lemma session_SocksAddr m :
  IsValid (DstIP m) = true -> addr_wf (DstIP m) -> socks5.SocksAddr (utils.SerializeSocksAddr m).
Proof. intros. apply socks5.SerializeAddr_SocksAddr. by right. Qed.

Lemma session_UDPAddr m :
  IsValid (DstIP m) = true -> addr_wf (DstIP m) -> 0 <= DstPort m < 65536 ->
  socks5.ToUDPAddr (utils.SerializeSocksAddr m) = Some (Some (mkUDPAddr (AsSlice (DstIP m)) (DstPort m))).
Proof.
  intros Hv Hw Hp. unfold utils.SerializeSocksAddr. destruct (DstIP m) as [|x1 x2 x3 x4|bs z]; [done| |].
  - by apply (socks5.ToUDPAddr_ipv4 [x1; x2; x3; x4]).
  - apply (socks5.ToUDPAddr_ipv6 bs); [|done]. unfold len. simpl in Hw. by rewrite Hw.
Qed.

Lemma decode_session m b :
  IsValid (DstIP m) = true -> addr_wf (DstIP m) ->
  socks5.DecodeUDPPacket ([z2b 0; z2b 0; z2b 0] ++ utils.SerializeSocksAddr m ++ b) =
    Some (Some (utils.SerializeSocksAddr m), b, None).
Proof.
  intros Hv Hw. pose proof (session_SocksAddr m Hv Hw) as Ha.
  pose proof (socks5.SocksAddr_len _ Ha). rewrite socks5.Decode_header by len_lia.
  rewrite socks5.SplitAddr_complete by done. by rewrite zdrop_app_len.
Qed.

(** Copying the payload to the front of the buffer. *)
Lemma copy_front (b q tl : list byte) :
  len (q ++ tl) <= len b -> (blit b 0 (q ++ tl)).[0:len q] = Some q.
Proof. intros Hl. rewrite blit_0 by done. rewrite <- app_assoc. by apply slice_app_0. Qed.

(** C24: datagrams through SOCKS5.  A datagram for a session's destination
    leaves for the relay as one packet from which [DecodeUDPPacket] recovers
    the destination and the data; and when the relay sends that packet back,
    ReadFrom delivers exactly the data and that address, whatever the caller's
    buffer held before. *)
Theorem socks5_packets {P S} `{PacketConn P (option NetAddr)}
    (pc : proxysocks5.socksPacketConn P S) m b buf from p' :
  network m = UDP -> IsValid (DstIP m) = true -> addr_wf (DstIP m) -> 0 <= DstPort m < 65536 ->
  let a := utils.SerializeSocksAddr m in
  let pkt := [z2b 0; z2b 0; z2b 0] ++ a ++ b in
  Conn.ReadFrom (len buf) (proxysocks5.pc_PacketConn pc) = Some (pkt, len pkt, from, None, p') ->
  len pkt <= len buf ->
  proxysocks5.WriteTo b (Some (sessionAddr m)) pc =
    ('(n, e, p) ← Conn.WriteTo pkt (Some (AUDP (proxysocks5.rAddr pc))) (proxysocks5.pc_PacketConn pc);
     Some (n, e, proxysocks5.mkPacketConn p (proxysocks5.rAddr pc) (proxysocks5.tcpConn pc))) /\
  socks5.DecodeUDPPacket pkt = Some (Some a, b, None) /\
  exists buf', proxysocks5.ReadFrom buf pc =
      Some (buf', len b, Some (AUDP (mkUDPAddr (AsSlice (DstIP m)) (DstPort m))), None,
        proxysocks5.mkPacketConn p' (proxysocks5.rAddr pc) (proxysocks5.tcpConn pc)) /\
    buf'.[0:len b] = Some b.
Proof.
  intros Hn Hv Hw Hp a pkt Hr Hl. split.
  { unfold proxysocks5.WriteTo. by rewrite packetFor_session. }
  split; [by apply decode_session|].
  unfold proxysocks5.ReadFrom. rewrite Hr. cbn [mbind option_bind].
  rewrite blit_0 by done. set (tl := zdrop (len pkt) buf).
  replace (pkt ++ tl) with ([z2b 0; z2b 0; z2b 0] ++ utils.SerializeSocksAddr m ++ b ++ tl)
    by (unfold pkt; by rewrite <- !app_assoc).
  rewrite decode_session by done. cbn [mbind option_bind default from_option id].
  rewrite session_UDPAddr by done. cbn [mbind option_bind].
  fold a. replace (len pkt - len a - 3) with (len b) by (unfold pkt; len_lia).
  eexists. split; [done|]. apply copy_front. unfold tl, pkt in *. len_lia.
Qed.

(** C29: datagrams through Shadowsocks.  A datagram leaves as the destination's
    address followed by the data; what is read back from such a packet is
    exactly the data and the address; and for any datagram that comes in and
    any buffer, ReadFrom does not panic and the count it returns is between
    zero and the length of the datagram. *)
Theorem ss_packets {P} `{PacketConn P (option NetAddr)} (pc : proxyss.ssPacketConn P) m b buf d from p' :
  network m = UDP -> IsValid (DstIP m) = true -> addr_wf (DstIP m) -> 0 <= DstPort m < 65536 ->
  Conn.ReadFrom (len buf) (proxyss.pc_PacketConn pc) = Some (d, len d, from, None, p') ->
  len d <= len buf ->
  proxyss.WriteTo b (Some (sessionAddr m)) pc =
    ('(n, e, p) ← Conn.WriteTo (utils.SerializeSocksAddr m ++ b) (Some (AUDP (proxyss.rAddr pc)))
       (proxyss.pc_PacketConn pc);
     Some (n, e, proxyss.mkPacketConn p (proxyss.rAddr pc))) /\
  exists buf' n from' e, proxyss.ReadFrom buf pc =
      Some (buf', n, from', e, proxyss.mkPacketConn p' (proxyss.rAddr pc)) /\ 0 <= n <= len d /\
    (d = utils.SerializeSocksAddr m ++ b ->
       n = len b /\ from' = Some (AUDP (mkUDPAddr (AsSlice (DstIP m)) (DstPort m))) /\ e = None /\
       buf'.[0:n] = Some b).
Proof.
  intros Hn Hv Hw Hp Hr Hl. split.
  { unfold proxyss.WriteTo. rewrite packetFor_session by done. cbn [mbind option_bind].
    by rewrite (slice_app_end [z2b 0; z2b 0; z2b 0]) by len_lia. }
  unfold proxyss.ReadFrom. rewrite Hr. cbn [mbind option_bind].
  rewrite blit_0 by done. rewrite slice_app_0 by done. cbn [mbind option_bind].
  pose proof (len_nonneg d).
  destruct (socks5.SplitAddr_sound d) as (r & Hs & Ha). rewrite Hs. cbn [mbind option_bind].
  destruct r as [a|].
  2:{ eexists _, 0, _, _. split; [done|]. split; [lia|]. intros ->.
      rewrite socks5.SplitAddr_complete in Hs; [done|]. by apply session_SocksAddr. }
  destruct (Ha a eq_refl) as [Hwf [x ->]].
  assert (exists u, socks5.ToUDPAddr a = Some u) as [u Hu].
  { destruct (socks5.ToUDPAddr_total a) as [u Hu]. by exists u. }
  rewrite Hu. cbn [mbind option_bind]. destruct u as [u|].
  - rewrite slice_ok by len_lia. cbn [mbind option_bind].
    eexists _, _, _, _. split; [done|]. split; [len_lia|]. intros E.
    rewrite <- app_assoc.
    assert (a = utils.SerializeSocksAddr m) as ->.
    { rewrite E, socks5.SplitAddr_complete in Hs by by apply session_SocksAddr. congruence. }
    apply app_inv_head in E as ->. rewrite session_UDPAddr in Hu by done. injection Hu as <-.
    split; [len_lia|]. split; [done|]. split; [done|].
    rewrite zdrop_app_len by done. rewrite ztake_all by len_lia.
    replace (len (utils.SerializeSocksAddr m ++ b) - len (utils.SerializeSocksAddr m)) with (len b) by len_lia.
    apply copy_front. len_lia.
  - eexists _, 0, _, _. split; [done|]. split; [lia|]. intros E.
    assert (a = utils.SerializeSocksAddr m) as ->.
    { rewrite E, socks5.SplitAddr_complete in Hs by by apply session_SocksAddr. congruence. }
    by rewrite session_UDPAddr in Hu.
Qed.

(** A packet of the relay shorter than its header, read into a buffer that
    holds an earlier payload: the count comes out negative. *)
Example socks5_negative_count :
  let pc := proxysocks5.mkPacketConn (([([], None)], []) : Mail) (mkUDPAddr [] 0) tt in
  let buf := z2b <$> [0; 0; 0; 1; 1; 2; 3; 4; 0; 80; 7; 7] in
  match proxysocks5.ReadFrom buf pc with
  | Some (b, n, _, e, _) => n = -10 /\ e = None /\ b.[0:n] = None
  | None => False
  end.
Proof. by vm_compute. Qed.

(** A session through Shadowsocks without a plugin: the destination's address
    is the first data of the encrypted stream. *)
Import proxyss.

Lemma write_all_overPlain {S K R} `{Writer S, Stream K, Rand R, obfs.MathRand R, Base64} ps :
  forall c : core.SSConn S K R,
  write_all ps (overPlain c) = ('(e, c) ← write_all ps c; Some (e, overPlain c)).
Proof.
  induction ps as [|p ps IH]; intros c; [done|]. cbn [write_all].
  change (Write p (overPlain c)) with ('(n, e, c) ← Write p c; Some (n, e, overPlain c)).
  destruct (Write p c) as [[[n [e|]] c']|]; simpl; [done|apply IH|done].
Qed.

Lemma write_all_cons {S} `{Writer S} p ps (s : S) e s2 :
  write_all (p :: ps) s = Some (None, s2) -> Write p s = e ->
  exists n s1, e = Some (n, None, s1) /\ write_all ps s1 = Some (None, s2).
Proof.
  cbn [write_all]. intros Hw <-. destruct (Write p s) as [[[n [er|]] s1]|]; simplify_eq/=; eauto.
Qed.

Lemma SerializeSocksAddr_cons m : utils.SerializeSocksAddr m <> [].
Proof. unfold utils.SerializeSocksAddr. by destruct (DstIP m). Qed.

(** C13: a session through Shadowsocks without a plugin.  With a client built by
    the constructor, dialling succeeds on a working connection, and a server
    that picks the same cipher reads from what it is sent the destination's
    address followed by exactly the bytes written to the session, whatever
    their segmentation on either side. *)
Theorem ss_session {S T K B R} `{ConnOk S, Closer S, ReaderOk T, StreamOk K, RandOk R, obfs.MathRand R, Base64}
    (L : Lib K B) dial a method password mode host cs (g g' : R) now ctx m (s : S) (t : T) ps bs e out e' :
  LibOk L -> core.PickCipher L method [] password = Some (Some cs, None) ->
  str_eqb mode (str "tls") = false -> str_eqb mode (str "http") = false ->
  dial ctx (str "tcp") a = (Some s, None) -> Live s bs e out ->
  Forall (fun p => p <> []) ps -> IsValid (DstIP m) = true -> addr_wf (DstIP m) ->
  exists ss c w ct,
    New L a method password mode host = Some (Some ss, None) /\
    DialContext dial g now ss ctx m = Some (Some c, None, Some (raw c)) /\
    write_all ps c = Some (None, w) /\ Sent (raw w) = out ++ ct /\
    socks5.SplitAddr (utils.SerializeSocksAddr m ++ concat ps) = Some (Some (utils.SerializeSocksAddr m)) /\
    (Delivers t ct e' -> exists t0, core.StreamConn cs t g' = Some t0 /\
       Delivers t0 (utils.SerializeSocksAddr m ++ concat ps) e').
Proof.
  intros HL Hpick Htls Hhttp Hd HLive Hps Hv Hw.
  pose proof (core.PickCipher_picked L method [] password cs Hpick) as Hc.
  destruct (core.wrapped_transfer cs s t g g' (utils.SerializeSocksAddr m :: ps) bs e out e' Hc HLive)
    as (s0 & w & ct & Hs0 & Hall & Hsent & Ht).
  { constructor; [apply SerializeSocksAddr_cons|done]. }
  { done. }
  destruct (write_all_cons _ _ _ _ _ Hall eq_refl) as (n & s1 & Hw1 & Hall1).
  exists (mkSS a cs mode host), (overPlain s1), (overPlain w), ct.
  split. { unfold New. by rewrite Hpick. }
  split.
  { unfold DialContext. cbn [addr cipher obfsMode]. rewrite Hd. cbn [mbind option_bind].
    rewrite Htls, Hhttp, Hs0. cbn [mbind option_bind].
    change (Write (utils.SerializeSocksAddr m) (overPlain s0)) with
      ('(n, e, c) ← Write (utils.SerializeSocksAddr m) s0; Some (n, e, overPlain c)).
    by rewrite Hw1. }
  split. { by rewrite write_all_overPlain, Hall1. }
  split; [done|]. split; [|done].
  apply socks5.SplitAddr_complete. by apply session_SocksAddr.
Qed.
End packetfacts.

(** ** Properties: the relay protocol *)

Module relayfacts.
Import proxyrelay.

(** A datagram on the relay's connection. *)
Definition frame (q : list byte) : list byte := PutUint16 (len q) ++ q.

Section facts.
Context {S : Type} `{ConnOk S, Closer S}.
Context (L : GoGost) (response : S -> option (Z * Z * err * S)).
Context (pool : Z -> list byte) (pool_len : forall n, 0 <= n -> len (pool n) = n).

#[local] Notation relay := (relay_PacketConn L response pool).

Lemma udpWrite_live b rc w bs e out :
  udp rc = true -> wbuf rc = Some w -> Live (rl_Conn rc) bs e out -> len b <= 65535 ->
  exists c', relayWrite b rc = Some (len b, None, mkRelayConn c' true (rl_addr rc) (once rc) (Some [])) /\
    Live c' bs e (out ++ w ++ frame b).
Proof.
  intros Hu Hb HL Hl. pose proof (len_nonneg b). unfold relayWrite, udpWrite. rewrite Hu, Hb.
  replace (65535 <? len b) with false by lia. rewrite u16_small by lia. fold (frame b).
  destruct w as [|x w].
  - unfold frame. live_step HL. live_step HL. rewrite <- app_assoc in HL.
    eexists. split; [|done]. unfold onConn. by rewrite Hu, Hb.
  - destruct (Live_Write ((x :: w) ++ frame b) _ _ _ _ HL) as (c' & -> & HL'). cbn [mbind option_bind].
    rewrite Z.eqb_refl, zdrop_all by lia. by eexists.
Qed.

Lemma relayRead_live n q rc bs e out :
  udp rc = true -> once rc = true -> Live (rl_Conn rc) (frame q ++ bs) e out -> len q <= 65535 ->
  exists c', relayRead L response pool n rc = Some (ztake n q, None, onConn rc c') /\ Live c' bs e out.
Proof.
  intros Hu Ho HL Hq. pose proof (len_nonneg q). unfold relayRead. rewrite Ho.
  cbn [mbind option_bind]. rewrite Hu. unfold frame in HL. rewrite <- app_assoc in HL.
  live_step HL. rewrite Uint16_Put by lia. cbn [mbind option_bind negb].
  live_step HL. eexists. split; [|done]. do 3 f_equal. case_match eqn:E.
  - by rewrite ztake_all by lia.
  - f_equal. rewrite blit_0 by (rewrite pool_len; lia).
    by rewrite zdrop_all, app_nil_r by (rewrite pool_len; lia).
Qed.

(** What the tunnel sends through the connection, and what it receives with
    buffers of the given sizes. *)
Fixpoint sendAll (ps : list (list byte)) (rc : relayConn) : option (err * relayConn) :=
  match ps with
  | [] => Some (None, rc)
  | p :: ps => '(_, e, rc) ← @WriteTo _ _ relay p None rc; check e else Some (e, rc) ;; sendAll ps rc
  end.

Fixpoint receive (ns : list Z) (rc : relayConn) : option (list (list byte * option NetAddr) * err * relayConn) :=
  match ns with
  | [] => Some ([], None, rc)
  | n :: ns =>
      '(d, _, a, e, rc) ← @ReadFrom _ _ relay n rc;
      check e else Some ([], e, rc) ;;
      '(r, e, rc) ← receive ns rc; Some ((d, a) :: r, e, rc)
  end.

Lemma sendAll_live ps : forall rc bs e out w,
  udp rc = true -> wbuf rc = Some w -> Live (rl_Conn rc) bs e out -> Forall (fun p => len p <= 65535) ps ->
  ps <> [] ->
  exists c', sendAll ps rc = Some (None, mkRelayConn c' true (rl_addr rc) (once rc) (Some [])) /\
    Live c' bs e (out ++ w ++ concat (frame <$> ps)).
Proof.
  induction ps as [|p ps IH]; intros rc bs e out w Hu Hw HL Hps Hne; [done|].
  inversion Hps as [|? ? Hp Hps']; subst. cbn [sendAll].
  destruct (udpWrite_live p rc w bs e out Hu Hw HL Hp) as (c1 & Hr & HL1).
  change (@WriteTo _ _ relay p None rc) with (relayWrite p rc). rewrite Hr. cbn [mbind option_bind].
  destruct ps as [|p' ps].
  { exists c1. split; [done|]. cbn. by rewrite app_nil_r. }
  destruct (IH (mkRelayConn c1 true (rl_addr rc) (once rc) (Some [])) bs e _ [] eq_refl eq_refl HL1 Hps')
    as (c2 & -> & HL2); [done|].
  exists c2. split; [done|]. rewrite <- !app_assoc in HL2. exact HL2.
Qed.

Lemma receive_live qs : forall ns rc bs e out,
  udp rc = true -> once rc = true -> Live (rl_Conn rc) (concat (frame <$> qs) ++ bs) e out ->
  Forall (fun q => len q <= 65535) qs -> length ns = length qs ->
  exists c', receive ns rc =
      Some ((fun q => (q, Some (rl_addr rc))) <$> zip_with ztake ns qs, None, onConn rc c') /\
    Live c' bs e out.
Proof.
  induction qs as [|q qs IH]; intros [|n ns] rc bs e out Hu Ho HL Hqs Hlen; try done.
  - exists (rl_Conn rc). split; [|done]. by destruct rc.
  - inversion Hqs as [|? ? Hq Hqs']; subst. cbn [receive].
    cbn [fmap list_fmap concat] in HL. rewrite <- app_assoc in HL.
    destruct (relayRead_live n q rc _ e out Hu Ho HL Hq) as (c1 & Hr & HL1).
    change (@ReadFrom _ _ relay n rc) with
      ('(d, e, rc) ← relayRead L response pool n rc; Some (d, len d, Some (rl_addr rc), e, rc)).
    rewrite Hr. cbn [mbind option_bind].
    destruct (IH ns (onConn rc c1) bs e out Hu Ho HL1 Hqs') as (c2 & -> & HL2); [by injection Hlen|].
    by exists c2.
Qed.

(** The first read takes the server's response off the connection. *)
Lemma receive_first ns rc c' :
  once rc = false -> wbuf rc = Some [] -> response (rl_Conn rc) = Some (Version1 L, StatusOK L, None, c') ->
  ns <> [] -> receive ns rc = receive ns (mkRelayConn c' (udp rc) (rl_addr rc) true (Some [])).
Proof.
  intros Ho Hw Hr Hne. destruct ns as [|n ns]; [done|]. cbn [receive].
  change (@ReadFrom _ _ relay n rc) with
    ('(d, e, rc) ← relayRead L response pool n rc; Some (d, len d, Some (rl_addr rc), e, rc)).
  change (@ReadFrom _ _ relay n (mkRelayConn c' (udp rc) (rl_addr rc) true (Some []))) with
    ('(d, e, rc) ← relayRead L response pool n (mkRelayConn c' (udp rc) (rl_addr rc) true (Some []));
     Some (d, len d, Some (rl_addr rc), e, rc)).
  unfold relayRead. rewrite Ho, Hw. unfold readRelayResponse. rewrite Hr. cbn [mbind option_bind].
  by rewrite !Z.eqb_refl.
Qed.
End facts.

(** C22: a datagram session over the relay protocol.  When the server accepts
    the request, what the connection carries is the request, sent once, and
    then every datagram of the tunnel behind its length, in order; and the
    reads return the server's datagrams one by one, each cut to the size of
    the buffer, under the session's address, however the stream is cut into
    segments. *)
Theorem relay_udp_session {S} `{ConnOk S, Closer S} (L : GoGost) (response : S -> option (Z * Z * err * S))
    pool dial rl m c bs e out ps qs ns :
  (forall n, 0 <= n -> len (pool n) = n) ->
  dial utils.TCPConnectTimeout (str "tcp") (addr rl) = (Some c, None) -> network m = UDP -> noDelay rl = false ->
  Live c bs e out ->
  (forall c' out', Live c' bs e out' -> exists c'',
     response c' = Some (Version1 L, StatusOK L, None, c'') /\ Live c'' (concat (frame <$> qs)) e out') ->
  Forall (fun p => len p <= 65535) ps -> ps <> [] ->
  Forall (fun q => len q <= 65535) qs -> length ns = length qs -> ns <> [] ->
  exists rc rc1 rc2,
    DialUDP L response dial rl m = Some (Some rc, None, Some c) /\
    sendAll L response pool ps rc = Some (None, rc1) /\
    Sent (rl_Conn rc1) = out ++ wire L (requestFor L rl m) ++ concat (frame <$> ps) /\
    receive L response pool ns rc1 =
      Some ((fun q => (q, Some (AMeta m))) <$> zip_with ztake ns qs, None, rc2).
Proof.
  intros Hpool Hd Hn Hnd HL Hresp Hps Hpe Hqs Hlen Hne.
  set (rc := mkRelayConn c true (AMeta m) false (Some (wire L (requestFor L rl m)))).
  destruct (sendAll_live L response pool ps rc bs e out _ eq_refl eq_refl HL Hps Hpe) as (c1 & Hs & HL1).
  destruct (Hresp _ _ HL1) as (c2 & Hr & HL2). rewrite <- (app_nil_r (concat _)) in HL2.
  destruct (receive_live L response pool Hpool qs ns (mkRelayConn c2 true (AMeta m) true (Some [])) [] e _
    eq_refl eq_refl HL2 Hqs Hlen) as (c3 & Hrc & _).
  exists rc. eexists _, _. split.
  { unfold DialUDP, dialContext. rewrite Hd, Hnd, Hn. cbn [mbind option_bind]. done. }
  split; [exact Hs|]. split; [apply HL1|]. 
  pose proof (receive_first L response pool ns (mkRelayConn c1 true (AMeta m) false (Some [])) c2
    eq_refl eq_refl Hr Hne) as Hf.
  exact (eq_trans Hf Hrc).
Qed.

(** A server whose response is its version and status. *)
Definition toyGost : GoGost := mkGoGost 1 1 128 1 1 3 0 (fun rq => [z2b (Version rq); z2b (Cmd rq)]).

Definition toyResponse (c : Wire) : option (Z * Z * err * Wire) :=
  '(d, e, c) ← ReadFull 2 c;
  check e else Some (0, 0, e, c) ;;
  v ← d.[0]; st ← d.[1]; Some (b2z v, b2z st, None, c).

(** Its bytes, cut in the middle of a length and of a datagram. *)
Definition relay_segs : list (list byte) :=
  [[z2b 1]; [z2b 0; z2b 0; z2b 4] ++ str "po"; str "ng" ++ [z2b 0]; [z2b 1] ++ str "x"].

Lemma relay_udp_session_witness :
  let qs := [str "pong"; str "x"] in
  let c := dialed relay_segs EOF in
  let m := idMetadata UDP demoID in
  let rl := mkRelay (str "proxy:80") [] [] false in
  let pool n := replicate (Z.to_nat n) (z2b 7) in
  let dial (_ : Z) (_ _ : gostring) := (Some c, None) in
  exists rc rc1 rc2,
    DialUDP toyGost toyResponse dial rl m = Some (Some rc, None, Some c) /\
    sendAll toyGost toyResponse pool [str "ping"] rc = Some (None, rc1) /\
    Sent (rl_Conn rc1) = [] ++ wire toyGost (requestFor toyGost rl m) ++ concat (frame <$> [str "ping"]) /\
    receive toyGost toyResponse pool [3; 9] rc1 =
      Some ((fun q => (q, Some (AMeta m))) <$> zip_with ztake [3; 9] qs, None, rc2).
Proof.
  intros qs c m rl pool dial.
  apply (relay_udp_session toyGost toyResponse pool dial rl m c
    ([z2b 1; z2b 0] ++ concat (frame <$> qs)) EOF [] [str "ping"] qs [3; 9]);
    [|reflexivity|reflexivity|reflexivity| | | |discriminate| |reflexivity|discriminate].
  - intros n Hn. unfold pool. rewrite len_replicate. by apply Z2Nat.id.
  - apply (dialed_Live relay_segs). repeat constructor; discriminate.
  - intros c' out' HL. unfold toyResponse. live_step HL. eexists. split; [reflexivity|exact HL].
  - repeat constructor; discriminate.
  - repeat constructor; discriminate.
Defined.
End relayfacts.

(** ** Witnesses *)

Module proxywitness.
Import proxy proxyfacts socks5facts packetfacts.

Lemma reject_relays_nothing_witness :
  let o := dialed [str "GET"] EOF in
  exists o' t pushes,
    handleTCPConn (fair 12) (str "id") {| tunnel.DialContext := reject.DialContext |} demoID o =
      Some ((Close o').2, Some (Close t).2) /\
    Sent o' = Sent o /\ calls (Close t).2 = Join (str "id") :: pushes ++ [Leave (str "id")] /\
    i64 (zsum (upBytes <$> pushes)) = 0.
Proof.
  intros o. apply (reject_relays_nothing (str "id") demoID o (str "GET") EOF (fair 12)).
  - split; [reflexivity|]. split; [|done]. by repeat constructor.
  - apply Nat.leb_le. reflexivity.
  - apply Nat.leb_le. reflexivity.
Defined.

Lemma socks5_New_spec_witness :
  let a := [z2b 0] ++ str "@sock" in
  2 <= len a /\ exists c d r ss, a = c :: d :: r /\ proxysocks5.New a [] [] = Some (Some ss, None) /\
     proxysocks5.user ss = [] /\ proxysocks5.pass ss = [] /\ (proxysocks5.unix ss = true <-> c = z2b 47) /\
     proxysocks5.addr ss = if ((3 <=? len a) && (b2z d =? 64)) || (b2z d =? 0) then d :: r else a.
Proof. intros a. split; [by vm_compute|]. apply (socks5_New_spec a [] []). by vm_compute. Defined.

Definition demo_socks5 : proxysocks5.Socks5 := proxysocks5.mkSocks5 (str "proxy:1080") (str "test") (str "secret") false.

Lemma socks5_dial_spec_witness :
  let s := mkWire socks5.demo_server EOF [] (Some 5) false in
  let dial (_ : Z) (_ _ : gostring) := (Some s, None) in
  exists r (er : err) s' sent rest,
    proxysocks5.DialContext dial demo_socks5 0 (idMetadata TCP demoID) =
      Some (Some (if er then (Close s').2 else s'), er) /\
    Delivers s' rest EOF /\ Sent s' = Sent s ++ sent /\ (Writable s -> Writable s') /\
    (socks5.Dialogue (proxysocks5.userOf demo_socks5) 1
       (utils.SerializeSocksAddr (idMetadata TCP demoID)) EOF (concat socks5.demo_server) r er sent rest \/
     ~ Writable s /\ r = None /\
     socks5.Broken (proxysocks5.userOf demo_socks5) 1
       (utils.SerializeSocksAddr (idMetadata TCP demoID)) s' (concat socks5.demo_server) er sent rest).
Proof.
  intros s dial. apply (socks5_dial_spec dial demo_socks5 0 (idMetadata TCP demoID)).
  split; [reflexivity|]. split; [|done]. repeat constructor; discriminate.
Defined.

Lemma socks5_session_witness :
  let o := dialed [str "GET"] EOF in
  let a := z2b <$> [1; 0; 0; 0; 0; 0; 0] in
  let segs := [[z2b 5; z2b 2; z2b 1]; [z2b 0; z2b 1; z2b 0; z2b 0] ++ a ++ str "O"; str "K"] in
  let r := dialed segs EOF in
  let dial (_ : Z) (_ _ : gostring) := (Some r, None) in
  exists o' t,
    handleTCPConn (fair 12) (str "id") {| tunnel.DialContext := proxysocks5.DialContext dial demo_socks5 |} demoID o =
      Some ((Close o').2, Some (Close t).2) /\
    Sent (t_Conn t) = [] ++ socks5.hello (proxysocks5.userOf demo_socks5) ++
      default [] (socks5.credentials <$> proxysocks5.userOf demo_socks5) ++
      socks5.connect 1
        (socks5.SerializeAddr [] (parseTCPIPAddress (LocalAddress demoID)) (LocalPort demoID)) ++ str "GET" /\
    Sent o' = Sent o ++ str "OK".
Proof.
  intros o a segs r dial.
  apply (socks5_session dial demo_socks5 (str "id") demoID o r (fair 12) true (z2b 1) (z2b 0) a
    (str "GET") EOF (str "OK") EOF []); try reflexivity.
  - apply (dialed_Live segs). repeat constructor; discriminate.
  - apply (socks5.SerializeAddr_SocksAddr [] (Addr4 (z2b 0) (z2b 0) (z2b 0) (z2b 0)) 0). by right.
  - intros _. exists socks5.demo_user. split; [done|]. unfold socks5.creds_ok. vm_compute. intuition discriminate.
  - split; [reflexivity|]. split; [|done]. by repeat constructor.
  - done.
  - apply Nat.leb_le. reflexivity.
  - apply Nat.leb_le. reflexivity.
Defined.

Lemma socks5_packets_witness :
  let m := idMetadata UDP demoID in
  let a := utils.SerializeSocksAddr m in
  let pkt := [z2b 0; z2b 0; z2b 0] ++ a ++ str "ping" in
  let pc := proxysocks5.mkPacketConn (([(pkt, None)], []) : Mail) (mkUDPAddr [] 53) tt in
  let p' : Mail := ([], []) in
  let buf := replicate 40 (z2b 9) in
  proxysocks5.WriteTo (str "ping") (Some (sessionAddr m)) pc =
    ('(n, e, p) ← Conn.WriteTo pkt (Some (AUDP (proxysocks5.rAddr pc))) (proxysocks5.pc_PacketConn pc);
     Some (n, e, proxysocks5.mkPacketConn p (proxysocks5.rAddr pc) (proxysocks5.tcpConn pc))) /\
  socks5.DecodeUDPPacket pkt = Some (Some a, str "ping", None) /\
  exists buf', proxysocks5.ReadFrom buf pc =
      Some (buf', len (str "ping"), Some (AUDP (mkUDPAddr (AsSlice (DstIP m)) (DstPort m))), None,
        proxysocks5.mkPacketConn p' (proxysocks5.rAddr pc) (proxysocks5.tcpConn pc)) /\
    buf'.[0:len (str "ping")] = Some (str "ping").
Proof.
  intros m a pkt pc p' buf.
  apply (socks5_packets pc m (str "ping") buf None p'); try reflexivity.
  - by vm_compute.
  - by vm_compute.
Defined.

Lemma ss_packets_witness :
  let m := idMetadata UDP demoID in
  let d := utils.SerializeSocksAddr m ++ str "ping" in
  let pc := proxyss.mkPacketConn (([(d, None)], []) : Mail) (mkUDPAddr [] 53) in
  let p' : Mail := ([], []) in
  let buf := replicate 40 (z2b 9) in
  proxyss.WriteTo (str "ping") (Some (sessionAddr m)) pc =
    ('(n, e, p) ← Conn.WriteTo (utils.SerializeSocksAddr m ++ str "ping") (Some (AUDP (proxyss.rAddr pc)))
       (proxyss.pc_PacketConn pc);
     Some (n, e, proxyss.mkPacketConn p (proxyss.rAddr pc))) /\
  exists buf' n from' e, proxyss.ReadFrom buf pc =
      Some (buf', n, from', e, proxyss.mkPacketConn p' (proxyss.rAddr pc)) /\ 0 <= n <= len d /\
    (d = utils.SerializeSocksAddr m ++ str "ping" ->
       n = len (str "ping") /\ from' = Some (AUDP (mkUDPAddr (AsSlice (DstIP m)) (DstPort m))) /\ e = None /\
       buf'.[0:n] = Some (str "ping")).
Proof.
  intros m d pc p' buf.
  apply (ss_packets pc m (str "ping") buf d None p'); try reflexivity.
  - by vm_compute.
  - by vm_compute.
Defined.

#[local] Existing Instances core.Xor55 core.Xor55_ok obfs.zeroMath.
#[local] Instance toyBase64 : proxyss.Base64 := fun b => b.

Lemma ss_session_witness :
  let m := idMetadata TCP demoID in
  let a := str "proxy:8388" in
  let cs := core.AeadCipher (Some (shadowaead.metaCipher (hkdf core.toyLib) (replicate 16 (z2b 1))
             (gcm core.toyLib))) (replicate 16 (z2b 1)) : core.Cipher unit in
  let s := dialed [] EOF in
  let t := dialed [] EOF in
  let dial (_ : Z) (_ _ : gostring) := (Some s, None) in
  exists ss c w ct,
    proxyss.New core.toyLib a (str "aes-128-gcm") (str "secret") [] [] = Some (Some ss, None) /\
    proxyss.DialContext dial tt 0 ss 0 m = Some (Some c, None, Some (proxyss.raw c)) /\
    write_all [str "GET"] c = Some (None, w) /\ Sent (proxyss.raw w) = [] ++ ct /\
    socks5.SplitAddr (utils.SerializeSocksAddr m ++ concat [str "GET"]) = Some (Some (utils.SerializeSocksAddr m)) /\
    (Delivers t ct EOF -> exists t0, core.StreamConn cs t tt = Some t0 /\
       Delivers t0 (utils.SerializeSocksAddr m ++ concat [str "GET"]) EOF).
Proof.
  intros m a cs s t dial.
  apply (ss_session core.toyLib dial a (str "aes-128-gcm") (str "secret") [] [] cs tt tt 0 0 m s t
    [str "GET"] [] EOF [] EOF); try reflexivity.
  - apply core.toyLib_ok.
  - by apply (dialed_Live []).
  - repeat constructor; discriminate.
Defined.
End proxywitness.
