(* ===== verification/Endpoint.v ===== *)
(** * Endpoint: package core/device/iobased

    The link endpoint over an [io.ReadWriter] of packets: the goroutine that
    reads the device and injects packets into the network stack, and the one
    that writes the stack's packets back.  gVisor's channel endpoint and its
    header package are third-party: [Channel] is what the code calls of them,
    [ChannelOk] what it relies on.  The device is [Device].  [step] interleaves
    the two goroutines with Attach and with the stack's own writes. *)

From S2P Require Import Prelude Tunnel Stack.

Open Scope Z_scope.

Module iobased.

(** The device: [Read(data)] answers the buffer, the count and the error. *)
Class Device (D : Type) := {
  dev_Read : list byte -> D -> option (list byte * Z * err * D);
  dev_Write : list byte -> D -> option (Z * err * D) }.

(** gVisor: [channel.Endpoint] and [header.IPVersion].  [ReadContext cancelled
    choice] is [None] while it blocks; when both of its cases are ready Go's
    select takes either, as [choice] says. *)
Class Channel (C : Type) := {
  ch_New : Z -> Z -> C;
  ch_Attach : bool -> C -> C;
  IsAttached : C -> bool;
  InjectInbound : NetworkProtocol -> list byte -> C -> C;
  ReadContext : bool -> bool -> C -> option (option (list byte) * C);
  ch_WritePacket : list byte -> C -> C;
  IPVersion : list byte -> Z;
  IPv4Version : Z; IPv6Version : Z }.

Definition defaultOutQueueLen : Z := Z.shiftl 1 10.

(** [once]: whether the goroutines have been started; [wg]: the wait group;
    [cancelled]: whether the context is; [dispatching] and [outbounding]:
    whether each goroutine is in its loop. *)
Record Endpoint (C D : Type) := mkEndpoint {
  ep_Chan : C; rw : D; mtu : Z; offset : Z; once : bool; wg : Z;
  cancelled : bool; dispatching : bool; outbounding : bool }.
Arguments mkEndpoint {C D}. Arguments ep_Chan {C D}. Arguments rw {C D}. Arguments mtu {C D}.
Arguments offset {C D}. Arguments once {C D}. Arguments wg {C D}. Arguments cancelled {C D}.
Arguments dispatching {C D}. Arguments outbounding {C D}.

Section endpoint.
Context {C D : Type} `{Channel C, Device D}.

Definition New (rw : option D) (mtu offset : Z) : option (Endpoint C D) * err :=
  if mtu =? 0 then (None, Some (errorsNew "MTU size is zero"))
  else match rw with
  | None => (None, Some (errorsNew "RW interface is nil"))
  | Some rw =>
      if offset <? 0 then (None, Some (errorsNew "offset must be non-negative"))
      else (Some (mkEndpoint (ch_New defaultOutQueueLen mtu) rw mtu offset false 0 false false false), None)
  end.

Definition onChan (e : Endpoint C D) (c : C) : Endpoint C D :=
  mkEndpoint c (rw e) (mtu e) (offset e) (once e) (wg e) (cancelled e) (dispatching e) (outbounding e).
Definition onDev (e : Endpoint C D) (d : D) : Endpoint C D :=
  mkEndpoint (ep_Chan e) d (mtu e) (offset e) (once e) (wg e) (cancelled e) (dispatching e) (outbounding e).

(** [dispatcher] is whether it is not nil. *)
Definition Attach (dispatcher : bool) (e : Endpoint C D) : Endpoint C D :=
  let e := onChan e (ch_Attach dispatcher (ep_Chan e)) in
  if once e then e
  else mkEndpoint (ep_Chan e) (rw e) (mtu e) (offset e) true (wg e + 2) false true true.

(** The loop is left: [cancel()], then [wg.Done()]. *)
Definition dispatchEnd (e : Endpoint C D) : Endpoint C D :=
  mkEndpoint (ep_Chan e) (rw e) (mtu e) (offset e) (once e) (wg e - 1) true false (outbounding e).

(** One turn of the dispatch loop. *)
Definition dispatchTurn (e : Endpoint C D) : option (Endpoint C D) :=
  let data := replicate (Z.to_nat (offset e + mtu e)) (z2b 0) in
  '(data, n, er, d) ← dev_Read data (rw e);
  let e := onDev e d in
  match (er : err) with
  | Some _ => Some (dispatchEnd e)
  | None =>
      if (n =? 0) || (mtu e <? n) then Some e
      else if negb (IsAttached (ep_Chan e)) then Some e
      else
        pkt ← data.[offset e : offset e + n];
        rest ← data.[offset e : len data];
        let v := IPVersion rest in
        Some (if v =? IPv4Version then onChan e (InjectInbound ipv4ProtocolNumber pkt (ep_Chan e))
              else if v =? IPv6Version then onChan e (InjectInbound ipv6ProtocolNumber pkt (ep_Chan e))
              else e)
  end.

Definition writePacket (pkt : list byte) (e : Endpoint C D) : option (err * Endpoint C D) :=
  let buf := if negb (offset e =? 0) then replicate (Z.to_nat (offset e)) (z2b 0) ++ pkt else pkt in
  '(_, er, d) ← dev_Write buf (rw e);
  Some (match (er : err) with
        | Some _ => Some (errorsNew "endpoint is in invalid state")
        | None => None
        end, onDev e d).

(** One turn of the outbound loop; unchanged while it blocks. *)
Definition outboundTurn (choice : bool) (e : Endpoint C D) : option (Endpoint C D) :=
  match ReadContext (cancelled e) choice (ep_Chan e) with
  | None => Some e
  | Some (None, c) =>
      Some (mkEndpoint c (rw e) (mtu e) (offset e) (once e) (wg e - 1) (cancelled e) (dispatching e) false)
  | Some (Some pkt, c) => '(_, e) ← writePacket pkt (onChan e c); Some e
  end.

(** [Wait] returns. *)
Definition Waited (e : Endpoint C D) : bool := wg e =? 0.

Inductive label :=
| LAttach (dispatcher : bool)
| LDispatch
| LOutbound (choice : bool)
| LStack (pkt : list byte).

Definition step (l : label) (e : Endpoint C D) : option (Endpoint C D) :=
  match l with
  | LAttach b => Some (Attach b e)
  | LDispatch => if dispatching e then dispatchTurn e else Some e
  | LOutbound b => if outbounding e then outboundTurn b e else Some e
  | LStack p => Some (onChan e (ch_WritePacket p (ep_Chan e)))
  end.

Fixpoint run (ls : list label) (e : Endpoint C D) : option (Endpoint C D) :=
  match ls with
  | [] => Some e
  | l :: ls => e ← step l e; run ls e
  end.
End endpoint.

(** ** What the endpoint relies on *)

(** A channel endpoint: the queue of packets to be read, all that were ever
    put in it, and what has been injected.  A full queue drops the packet; an
    injected packet may make the stack answer at once. *)
Class ChannelOk (C : Type) `{Channel C} := {
  queued : C -> list (list byte);
  ever : C -> list (list byte);
  inbound : C -> list (NetworkProtocol * list byte);
  new_ok : forall n m, queued (ch_New n m) = [] /\ ever (ch_New n m) = [] /\ inbound (ch_New n m) = [];
  attach_ok : forall b c, IsAttached (ch_Attach b c) = b /\ queued (ch_Attach b c) = queued c /\
    ever (ch_Attach b c) = ever c /\ inbound (ch_Attach b c) = inbound c;
  inject_ok : forall v p c, IsAttached c = true -> exists q,
    IsAttached (InjectInbound v p c) = true /\ queued (InjectInbound v p c) = queued c ++ q /\
    ever (InjectInbound v p c) = ever c ++ q /\ inbound (InjectInbound v p c) = inbound c ++ [(v, p)];
  write_packet_ok : forall p c, exists q, (q = [p] \/ q = []) /\
    IsAttached (ch_WritePacket p c) = IsAttached c /\ queued (ch_WritePacket p c) = queued c ++ q /\
    ever (ch_WritePacket p c) = ever c ++ q /\ inbound (ch_WritePacket p c) = inbound c;
  read_context_ok : forall cancelled choice c,
    match ReadContext cancelled choice c with
    | None => cancelled = false /\ queued c = []
    | Some (None, c') => cancelled = true /\ c' = c
    | Some (Some p, c') => queued c = p :: queued c' /\ ever c' = ever c /\ inbound c' = inbound c /\
        IsAttached c' = IsAttached c
    end;
  version_ok : forall p x, p <> [] -> IPVersion (p ++ x) = IPVersion p }.

(** A packet of the stack, as a device with an offset is given it. *)
Definition framed (off : Z) (p : list byte) : list byte := replicate (Z.to_nat off) (z2b 0) ++ p.

(** A device whose packets start at [off] in the buffer; it counts a packet
    without the bytes before it.  [Packets d l ps e]: reads into buffers of
    length [l] yield the packets [ps] and then fail with [e].  What it is given
    to write starts with [off] bytes that are not of the packet. *)
Class DeviceOk (D : Type) (off : Z) `{Device D} := {
  Packets : D -> Z -> list (list byte) -> error -> Prop;
  Wrote : D -> list (list byte);
  Healthy : D -> Prop;
  dev_packet : forall d p ps e data, Packets d (len data) (p :: ps) e -> Healthy d -> len p <= len data ->
    exists data' d', dev_Read data d = Some (data', len p, None, d') /\ len data' = len data /\
      (off + len p <= len data -> data'.[off : off + len p] = Some p) /\
      Packets d' (len data) ps e /\ Healthy d' /\ Wrote d' = Wrote d;
  dev_end : forall d e data, Packets d (len data) [] e -> Healthy d ->
    exists data' n d', dev_Read data d = Some (data', n, Some e, d') /\ Healthy d' /\ Wrote d' = Wrote d;
  dev_write : forall d p, Healthy d -> exists n d', dev_Write (framed off p) d = Some (n, None, d') /\
      Healthy d' /\ Wrote d' = Wrote d ++ [p] /\ forall l ps e, Packets d l ps e -> Packets d' l ps e }.

Section facts.
Context {C D : Type} (off : Z) `{ChannelOk C, DeviceOk D off}.
Context (off_ok : 0 <= off).

(** What of the device's packets reaches the stack. *)
Definition accept (m : Z) (p : list byte) : option (NetworkProtocol * list byte) :=
  if (len p =? 0) || (m <? len p) then None
  else if IPVersion p =? IPv4Version then Some (ipv4ProtocolNumber, p)
  else if IPVersion p =? IPv6Version then Some (ipv6ProtocolNumber, p)
  else None.


(** The session of an attached endpoint after [d] turns of the dispatch loop:
    [taken] packets have been written. *)
Record Tracks (m : Z) ps er inb w (d : nat) (e : Endpoint C D) (taken : list (list byte)) : Prop := {
  tr_mtu : mtu e = m; tr_off : offset e = off; tr_once : once e = true;
  tr_attached : IsAttached (ep_Chan e) = true;
  tr_healthy : Healthy (rw e);
  tr_dispatching : dispatching e = (d <=? length ps)%nat;
  tr_cancelled : cancelled e = negb (dispatching e);
  tr_packets : dispatching e = true -> Packets (rw e) (off + m) (drop d ps) er;
  tr_inbound : inbound (ep_Chan e) = inb ++ omap (accept m) (take d ps);
  tr_ever : ever (ep_Chan e) = taken ++ queued (ep_Chan e);
  tr_wrote : Wrote (rw e) = w ++ taken }.

Lemma framed_eq p :
  (if negb (off =? 0) then replicate (Z.to_nat off) (z2b 0) ++ p else p) = framed off p.
Proof. unfold framed. destruct (Z.eqb_spec off 0) as [->|]; done. Qed.

(** A packet of the device goes through the loop. *)
Lemma dispatchTurn_packet m ps er inb w d e taken p :
  0 <= m -> Tracks m ps er inb w d e taken -> ps !! d = Some p -> len p <= off + m ->
  exists e', dispatchTurn e = Some e' /\ Tracks m ps er inb w (S d) e' taken.
Proof.
  intros Hm Ht Hp Hl. pose proof (lookup_lt_Some _ _ _ Hp).
  assert (dispatching e = true) as Hd by (rewrite (tr_dispatching _ _ _ _ _ _ _ _ Ht); apply Nat.leb_le; lia).
  pose proof (tr_packets _ _ _ _ _ _ _ _ Ht Hd) as Hps. rewrite (drop_S _ p) in Hps by done.
  destruct Ht. unfold dispatchTurn. rewrite tr_off0, tr_mtu0. set (data := replicate _ _).
  assert (len data = off + m) as Hdata by (unfold data; rewrite len_replicate; apply Z2Nat.id; lia).
  rewrite <- Hdata in Hps.
  destruct (dev_packet _ _ _ _ data Hps tr_healthy0) as (data' & d' & -> & Hl' & Hs & Hps' & Hh & Hw); [lia|].
  rewrite Hdata in Hps'.
  cbn [mbind option_bind]. cbn [onDev ep_Chan mtu offset]. rewrite tr_mtu0, tr_off0.
  assert (take (S d) ps = take d ps ++ [p]) as Htake by by apply take_S_r.
  assert (forall x, inb ++ omap (accept m) (take d ps) ++ x = inb ++ omap (accept m) (take (S d) ps) <->
    x = option_list (accept m p)) as Hin.
  { intros x. rewrite Htake, omap_app. cbn. destruct (accept m p); cbn.
    - split; [intros E; by apply app_inv_head, app_inv_head in E|by intros ->].
    - rewrite app_nil_r. split; [|by intros ->; rewrite app_nil_r].
      intros E. apply app_inv_head in E. rewrite <- (app_nil_r (omap _ _)) in E at 2. by apply app_inv_head in E. }
  assert (Hdisp : dispatching e = (S d <=? length ps)%nat) by (rewrite Hd; symmetry; apply Nat.leb_le; lia).
  (* the packet is dropped *)
  assert (accept m p = None -> Tracks m ps er inb w (S d) (onDev e d') taken) as Hdrop.
  { intros Ha. split; cbn -[take Nat.leb]; try done; try congruence.
    rewrite tr_inbound0, <- (app_nil_r (omap _ _)). apply Hin. by rewrite Ha. }
  (* or injected *)
  assert (forall v, accept m p = Some (v, p) ->
    Tracks m ps er inb w (S d) (onChan (onDev e d') (InjectInbound v p (ep_Chan e))) taken) as Hinj.
  { intros v Ha. destruct (inject_ok v p (ep_Chan e) tr_attached0) as (q & I1 & I2 & I3 & I4).
    split; cbn -[take Nat.leb]; try done; try congruence.
    - rewrite I4, tr_inbound0, <- app_assoc. apply Hin. by rewrite Ha.
    - by rewrite I3, I2, tr_ever0, app_assoc. }
  unfold accept in Hdrop, Hinj. destruct ((len p =? 0) || (m <? len p)) eqn:Eb; [eauto|].
  apply orb_false_iff in Eb as [Eb1 Eb2]. rewrite tr_attached0. cbn [negb].
  rewrite Hs by lia. cbn [mbind option_bind].
  assert (exists x, data'.[off : len data'] = Some (p ++ x)) as (x & ->).
  { pose proof (len_nonneg p). rewrite slice_suffix by lia. specialize (Hs ltac:(lia)).
    rewrite slice_ok in Hs by lia. injection Hs as Hs. replace (off + len p - off) with (len p) in Hs by lia.
    exists (zdrop (len p) (zdrop off data')). f_equal.
    rewrite <- (ztake_zdrop (len p) (zdrop off data')) at 1. by rewrite Hs. }
  cbn [mbind option_bind].
  rewrite version_ok by (intros ->; by cbn in Eb1).
  destruct (IPVersion p =? IPv4Version); [eauto|]. destruct (IPVersion p =? IPv6Version); eauto.
Qed.

(** The device fails: the loop ends and the context is cancelled. *)
Lemma dispatchTurn_end m ps er inb w e taken :
  0 <= m -> Tracks m ps er inb w (length ps) e taken ->
  exists e', dispatchTurn e = Some e' /\ Tracks m ps er inb w (S (length ps)) e' taken.
Proof.
  intros Hm Ht. assert (dispatching e = true) as Hd.
  { rewrite (tr_dispatching _ _ _ _ _ _ _ _ Ht). by apply Nat.leb_le. }
  pose proof (tr_packets _ _ _ _ _ _ _ _ Ht Hd) as Hps. rewrite drop_all in Hps. destruct Ht.
  unfold dispatchTurn. rewrite tr_off0, tr_mtu0. set (data := replicate _ _).
  assert (len data = off + m) as Hdata by (unfold data; rewrite len_replicate; apply Z2Nat.id; lia).
  rewrite <- Hdata in Hps. destruct (dev_end _ _ data Hps tr_healthy0)
    as (data' & n & d' & -> & Hh & Hw).
  cbn [mbind option_bind]. eexists. split; [done|].
  split; cbn -[take Nat.leb]; try done; try congruence.
  - symmetry. apply Nat.leb_gt. lia.
  - rewrite tr_inbound0. by rewrite !take_ge by lia.
Qed.

Lemma outboundTurn_ok b m ps er inb w d e taken :
  Tracks m ps er inb w d e taken ->
  exists e' taken', outboundTurn b e = Some e' /\ Tracks m ps er inb w d e' taken'.
Proof.
  intros Ht. destruct Ht. unfold outboundTurn.
  pose proof (read_context_ok (cancelled e) b (ep_Chan e)) as Hr.
  destruct (ReadContext (cancelled e) b (ep_Chan e)) as [[[p|] c]|].
  - destruct Hr as (Hq & He & Hi & Ha). unfold writePacket. cbn [onChan offset rw]. rewrite tr_off0, framed_eq.
    destruct (dev_write (rw e) p tr_healthy0) as (n & d' & -> & Hh & Hw & Hp).
    cbn [mbind option_bind]. eexists _, (taken ++ [p]). split; [done|].
    split; cbn -[take Nat.leb]; try done; try congruence.
    + intros Hd. by apply Hp, tr_packets0.
    + by rewrite He, tr_ever0, Hq, <- app_assoc.
    + by rewrite Hw, tr_wrote0, app_assoc.
  - destruct Hr as [Hc ->]. exists (mkEndpoint (ep_Chan e) (rw e) (mtu e) (offset e) (once e) (wg e - 1)
      (cancelled e) (dispatching e) false), taken. split; [done|]. by split.
  - exists e, taken. split; [done|]. by split.
Qed.

Definition isDispatch (l : label) : bool := match l with LDispatch => true | _ => false end.
Definition isOutbound (l : label) : bool := match l with LOutbound _ => true | _ => false end.
Definition isStack (l : label) : bool := match l with LStack _ => true | _ => false end.

(** How many labels of a kind a schedule has. *)
Definition count (f : label -> bool) (ls : list label) : nat := length (filter f ls).

Lemma count_cons f l ls : count f (l :: ls) = ((if f l then 1 else 0) + count f ls)%nat.
Proof. unfold count. rewrite filter_cons. destruct (f l) eqn:E; case_decide as Hd; try done; by rewrite E in Hd. Qed.

Lemma step_tracks l m ps er inb w d e taken :
  0 <= m -> Forall (fun p => len p <= off + m) ps -> l <> LAttach false ->
  Tracks m ps er inb w d e taken ->
  exists e' taken', step l e = Some e' /\
    Tracks m ps er inb w (if isDispatch l then S d else d) e' taken'.
Proof.
  intros Hm Hps Hl Ht. destruct l as [[|]| |b|p]; [| done| | |]; cbn [step isDispatch].
  - exists (Attach true e), taken. split; [done|]. destruct Ht. unfold Attach. cbn [once onChan]. rewrite tr_once0.
    destruct (attach_ok true (ep_Chan e)) as (A1 & A2 & A3 & A4). split; cbn -[take Nat.leb]; try done; congruence.
  - destruct (dispatching e) eqn:Hd.
    + assert (d <= length ps)%nat as Hle.
      { rewrite (tr_dispatching _ _ _ _ _ _ _ _ Ht) in Hd. by apply Nat.leb_le in Hd. }
      destruct (decide (d = length ps)) as [->|Hne].
      * destruct (dispatchTurn_end _ _ _ _ _ _ _ Hm Ht) as (e' & He & Ht'). by exists e', taken.
      * destruct (lookup_lt_is_Some_2 ps d) as [p Hp]; [lia|].
        destruct (dispatchTurn_packet _ _ _ _ _ _ _ _ p Hm Ht Hp) as (e' & He & Ht').
        { exact (Forall_lookup_1 _ _ _ _ Hps Hp). }
        by exists e', taken.
    + exists e, taken. split; [done|]. destruct Ht. assert (length ps < d)%nat as Hlt.
      { rewrite Hd in tr_dispatching0. symmetry in tr_dispatching0. by apply Nat.leb_gt in tr_dispatching0. }
      split; cbn -[take Nat.leb]; try done; try congruence.
      * rewrite Hd. symmetry. apply Nat.leb_gt. lia.
      * rewrite tr_inbound0. by rewrite !take_ge by lia.
  - destruct (outbounding e); [|by exists e, taken]. by eapply outboundTurn_ok.
  - exists (onChan e (ch_WritePacket p (ep_Chan e))), taken. split; [done|].
    destruct (write_packet_ok p (ep_Chan e)) as (q & _ & W1 & W2 & W3 & W4). destruct Ht.
    split; cbn -[take Nat.leb]; try done; try congruence. by rewrite W3, W2, tr_ever0, app_assoc.
Qed.

Lemma run_tracks ls : forall m ps er inb w d e taken,
  0 <= m -> Forall (fun p => len p <= off + m) ps -> Forall (fun l => l <> LAttach false) ls ->
  Tracks m ps er inb w d e taken ->
  exists e' taken', run ls e = Some e' /\ Tracks m ps er inb w (d + count isDispatch ls) e' taken'.
Proof.
  induction ls as [|l ls IH]; intros m ps er inb w d e taken Hm Hps Hls Ht.
  { exists e, taken. split; [done|]. by rewrite Nat.add_0_r. }
  inversion Hls as [|? ? Hl Hls']; subst.
  destruct (step_tracks l _ _ _ _ _ _ _ _ Hm Hps Hl Ht) as (e1 & t1 & Hs & Ht1).
  cbn [run]. rewrite Hs. cbn [mbind option_bind].
  destruct (IH _ _ _ _ _ _ _ _ Hm Hps Hls' Ht1) as (e2 & t2 & Hr & Ht2).
  exists e2, t2. split; [done|]. rewrite count_cons.
  destruct (isDispatch l); [by rewrite Nat.add_assoc, Nat.add_1_r|done].
Qed.

(** ** The wait group *)

(** The wait group counts the goroutines in their loops; the context is
    cancelled exactly when the dispatch loop has ended; the outbound loop ends
    only after that. *)
Record EpInv (e : Endpoint C D) : Prop := {
  inv_wg : wg e = (if dispatching e then 1 else 0) + (if outbounding e then 1 else 0);
  inv_new : once e = false -> dispatching e = false /\ outbounding e = false /\ cancelled e = false;
  inv_once : once e = true -> cancelled e = negb (dispatching e);
  inv_out : once e = true -> outbounding e = false -> cancelled e = true }.

Lemma New_inv d m o e : New d m o = (Some e, None) -> EpInv e.
Proof. unfold New. destruct (m =? 0), d as [d|], (o <? 0); intros [= <-]; by split. Qed.

Lemma dispatchTurn_fields e e' :
  dispatchTurn e = Some e' -> once e' = once e /\ outbounding e' = outbounding e /\
  ((dispatching e' = dispatching e /\ wg e' = wg e /\ cancelled e' = cancelled e) \/
   (dispatching e' = false /\ wg e' = wg e - 1 /\ cancelled e' = true)).
Proof.
  unfold dispatchTurn. intros Hs. destruct (dev_Read _ _) as [[[[data n] er] d]|]; [|done].
  cbn [mbind option_bind] in Hs. destruct er as [er|]; [injection Hs as <-; cbn; eauto 10|].
  repeat match type of Hs with
  | (if ?b then _ else _) = _ => destruct b; [injection Hs as <-; cbn; by eauto 10|]
  | (mbind _ ?o) = _ => destruct o; [|done]; cbn [mbind option_bind] in Hs
  end.
  injection Hs as <-. by repeat case_match; cbn; eauto 10.
Qed.

Lemma outboundTurn_fields b e e' :
  outboundTurn b e = Some e' -> once e' = once e /\ dispatching e' = dispatching e /\ cancelled e' = cancelled e /\
  ((outbounding e' = outbounding e /\ wg e' = wg e /\
    (queued (ep_Chan e) = [] -> cancelled e = false) /\
    (queued (ep_Chan e) <> [] -> S (length (queued (ep_Chan e'))) = length (queued (ep_Chan e)))) \/
   (outbounding e' = false /\ wg e' = wg e - 1 /\ cancelled e = true)).
Proof.
  unfold outboundTurn. intros Hs. pose proof (read_context_ok (cancelled e) b (ep_Chan e)) as Hr.
  destruct (ReadContext _ _ _) as [[[p|] c]|].
  - destruct Hr as (Hq & _). unfold writePacket in Hs.
    destruct (dev_Write (if negb _ then _ else _) _) as [[[n er] d]|]; [|done]. injection Hs as <-. cbn.
    split; [done|]. split; [done|]. split; [done|]. left. rewrite Hq. by split_and!.
  - destruct Hr as [Hc ->]. injection Hs as <-. cbn. split; [done|]. split; [done|]. split; [done|]. by right.
  - destruct Hr as [Hc Hq]. injection Hs as <-. split; [done|]. split; [done|]. split; [done|]. left.
    rewrite Hq. by split_and!.
Qed.

Lemma step_inv l e e' : step l e = Some e' -> EpInv e -> EpInv e'.
Proof.
  intros Hs [Hwg Hnew Honce Hout]. destruct l as [a| |b|p]; cbn [step] in Hs.
  - injection Hs as <-. unfold Attach. cbn [once onChan].
    destruct (once e) eqn:E; [split; cbn; (done || congruence || auto)|]. destruct (Hnew eq_refl) as (E1 & E2 & _).
    rewrite E1, E2 in Hwg. split; cbn; try done. by rewrite Hwg.
  - destruct (dispatching e) eqn:Hd; [|injection Hs as <-; by split; rewrite ?Hd].
    apply dispatchTurn_fields in Hs as (H3 & H4 & [(H5 & H6 & H7)|(H5 & H6 & H7)]);
      split; rewrite ?H3, ?H4, ?H5, ?H6, ?H7, ?Hd; try done.
    + lia.
    + intros Ho. by destruct (Hnew Ho).
  - destruct (outbounding e) eqn:Hd; [|injection Hs as <-; by split; rewrite ?Hd].
    apply outboundTurn_fields in Hs as (H3 & H4 & H5 & [(H6 & H7 & _)|(H6 & H7 & Hc)]);
      split; rewrite ?H3, ?H4, ?H5, ?H6, ?H7, ?Hd; try done.
    + lia.
    + intros Ho. by destruct (Hnew Ho) as (_ & ? & _).
  - injection Hs as <-. by split.
Qed.

Lemma run_inv ls : forall e e', run ls e = Some e' -> EpInv e -> EpInv e'.
Proof.
  induction ls as [|l ls IH]; intros e e' Hr Hi; cbn [run] in Hr; [by injection Hr as <-|].
  destruct (step l e) as [e1|] eqn:Hs; [|done]. eauto using step_inv.
Qed.

(** Once the dispatch loop has ended, every turn of the outbound loop shortens
    the queue or ends the loop. *)
Lemma step_drains l e e' :
  step l e = Some e' -> once e = true -> dispatching e = false -> cancelled e = true ->
  outbounding e' = true ->
  outbounding e = true /\
  (length (queued (ep_Chan e')) + (if isOutbound l then 1 else 0) <=
   length (queued (ep_Chan e)) + (if isStack l then 1 else 0))%nat.
Proof.
  intros Hs Ho Hd Hc Ho'. destruct l as [a| |b|p]; cbn [step isOutbound isStack] in *.
  - injection Hs as <-. unfold Attach in *. cbn [once onChan] in *. rewrite Ho in *. split; [done|].
    destruct (attach_ok a (ep_Chan e)) as (_ & A & _). cbn. rewrite A. lia.
  - rewrite Hd in Hs. injection Hs as <-. split; [done|lia].
  - destruct (outbounding e) eqn:E; [|injection Hs as <-; congruence]. split; [done|].
    apply outboundTurn_fields in Hs as (_ & _ & _ & [(_ & _ & Hq1 & Hq2)|(H4 & _)]); [|congruence].
    destruct (decide (queued (ep_Chan e) = [])) as [Hq|Hq]; [apply Hq1 in Hq; congruence|].
    specialize (Hq2 Hq). lia.
  - injection Hs as <-. split; [done|].
    destruct (write_packet_ok p (ep_Chan e)) as (q & Hq & _ & W & _). cbn. rewrite W, length_app.
    destruct Hq as [-> | ->]; cbn; lia.
Qed.

Lemma drain rest : forall m ps er inb w d e taken,
  0 <= m -> Forall (fun p => len p <= off + m) ps -> Forall (fun l => l <> LAttach false) rest ->
  Tracks m ps er inb w d e taken -> EpInv e -> (length ps < d)%nat ->
  (outbounding e = true ->
   (length (queued (ep_Chan e)) + count isStack rest < count isOutbound rest)%nat) ->
  exists e', run rest e = Some e' /\ Waited e' = true.
Proof.
  induction rest as [|l rest IH]; intros m ps er inb w d e taken Hm Hps Hls Ht Hi Hd Hq.
  - exists e. split; [done|]. unfold Waited. rewrite (inv_wg _ Hi), (tr_dispatching _ _ _ _ _ _ _ _ Ht).
    replace (d <=? length ps)%nat with false by (symmetry; apply Nat.leb_gt; lia).
    destruct (outbounding e); [|done]. specialize (Hq eq_refl). unfold count in Hq. cbn in Hq. lia.
  - inversion Hls as [|? ? Hl Hls']; subst.
    destruct (step_tracks l _ _ _ _ _ _ _ _ Hm Hps Hl Ht) as (e1 & t1 & Hs & Ht1).
    cbn [run]. rewrite Hs. cbn [mbind option_bind].
    apply (IH _ _ _ _ _ _ _ _ Hm Hps Hls' Ht1); [by eapply step_inv|destruct (isDispatch l); lia|].
    assert (dispatching e = false) as Hd0.
    { rewrite (tr_dispatching _ _ _ _ _ _ _ _ Ht). apply Nat.leb_gt. lia. }
    intros Ho. destruct (step_drains l e e1 Hs (tr_once _ _ _ _ _ _ _ _ Ht) Hd0) as [Ho' Hle]; [|done|].
    { by rewrite (tr_cancelled _ _ _ _ _ _ _ _ Ht), Hd0. }
    specialize (Hq Ho'). rewrite !count_cons in Hq. destruct (isOutbound l), (isStack l); lia.
Qed.

Lemma attached_tracks d m o er ps e0 :
  New (Some d) m o = (Some e0, None) -> o = off -> Packets d (off + m) ps er -> Healthy d ->
  Tracks m ps er [] (Wrote d) 0 (Attach true e0) [] /\ EpInv (Attach true e0).
Proof.
  intros HN -> Hp Hh. assert (EpInv (Attach true e0)) as Hi.
  { apply (step_inv (LAttach true) e0); [done|]. by eapply New_inv. }
  split; [|done]. clear Hi. unfold New in HN. destruct (m =? 0); [done|].
  destruct (off <? 0); [done|]. injection HN as <-. unfold Attach. cbn [once onChan].
  destruct (new_ok defaultOutQueueLen m) as (N1 & N2 & N3).
  destruct (attach_ok true (ch_New defaultOutQueueLen m)) as (A1 & A2 & A3 & A4).
  split; cbn -[defaultOutQueueLen]; try done; rewrite ?app_nil_r; try congruence. by rewrite A4, N3.
Qed.
End facts.

(** ** Properties *)

(** An endpoint from the constructor, under any interleaving of its two
    goroutines with any calls to Attach and any packets of the stack: the wait
    group counts the goroutines in their loops, so that Wait returns exactly
    when neither is; they are started once; the context is cancelled exactly
    when the dispatch loop has ended, and the outbound loop ends only then. *)
Theorem endpoint_invariant {C D} `{ChannelOk C, Device D} (d : option D) m o ls (e0 e : Endpoint C D) :
  New d m o = (Some e0, None) -> run ls e0 = Some e ->
  wg e = (if dispatching e then 1 else 0) + (if outbounding e then 1 else 0) /\
  (Waited e = true <-> dispatching e = false /\ outbounding e = false) /\
  (once e = true -> cancelled e = negb (dispatching e)) /\
  (once e = true -> outbounding e = false -> dispatching e = false).
Proof.
  intros HN Hr. pose proof (run_inv ls e0 e Hr (New_inv d m o e0 HN)) as [Hwg _ Honce Hout].
  split; [done|]. split.
  { unfold Waited. rewrite Hwg, Z.eqb_eq. destruct (dispatching e), (outbounding e); split; naive_solver lia. }
  split; [done|]. intros Ho Hb. specialize (Hout Ho Hb). rewrite Honce in Hout by done.
  by destruct (dispatching e).
Qed.

(** The session of an attached endpoint, for the devices built on it. *)
Lemma relays {C D} {o : Z} `{ChannelOk C, DeviceOk D o} d m ps er ls (e0 : Endpoint C D) :
  New (Some d) m o = (Some e0, None) -> 0 <= m -> Packets d (o + m) ps er -> Healthy d ->
  Forall (fun p => len p <= o + m) ps -> Forall (fun l => l <> LAttach false) ls ->
  exists e taken, run (LAttach true :: ls) e0 = Some e /\
    inbound (ep_Chan e) = omap (accept m) (take (count isDispatch ls) ps) /\
    dispatching e = (count isDispatch ls <=? length ps)%nat /\
    ever (ep_Chan e) = taken ++ queued (ep_Chan e) /\
    Wrote (rw e) = Wrote d ++ taken.
Proof.
  intros HN Hm Hp Hh Hps Hls.
  assert (0 <= o) as Ho. { unfold New in HN. destruct (m =? 0); [done|]. destruct (Z.ltb_spec o 0); [done|lia]. }
  destruct (attached_tracks o d m o er ps e0 HN eq_refl Hp Hh) as [Ht _].
  destruct (run_tracks o Ho ls _ _ _ _ _ _ _ _ Hm Hps Hls Ht) as (e & taken & Hr & Ht'). destruct Ht'.
  exists e, taken. by split_and!.
Qed.

(** C15: an attached endpoint over a device that delivers the packets [ps] and
    then fails, under any interleaving: nothing panics; after [n] turns of the
    dispatch loop the stack has been given exactly the first [n] packets that
    are neither empty nor longer than the MTU and carry an IP version, each
    without the bytes before it and under its protocol, in order; and the
    device has been given the packets of the stack's queue, each behind the
    bytes it expects before one, in order and without loss. *)
Theorem endpoint_relays {C D} {o : Z} `{ChannelOk C, DeviceOk D o} d m ps er ls (e0 : Endpoint C D) :
  New (Some d) m o = (Some e0, None) -> 0 <= m -> Packets d (o + m) ps er -> Healthy d ->
  Forall (fun p => len p <= o + m) ps -> Forall (fun l => l <> LAttach false) ls ->
  exists e taken, run (LAttach true :: ls) e0 = Some e /\
    inbound (ep_Chan e) = omap (accept m) (take (count isDispatch ls) ps) /\
    dispatching e = (count isDispatch ls <=? length ps)%nat /\
    ever (ep_Chan e) = taken ++ queued (ep_Chan e) /\
    Wrote (rw e) = Wrote d ++ taken.
Proof. apply relays. Qed.

(** C20: the endpoint stops.  Once the device has failed, Wait returns as soon
    as the outbound loop has had one turn more than there are packets in its
    queue and packets the stack still writes, whatever else happens and
    whichever case the select prefers. *)
Theorem endpoint_stops {C D} {o : Z} `{ChannelOk C, DeviceOk D o} d m ps er ls rest (e0 e1 : Endpoint C D) :
  New (Some d) m o = (Some e0, None) -> 0 <= m -> Packets d (o + m) ps er -> Healthy d ->
  Forall (fun p => len p <= o + m) ps -> Forall (fun l => l <> LAttach false) (ls ++ rest) ->
  run (LAttach true :: ls) e0 = Some e1 -> (length ps < count isDispatch ls)%nat ->
  (length (queued (ep_Chan e1)) + count isStack rest < count isOutbound rest)%nat ->
  exists e2, run rest e1 = Some e2 /\ Waited e2 = true.
Proof.
  intros HN Hm Hp Hh Hps Hall Hr Hd Hq. apply Forall_app in Hall as [Hls Hrest].
  assert (0 <= o) as Ho. { unfold New in HN. destruct (m =? 0); [done|]. destruct (Z.ltb_spec o 0); [done|lia]. }
  destruct (attached_tracks o d m o er ps e0 HN eq_refl Hp Hh) as [Ht Hi].
  destruct (run_tracks o Ho ls _ _ _ _ _ _ _ _ Hm Hps Hls Ht) as (e & taken & Hr' & Ht').
  cbn [run step mbind option_bind] in Hr. rewrite Hr in Hr'. injection Hr' as <-.
  apply (drain o Ho rest _ _ _ _ _ _ _ _ Hm Hps Hrest Ht'); [by eapply run_inv|done|by intros].
Qed.

(** ** Instances *)

(** A channel as gVisor documents it: a bounded queue. *)
Record Fifo := mkFifo {
  f_cap : nat; f_queue : list (list byte); f_ever : list (list byte);
  f_in : list (NetworkProtocol * list byte); f_attached : bool }.

#[global] Instance Fifo_Channel : Channel Fifo := {
  ch_New n _ := mkFifo (Z.to_nat n) [] [] [] false;
  ch_Attach b c := mkFifo (f_cap c) (f_queue c) (f_ever c) (f_in c) b;
  IsAttached := f_attached;
  InjectInbound v p c := mkFifo (f_cap c) (f_queue c) (f_ever c) (f_in c ++ [(v, p)]) (f_attached c);
  ReadContext cancelled choice c :=
    if cancelled && choice then Some (None, c)
    else match f_queue c with
         | p :: q => Some (Some p, mkFifo (f_cap c) q (f_ever c) (f_in c) (f_attached c))
         | [] => if cancelled then Some (None, c) else None
         end;
  ch_WritePacket p c :=
    if (length (f_queue c) <? f_cap c)%nat
    then mkFifo (f_cap c) (f_queue c ++ [p]) (f_ever c ++ [p]) (f_in c) (f_attached c) else c;
  IPVersion b := match b with x :: _ => b2z x / 16 | [] => -1 end;
  IPv4Version := 4; IPv6Version := 6 }.

#[global, program] Instance Fifo_ChannelOk : ChannelOk Fifo := {
  queued := f_queue; ever := f_ever; inbound := f_in }.
Next Obligation. done. Qed.
Next Obligation. done. Qed.
Next Obligation. intros v p c Hc. exists []. cbn. by rewrite !app_nil_r. Qed.
Next Obligation.
  intros p c. cbn. case_match; [exists [p]|exists []; rewrite !app_nil_r]; split_and!; auto.
Qed.
Next Obligation.
  intros cancelled choice c. cbn. destruct cancelled, choice; cbn; try done; by destruct (f_queue c).
Qed.
Next Obligation. by intros [|b p] x Hp. Qed.

(** A tun device with a header of four bytes before each packet. *)
Record Tun := mkTun { t_in : list (list byte); t_out : list (list byte) }.

#[global] Instance Tun_Device : Device Tun := {
  dev_Read data t :=
    match t_in t with
    | [] => Some (data, 0, Some EOF, t)
    | p :: ps => Some (if 4 + len p <=? len data then blit data 4 p else data, len p, None, mkTun ps (t_out t))
    end;
  dev_Write b t := Some (len b, None, mkTun (t_in t) (t_out t ++ [zdrop 4 b])) }.

#[global, program] Instance Tun_DeviceOk : DeviceOk Tun 4 := {
  Packets t _ ps e := t_in t = ps /\ e = EOF; Wrote := t_out; Healthy _ := True }.
Next Obligation.
  intros [ps0 out] p ps e data [Hp ->] _ Hl. cbn in Hp. subst ps0. eexists _, _. split; [reflexivity|].
  pose proof (len_nonneg p). destruct (Z.leb_spec (4 + len p) (len data)); [|split_and!; try done; lia].
  split; [apply len_blit; lia|]. split; [|done]. intros _. rewrite blit_fits by lia.
  apply slice_app_mid; rewrite ?len_ztake; lia.
Qed.
Next Obligation. intros [ps0 out] e data [Hp ->] _. cbn in Hp. subst ps0. by eexists _, _, _. Qed.
Next Obligation. intros [ps0 out] b _. eexists _, _. split; [reflexivity|]. by split_and!. Qed.

(** ** Witnesses *)

Definition packet4 : list byte := z2b <$> [69; 0; 7].
Definition packet6 : list byte := z2b <$> [96; 1].

(** An IPv4 packet, one with no IP version, one too long, an IPv6 packet. *)
Definition demo_packets : list (list byte) := [packet4; [z2b 1]; replicate 9 (z2b 69); packet6].

Definition demo_endpoint : Endpoint Fifo Tun :=
  mkEndpoint (ch_New defaultOutQueueLen 8) (mkTun demo_packets []) 8 4 false 0 false false false.

Definition demo_run : list label :=
  [LStack packet4; LDispatch; LOutbound true; LDispatch; LStack packet6; LDispatch; LDispatch; LDispatch].

Lemma endpoint_relays_witness :
  exists e taken, run (LAttach true :: demo_run) demo_endpoint = Some e /\
    inbound (ep_Chan e) = omap (accept 8) (take (count isDispatch demo_run) demo_packets) /\
    dispatching e = (count isDispatch demo_run <=? length demo_packets)%nat /\
    ever (ep_Chan e) = taken ++ queued (ep_Chan e) /\
    Wrote (rw e) = Wrote (mkTun demo_packets []) ++ taken.
Proof.
  apply (endpoint_relays (o := 4) (mkTun demo_packets []) 8 demo_packets EOF demo_run demo_endpoint);
    [reflexivity|lia|by split|done| |].
  - repeat constructor; discriminate.
  - repeat constructor; discriminate.
Defined.

Example endpoint_run :
  match run (LAttach true :: demo_run) demo_endpoint with
  | Some e => inbound (ep_Chan e) = [(ipv4ProtocolNumber, packet4); (ipv6ProtocolNumber, packet6)] /\
      t_out (rw e) = [packet4]
  | None => False
  end.
Proof. by vm_compute. Qed.

(** The endpoint after the run. *)
Definition demo_end : Endpoint Fifo Tun := default demo_endpoint (run (LAttach true :: demo_run) demo_endpoint).

Lemma endpoint_invariant_witness :
  let e := demo_end in
  wg e = (if dispatching e then 1 else 0) + (if outbounding e then 1 else 0) /\
  (Waited e = true <-> dispatching e = false /\ outbounding e = false) /\
  (once e = true -> cancelled e = negb (dispatching e)) /\
  (once e = true -> outbounding e = false -> dispatching e = false).
Proof.
  apply (endpoint_invariant (Some (mkTun demo_packets [])) 8 4 (LAttach true :: demo_run) demo_endpoint demo_end);
    [reflexivity|vm_compute; reflexivity].
Defined.

Lemma endpoint_stops_witness :
  exists e2, run [LOutbound false; LAttach true; LOutbound true] demo_end = Some e2 /\ Waited e2 = true.
Proof.
  apply (endpoint_stops (o := 4) (mkTun demo_packets []) 8 demo_packets EOF demo_run _ demo_endpoint demo_end);
    [reflexivity|lia|by split|done| | |vm_compute; reflexivity| |].
  - repeat constructor; discriminate.
  - repeat constructor; discriminate.
  - apply Nat.ltb_lt. vm_compute. reflexivity.
  - apply Nat.ltb_lt. vm_compute. reflexivity.
Defined.

(** A device that counts the bytes before a packet, as a file does: a packet
    as long as the MTU is dropped. *)
Record File := mkFile { file_in : list (list byte) }.

#[global] Instance File_Device : Device File := {
  dev_Read data t :=
    match file_in t with
    | [] => Some (data, 0, Some EOF, t)
    | p :: ps => Some (blit data 0 p, Z.min (len p) (len data), None, mkFile ps)
    end;
  dev_Write b t := Some (len b, None, t) }.

Example file_drops_full_packets :
  let header := replicate 4 (z2b 0) in
  let e : Endpoint Fifo File := mkEndpoint (ch_New defaultOutQueueLen 3)
    (mkFile [header ++ packet4]) 3 4 false 0 false false false in
  match run [LAttach true; LDispatch; LDispatch] e with
  | Some e => len packet4 = 3 /\ inbound (ep_Chan e) = []
  | None => False
  end.
Proof. by vm_compute. Qed.
End iobased.
