(* ===== verification/Devices.v ===== *)
(** * Devices: core/device/tun and core/device/fdbased

    The devices the engine opens.  [tunlinux] is tun_netstack.go, over file
    descriptors of the host and gVisor's endpoint; [tunwg] is
    tun_wireguard.go, over wireguard's device and the link endpoint of
    [Endpoint.v], whose promise it keeps; [fdbased] is a descriptor the caller
    has opened. *)

From S2P Require Import Prelude Net Tunnel Stack Endpoint.
Import iobased.

Open Scope Z_scope.

(** The descriptors of the host, and gVisor's endpoint over some of them. *)
Class Sys (H E : Type) := {
  tun_Open : gostring -> H -> Z * err * H;
  Socket : H -> Z * err * H;
  CloseFd : Z -> H -> err * H;
  NewIfreq : gostring -> err;
  IoctlMTU : Z -> gostring -> Z -> H -> err * H;
  GetMTU : gostring -> H -> Z * err;
  fdbased_New : list Z -> Z -> bool -> H -> option E * err;
  CloseLink : E -> H -> H }.

(** ** tun_netstack.go *)

Module tunlinux.
Definition IFNAMSIZ : Z := 16.

Record TUN (E : Type) := mkTUN { LinkEndpoint : E; fd : Z; mtu : Z; name : gostring }.
Arguments mkTUN {E}. Arguments LinkEndpoint {E}. Arguments fd {E}. Arguments mtu {E}. Arguments name {E}.

Section tun.
Context {H E : Type} `{Sys H E}.

Definition setMTU (name : gostring) (n : Z) (h : H) : err * H :=
  let '(fd, e, h) := Socket h in
  match e with
  | Some _ => (e, h)
  | None =>
      let e := NewIfreq name in
      let '(e, h) := match e with
                     | Some _ => (e, h)
                     | None => IoctlMTU fd name n h
                     end in
      (e, (CloseFd fd h).2)
  end.

Definition Open (name : gostring) (mtu : Z) (h : H) : option (TUN E) * err * H :=
  if IFNAMSIZ <=? len name then (None, Some (ErrNew (str "interface name too long: " ++ name)), h)
  else
    let '(fd, e, h) := tun_Open name h in
    match e with
    | Some e => (None, Some (ErrWrap (str "create tun") e), h)
    | None =>
        let '(e, h) := if 0 <? mtu then setMTU name mtu h else (None, h) in
        match e with
        | Some e => (None, Some (ErrWrap (str "set mtu") e), h)
        | None =>
            let '(m, e) := GetMTU name h in
            match e with
            | Some e => (None, Some (ErrWrap (str "get mtu") e), h)
            | None =>
                match fdbased_New [fd] m true h with
                | (_, Some e) => (None, Some (ErrWrap (str "create endpoint") e), h)
                | (ep, None) => ((fun ep => mkTUN ep fd m name) <$> ep, None, h)
                end
            end
        end
    end.

Definition Name (t : TUN E) : gostring := name t.

Definition Close (t : TUN E) (h : H) : H := CloseLink (LinkEndpoint t) (CloseFd (fd t) h).2.
End tun.
End tunlinux.

(** ** fd_unix.go, open_linux.go, open_unix.go *)

Module fdbased.
Definition defaultMTU : Z := 1500.

Record FD (E : Type) := mkFD { LinkEndpoint : E; fd : Z; mtu : Z; closed : bool }.
Arguments mkFD {E}. Arguments LinkEndpoint {E}. Arguments fd {E}. Arguments mtu {E}. Arguments closed {E}.

Section fd.
Context {H E : Type} `{Sys H E}.

(** open_linux.go. *)
Definition open_linux (n mtu offset : Z) (h : H) : option (FD E) * err :=
  match fdbased_New [n] mtu false h with
  | (_, Some e) => (None, Some (ErrWrap (str "create endpoint") e))
  | (ep, None) => ((fun ep => mkFD ep n mtu false) <$> ep, None)
  end.

(** open_unix.go: [file] is [os.NewFile]. *)
Definition open_unix {C D} `{Channel C, Device D} (file : Z -> gostring -> option D) (n mtu offset : Z)
  : option (FD (Endpoint C D)) * err :=
  match iobased.New (file n (Itoa n)) mtu offset with
  | (_, Some e) => (None, Some (ErrWrap (str "create endpoint") e))
  | (ep, None) => ((fun ep => mkFD ep n mtu false) <$> ep, None)
  end.

Definition Open {F} (open : Z -> Z -> Z -> option F * err) (name : gostring) (mtu offset : Z) : option F * err :=
  let '(n, e) := Atoi name in
  match e with
  | Some _ => (None, Some (ErrNew (str "cannot open fd: " ++ name)))
  | None => open n (if mtu =? 0 then defaultMTU else mtu) offset
  end.

Definition Name (f : FD E) : gostring := Itoa (fd f).

Definition Close (f : FD E) (h : H) : FD E * H :=
  if negb (closed f) then
    (mkFD (LinkEndpoint f) (fd f) (mtu f) true, CloseLink (LinkEndpoint f) (CloseFd (fd f) h).2)
  else (f, h).
End fd.
End fdbased.

(** ** tun_wireguard.go *)

Module tunwg.
(** wireguard's device; a device of another type is [None] without an error. *)
Class NativeTun (N : Type) := {
  createTUN : gostring -> Z -> option N * err;
  nt_Read : list (list byte) -> list Z -> Z -> N -> option (list (list byte) * list Z * Z * err * N);
  nt_Write : list (list byte) -> Z -> N -> option (Z * err * N);
  nt_MTU : N -> Z * err;
  nt_Name : N -> gostring * err;
  nt_Close : N -> err * N }.

Record TUN (N : Type) := mkTUN {
  nt : N; mtu : Z; name : gostring; offset : Z;
  rSizes : list Z; rBuffs : list (list byte); wBuffs : list (list byte) }.
Arguments mkTUN {N}. Arguments nt {N}. Arguments mtu {N}. Arguments name {N}. Arguments offset {N}.
Arguments rSizes {N}. Arguments rBuffs {N}. Arguments wBuffs {N}.

Section tun.
Context {N : Type} `{NativeTun N}.

(** [l[0] = x] *)
Definition set0 {A} (x : A) (l : list A) : option (list A) :=
  match l with [] => None | _ :: r => Some (x :: r) end.

(** The device fills the caller's [packet] through [rBuffs[0]]. *)
Definition Read (packet : list byte) (t : TUN N) : option (list byte * Z * err * TUN N) :=
  bs ← set0 packet (rBuffs t);
  '(bs, sizes, _, e, n) ← nt_Read bs (rSizes t) (offset t) (nt t);
  packet ← bs !! 0%nat;
  size ← sizes !! 0%nat;
  Some (packet, size, e, mkTUN n (mtu t) (name t) (offset t) sizes bs (wBuffs t)).

Definition Write (packet : list byte) (t : TUN N) : option (Z * err * TUN N) :=
  bs ← set0 packet (wBuffs t);
  '(k, e, n) ← nt_Write bs (offset t) (nt t);
  Some (k, e, mkTUN n (mtu t) (name t) (offset t) (rSizes t) (rBuffs t) bs).

#[global] Instance TUN_Device : Device (TUN N) := { dev_Read := Read; dev_Write := Write }.

(** [off] and [defaultMTU] are the constants of the system: 4 and 1500 on
    unix, 0 and 0 on Windows.  [None]: the type assertion panics. *)
Definition openBody {C} `{Channel C} (off defaultMTU : Z) (ifname : gostring) (mtu : Z)
  : option (option (Endpoint C (TUN N)) * err) :=
  let forcedMTU := if 0 <? mtu then mtu else defaultMTU in
  let '(n, e) := createTUN ifname forcedMTU in
  match e with
  | Some e => Some (None, Some (ErrWrap (str "create tun") e))
  | None =>
      n ← n;
      let '(tunMTU, e) := nt_MTU n in
      match e with
      | Some e => Some (None, Some (ErrWrap (str "get mtu") e))
      | None =>
          let t := mkTUN n (u32 tunMTU) ifname off [0] [[]] [[]] in
          match iobased.New (Some t) (tunwg.mtu t) off with
          | (_, Some e) => Some (None, Some (ErrWrap (str "create endpoint") e))
          | (ep, None) => Some (ep, None)
          end
      end
  end.

(** The deferred function recovers from the panic. *)
Definition Open {C} `{Channel C} (off defaultMTU : Z) (ifname : gostring) (mtu : Z)
  : option (Endpoint C (TUN N)) * err :=
  default (None, Some (errorsNew "open tun")) (openBody off defaultMTU ifname mtu).

Definition Name (t : TUN N) : gostring := (nt_Name (nt t)).1.

(** [closeChan] is the embedded endpoint's Close. *)
Definition Close {C} (closeChan : C -> C) (e : Endpoint C (TUN N)) : Endpoint C (TUN N) :=
  let t := rw e in
  let t := mkTUN (nt_Close (nt t)).2 (mtu t) (name t) (offset t) (rSizes t) (rBuffs t) (wBuffs t) in
  onChan (onDev e t) (closeChan (ep_Chan e)).
End tun.
End tunwg.

(** ** Properties: descriptors *)

Section descriptors.
Context {H E : Type} `{Sys H E} (open : H -> gset Z).

(** A call that makes a descriptor makes a new one, or none when it fails. *)
Definition makes (h : H) (r : Z * err * H) : Prop :=
  match r with
  | (fd, None, h') => fd ∉ open h /\ open h' = {[fd]} ∪ open h
  | (_, Some _, h') => open h' = open h
  end.

Hypothesis tun_Open_ok : forall n h, makes h (tun_Open n h).
Hypothesis Socket_ok : forall h, makes h (Socket h).
Hypothesis CloseFd_ok : forall fd h, open (CloseFd fd h).2 = open h ∖ {[fd]}.
Hypothesis Ioctl_ok : forall fd n m h, open (IoctlMTU fd n m h).2 = open h.
Hypothesis CloseLink_ok : forall ep h, open (CloseLink ep h) = open h.

(** Setting the MTU leaves no descriptor behind, whatever fails. *)
Lemma setMTU_open name n h : open (tunlinux.setMTU name n h).2 = open h.
Proof.
  unfold tunlinux.setMTU. pose proof (Socket_ok h) as Hs. destruct (Socket h) as [[fd [e|]] h1]; [done|].
  destruct Hs as [Hn Ho]. destruct (NewIfreq name) as [e|].
  - cbn [snd]. rewrite CloseFd_ok, Ho. set_solver.
  - pose proof (Ioctl_ok fd name n h1) as Hi. destruct (IoctlMTU fd name n h1) as [e h2]. cbn [snd] in *.
    rewrite CloseFd_ok, Hi, Ho. set_solver.
Qed.

(** The descriptors of a TUN.  An open that succeeds holds exactly one new
    descriptor, which Close gives back; one that fails before the tunnel
    device is made holds none; one that fails after it, in setting or reading
    the MTU or in making the endpoint, holds no device but leaves the new
    descriptor open. *)
Theorem tun_descriptors name mtu h :
  match tunlinux.Open name mtu h with
  | (Some t, e, h') => e = None /\ tunlinux.name t = name /\ tunlinux.fd t ∉ open h /\
      open h' = {[tunlinux.fd t]} ∪ open h /\ open (tunlinux.Close t h') = open h
  | (None, Some _, h') =>
      if (tunlinux.IFNAMSIZ <=? len name) || bool_decide ((tun_Open name h).1.2 <> None)
      then open h' = open h
      else let fd := (tun_Open name h).1.1 in fd ∉ open h /\ open h' = {[fd]} ∪ open h
  | (None, None, h') => exists fd m, fdbased_New [fd] m true h' = (None, None)
  end.
Proof.
  unfold tunlinux.Open. destruct (tunlinux.IFNAMSIZ <=? len name); [done|]. cbn [orb].
  pose proof (tun_Open_ok name h) as Ht. destruct (tun_Open name h) as [[fd [e|]] h1]; [done|].
  rewrite bool_decide_false by naive_solver. cbn [fst snd]. destruct Ht as [Hn Ho].
  assert (open (if 0 <? mtu then tunlinux.setMTU name mtu h1 else (None, h1)).2 = open h1) as Hm.
  { destruct (0 <? mtu); [apply setMTU_open|done]. }
  destruct (if 0 <? mtu then _ else _) as [[e|] h2]; cbn [snd] in Hm; [split; [done|congruence]|].
  destruct (GetMTU name h2) as [m [e|]]; [split; [done|congruence]|].
  destruct (fdbased_New [fd] m true h2) as [[ep|] [e|]] eqn:Ef; cbn; try (split; [done|congruence]); [|eauto].
  split_and!; [done|done|done|congruence|]. unfold tunlinux.Close. cbn.
  rewrite CloseLink_ok, CloseFd_ok, Hm, Ho. set_solver.
Qed.
End descriptors.

(** ** Properties: the packets of wireguard's device *)

(** What the TUN relies on: a packet that fits is stored whole at the offset
    and counted without it; what is written is taken from the offset on. *)
Class NativeTunOk (N : Type) (off : Z) `{tunwg.NativeTun N} := {
  nt_Packets : N -> list (list byte) -> error -> Prop;
  nt_Wrote : N -> list (list byte);
  nt_Up : N -> Prop;
  nt_read_ok : forall n p ps e b size, nt_Packets n (p :: ps) e -> nt_Up n -> off + len p <= len b ->
    exists b' k n', tunwg.nt_Read [b] [size] off n = Some ([b'], [len p], k, None, n') /\ len b' = len b /\
      b'.[off : off + len p] = Some p /\ nt_Packets n' ps e /\ nt_Up n' /\ nt_Wrote n' = nt_Wrote n;
  nt_read_end : forall n e b size, nt_Packets n [] e -> nt_Up n ->
    exists b' size' k n', tunwg.nt_Read [b] [size] off n = Some ([b'], [size'], k, Some e, n') /\
      nt_Up n' /\ nt_Wrote n' = nt_Wrote n;
  nt_write_ok : forall n b, nt_Up n -> off <= len b -> exists k n', tunwg.nt_Write [b] off n = Some (k, None, n') /\
    nt_Up n' /\ nt_Wrote n' = nt_Wrote n ++ [zdrop off b] /\
    forall ps e, nt_Packets n ps e -> nt_Packets n' ps e }.

Section wireguard.
Context {N : Type} (off : Z) `{NativeTunOk N off}.

(** A TUN over a device that is up, as Open makes it. *)
Definition ready (t : tunwg.TUN N) : Prop :=
  nt_Up (tunwg.nt t) /\ tunwg.offset t = off /\ 0 <= off /\
  length (tunwg.rSizes t) = 1%nat /\ length (tunwg.rBuffs t) = 1%nat /\ length (tunwg.wBuffs t) = 1%nat.

(** The TUN is a device to the endpoint: the packets of wireguard's that fit
    the buffers the endpoint reads into. *)
#[global, program] Instance TUN_DeviceOk : DeviceOk (tunwg.TUN N) off := {
  Packets t l ps e := nt_Packets (tunwg.nt t) ps e /\ Forall (fun p => off + len p <= l) ps;
  Wrote t := nt_Wrote (tunwg.nt t);
  Healthy := ready }.
Next Obligation.
  intros t p ps e data [Hp Hl] (Hu & Ho & Ho0 & Hs & Hb & Hw) _. apply Forall_cons in Hl as [Hl Hls].
  cbn [dev_Read tunwg.TUN_Device]. unfold tunwg.Read. destruct t as [n m nm o sizes rb wb]. cbn in *. subst o.
  destruct rb as [|b0 [|? ?]], sizes as [|s0 [|? ?]]; try done. cbn [tunwg.set0 mbind option_bind].
  destruct (nt_read_ok n p ps e data s0 Hp Hu Hl) as (b' & k & n' & -> & Hlen & Hsl & Hp' & Hu' & Hwr).
  eexists _, _. split; [reflexivity|]. by split_and!.
Qed.
Next Obligation.
  intros t e data [Hp _] (Hu & Ho & Ho0 & Hs & Hb & Hw).
  cbn [dev_Read tunwg.TUN_Device]. unfold tunwg.Read. destruct t as [n m nm o sizes rb wb]. cbn in *. subst o.
  destruct rb as [|b0 [|? ?]], sizes as [|s0 [|? ?]]; try done. cbn [tunwg.set0 mbind option_bind].
  destruct (nt_read_end n e data s0 Hp Hu) as (b' & size' & k & n' & -> & Hu' & Hwr).
  eexists _, _, _. split; [reflexivity|]. by split_and!.
Qed.
Next Obligation.
  intros t p (Hu & Ho & Ho0 & Hs & Hb & Hw).
  cbn [dev_Write tunwg.TUN_Device]. unfold tunwg.Write. destruct t as [n m nm o sizes rb wb]. cbn in *. subst o.
  destruct wb as [|b0 [|? ?]]; try done. cbn [tunwg.set0 mbind option_bind].
  assert (len (replicate (Z.to_nat off) (z2b 0)) = off) as Hr by (rewrite len_replicate; lia).
  destruct (nt_write_ok n (framed off p) Hu) as (k & n' & -> & Hu' & Hwr & Hps).
  { unfold framed. rewrite len_app, Hr. len_lia. }
  eexists _, _. split; [reflexivity|]. split; [by split_and!|]. split.
  - cbn. rewrite Hwr. unfold framed. by rewrite zdrop_app_len.
  - intros l ps e [Hp Hl]. split; [by apply Hps|done].
Qed.

(** C25: a TUN over wireguard's device.  When the device is made, opening gives
    an endpoint with the device's MTU; attached, under any interleaving of its
    goroutines, the network stack is given exactly the device's packets that
    carry an IP version, whole and in order, and the device is given exactly
    the packets of the stack's queue, without the bytes the header takes. *)
Theorem tun_relays {C} `{ChannelOk C} defaultMTU ifname mtu0 (n : N) m ps er ls :
  tunwg.createTUN ifname (if 0 <? mtu0 then mtu0 else defaultMTU) = (Some n, None) ->
  tunwg.nt_MTU n = (m, None) -> 0 < m < 2 ^ 32 -> 0 <= off ->
  nt_Packets n ps er -> nt_Up n -> Forall (fun p => len p <= m) ps -> Forall (fun l => l <> LAttach false) ls ->
  exists ep e taken,
    tunwg.Open (C := C) off defaultMTU ifname mtu0 = (Some ep, None) /\ mtu ep = m /\
    run (LAttach true :: ls) ep = Some e /\
    inbound (ep_Chan e) = omap (accept m) (take (count isDispatch ls) ps) /\
    ever (ep_Chan e) = taken ++ queued (ep_Chan e) /\
    nt_Wrote (tunwg.nt (rw e)) = nt_Wrote n ++ taken.
Proof.
  intros Hc Hm Hr Ho Hp Hu Hps Hls.
  set (t := tunwg.mkTUN n m ifname off [0] [[]] [[]]).
  assert (exists ep, iobased.New (C := C) (Some t) m off = (Some ep, None) /\ mtu ep = m) as (ep & Hep & Hmtu).
  { unfold iobased.New. destruct (Z.eqb_spec m 0); [lia|]. destruct (Z.ltb_spec off 0); [lia|]. by eexists. }
  destruct (relays (o := off) t m ps er ls ep Hep) as (e & taken & Hrun & Hin & _ & Hev & Hwr).
  - lia.
  - split; [done|]. eapply Forall_impl; [exact Hps|]. cbn. lia.
  - by split_and!.
  - eapply Forall_impl; [exact Hps|]. cbn. lia.
  - done.
  - exists ep, e, taken. split; [|done]. unfold tunwg.Open, tunwg.openBody. rewrite Hc. cbn [mbind option_bind].
    rewrite Hm. cbn [tunwg.mtu]. replace (u32 m) with m by (unfold u32; symmetry; apply Z.mod_small; lia).
    fold t. by rewrite Hep.
Qed.
End wireguard.

(** ** Witnesses *)

Module deviceswitness.

(** A host whose state is its open descriptors, on which the MTU cannot be
    set. *)
#[local] Instance toySys : Sys (gset Z) unit := {
  tun_Open _ h := (fresh h, None, {[fresh h]} ∪ h);
  Socket h := (fresh h, None, {[fresh h]} ∪ h);
  CloseFd fd h := (None, h ∖ {[fd]});
  NewIfreq _ := None;
  IoctlMTU _ _ _ h := (Some (ErrIO 1), h);
  GetMTU _ _ := (1500, None);
  fdbased_New _ _ _ _ := (Some tt, None);
  CloseLink _ h := h }.

(** Without an MTU to set, the open succeeds. *)
Lemma tun_descriptors_witness :
  let h : gset Z := {[1; 2]} in
  match tunlinux.Open (str "tun0") 0 h with
  | (Some t, e, h') => e = None /\ tunlinux.name t = str "tun0" /\ tunlinux.fd t ∉ h /\
      h' = {[tunlinux.fd t]} ∪ h /\ tunlinux.Close t h' = h
  | _ => False
  end.
Proof.
  intros h. refine (tun_descriptors (fun h : gset Z => h) _ _ _ _ _ (str "tun0") 0 h).
  - intros n g. split; [apply is_fresh|done].
  - intros g. split; [apply is_fresh|done].
  - done.
  - done.
  - done.
Defined.

(** With one, it fails and the descriptor of the tunnel device stays open. *)
Example open_leaks :
  let h : gset Z := {[1; 2]} in
  let r := tunlinux.Open (str "tun0") 1400 h in
  r.1.1 = None /\ bool_decide (r.2 = h) = false.
Proof. by vm_compute. Qed.

(** A device that stores its packets at the offset. *)
Record Native := mkNative { n_in : list (list byte); n_out : list (list byte) }.

#[local] Instance toyNative : tunwg.NativeTun Native := {
  createTUN _ _ := (Some (mkNative demo_packets []), None);
  nt_Read bufs sizes off n :=
    match n_in n, bufs with
    | p :: ps, b :: _ => Some ([blit b off p], [len p], 1, None, mkNative ps (n_out n))
    | _, _ => Some (bufs, sizes, 0, Some EOF, n)
    end;
  nt_Write bufs off n :=
    Some (len bufs, None, mkNative (n_in n) (n_out n ++ (zdrop off <$> bufs)));
  nt_MTU _ := (9, None);
  nt_Name _ := (str "utun", None);
  nt_Close n := (None, n) }.

#[local, program] Instance toyNative_ok : NativeTunOk Native 4 := {
  nt_Packets n ps e := n_in n = ps /\ e = EOF; nt_Wrote := n_out; nt_Up _ := True }.
Next Obligation.
  intros [ps0 out] p ps e b size [Hp ->] _ Hl. cbn in Hp. subst ps0. cbn. eexists _, _, _. split; [reflexivity|].
  pose proof (len_nonneg p). split; [apply len_blit; lia|]. split; [|done]. rewrite blit_fits by lia.
  apply slice_app_mid; rewrite ?len_ztake; lia.
Qed.
Next Obligation. intros [ps0 out] e b size [Hp ->] _. cbn in Hp. subst ps0. by eexists _, _, _, _. Qed.
Next Obligation. intros [ps0 out] b _ _. eexists _, _. split; [reflexivity|]. by split_and!. Qed.

Lemma tun_relays_witness :
  exists (ep e : Endpoint Fifo (tunwg.TUN Native)) taken,
    tunwg.Open 4 1500 (str "utun") 0 = (Some ep, None) /\ mtu ep = 9 /\
    run (LAttach true :: demo_run) ep = Some e /\
    inbound (ep_Chan e) = omap (accept 9) (take (count isDispatch demo_run) demo_packets) /\
    ever (ep_Chan e) = taken ++ queued (ep_Chan e) /\
    nt_Wrote (tunwg.nt (rw e)) = nt_Wrote (mkNative demo_packets []) ++ taken.
Proof.
  apply (tun_relays (C := Fifo) 4 1500 (str "utun") 0 (mkNative demo_packets []) 9 demo_packets EOF demo_run);
    try done; try lia.
  - repeat constructor; discriminate.
  - repeat constructor; discriminate.
Defined.
End deviceswitness.
