(* ===== verification/Rest.v ===== *)
(** * Rest: package restapi

    The authentication of requests, the JSON of the network stack's counters,
    and the closing of connections.  The router, the handlers and the streams
    are in Server.v. *)

From S2P Require Import Prelude Net Conn Metadata Statistic.
Import statistic.

Open Scope Z_scope.

Module restapi.

(** ** errors.go *)

Record HTTPError := newError { Message : gostring }.
Definition Error (e : HTTPError) : gostring := Message e.

Definition ErrBadRequest : HTTPError := newError (str "Body invalid").
Definition ErrUnauthorized : HTTPError := newError (str "Unauthorized").
Definition ErrUninitialized : HTTPError := newError (str "Uninitialized").

(** ** server.go: authenticator *)

(** What the authenticator reads of a request. *)
Record Request := mkRequest {
  IsWebSocketUpgrade : bool; QueryToken : gostring; Authorization : gostring }.

Inductive answer := Served | Refused (status : Z) (e : HTTPError).

Definition StatusUnauthorized : Z := 401.

Definition space : byte := z2b 32.

Definition authenticator (token : gostring) (r : Request) : option answer :=
  if str_eqb token [] then Some Served
  else if IsWebSocketUpgrade r && negb (str_eqb (QueryToken r) []) then
    if negb (str_eqb (QueryToken r) token) then Some (Refused StatusUnauthorized ErrUnauthorized)
    else Some Served
  else
    let text := SplitN2 (Authorization r) space in
    text0 ← text !! 0%nat;
    let hasInvalidHeader := negb (str_eqb text0 (str "Bearer")) in
    hasInvalidToken ←
      (if negb (length text =? 2)%nat then Some true
       else text1 ← text !! 1%nat; Some (negb (str_eqb text1 token)));
    if hasInvalidHeader || hasInvalidToken then Some (Refused StatusUnauthorized ErrUnauthorized)
    else Some Served.

(** ** netstats.go *)

(** A value the reflection of [encodeToJSON] meets: a counter, a map of
    counters with what [Get] answers for each of its keys, a struct. *)
Inductive stat :=
| StatCounter (v : Z)
| IntegralStatCounterMap (entries : list (Z * option Z))
| Struct (fields : list (gostring * stat)).

Definition quote : byte := z2b 34.
Definition lbrace : byte := z2b 123.
Definition rbrace : byte := z2b 125.
Definition comma : byte := z2b 44.

Definition member (name value : gostring) : gostring := quote :: name ++ quote :: colon :: value.

(** The comma after an element that is not the last. *)
Definition sep {A} (rest : list A) : gostring := match rest with [] => [] | _ => [comma] end.

Fixpoint encodeEntries (es : list (Z * option Z)) : gostring :=
  match es with
  | [] => []
  | (k, c) :: es =>
      match c with
      | Some v => member (Itoa k) (Itoa v) ++ sep es
      | None => []
      end ++ encodeEntries es
  end.

Fixpoint encodeToJSON (value : stat) : gostring :=
  match value with
  | StatCounter v => Itoa v
  | IntegralStatCounterMap es => lbrace :: encodeEntries es ++ [rbrace]
  | Struct fields =>
      lbrace ::
      (fix go (fs : list (gostring * stat)) : gostring :=
         match fs with
         | [] => []
         | (name, v) :: fs => member name (encodeToJSON v) ++ sep fs ++ go fs
         end) fields ++ [rbrace]
  end.

Fixpoint encodeFields (fs : list (gostring * stat)) : gostring :=
  match fs with
  | [] => []
  | (name, v) :: fs => member name (encodeToJSON v) ++ sep fs ++ encodeFields fs
  end.

Lemma encodeToJSON_Struct fs : encodeToJSON (Struct fs) = lbrace :: encodeFields fs ++ [rbrace].
Proof. done. Qed.

(** [_stackStatsFunc] is [None] until it is set. *)
Definition StatsFunc : Type := option (unit -> stat).

Definition SetStatsFunc (s : unit -> stat) (_ : StatsFunc) : StatsFunc := Some s.

(** A request that is no WebSocket upgrade: the status and the body. *)
Definition getNetStats (f : StatsFunc) : Z * (gostring + HTTPError) :=
  match f with
  | None => (500, inr ErrUninitialized)
  | Some f => (200, inl (encodeToJSON (f tt)))
  end.

(** ** connections.go: closing *)

Section close.
Context {S : Type} `{Closer S}.

(** The manager, and the trackers by their identifiers. *)
Record World := mkWorld { manager : Manager; trackers : gmap gostring (Tracker S) }.

(** [c.Close()] of a tracker of a snapshot: its connection is closed and it
    leaves the manager. *)
Definition closeTracker (id : gostring) (w : World) : World :=
  match trackers w !! id with
  | Some t => mkWorld (exec_all (atoms (Leave id)) (manager w)) (<[id := (Close t).2]> (trackers w))
  | None => w
  end.

Fixpoint closeFirst (id : gostring) (snapshot : list gostring) (w : World) : World :=
  match snapshot with
  | [] => w
  | c :: snapshot => if str_eqb id c then closeTracker c w else closeFirst id snapshot w
  end.

Definition closeConnection (id : gostring) (w : World) : World :=
  closeFirst id (Snapshot (manager w)).2 w.

Definition closeAllConnections (w : World) : World :=
  fold_left (fun w c => closeTracker c w) (Snapshot (manager w)).2 w.
End close.
Arguments World : clear implicits.
Arguments mkWorld {S}.

(** ** Properties: authentication *)

(** What lets a request through. *)
Definition authorised (token : gostring) (r : Request) : Prop :=
  token = [] \/
  (IsWebSocketUpgrade r = true /\ QueryToken r <> [] /\ QueryToken r = token) \/
  ((IsWebSocketUpgrade r = false \/ QueryToken r = []) /\
   Authorization r = str "Bearer" ++ space :: token).

Lemma authenticator_answers token r :
  exists a, authenticator token r = Some a /\
    (a = Served <-> authorised token r) /\
    (a <> Served -> a = Refused 401 ErrUnauthorized).
Proof.
  unfold authenticator, authorised. destruct (decide (token = [])) as [->|Ht].
  { rewrite (proj2 (str_eqb_eq _ _)) by done. exists Served. by split_and!; try split; auto. }
  rewrite (proj2 (str_eqb_neq _ _)) by done.
  destruct (IsWebSocketUpgrade r && negb (str_eqb (QueryToken r) [])) eqn:Eq.
  - apply andb_true_iff in Eq as [Hu Hq]. apply negb_true_iff, str_eqb_neq in Hq.
    destruct (str_eqb (QueryToken r) token) eqn:E; cbn [negb]; eexists; (split; [reflexivity|]).
    + apply str_eqb_eq in E. split; [|done]. split; [|done]. by auto 6.
    + apply str_eqb_neq in E. split; [|done]. split; [done|]. intros [?|[(_ & _ & ?)|[[?|?] _]]]; congruence.
  - assert (IsWebSocketUpgrade r = false \/ QueryToken r = []) as Hn.
    { apply andb_false_iff in Eq as [?|Hq]; [by left|right]. by apply negb_false_iff, str_eqb_eq in Hq. }
    assert (SplitN2 (Authorization r) space = [str "Bearer"; token] <->
      Authorization r = str "Bearer" ++ space :: token) as Hiff.
    { rewrite SplitN2_two. split; [by intros [? _]|]. intros ->. split; [done|]. by apply has_byte_false. }
    assert (forall a, (a = Served <-> SplitN2 (Authorization r) space = [str "Bearer"; token]) ->
      (a = Served <-> token = [] \/
       (IsWebSocketUpgrade r = true /\ QueryToken r <> [] /\ QueryToken r = token) \/
       ((IsWebSocketUpgrade r = false \/ QueryToken r = []) /\
        Authorization r = str "Bearer" ++ space :: token))) as Hgo.
    { intros a Ha. rewrite Ha, Hiff. split; [by auto|]. intros [?|[(Hu & Hq & _)|[_ ?]]]; [done| |done].
      destruct Hn as [Hn|Hn]; [congruence|done]. }
    destruct (SplitN2_cases (Authorization r) space) as [(b & t & E)|E]; rewrite E in *;
      cbn [length lookup list_lookup Nat.eqb negb mbind option_bind].
    + destruct (str_eqb b (str "Bearer")) eqn:Eb, (str_eqb t token) eqn:Et; cbn [negb orb];
        eexists; (split; [reflexivity|]); (split; [apply Hgo|done]);
        rewrite ?str_eqb_eq, ?str_eqb_neq in *;
        first [split; [intros _; congruence|done] | split; [done|intros [= ? ?]; congruence]].
    + rewrite orb_true_r. eexists. split; [reflexivity|]. split; [by apply Hgo|done].
Qed.

(** A request is served exactly when no token is configured, or it is a
    WebSocket upgrade whose query carries the token, or (its query carrying
    none, or it being no upgrade) its Authorization header is exactly the word
    Bearer, one space and the token; every other request gets 401, and no
    header makes the authenticator panic. *)
Theorem authenticator_spec token r :
  exists a, authenticator token r = Some a /\
    (a = Served <-> token = [] \/
       (IsWebSocketUpgrade r = true /\ QueryToken r <> [] /\ QueryToken r = token) \/
       ((IsWebSocketUpgrade r = false \/ QueryToken r = []) /\
        Authorization r = str "Bearer" ++ space :: token)) /\
    (a <> Served -> a = Refused 401 ErrUnauthorized).
Proof. apply authenticator_answers. Qed.

(** ** Properties: JSON *)

(** A parser of the part of JSON the counters use: objects whose names have no
    escapes, and natural numbers. *)
Inductive json := JNum (n : Z) | JObj (members : list (gostring * json)).

Fixpoint parse_digits (n : Z) (s : gostring) : Z * gostring :=
  match s with
  | c :: r => if is_digit c then parse_digits (n * 10 + (b2z c - 48)) r else (n, s)
  | [] => (n, [])
  end.

Fixpoint parse_string (s : gostring) : option (gostring * gostring) :=
  match s with
  | [] => None
  | c :: r => if decide (c = quote) then Some ([], r)
              else '(n, r) ← parse_string r; Some (c :: n, r)
  end.

Fixpoint parse_value (fuel : nat) (s : gostring) : option (json * gostring) :=
  match fuel, s with
  | S f, c :: r =>
      if decide (c = lbrace) then
        match r with
        | c' :: r' =>
            if decide (c' = rbrace) then Some (JObj [], r')
            else '(ms, r) ← parse_members f r; Some (JObj ms, r)
        | [] => None
        end
      else if is_digit c then let '(n, r) := parse_digits 0 s in Some (JNum n, r)
      else None
  | _, _ => None
  end
with parse_members (fuel : nat) (s : gostring) : option (list (gostring * json) * gostring) :=
  match fuel, s with
  | S f, q :: r =>
      if decide (q = quote) then
        '(name, r) ← parse_string r;
        match r with
        | c :: r =>
            if decide (c = colon) then
              '(v, r) ← parse_value f r;
              match r with
              | c :: r =>
                  if decide (c = comma) then '(ms, r) ← parse_members f r; Some ((name, v) :: ms, r)
                  else if decide (c = rbrace) then Some ([(name, v)], r)
                  else None
              | [] => None
              end
            else None
        | [] => None
        end
      else None
  | _, _ => None
  end.

(** What the counters say. *)
Fixpoint denote (v : stat) : json :=
  match v with
  | StatCounter v => JNum v
  | IntegralStatCounterMap es =>
      JObj (omap (fun e => (fun v => (Itoa e.1, JNum v)) <$> e.2) es)
  | Struct fs =>
      JObj ((fix go (fs : list (gostring * stat)) : list (gostring * json) :=
               match fs with [] => [] | (n, v) :: fs => (n, denote v) :: go fs end) fs)
  end.

(** Counters are 64-bit, names have no quotes, and [Get] finds the last key of
    a map. *)
Definition entry_ok (e : Z * option Z) : Prop :=
  0 <= e.1 < 2 ^ 64 /\ match e.2 with Some v => 0 <= v < 2 ^ 64 | None => True end.

Fixpoint stat_ok (v : stat) : Prop :=
  match v with
  | StatCounter v => 0 <= v < 2 ^ 64
  | IntegralStatCounterMap es => Forall entry_ok es /\ match last es with Some (_, None) => False | _ => True end
  | Struct fs =>
      (fix go (fs : list (gostring * stat)) : Prop :=
         match fs with [] => True | (n, v) :: fs => quote ∉ n /\ stat_ok v /\ go fs end) fs
  end.

Lemma stat_ind' (P : stat -> Prop) :
  (forall v, P (StatCounter v)) -> (forall es, P (IntegralStatCounterMap es)) ->
  (forall fs, Forall (fun f => P f.2) fs -> P (Struct fs)) -> forall v, P v.
Proof.
  intros Hc Hm Hs. fix IH 1. intros [v|es|fs]; [apply Hc|apply Hm|]. apply Hs.
  induction fs as [|[n v] fs IHfs]; constructor; [apply IH|apply IHfs].
Qed.

Lemma parse_digits_itoa f : forall n acc,
  0 <= n -> n < 10 ^ Z.of_nat (Datatypes.S f) ->
  parse_digits 0 (itoa_aux (Datatypes.S f) n acc) = parse_digits n acc.
Proof.
  assert (Hd : forall n acc, 0 <= n -> parse_digits (n / 10) (digit (n mod 10) :: acc) = parse_digits n acc).
  { intros n acc Hn. pose proof (Z.mod_pos_bound n 10 eq_refl). cbn [parse_digits].
    rewrite is_digit_digit, b2z_digit by lia. f_equal. pose proof (Z.div_mod n 10). lia. }
  induction f as [|f IH]; intros n acc Hn Hf.
  - change (itoa_aux 1 n acc) with (if n / 10 =? 0 then digit (n mod 10) :: acc else digit (n mod 10) :: acc).
    change (10 ^ Z.of_nat 1) with 10 in Hf.
    assert (n / 10 = 0) as H0 by (apply Z.div_small; lia).
    rewrite <- (Hd n acc Hn), H0. done.
  - remember (Datatypes.S f) as f1. simpl itoa_aux.
    destruct (Z.eqb_spec (n / 10) 0) as [H0|H0]; [by rewrite <- (Hd n acc Hn), H0|].
    subst f1. rewrite IH; [by apply Hd|by apply Z.div_pos|].
    apply Z.div_lt_upper_bound; [lia|]. rewrite Nat2Z.inj_succ, Z.pow_succ_r in Hf by lia. lia.
Qed.

Lemma itoa_aux_acc f : forall n acc rest, itoa_aux f n acc ++ rest = itoa_aux f n (acc ++ rest).
Proof. induction f as [|f IH]; intros n acc rest; [done|]. simpl. destruct (n / 10 =? 0); [done|apply IH]. Qed.

(** What may follow a number. *)
Definition ends_number (rest : gostring) : Prop := match rest with c :: _ => is_digit c = false | [] => True end.

Lemma parse_digits_Itoa n rest :
  0 <= n < 2 ^ 64 -> ends_number rest -> parse_digits 0 (Itoa n ++ rest) = (n, rest).
Proof.
  intros Hn Hr. unfold Itoa. rewrite itoa_aux_acc, parse_digits_itoa; [|lia|].
  - destruct rest as [|c rest]; [done|]. cbn in *. by rewrite Hr.
  - assert (2 ^ 64 < 10 ^ Z.of_nat 20) by done. lia.
Qed.

Lemma Itoa_head n : 0 <= n -> exists c r, Itoa n = c :: r /\ is_digit c = true.
Proof.
  intros Hn. pose proof (Itoa_digits n Hn) as Hd. destruct (Itoa n) as [|c r] eqn:E.
  - by apply itoa_aux_nonnil in E.
  - inversion Hd; subst. eauto.
Qed.

Lemma parse_number f n rest :
  0 <= n < 2 ^ 64 -> ends_number rest -> parse_value (Datatypes.S f) (Itoa n ++ rest) = Some (JNum n, rest).
Proof.
  intros Hn Hr. pose proof (parse_digits_Itoa n rest Hn Hr) as Hp.
  destruct (Itoa_head n) as (c & r & E & Hc); [lia|]. rewrite E in *. cbn [parse_value app] in *.
  rewrite decide_False by (intros ->; by vm_compute in Hc). by rewrite Hc, Hp.
Qed.

Lemma parse_string_quote n r : quote ∉ n -> parse_string (n ++ quote :: r) = Some (n, r).
Proof.
  induction n as [|c n IH]; intros Hn; cbn [parse_string app].
  - by rewrite decide_True.
  - apply not_elem_of_cons in Hn as [Hc Hn]. by rewrite decide_False, IH by done.
Qed.

Lemma parse_member f name enc v c r :
  quote ∉ name -> parse_value f (enc ++ c :: r) = Some (v, c :: r) ->
  parse_members (Datatypes.S f) (member name enc ++ c :: r) =
    if decide (c = comma) then '(ms, r) ← parse_members f r; Some ((name, v) :: ms, r)
    else if decide (c = rbrace) then Some ([(name, v)], r) else None.
Proof.
  intros Hn Hv. unfold member. rewrite <- app_comm_cons, <- app_assoc. cbn [parse_members app].
  rewrite decide_True by done. rewrite parse_string_quote by done. cbn [mbind option_bind].
  rewrite decide_True by done. by rewrite Hv.
Qed.

Lemma parse_object f body rest ms :
  head body = Some quote -> parse_members f (body ++ rbrace :: rest) = Some (ms, rest) ->
  parse_value (Datatypes.S f) ((lbrace :: body ++ [rbrace]) ++ rest) = Some (JObj ms, rest).
Proof.
  intros Hb Hm. rewrite <- app_comm_cons, <- app_assoc. cbn [parse_value app].
  rewrite decide_True by done. destruct body as [|q body]; [done|]. injection Hb as ->.
  cbn [app] in *. rewrite decide_False by done. by rewrite Hm.
Qed.

Lemma encodeEntries_head es :
  Forall entry_ok es -> match last es with Some (_, Some _) => True | _ => False end ->
  head (encodeEntries es) = Some quote.
Proof.
  induction es as [|[k [v|]] es IH]; intros Hes Hl; [done|done|].
  inversion Hes; subst. cbn. apply IH; [done|]. destruct es as [|e es]; done.
Qed.

Lemma parse_entries es : forall fuel rest,
  Forall entry_ok es -> match last es with Some (_, Some _) => True | _ => False end ->
  (length (encodeEntries es) < fuel)%nat ->
  parse_members fuel (encodeEntries es ++ rbrace :: rest) =
    Some (omap (fun e => (fun v => (Itoa e.1, JNum v)) <$> e.2) es, rest).
Proof.
  induction es as [|[k c] es IH]; intros fuel rest Hes Hl Hf; [done|].
  inversion Hes as [|? ? [Hk Hc] Hes']; subst. cbn in Hk, Hc.
  destruct c as [v|].
  2:{ cbn [encodeEntries omap list_omap fst snd]. apply IH; [done| |done]. by destruct es. }
  cbn [encodeEntries] in *. rewrite !length_app in Hf. rewrite <- !app_assoc.
  destruct fuel as [|fuel]; [lia|].
  assert (0 < fuel)%nat as Hfuel.
  { unfold member in Hf. cbn [length] in Hf. rewrite length_app in Hf. cbn [length] in Hf. lia. }
  assert (quote ∉ Itoa k) as Hq by (apply Itoa_not_elem; [lia|done]).
  destruct es as [|e es].
  - cbn [sep app encodeEntries]. rewrite (parse_member fuel (Itoa k) (Itoa v) (JNum v)); [done|done|].
    destruct fuel as [|fuel]; [lia|]. by apply parse_number.
  - change (sep (e :: es)) with [comma]. cbn [app].
    rewrite (parse_member fuel (Itoa k) (Itoa v) (JNum v)); [|done|].
    2:{ destruct fuel as [|fuel]; [lia|]. by apply parse_number. }
    rewrite decide_True by done. rewrite IH; [done|done|exact Hl|].
    change (sep (e :: es)) with [comma] in Hf. cbn [length] in Hf. lia.
Qed.

Lemma stat_ok_fields fs : stat_ok (Struct fs) <-> Forall (fun f => quote ∉ f.1 /\ stat_ok f.2) fs.
Proof.
  induction fs as [|[n v] fs IH]; [by split|]. rewrite Forall_cons, <- IH. cbn. naive_solver.
Qed.

Lemma denote_fields fs : denote (Struct fs) = JObj ((fun f => (f.1, denote f.2)) <$> fs).
Proof.
  cbn. f_equal. induction fs as [|[n v] fs IH]; [done|]. cbn. by f_equal.
Qed.

Lemma parse_fields fs : forall fuel rest,
  Forall (fun f => forall fuel rest, stat_ok f.2 -> ends_number rest -> (length (encodeToJSON f.2) <= fuel)%nat ->
    parse_value fuel (encodeToJSON f.2 ++ rest) = Some (denote f.2, rest)) fs ->
  Forall (fun f => quote ∉ f.1 /\ stat_ok f.2) fs -> fs <> [] ->
  (length (encodeFields fs) < fuel)%nat ->
  parse_members fuel (encodeFields fs ++ rbrace :: rest) =
    Some ((fun f => (f.1, denote f.2)) <$> fs, rest).
Proof.
  induction fs as [|[n v] fs IH]; intros fuel rest HI Hok Hne Hf; [done|].
  inversion HI as [|? ? HI1 HI']; inversion Hok as [|? ? [Hq Hv] Hok']; subst. cbn [fst snd] in *.
  cbn [encodeFields] in *. rewrite !length_app in Hf. rewrite <- !app_assoc.
  unfold member in Hf at 1. cbn [length] in Hf. rewrite length_app in Hf. cbn [length] in Hf.
  destruct fuel as [|fuel]; [lia|].
  destruct fs as [|f fs].
  - cbn [sep app encodeFields]. rewrite (parse_member fuel n _ (denote v)); [done|done|].
    apply HI1; [done|done|lia].
  - change (sep (f :: fs)) with [comma] in *. cbn [app].
    rewrite (parse_member fuel n _ (denote v)); [|done|apply HI1; [done|done|lia]].
    rewrite decide_True by done. rewrite IH; [done|done|done|done|]. cbn [length] in Hf. lia.
Qed.

Lemma parse_encode v : forall fuel rest,
  stat_ok v -> ends_number rest -> (length (encodeToJSON v) <= fuel)%nat ->
  parse_value fuel (encodeToJSON v ++ rest) = Some (denote v, rest).
Proof.
  induction v as [v|es|fs IH] using stat_ind'; intros fuel rest Hok Hr Hf.
  - cbn [encodeToJSON denote] in *. destruct fuel as [|fuel]; [|by apply parse_number].
    destruct (Itoa_head v) as (c & r & E & _); [cbn in Hok; lia|]. rewrite E in Hf. cbn in Hf. lia.
  - cbn [encodeToJSON] in *. destruct fuel as [|fuel]; [cbn in Hf; lia|]. destruct Hok as [Hes Hl].
    destruct es as [|e es]; [done|].
    cbn [length] in Hf. rewrite length_app in Hf. cbn [length] in Hf.
    assert (match last (e :: es) with Some (_, Some _) => True | _ => False end) as Hl'.
    { destruct (last (e :: es)) as [[k [c|]]|] eqn:E; try done. by apply last_None in E. }
    apply parse_object; [by apply encodeEntries_head|]. by apply parse_entries; [| |lia].
  - rewrite encodeToJSON_Struct, denote_fields in *. destruct fuel as [|fuel]; [cbn in Hf; lia|].
    cbn [length] in Hf. rewrite length_app in Hf. cbn [length] in Hf.
    apply stat_ok_fields in Hok. destruct fs as [|f fs]; [done|].
    apply parse_object; [by destruct f|]. by apply parse_fields; [| | |lia].
Qed.

(** C28: the network statistics are JSON.  For any tree of counters whose names
    need no escape and whose maps find their last key, what the endpoint
    answers is read back by a JSON parser, to the end, as the object with
    exactly those names and counts in their order. *)
Theorem netstats_json f v :
  f tt = v -> stat_ok v ->
  getNetStats (Some f) = (200, inl (encodeToJSON v)) /\
  parse_value (length (encodeToJSON v)) (encodeToJSON v) = Some (denote v, []).
Proof.
  intros <- Hok. split; [done|]. pose proof (parse_encode (f tt) (length (encodeToJSON (f tt))) [] Hok I) as Hp.
  rewrite app_nil_r in Hp. by apply Hp.
Qed.

(** A map that no longer finds its last key leaves a comma before the brace,
    which is not JSON. *)
Example trailing_comma :
  let v := Struct [(str "A", IntegralStatCounterMap [(1, Some 2); (3, None)])] in
  parse_value 100 (encodeToJSON v) = None.
Proof. by vm_compute. Qed.

(** ** Properties: connections *)

Section close_facts.
Context {S : Type} `{Closer S}.

Lemma closeTracker_found id (w : World S) t :
  trackers w !! id = Some t ->
  connections (manager (closeTracker id w)) = connections (manager w) ∖ {[id]} /\
  trackers (closeTracker id w) = <[id := (Close t).2]> (trackers w) /\
  (forall c, getC c (manager (closeTracker id w)) = getC c (manager w)).
Proof. intros Ht. unfold closeTracker. rewrite Ht. destruct (manager w). split_and!; try done; by intros []. Qed.

Lemma closeAll_list l : forall w : World S,
  NoDup l -> (forall id, id ∈ l -> is_Some (trackers w !! id)) ->
  let w' := fold_left (fun w c => closeTracker c w) l w in
  connections (manager w') = connections (manager w) ∖ list_to_set l /\
  (forall id, trackers w' !! id =
     if decide (id ∈ l) then (fun t => (Close t).2) <$> trackers w !! id else trackers w !! id) /\
  (forall c, getC c (manager w') = getC c (manager w)).
Proof.
  induction l as [|c l IH]; intros w Hnd Hl; cbn [fold_left].
  { split; [cbn; set_solver|]. split; [|done]. intros id. by rewrite decide_False by apply not_elem_of_nil. }
  apply NoDup_cons in Hnd as [Hc Hnd].
  destruct (Hl c) as [t Ht]; [by left|]. destruct (closeTracker_found c w t Ht) as (C1 & C2 & C3).
  destruct (IH (closeTracker c w) Hnd) as (I1 & I2 & I3).
  { intros id Hid. rewrite C2, lookup_insert_is_Some. destruct (decide (c = id)); [by left|right].
    split; [done|]. apply Hl. by right. }
  split; [rewrite I1, C1; set_solver|]. split; [|intros d; by rewrite I3, C3].
  intros id. rewrite I2, C2. destruct (decide (c = id)) as [->|Hne].
  - rewrite decide_False, decide_True by (done || by left). by rewrite lookup_insert_eq, Ht.
  - rewrite lookup_insert_ne by done. destruct (decide (id ∈ l)).
    + by rewrite decide_True by by right.
    + rewrite decide_False; [done|]. rewrite elem_of_cons. naive_solver.
Qed.

Lemma closeFirst_list id l : forall w : World S,
  closeFirst id l w = if decide (id ∈ l) then closeTracker id w else w.
Proof.
  induction l as [|c l IH]; intros w; cbn [closeFirst]; [by rewrite decide_False by apply not_elem_of_nil|].
  destruct (str_eqb id c) eqn:E.
  - apply str_eqb_eq in E as ->. by rewrite decide_True by by left.
  - apply str_eqb_neq in E. rewrite IH. destruct (decide (id ∈ l)).
    + by rewrite decide_True by by right.
    + rewrite decide_False; [done|]. rewrite elem_of_cons. naive_solver.
Qed.

(** Deleting all connections closes every tracker of the manager exactly
    once, in whatever order the map is visited, touches no other, leaves the
    manager without connections and its counters as they were; deleting one
    connection does so for the tracker with that identifier alone, and nothing
    when there is none. *)
Theorem close_connections (w : World S) :
  (forall id, id ∈ connections (manager w) -> is_Some (trackers w !! id)) ->
  let close t := (Close t).2 in
  connections (manager (closeAllConnections w)) = ∅ /\
  (forall id, trackers (closeAllConnections w) !! id =
     if decide (id ∈ connections (manager w)) then close <$> trackers w !! id else trackers w !! id) /\
  (forall c, getC c (manager (closeAllConnections w)) = getC c (manager w)) /\
  forall id,
    connections (manager (closeConnection id w)) = connections (manager w) ∖ {[id]} /\
    (forall j, trackers (closeConnection id w) !! j =
       if decide (j = id /\ id ∈ connections (manager w)) then close <$> trackers w !! j else trackers w !! j) /\
    (forall c, getC c (manager (closeConnection id w)) = getC c (manager w)).
Proof.
  intros Hw close. unfold closeAllConnections, closeConnection, Snapshot. cbn [snd].
  destruct (closeAll_list (elements (connections (manager w))) w) as (A1 & A2 & A3);
    [apply NoDup_elements|intros id Hid; by apply Hw, elem_of_elements|].
  split; [rewrite A1; set_solver|]. split.
  { intros id. rewrite A2. by rewrite (decide_ext _ _ _ _ (elem_of_elements (connections (manager w)) id)). }
  split; [done|]. intros id. rewrite closeFirst_list.
  destruct (decide (id ∈ elements (connections (manager w)))) as [Hid|Hid]; rewrite elem_of_elements in Hid.
  - destruct (Hw id Hid) as [t Ht]. destruct (closeTracker_found id w t Ht) as (C1 & C2 & C3).
    split; [done|]. split; [|done]. intros j. rewrite C2. destruct (decide (j = id)) as [->|Hne].
    + rewrite lookup_insert_eq, decide_True by done. by rewrite Ht.
    + rewrite lookup_insert_ne by done. by rewrite decide_False by naive_solver.
  - split; [set_solver|]. split; [|done]. intros j. by rewrite decide_False by naive_solver.
Qed.
End close_facts.

(** ** Witnesses *)

Lemma netstats_json_witness :
  let v := Struct [(str "TCP", Struct [(str "Active", StatCounter 3)]);
                   (str "Map", IntegralStatCounterMap [(7, None); (9, Some 2)])] in
  getNetStats (Some (fun _ => v)) = (200, inl (encodeToJSON v)) /\
  parse_value (length (encodeToJSON v)) (encodeToJSON v) = Some (denote v, []).
Proof.
  intros v. apply (netstats_json (fun _ => v) v); [reflexivity|]. cbn.
  split_and!; try done; try (apply has_byte_false; by vm_compute).
  repeat constructor; cbn; lia.
Defined.

Definition demo_tracker (id : gostring) : Tracker Wire :=
  mkTracker (dialed [str "x"] EOF) id (metadata.mkMetadata 0 Addr0 Addr0 Addr0 0 0 0) 0 0 [Join id].

Lemma close_connections_witness :
  let w := mkWorld (exec_all (atoms (Join (str "a"))) newManager)
             {[str "a" := demo_tracker (str "a"); str "b" := demo_tracker (str "b")]} in
  let close t := (Close t).2 in
  connections (manager (closeAllConnections w)) = ∅ /\
  (forall id, trackers (closeAllConnections w) !! id =
     if decide (id ∈ connections (manager w)) then close <$> trackers w !! id else trackers w !! id) /\
  (forall c, getC c (manager (closeAllConnections w)) = getC c (manager w)) /\
  forall id,
    connections (manager (closeConnection id w)) = connections (manager w) ∖ {[id]} /\
    (forall j, trackers (closeConnection id w) !! j =
       if decide (j = id /\ id ∈ connections (manager w)) then close <$> trackers w !! j else trackers w !! j) /\
    (forall c, getC c (manager (closeConnection id w)) = getC c (manager w)).
Proof.
  intros w. apply (close_connections w). intros id Hid.
  assert (id = str "a") as -> by (cbn in Hid; set_solver). by eexists.
Defined.
End restapi.
