(* ===== verification/Server.v ===== *)
(** * Server: package restapi (router and streams) and internal/version

    The routes of the API, the middlewares in front of them, the handlers as
    the answers they write, and the streams that follow a ticker.  The router
    of chi is the class [Chi], with what its documentation says of it in
    [ChiOk]; CORS, the WebSocket upgrade and pprof are parameters. *)

From S2P Require Import Prelude Net Conn Metadata Statistic Rest.
Import statistic restapi.

Open Scope Z_scope.

(** ** internal/version *)

Module version.

Definition Name : gostring := str "tun2socks".

(** [strings.TrimPrefix] of one byte. *)
Definition TrimPrefix1 (s : gostring) (c : byte) : gostring :=
  match s with d :: r => if decide (d = c) then r else s | [] => [] end.

(** [Version] and [GitCommit] are set by the linker. *)
Record Build := mkBuild {
  Version : gostring; GitCommit : gostring;
  GOOS : gostring; GOARCH : gostring; runtime_Version : gostring;
  BuildDeps : option (list gostring) (* [debug.ReadBuildInfo], nil in a build without modules *) }.

Definition String (b : Build) : gostring := Name ++ str "-" ++ TrimPrefix1 (Version b) (z2b 118).

Definition BuildString (b : Build) : gostring :=
  GOOS b ++ str "/" ++ GOARCH b ++ str ", " ++ runtime_Version b ++ str ", " ++ GitCommit b.

(** [bi.Deps] of a nil [bi] panics. *)
Definition Info (b : Build) : option (list gostring) := BuildDeps b.

(** A version never has the letter of its tag twice: the tag "v2.5.2" and the
    bare "2.5.2" print the same. *)
Lemma String_tag b v : head v <> Some (z2b 118) ->
  String (mkBuild (z2b 118 :: v) (GitCommit b) (GOOS b) (GOARCH b) (runtime_Version b) (BuildDeps b)) =
  String (mkBuild v (GitCommit b) (GOOS b) (GOARCH b) (runtime_Version b) (BuildDeps b)).
Proof.
  intros Hv. unfold String, TrimPrefix1. cbn [Version]. rewrite decide_True by done.
  destruct v as [|c v]; [done|]. rewrite decide_False; [done|]. intros ->. by apply Hv.
Qed.
End version.

Module server.

(** ** Requests and answers *)

(** What the router and the handlers read of a request; [credentials] is what
    the authenticator reads, [URLParams] what the router has matched, [upgrade]
    the error of the WebSocket upgrade, [sends] the errors of the writes to
    the client, for as many as happen. *)
Record Request := mkRequest {
  method : gostring; path : gostring; credentials : restapi.Request;
  interval : gostring; URLParams : gmap gostring gostring;
  upgrade : err; sends : list err }.

Inductive payload :=
| PError (e : HTTPError)
| PHello (name : gostring)
| PVersion (version commit : gostring) (modules : list gostring)
| PSnapshot (s : Z * Z * list gostring)
| PRaw (b : gostring).

(** The calls on the response writer, on [render] and on the WebSocket. *)
Inductive event :=
| SetHeader (k v : gostring)
| Status (code : Z)
| JSON (v : payload)
| NoContent
| Body (v : payload)
| Flush
| Upgrade
| WriteMessage (v : payload)
| StopTicker.

Definition StatusOK : Z := 200.

(** ** The state the handlers read: the manager and its trackers, the function
    of the statistics, and what the successive ticks will find. *)
Record Site (X : Type) := mkSite {
  world : World X; statsFunc : StatsFunc; build : version.Build;
  managers : nat -> Manager; stats : nat -> stat }.
Arguments mkSite {X}. Arguments world {X}. Arguments statsFunc {X}. Arguments build {X}.
Arguments managers {X}. Arguments stats {X}.

Definition setWorld {X} (w : World X) (s : Site X) : Site X :=
  mkSite w (statsFunc s) (build s) (managers s) (stats s).

(** [None] is a panic of the handler. *)
Definition Handler (W : Type) : Type := Request -> W -> option (list event * W).
Definition Middleware (W : Type) : Type := Handler W -> Handler W.

(** ** [encoding/json] of the two counts *)

Definition newline : byte := z2b 10.

Definition FormatInt (n : Z) : gostring := if n <? 0 then z2b 45 :: Itoa (- n) else Itoa n.

Definition Encode (up down : Z) : gostring * err :=
  (lbrace :: member (str "up") (FormatInt up) ++
   comma :: member (str "down") (FormatInt down) ++ [rbrace; newline], None).

(** ** The streams *)

(** The loop over the ticks from the [i]-th on; the flag tells that it has
    ended. *)
Fixpoint trafficLoop (ws : bool) (now : nat -> Manager) (i : nat) (sends : list err) : list event * bool :=
  match sends with
  | [] => ([], false)
  | sent :: sends =>
      let '(up, down) := Now (now i) in
      let '(buf, e) := Encode up down in
      check e else ([], true) ;;
      let evs := if ws then [WriteMessage (PRaw buf)] else [Body (PRaw buf); Flush] in
      check sent else (evs, true) ;;
      let '(rest, ended) := trafficLoop ws now (S i) sends in
      (evs ++ rest, ended)
  end.

Fixpoint netStatsLoop (snapshot : nat -> stat) (i : nat) (sends : list err) : list event * bool :=
  match sends with
  | [] => ([], false)
  | sent :: sends =>
      let ev := WriteMessage (PRaw (encodeToJSON (snapshot i))) in
      check sent else ([ev], true) ;;
      let '(rest, ended) := netStatsLoop snapshot (S i) sends in
      (ev :: rest, ended)
  end.

(** The deferred [tick.Stop] of a loop that has ended. *)
Definition stopped (r : list event * bool) : list event :=
  r.1 ++ if r.2 then [StopTicker] else [].

(** ** connections.go: the ticker *)

Definition defaultInterval : Z := 1000.

(** [time.NewTicker]: [None] is its panic. *)
Definition NewTicker (d : Z) : option Z := if d <=? 0 then None else Some d.

Definition Millisecond : Z := 1000000.

(** ** The handlers *)

Section handlers.
Context {X : Type} `{Closer X}.
#[local] Notation hdl := (Handler (Site X)).

Definition hello : hdl := fun _ s => Some ([JSON (PHello version.Name)], s).

Definition version : hdl := fun _ s =>
  modules ← version.Info (build s);
  Some ([JSON (PVersion (version.Version (build s)) (version.GitCommit (build s)) modules)], s).

Definition traffic : hdl := fun q s =>
  let ws := IsWebSocketUpgrade (credentials q) in
  if ws then
    check upgrade q else Some ([], s) ;;
    Some (Upgrade :: stopped (trafficLoop true (managers s) 0 (sends q)), s)
  else
    Some ([SetHeader (str "Content-Type") (str "application/json"); Status StatusOK] ++
          stopped (trafficLoop false (managers s) 0 (sends q)), s).

Definition getNetStats : hdl := fun q s =>
  let '(status, body) := restapi.getNetStats (statsFunc s) in
  match body with
  | inr e => Some ([Status status; JSON (PError e)], s)
  | inl b =>
      if negb (IsWebSocketUpgrade (credentials q)) then
        Some ([SetHeader (str "Content-Type") (str "application/json"); Status status;
               Body (PRaw b); Flush], s)
      else
        check upgrade q else Some ([], s) ;;
        Some (Upgrade :: stopped (netStatsLoop (stats s) 0 (sends q)), s)
  end.

(** [sendSnapshot] at the [i]-th time. *)
Fixpoint snapshotLoop (now : nat -> Manager) (i : nat) (sends : list err) : list event * bool :=
  match sends with
  | [] => ([], false)
  | sent :: sends =>
      let ev := WriteMessage (PSnapshot (Snapshot (now i))) in
      check sent else ([ev], true) ;;
      let '(rest, ended) := snapshotLoop now (S i) sends in
      (ev :: rest, ended)
  end.

(** [None] in the panic of the ticker's interval. *)
Definition getConnections : hdl := fun q s =>
  if negb (IsWebSocketUpgrade (credentials q)) then
    Some ([JSON (PSnapshot (Snapshot (manager (world s))))], s)
  else
    check upgrade q else Some ([], s) ;;
    '(interval, bad) ←
      (if negb (str_eqb (interval q) []) then
         let '(t, e) := Atoi (interval q) in
         Some (if (e : err) then (defaultInterval, true) else (t, false))
       else Some (defaultInterval, false));
    if bad : bool then Some ([Upgrade; Status 400; JSON (PError ErrBadRequest)], s)
    else
      match sends q with
      | [] => Some ([Upgrade], s)
      | sent :: sends =>
          let ev := WriteMessage (PSnapshot (Snapshot (managers s 0%nat))) in
          check sent else Some ([Upgrade; ev], s) ;;
          _ ← NewTicker (i64 (Millisecond * interval));
          Some (Upgrade :: ev :: stopped (snapshotLoop (managers s) 1 sends), s)
      end.

Definition closeConnection : hdl := fun q s =>
  Some ([NoContent], setWorld (restapi.closeConnection (default [] (URLParams q !! str "id")) (world s)) s).

Definition closeAllConnections : hdl := fun q s =>
  Some ([NoContent], setWorld (restapi.closeAllConnections (world s)) s).
End handlers.

(** ** chi

    [Group] is given what its function does with a router of its own; [None]
    is chi's panic on a wrong registration. *)

Class Chi (W : Type) := {
  Router : Type;
  NewRouter : Router;
  Use : Middleware W -> Router -> option Router;
  Group : (Router -> option Router) -> Router -> option Router;
  Method : option gostring -> gostring -> Handler W -> Router -> option Router;
  Mount : gostring -> Handler W -> Router -> option Router;
  ServeHTTP : Router -> Handler W }.

Section restapi.
Context {X : Type} `{Closer X, !Chi (Site X)}.
#[local] Notation hdl := (Handler (Site X)).

Definition Get (p : gostring) (h : hdl) : Router -> option Router := Method (Some (str "GET")) p h.
Definition Delete (p : gostring) (h : hdl) : Router -> option Router := Method (Some (str "DELETE")) p h.
Definition HandleFunc (p : gostring) (h : hdl) : Router -> option Router := Method None p h.

(** ** connections.go and debug.go: the mounted routers *)

Definition connectionRouter : option hdl :=
  r ← Get (str "/") getConnections NewRouter;
  r ← Delete (str "/") closeAllConnections r;
  r ← Delete (str "/{id}") closeConnection r;
  Some (ServeHTTP r).

Section debug.
(** The handlers of net/http/pprof, by name. *)
Context (Index Cmdline Profile Symbol Trace : hdl) (pprof_Handler : gostring -> hdl).

Definition pprofHandler : hdl := fun q s => pprof_Handler (default [] (URLParams q !! str "name")) q s.

Definition pprofRouter : option hdl :=
  r ← HandleFunc (str "/") Index NewRouter;
  r ← HandleFunc (str "/cmdline") Cmdline r;
  r ← HandleFunc (str "/profile") Profile r;
  r ← HandleFunc (str "/symbol") Symbol r;
  r ← HandleFunc (str "/trace") Trace r;
  r ← HandleFunc (str "/{name}") pprofHandler r;
  Some (ServeHTTP r).

(** ** server.go *)

Definition registerEndpoint (pattern : gostring) (handler : hdl) (endpoints : gmap gostring hdl) : gmap gostring hdl :=
  <[pattern := handler]> endpoints.

(** The [init] functions, in the order of the files; [debug] is the build tag. *)
Definition endpoints (debug : bool) : option (gmap gostring hdl) :=
  h ← connectionRouter;
  let es := registerEndpoint (str "/connections") h ∅ in
  es ← (if debug then h ← pprofRouter; Some (registerEndpoint (str "/debug/pprof/") h es) else Some es);
  Some (registerEndpoint (str "/netstats") getNetStats es).
End debug.

(** The authenticator around a handler. *)
Definition authenticate (token : gostring) : Middleware (Site X) := fun next q s =>
  a ← authenticator token (credentials q);
  match a with
  | Served => next q s
  | Refused status e => Some ([Status status; JSON (PError e)], s)
  end.

Fixpoint mountAll (eps : list (gostring * hdl)) (r : Router) : option Router :=
  match eps with
  | [] => Some r
  | (pattern, handler) :: eps => r ← Mount pattern handler r; mountAll eps r
  end.

(** The group's function; [eps] are the endpoints in the order the map is
    visited. *)
Definition group (token : gostring) (eps : list (gostring * hdl)) (r : Router) : option Router :=
  r ← Use (authenticate token) r;
  r ← Get (str "/") hello r;
  r ← Get (str "/traffic") traffic r;
  r ← Get (str "/version") version r;
  mountAll eps r.

(** [cors] is the handler of go-chi/cors with the options of the code. *)
Definition router (cors : Middleware (Site X)) (token : gostring) (eps : list (gostring * hdl)) : option Router :=
  r ← Use cors NewRouter; Group (group token eps) r.

(** [http.Serve] returns only with an error. *)
Definition Start (cors : Middleware (Site X)) (Listen : gostring -> err) (Serve : Router -> error)
    (eps : list (gostring * hdl)) (addr token : gostring) : option err :=
  r ← router cors token eps;
  check Listen addr else Some (Listen addr) ;;
  Some (Some (Serve r)).
End restapi.

(** ** What chi promises *)

Record entry (W : Type) := mkEntry {
  e_method : option gostring; e_pattern : gostring; e_mount : bool; e_handler : Handler W }.
Arguments mkEntry {W}. Arguments e_method {W}. Arguments e_pattern {W}.
Arguments e_mount {W}. Arguments e_handler {W}.

(** The middlewares around a handler, the first the outermost. *)
Definition chain {W} (ms : list (Middleware W)) (h : Handler W) : Handler W :=
  foldr (fun m h => m h) h ms.

Definition guard {W} (ms : list (Middleware W)) (e : entry W) : entry W :=
  mkEntry (e_method e) (e_pattern e) (e_mount e) (chain ms (e_handler e)).

Definition slash : byte := z2b 47.
Definition star : byte := z2b 42.

Definition rooted (p : gostring) : Prop := head p = Some slash.

(** A pattern without the slash at its end. *)
Definition slashless (p : gostring) : gostring :=
  if bool_decide (last p = Some slash) then take (length p - 1) p else p.

(** Patterns that may be mounted next to a registered one. *)
Definition compatible {W} (p : gostring) (e : entry W) : Prop :=
  star ∉ e_pattern e /\ (e_mount e = true -> slashless (e_pattern e) <> slashless p).

(** A router is its middlewares and its routes.  A middleware is added before
    any route; the routes of a group are wrapped in the middlewares of the
    group; a request goes through the middlewares of the router and is then
    served by a route that matches it, or is answered 404 or 405. *)
Class ChiOk (W : Type) `{Chi W} := {
  stack : Router -> list (Middleware W);
  entries : Router -> list (entry W);
  matches : option gostring -> gostring -> bool -> Request -> bool;
  routed : gostring -> bool -> Request -> Request;
  notFound : Request -> list event;
  dispatch : Router -> Handler W;
  routed_credentials p b q : credentials (routed p b q) = credentials q;
  NewRouter_ok : stack NewRouter = [] /\ entries NewRouter = [];
  Use_ok m r : entries r = [] ->
    exists r', Use m r = Some r' /\ stack r' = stack r ++ [m] /\ entries r' = [];
  Method_ok me p h r : rooted p ->
    exists r', Method me p h r = Some r' /\ stack r' = stack r /\
      entries r' = entries r ++ [mkEntry me p false h];
  Mount_ok p h r : rooted p -> Forall (compatible p) (entries r) ->
    exists r', Mount p h r = Some r' /\ stack r' = stack r /\
      entries r' = entries r ++ [mkEntry None p true h];
  Group_ok f r : entries r = [] ->
    exists r0, stack r0 = [] /\ entries r0 = [] /\ forall r1, f r0 = Some r1 ->
      exists r', Group f r = Some r' /\ stack r' = stack r /\
        entries r' = guard (stack r1) <$> entries r1;
  dispatch_ok r q w :
    (exists e, e ∈ entries r /\ matches (e_method e) (e_pattern e) (e_mount e) q = true /\
       dispatch r q w = e_handler e (routed (e_pattern e) (e_mount e) q) w) \/
    ((forall e, e ∈ entries r -> matches (e_method e) (e_pattern e) (e_mount e) q = false) /\
       dispatch r q w = Some (notFound q, w));
  ServeHTTP_ok r q w : ServeHTTP r q w = chain (stack r) (dispatch r) q w }.

(** Answers after other calls on the response. *)
Definition prepend {W} (evs : list event) (a : option (list event * W)) : option (list event * W) :=
  '(rest, w) ← a; Some (evs ++ rest, w).

(** ** Lemmas *)

Section facts.
Context {X : Type} `{Closer X, !Chi (Site X), !ChiOk (Site X)}.
#[local] Notation hdl := (Handler (Site X)).

(** The routes of a router that its registrations leave alone but for their
    own. *)
Definition extends (es : list (entry (Site X))) (r r' : Router) : Prop :=
  stack r' = stack r /\ entries r' = entries r ++ es.

Lemma extends_trans es1 es2 r1 r2 r3 :
  extends es1 r1 r2 -> extends es2 r2 r3 -> extends (es1 ++ es2) r1 r3.
Proof. intros [E1 E2] [F1 F2]. split; [congruence|]. by rewrite F2, E2, app_assoc. Qed.

(** The registrations of a table, one after the other. *)
Fixpoint methodAll (es : list (entry (Site X))) (r : Router) : option Router :=
  match es with
  | [] => Some r
  | e :: es => r ← Method (e_method e) (e_pattern e) (e_handler e) r; methodAll es r
  end.

Definition plain (e : entry (Site X)) : Prop := rooted (e_pattern e) /\ e_mount e = false.

Lemma methodAll_ok es : forall r,
  Forall plain es -> exists r', methodAll es r = Some r' /\ extends es r r'.
Proof.
  induction es as [|[me p b h] es IH]; intros r Hes.
  { exists r. split; [done|]. split; [done|]. by rewrite app_nil_r. }
  apply Forall_cons in Hes as [[Hp Hb] Hes]. cbn in Hp, Hb. subst b. cbn [methodAll e_method e_pattern e_handler].
  destruct (Method_ok me p h r Hp) as (r1 & -> & Hr1). cbn [mbind option_bind].
  destruct (IH r1 Hes) as (r' & E & Hr'). exists r'. split; [done|]. by apply (extends_trans [_] _ _ _ _ Hr1).
Qed.

Definition mounted (ep : gostring * hdl) : entry (Site X) := mkEntry None ep.1 true ep.2.

(** Endpoints that can be mounted in this order. *)
Definition mountable (eps : list (gostring * hdl)) : Prop :=
  Forall (fun ep => rooted ep.1 /\ star ∉ ep.1) eps /\ NoDup ((fun ep => slashless ep.1) <$> eps).

(** The order in which the map is visited does not matter. *)
#[local] Instance mountable_proper : Proper ((≡ₚ) ==> iff) mountable.
Proof. intros eps eps' Hp. unfold mountable. by rewrite Hp. Qed.

Lemma mountAll_ok eps : forall r,
  mountable eps ->
  Forall (fun e => star ∉ e_pattern e /\
            (e_mount e = true -> slashless (e_pattern e) ∉ (fun ep => slashless ep.1) <$> eps)) (entries r) ->
  exists r', mountAll eps r = Some r' /\ extends (mounted <$> eps) r r'.
Proof.
  induction eps as [|[p h] eps IH]; intros r [Hm Hnd] Hr.
  { exists r. split; [done|]. split; [done|]. by rewrite app_nil_r. }
  apply Forall_cons in Hm as [[Hp Hs] Hm]. apply NoDup_cons in Hnd as [Hn Hnd]. cbn [fst] in *.
  destruct (Mount_ok p h r Hp) as (r1 & E1 & Hr1).
  { eapply Forall_impl; [exact Hr|]. intros e [? He]. split; [done|].
    intros Hem E. apply (He Hem). rewrite E. by left. }
  cbn [mountAll]. rewrite E1. cbn [mbind option_bind].
  destruct (IH r1) as (r' & E & Hr'); [done| |].
  { rewrite (proj2 Hr1). apply Forall_app. split.
    - eapply Forall_impl; [exact Hr|]. intros e [? He]. split; [done|]. intros Hem Hin. apply (He Hem). by right.
    - by apply Forall_singleton. }
  exists r'. split; [done|]. by apply (extends_trans [_] _ _ _ _ Hr1).
Qed.

(** The answer of one of the routes of a table, or that there is none. *)
Definition serves (es : list (entry (Site X))) (q : Request) (s : Site X)
    (a : option (list event * Site X)) : Prop :=
  (exists e, e ∈ es /\ matches (e_method e) (e_pattern e) (e_mount e) q = true /\
     a = e_handler e (routed (e_pattern e) (e_mount e) q) s) \/
  ((forall e, e ∈ es -> matches (e_method e) (e_pattern e) (e_mount e) q = false) /\
     a = Some (notFound q, s)).

Lemma serves_plain es r q s :
  extends es NewRouter r -> serves es q s (ServeHTTP r q s).
Proof.
  intros [E1 E2]. destruct NewRouter_ok as [N1 N2]. rewrite N1 in E1. rewrite N2 in E2.
  rewrite ServeHTTP_ok, E1. cbn [chain foldr]. pose proof (dispatch_ok r q s) as Hd. by rewrite E2 in Hd.
Qed.

Definition connectionRoutes : list (entry (Site X)) :=
  [mkEntry (Some (str "GET")) (str "/") false getConnections;
   mkEntry (Some (str "DELETE")) (str "/") false closeAllConnections;
   mkEntry (Some (str "DELETE")) (str "/{id}") false closeConnection].

(** A chain of registrations is that of its table. *)
Ltac chain_table :=
  cbn [methodAll e_method e_pattern e_handler];
  repeat (match goal with |- context [Method ?m ?p ?h ?r] => destruct (Method m p h r) end;
          [cbn [mbind option_bind]|done]);
  done.

Lemma mux_ok es (o : option hdl) :
  Forall plain es -> o = (r ← methodAll es NewRouter; Some (ServeHTTP r)) ->
  exists h, o = Some h /\ forall q s, serves es q s (h q s).
Proof.
  intros Hes ->. destruct (methodAll_ok es NewRouter Hes) as (r & -> & Hr).
  exists (ServeHTTP r). split; [done|]. intros. by apply serves_plain.
Qed.

Lemma connectionRouter_ok :
  exists h, connectionRouter = Some h /\ forall q s, serves connectionRoutes q s (h q s).
Proof.
  apply mux_ok; [by repeat constructor|]. unfold connectionRouter, Get, Delete, connectionRoutes. chain_table.
Qed.

Section debug.
Context (Index Cmdline Profile Symbol Trace : hdl) (pprof_Handler : gostring -> hdl).

Definition pprofRoutes : list (entry (Site X)) :=
  [mkEntry None (str "/") false Index; mkEntry None (str "/cmdline") false Cmdline;
   mkEntry None (str "/profile") false Profile; mkEntry None (str "/symbol") false Symbol;
   mkEntry None (str "/trace") false Trace; mkEntry None (str "/{name}") false (pprofHandler pprof_Handler)].

Lemma pprofRouter_ok :
  exists h, pprofRouter Index Cmdline Profile Symbol Trace pprof_Handler = Some h /\
    forall q s, serves pprofRoutes q s (h q s).
Proof.
  apply mux_ok; [by repeat constructor|]. unfold pprofRouter, HandleFunc, pprofRoutes. chain_table.
Qed.

(** The endpoints that [init] registers can be mounted, in whatever order the
    map is visited. *)
Lemma endpoints_ok debug :
  exists es, endpoints Index Cmdline Profile Symbol Trace pprof_Handler debug = Some es /\
    mountable (map_to_list es).
Proof.
  destruct connectionRouter_ok as (hc & Ec & _). destruct pprofRouter_ok as (hp & Ep & _).
  unfold endpoints, registerEndpoint. rewrite Ec. cbn [mbind option_bind].
  destruct debug; [rewrite Ep|]; cbn [mbind option_bind]; eexists; (split; [reflexivity|]).
  - rewrite !map_to_list_insert, map_to_list_empty by done.
    split; [repeat constructor; try done; cbn; by apply has_byte_false|].
    apply (bool_decide_unpack _). by vm_compute.
  - rewrite !map_to_list_insert, map_to_list_empty by done.
    split; [repeat constructor; try done; cbn; by apply has_byte_false|].
    apply (bool_decide_unpack _). by vm_compute.
Qed.

Lemma endpoints_lookup debug es :
  endpoints Index Cmdline Profile Symbol Trace pprof_Handler debug = Some es ->
  (exists h, es !! str "/connections" = Some h /\ forall q s, serves connectionRoutes q s (h q s)) /\
  es !! str "/netstats" = Some getNetStats.
Proof.
  destruct connectionRouter_ok as (hc & Ec & Hc). destruct pprofRouter_ok as (hp & Ep & _).
  unfold endpoints, registerEndpoint. rewrite Ec. cbn [mbind option_bind].
  destruct debug; [rewrite Ep|]; cbn [mbind option_bind]; intros [= <-];
    (split; [exists hc; split; [|done]|by rewrite lookup_insert_eq]);
    by rewrite !lookup_insert_ne by done; rewrite lookup_insert_eq.
Qed.
End debug.

(** *** The API behind the authenticator *)

Definition apiRoutes (eps : list (gostring * hdl)) : list (entry (Site X)) :=
  [mkEntry (Some (str "GET")) (str "/") false hello;
   mkEntry (Some (str "GET")) (str "/traffic") false traffic;
   mkEntry (Some (str "GET")) (str "/version") false version] ++ (mounted <$> eps).

Lemma authenticate_cases token (next : hdl) q s :
  (authorised token (credentials q) -> authenticate token next q s = next q s) /\
  (~ authorised token (credentials q) ->
     authenticate token next q s = Some ([Status 401; JSON (PError ErrUnauthorized)], s)).
Proof.
  unfold authenticate. destruct (authenticator_answers token (credentials q)) as (a & -> & Ha & Hr).
  cbn [mbind option_bind]. rewrite <- Ha. destruct a; split; try done. intros Hn. by injection (Hr Hn) as -> ->.
Qed.

(** A table whose handlers are guarded by the authenticator. *)
Lemma serves_guarded token (es : list (entry (Site X))) q s a :
  serves (guard [authenticate token] <$> es) q s a ->
  (exists e, e ∈ es /\ matches (e_method e) (e_pattern e) (e_mount e) q = true /\
     (authorised token (credentials q) -> a = e_handler e (routed (e_pattern e) (e_mount e) q) s) /\
     (~ authorised token (credentials q) -> a = Some ([Status 401; JSON (PError ErrUnauthorized)], s))) \/
  ((forall e, e ∈ es -> matches (e_method e) (e_pattern e) (e_mount e) q = false) /\ a = Some (notFound q, s)).
Proof.
  intros [(e' & He & Hq & ->)|[Hq ->]].
  - apply list_elem_of_fmap in He as (e & -> & He). left. exists e. split; [done|]. split; [done|].
    cbn [guard e_handler e_pattern e_mount chain foldr].
    pose proof (authenticate_cases token (e_handler e) (routed (e_pattern e) (e_mount e) q) s) as Ha.
    by rewrite routed_credentials in Ha.
  - right. split; [|done]. intros e He. apply (Hq (guard [authenticate token] e)), list_elem_of_fmap. by exists e.
Qed.

Lemma router_ok cors token eps : mountable eps ->
  exists r, router cors token eps = Some r /\ stack r = [cors] /\
    entries r = guard [authenticate token] <$> apiRoutes eps.
Proof.
  intros Hm. destruct NewRouter_ok as [N1 N2]. unfold router.
  destruct (Use_ok cors NewRouter N2) as (r & -> & Hs & He). cbn [mbind option_bind].
  rewrite N1 in Hs. cbn in Hs.
  destruct (Group_ok (group token eps) r He) as (r0 & S0 & E0 & Hg).
  destruct (Use_ok (authenticate token) r0 E0) as (r1 & U1 & S1 & E1). rewrite S0 in S1.
  destruct (methodAll_ok (take 3 (apiRoutes [])) r1) as (r2 & U2 & S2 & E2); [by repeat constructor|].
  destruct (mountAll_ok eps r2 Hm) as (r3 & U3 & S3 & E3).
  { rewrite E2, E1. repeat constructor; try done; cbn; by apply has_byte_false. }
  assert (group token eps r0 = Some r3) as Hf.
  { unfold group, Get. rewrite U1. cbn [mbind option_bind]. cbn [apiRoutes app take methodAll e_method e_pattern e_handler] in U2.
    destruct (Method _ (str "/") _ _); [cbn [mbind option_bind] in *|done].
    destruct (Method _ (str "/traffic") _ _); [cbn [mbind option_bind] in *|done].
    destruct (Method _ (str "/version") _ _); [cbn [mbind option_bind] in *|done]. by injection U2 as ->. }
  destruct (Hg r3 Hf) as (r' & Hr & Hs' & He'). exists r'. split; [done|]. split; [congruence|].
  rewrite He', S3, S2, S1, E3, E2, E1. done.
Qed.

(** ** Properties: the routes *)

(** C17: nothing of the API answers a request that is not authorised.  In
    whatever order the endpoints are visited, the router is built without a
    panic; a preflight is answered by CORS alone, and any other request, after
    the headers of CORS, by the handler of a route of the table that matches
    it when it carries the token, by 401 and with nothing changed when it does
    not, and by 404 or 405 with nothing changed when no route matches; the
    mounted connections router is its own such table. *)
Theorem api_guarded Index Cmdline Profile Symbol Trace pprof_Handler debug cors token
    (preflight : Request -> option (list event)) (corsHeaders : Request -> list event) :
  (forall next q s, cors next q s =
     match preflight q with Some evs => Some (evs, s) | None => prepend (corsHeaders q) (next q s) end) ->
  exists es, endpoints Index Cmdline Profile Symbol Trace pprof_Handler debug = Some es /\
  (exists h, es !! str "/connections" = Some h /\ forall q s, serves connectionRoutes q s (h q s)) /\
  es !! str "/netstats" = Some getNetStats /\
  forall eps, eps ≡ₚ map_to_list es ->
  exists r, router cors token eps = Some r /\ forall q s,
    match preflight q with
    | Some evs => ServeHTTP r q s = Some (evs, s)
    | None => exists a, ServeHTTP r q s = prepend (corsHeaders q) a /\
        ((exists e, e ∈ apiRoutes eps /\ matches (e_method e) (e_pattern e) (e_mount e) q = true /\
            (authorised token (credentials q) -> a = e_handler e (routed (e_pattern e) (e_mount e) q) s) /\
            (~ authorised token (credentials q) -> a = Some ([Status 401; JSON (PError ErrUnauthorized)], s))) \/
         ((forall e, e ∈ apiRoutes eps -> matches (e_method e) (e_pattern e) (e_mount e) q = false) /\
            a = Some (notFound q, s)))
    end.
Proof.
  intros Hcors. destruct (endpoints_ok Index Cmdline Profile Symbol Trace pprof_Handler debug) as (es & E & Hm).
  exists es. split; [done|].
  destruct (endpoints_lookup _ _ _ _ _ _ _ _ E) as [Hc Hn]. split; [done|]. split; [done|].
  intros eps Hp. destruct (router_ok cors token eps) as (r & Er & Hs & He); [by rewrite Hp|].
  exists r. split; [done|]. intros q s. pose proof (ServeHTTP_ok r q s) as HS. rewrite Hs in HS.
  cbn [chain foldr] in HS. rewrite Hcors in HS. destruct (preflight q); [done|].
  exists (dispatch r q s). split; [done|].
  pose proof (dispatch_ok r q s) as Hd. rewrite He in Hd. by apply serves_guarded.
Qed.
End facts.

(** ** Properties: the streams *)

(** How many writes are made before the one that fails, it included. *)
Fixpoint attempts (sends : list err) : nat :=
  match sends with [] => 0 | None :: sends => S (attempts sends) | Some _ :: _ => 1 end.

Definition failed (sends : list err) : bool := existsb (fun e => bool_decide (is_Some e)) sends.

(** What a loop over ticks writes, from the [i]-th tick on. *)
Definition stream (evs : nat -> list event) (i : nat) (sends : list err) : list event * bool :=
  (mjoin (evs <$> seq i (attempts sends)), failed sends).

Lemma stream_cons evs i (sent : err) sends :
  stream evs i (sent :: sends) =
  match sent with
  | Some _ => (evs i, true)
  | None => let '(rest, ended) := stream evs (S i) sends in (evs i ++ rest, ended)
  end.
Proof. destruct sent; unfold stream; [|done]. cbn. by rewrite app_nil_r. Qed.

Definition trafficEvents (ws : bool) (m : Manager) : list event :=
  let body := PRaw (Encode (Now m).1 (Now m).2).1 in
  if ws then [WriteMessage body] else [Body body; Flush].

Lemma trafficLoop_stream ws now sends : forall i,
  trafficLoop ws now i sends = stream (fun i => trafficEvents ws (now i)) i sends.
Proof.
  induction sends as [|sent sends IH]; intros i; [done|]. rewrite stream_cons. cbn [trafficLoop].
  rewrite IH. by destruct sent.
Qed.

Lemma netStatsLoop_stream snapshot sends : forall i,
  netStatsLoop snapshot i sends =
  stream (fun i => [WriteMessage (PRaw (encodeToJSON (snapshot i)))]) i sends.
Proof.
  induction sends as [|sent sends IH]; intros i; [done|]. rewrite stream_cons. cbn [netStatsLoop].
  rewrite IH. by destruct sent.
Qed.

Lemma snapshotLoop_stream now sends : forall i,
  snapshotLoop now i sends = stream (fun i => [WriteMessage (PSnapshot (Snapshot (now i)))]) i sends.
Proof.
  induction sends as [|sent sends IH]; intros i; [done|]. rewrite stream_cons. cbn [snapshotLoop].
  rewrite IH. by destruct sent.
Qed.

Lemma FormatInt_nonneg n : 0 <= n -> FormatInt n = Itoa n.
Proof. intros Hn. unfold FormatInt. by rewrite (proj2 (Z.ltb_ge _ _)). Qed.

(** The line of two counts is one JSON object and a newline. *)
Lemma parse_Encode up down fuel :
  0 <= up < 2 ^ 63 -> 0 <= down < 2 ^ 63 -> (length (Encode up down).1 <= fuel)%nat ->
  (Encode up down).2 = None /\
  parse_value fuel (Encode up down).1 = Some (JObj [(str "up", JNum up); (str "down", JNum down)], [newline]).
Proof.
  intros Hu Hd Hf. split; [done|].
  set (v := Struct [(str "up", StatCounter up); (str "down", StatCounter down)]).
  assert ((Encode up down).1 = encodeToJSON v ++ [newline]) as E.
  { unfold Encode, v. rewrite !FormatInt_nonneg, encodeToJSON_Struct by lia.
    cbn [encodeFields encodeToJSON fst]. rewrite <- ?app_comm_cons, <- ?app_assoc. done. }
  rewrite E in *. rewrite length_app in Hf. rewrite (parse_encode v); [done| |done|lia].
  assert (quote ∉ str "up") by (by apply has_byte_false). assert (quote ∉ str "down") by (by apply has_byte_false).
  cbn [stat_ok v]. repeat split; try done; lia.
Qed.

(** The traffic stream.  A client that is no WebSocket, or whose upgrade
    succeeds, gets one write for each tick until one fails: the counts that the
    manager shows at that tick, as one JSON object that reads back and a
    newline, flushed when it is no WebSocket; the ticker is stopped exactly when
    a write has failed, and a failed upgrade writes nothing. *)
Theorem traffic_stream {X : Type} (q : Request) (s : Site X) :
  let ws := IsWebSocketUpgrade (credentials q) in
  (ws = true -> upgrade q <> None -> traffic q s = Some ([], s)) /\
  (ws = false \/ upgrade q = None ->
   traffic q s = Some
     ((if ws then [Upgrade]
       else [SetHeader (str "Content-Type") (str "application/json"); Status 200]) ++
      mjoin ((fun i => trafficEvents ws (managers s i)) <$> seq 0 (attempts (sends q))) ++
      (if failed (sends q) then [StopTicker] else []), s)) /\
  forall m, 0 <= (Now m).1 < 2 ^ 63 -> 0 <= (Now m).2 < 2 ^ 63 ->
    exists b, trafficEvents ws m = (if ws then [WriteMessage (PRaw b)] else [Body (PRaw b); Flush]) /\
      parse_value (length b) b =
        Some (JObj [(str "up", JNum (Now m).1); (str "down", JNum (Now m).2)], [newline]).
Proof.
  intros ws. unfold traffic. fold ws. split; [|split].
  - intros -> Hu. by destruct (upgrade q).
  - unfold stopped. rewrite !trafficLoop_stream. intros Hws. destruct ws; [|done].
    destruct Hws as [|Hu]; [done|]. by rewrite Hu.
  - intros m Hu Hd. exists (Encode (Now m).1 (Now m).2).1. split; [done|].
    by apply parse_Encode.
Qed.

(** Streaming the connections panics exactly when the request is an
    upgraded WebSocket, its first snapshot is sent, and its interval is a
    number of milliseconds that, in 64-bit nanoseconds, is not positive: zero,
    negative, or large enough to wrap around. *)
Theorem getConnections_panics {X : Type} (q : Request) (s : Site X) :
  getConnections q s = None <->
  IsWebSocketUpgrade (credentials q) = true /\ upgrade q = None /\ (exists rest, sends q = None :: rest) /\
  interval q <> [] /\ exists t, Atoi (interval q) = (t, None) /\ i64 (1000000 * t) <= 0.
Proof.
  unfold getConnections. destruct (IsWebSocketUpgrade (credentials q)); cbn [negb]; [|naive_solver].
  destruct (upgrade q) as [e|]; [naive_solver|].
  destruct (decide (interval q = [])) as [->|Hq].
  { cbn. split; [|by intros (_ & _ & _ & ? & _)]. by destruct (sends q) as [|[] ?]. }
  rewrite (proj2 (str_eqb_neq (interval q) [])) by done. cbn [negb].
  destruct (Atoi (interval q)) as [t [e|]] eqn:Ea; cbn [mbind option_bind].
  { split; [done|]. intros (_ & _ & _ & _ & t' & [=] & _). }
  destruct (sends q) as [|[e|] rest]; [split; [done|]; by intros (_ & _ & (? & ?) & _)..|].
  unfold NewTicker, Millisecond. destruct (Z.leb_spec (i64 (1000000 * t)) 0) as [Hle|Hgt].
  - split; [intros _|done]. split; [done|]. split; [done|]. split; [by exists rest|]. split; [done|by exists t].
  - split; [done|]. intros (_ & _ & _ & _ & t' & [= <-] & ?). lia.
Qed.

(** The statistics over a WebSocket: one message for each tick until one
    fails, each the JSON of that tick's counters. *)
Theorem netstats_stream {X : Type} (q : Request) (s : Site X) f :
  statsFunc s = Some f -> IsWebSocketUpgrade (credentials q) = true -> upgrade q = None ->
  getNetStats q s = Some
    (Upgrade :: mjoin ((fun i => [WriteMessage (PRaw (encodeToJSON (stats s i)))]) <$> seq 0 (attempts (sends q))) ++
     (if failed (sends q) then [StopTicker] else []), s).
Proof.
  intros Hf Hws Hu. unfold getNetStats, stopped. rewrite Hf, Hws, Hu, netStatsLoop_stream. done.
Qed.

(** ** Witnesses

    A router that is the list of its routes, with literal patterns, shows that
    what [ChiOk] asks can be had. *)

Module mux.
Section mux.
Context {W : Type}.

Record Mux := mkMux { mx_stack : list (Middleware W); mx_entries : list (entry W) }.

Definition mx_compatible (p : gostring) (e : entry W) : bool :=
  negb (has_byte (e_pattern e) star) &&
  negb (e_mount e && str_eqb (slashless (e_pattern e)) (slashless p)).

Definition mx_matches (me : option gostring) (p : gostring) (mount : bool) (q : Request) : bool :=
  match me with Some me => str_eqb me (method q) | None => true end &&
  (if mount then str_eqb p (take (length p) (path q)) else str_eqb p (path q)).

Definition mx_routed (p : gostring) (mount : bool) (q : Request) : Request :=
  if mount then mkRequest (method q) (drop (length p) (path q)) (credentials q) (interval q)
                  (URLParams q) (upgrade q) (sends q)
  else q.

Definition mx_dispatch (r : Mux) : Handler W := fun q w =>
  match List.find (fun e => mx_matches (e_method e) (e_pattern e) (e_mount e) q) (mx_entries r) with
  | Some e => e_handler e (mx_routed (e_pattern e) (e_mount e) q) w
  | None => Some ([Status 404], w)
  end.

#[global] Instance mux_Chi : Chi W := {
  Router := Mux;
  NewRouter := mkMux [] [];
  Use m r := match mx_entries r with [] => Some (mkMux (mx_stack r ++ [m]) []) | _ => None end;
  Group f r := r1 ← f (mkMux [] []); Some (mkMux (mx_stack r) (mx_entries r ++ (guard (mx_stack r1) <$> mx_entries r1)));
  Method me p h r := Some (mkMux (mx_stack r) (mx_entries r ++ [mkEntry me p false h]));
  Mount p h r :=
    if forallb (mx_compatible p) (mx_entries r)
    then Some (mkMux (mx_stack r) (mx_entries r ++ [mkEntry None p true h])) else None;
  ServeHTTP r := chain (mx_stack r) (mx_dispatch r) }.

Lemma mx_compatible_ok p e : compatible p e -> mx_compatible p e = true.
Proof.
  intros [Hs Hm]. unfold mx_compatible. apply andb_true_iff. split.
  - by apply negb_true_iff, has_byte_false.
  - apply negb_true_iff, andb_false_iff. destruct (e_mount e); [right|by left].
    by apply str_eqb_neq, Hm.
Qed.

#[global] Program Instance mux_ChiOk : ChiOk W := {
  stack r := mx_stack r; entries r := mx_entries r;
  matches := mx_matches; routed := mx_routed; notFound _ := [Status 404]; dispatch := mx_dispatch }.
Next Obligation. intros p [] q; done. Qed.
Next Obligation. done. Qed.
Next Obligation. intros m [st es] E. cbn in *. subst es. by eexists. Qed.
Next Obligation. intros me p h r _. by eexists. Qed.
Next Obligation.
  intros p h r _ Hc. cbn. rewrite (proj2 (forallb_forall _ _)); [by eexists|].
  intros e He. apply mx_compatible_ok. rewrite Forall_forall in Hc. by apply Hc, list_elem_of_In.
Qed.
Next Obligation.
  intros f [st es] E. cbn in *. subst es. exists (mkMux [] []). split; [done|]. split; [done|].
  intros r1 ->. by eexists.
Qed.
Next Obligation.
  intros r q w. cbn. unfold mx_dispatch.
  destruct (List.find _ (mx_entries r)) as [e|] eqn:E.
  - apply find_some in E as [He Hm]. left. exists e. split; [by apply list_elem_of_In|done].
  - right. split; [|done]. intros e He. eapply find_none in E; [exact E|by apply list_elem_of_In].
Qed.
Next Obligation. done. Qed.
End mux.
End mux.

Definition demoSite : Site Wire :=
  mkSite (mkWorld newManager ∅) None (version.mkBuild [] [] [] [] [] None)
    (fun _ => newManager) (fun _ => Struct []).

(** A request for [p] with a Bearer token, or with none. *)
Definition demoRequest (m p auth : string) : Request :=
  mkRequest (str m) (str p) (restapi.mkRequest false [] (str auth)) [] ∅ None [None; Some EOF].

Lemma api_guarded_witness :
  let h : Handler (Site Wire) := fun _ s => Some ([], s) in
  exists es r, endpoints h h h h h (fun _ => h) true = Some es /\
    router (fun next => next) (str "secret") (map_to_list es) = Some r /\
    ServeHTTP r (demoRequest "GET" "/traffic" "Bearer guess") demoSite =
      Some ([Status 401; JSON (PError ErrUnauthorized)], demoSite).
Proof.
  intros h.
  destruct (api_guarded h h h h h (fun _ => h) true (fun next => next) (str "secret")
    (fun _ => None) (fun _ => [])) as (es & E & _ & _ & Hr).
  { intros next q s. cbn. by destruct (next q s) as [[? ?]|]. }
  destruct (Hr (map_to_list es)) as (r & Er & Hs); [done|].
  exists es, r. split; [done|]. split; [done|].
  destruct (Hs (demoRequest "GET" "/traffic" "Bearer guess") demoSite) as (a & -> & [Ha|[Ha _]]).
  - destruct Ha as (e & _ & _ & _ & ->); [done|].
    intros [?|[[? _]|[_ Hb]]]; discriminate.
  - discriminate (Ha (mkEntry (Some (str "GET")) (str "/traffic") false traffic)). right. by left.
Defined.

Lemma traffic_stream_witness :
  let q := demoRequest "GET" "/traffic" "" in
  traffic q demoSite = Some
    ([SetHeader (str "Content-Type") (str "application/json"); Status 200] ++
     mjoin ((fun i => trafficEvents false (managers demoSite i)) <$> seq 0 2) ++ [StopTicker], demoSite) /\
  exists b, trafficEvents false newManager = [Body (PRaw b); Flush] /\
    parse_value (length b) b = Some (JObj [(str "up", JNum 0); (str "down", JNum 0)], [newline]).
Proof.
  intros q. destruct (traffic_stream q demoSite) as (_ & H1 & H2). split.
  - apply H1. by left.
  - apply H2; split; reflexivity || (cbn; lia).
Defined.
End server.
