(* ===== verification/Dialer.v ===== *)
(** * Dialer: package dialer

    The socket options of the default dialer: a slice behind an atomic value,
    replaced under a mutex by RegisterSockOpt and Reset and loaded without it
    by every dial.  The slice's backing arrays are modelled, because append
    writes into an array that a dial may be reading; [spec] is the dialer as
    its users see it, and [dialer_refines] says that no dial can tell. *)

From S2P Require Import Prelude Net.

Open Scope Z_scope.

Module dialer.

(** ** sockopt.go *)

Section sockopt.
(** The raw connection, and a call of [RawConn.Control] with what it runs on
    the file descriptor. *)
Context {C : Type}.

Definition SocketOption : Type := gostring -> gostring -> C -> err * C.

Definition Apply (f : SocketOption) : SocketOption := f.

Definition unsupportedSocketOpt : SocketOption := fun _ _ c => (Some ErrUnsupported, c).
Definition UnsupportedSocketOption : SocketOption := unsupportedSocketOpt.

(** [c.Control(g)]: its error, and that of [g] when it has run it. *)
Context (Control : (Z -> C -> err * C) -> C -> err * option err * C).

(** [innerErr] is nil when [f] has not run. *)
Definition rawConnControl (c : C) (f : Z -> C -> err * C) : err * C :=
  let '(e, innerErr, c) := Control f c in
  match e with
  | Some e => (Some e, c)
  | None => (default None innerErr, c)
  end.

(** The system calls of sockopt_linux.go. *)
Context (BindToDevice : Z -> gostring -> C -> err * C) (SetsockoptMark : Z -> Z -> C -> err * C).

Definition WithBindToInterface (device : gostring) : SocketOption := fun _ _ c =>
  rawConnControl c (fun fd c => BindToDevice fd device c).

Definition WithRoutingMark (mark : Z) : SocketOption := fun _ _ c =>
  rawConnControl c (fun fd c => SetsockoptMark fd mark c).
End sockopt.

(** ** [net.IP] *)

Definition To4 (ip : list byte) : option (list byte) :=
  if (length ip =? 4)%nat then Some ip
  else if (length ip =? 16)%nat && bool_decide (take 12 ip = v4InV6Prefix) then Some (drop 12 ip)
  else None.

(** [net.ParseIP]: an address with a zone is none. *)
Definition ParseIP (s : gostring) : option (list byte) :=
  match (ParseAddr s).1 with
  | Addr0 => None
  | Addr4 a b c d => Some (v4InV6Prefix ++ [a; b; c; d])
  | Addr6 bs zone => if str_eqb zone [] then Some bs else None
  end.

Definition byte_at (ip : list byte) (i : nat) : Z := b2z (default (z2b 0) (ip !! i)).

Definition IsGlobalUnicast (ip : list byte) : bool :=
  ((length ip =? 4)%nat || (length ip =? 16)%nat) &&
  match To4 ip with
  | Some ip4 =>
      negb (bool_decide (ip4 = replicate 4 (z2b 255))) &&
      negb (bool_decide (ip4 = replicate 4 (z2b 0))) &&
      negb (byte_at ip4 0 =? 127) &&
      negb (Z.land (byte_at ip4 0) 0xf0 =? 0xe0) &&
      negb ((byte_at ip4 0 =? 169) && (byte_at ip4 1 =? 254))
  | None =>
      negb (bool_decide (ip = replicate 16 (z2b 0))) &&
      negb (bool_decide (ip = replicate 15 (z2b 0) ++ [z2b 1])) &&
      negb (byte_at ip 0 =? 0xff) &&
      negb ((byte_at ip 0 =? 0xfe) && (Z.land (byte_at ip 1) 0xc0 =? 0x80))
  end.

(** ** dialer.go: applying the options *)

Section apply.
Context {C : Type}.

Fixpoint applyOpts (opts : list (@SocketOption C)) (network address : gostring) (c : C) : err * C :=
  match opts with
  | [] => (None, c)
  | opt :: opts =>
      let '(e, c) := Apply opt network address c in
      check e else (e, c) ;;
      applyOpts opts network address c
  end.

(** Whether the address is a non-global-unicast IP. *)
Definition exempt (address : gostring) : bool :=
  let '(host, _, e) := SplitHostPort address in
  match e with
  | Some _ => false
  | None => match ParseIP host with Some ip => negb (IsGlobalUnicast ip) | None => false end
  end.

(** [opts] is what [atomicOpts.Load()] answers. *)
Definition applySockOpts (opts : list (@SocketOption C)) (network address : gostring) (c : C) : err * C :=
  if len opts =? 0 then (None, c)
  else if exempt address then (None, c)
  else applyOpts opts network address c.
End apply.

(** ** dialer.go: the options *)

(** A slice: its backing array, its length and its capacity. *)
Record slice := mkSlice { arr : nat; slen : nat; scap : nat }.

(** [arrays] are the backing arrays made so far (a slot never written is
    [None]); [atomicOpts] is [None] while nothing is stored or a nil slice is;
    [appending] is the slice of the RegisterSockOpt that holds [optsMu] and
    has not stored it; [loaded] is what each dial has loaded. *)
Record Dialer (O : Type) := mkDialer {
  arrays : list (list (option O)); atomicOpts : option slice;
  appending : option slice; loaded : gmap nat (option slice) }.
Arguments mkDialer {O}. Arguments arrays {O}. Arguments atomicOpts {O}.
Arguments appending {O}. Arguments loaded {O}.

Section options.
Context {O : Type}.
(** The capacity Go gives the array of a slice that has outgrown one of
    capacity [n]. *)
Context (grow : nat -> nat).

(** [append(opts, opt)] *)
Definition append (opts : option slice) (opt : O) (hp : list (list (option O)))
  : slice * list (list (option O)) :=
  let '(a, n, k) := match opts with Some s => (arr s, slen s, scap s) | None => (0, 0, 0) end%nat in
  if (n <? k)%nat
  then (mkSlice a (S n) k, <[a := <[n := Some opt]> (default [] (hp !! a))]> hp)
  else
    let old := if opts then take n (default [] (hp !! a)) else [] in
    (mkSlice (length hp) (S n) (grow k),
     hp ++ [old ++ [Some opt] ++ replicate (grow k - S n) None]).

Inductive label :=
| LAppend (opt : O) (* RegisterSockOpt: lock, load, append *)
| LStore (* RegisterSockOpt: store, unlock *)
| LReset
| LLoad (dial : nat).

(** [&Dialer{}] *)
Definition zeroDialer : Dialer O := mkDialer [] None None ∅.

(** [None] where the mutex is held by another goroutine. *)
Definition step (l : label) (d : Dialer O) : option (Dialer O) :=
  match l with
  | LAppend opt =>
      match appending d with
      | Some _ => None
      | None =>
          let '(s, hp) := append (atomicOpts d) opt (arrays d) in
          Some (mkDialer hp (atomicOpts d) (Some s) (loaded d))
      end
  | LStore =>
      match appending d with
      | Some s => Some (mkDialer (arrays d) (Some s) None (loaded d))
      | None => None
      end
  | LReset =>
      match appending d with
      | Some _ => None
      | None => Some (mkDialer (arrays d) None None (loaded d))
      end
  | LLoad r => Some (mkDialer (arrays d) (atomicOpts d) (appending d) (<[r := atomicOpts d]> (loaded d)))
  end.

Fixpoint run (ls : list label) (d : Dialer O) : option (Dialer O) :=
  match ls with
  | [] => Some d
  | l :: ls => d ← step l d; run ls d
  end.

(** [RegisterSockOpt] with nobody else around, and [New]. *)
Definition RegisterSockOpt (opt : O) (d : Dialer O) : option (Dialer O) := run [LAppend opt; LStore] d.

Fixpoint registerAll (opts : list O) (d : Dialer O) : option (Dialer O) :=
  match opts with
  | [] => Some d
  | opt :: opts => d ← RegisterSockOpt opt d; registerAll opts d
  end.

Definition New (opts : list O) : option (Dialer O) := registerAll opts zeroDialer.

(** The elements of a slice, as the loop of applySockOpts reads them. *)
Definition elems (hp : list (list (option O))) (s : option slice) : option (list O) :=
  match s with
  | None => Some []
  | Some s => a ← hp !! arr s; mapM id (take (slen s) a)
  end.

(** ** The dialer as its users see it *)

Record spec := mkSpec { options : list O; registering : option O; seen : gmap nat (list O) }.

Definition spec_step (l : label) (d : spec) : option spec :=
  match l with
  | LAppend opt => if registering d then None else Some (mkSpec (options d) (Some opt) (seen d))
  | LStore => opt ← registering d; Some (mkSpec (options d ++ [opt]) None (seen d))
  | LReset => if registering d then None else Some (mkSpec [] None (seen d))
  | LLoad r => Some (mkSpec (options d) (registering d) (<[r := options d]> (seen d)))
  end.

Fixpoint spec_run (ls : list label) (d : spec) : option spec :=
  match ls with
  | [] => Some d
  | l :: ls => d ← spec_step l d; spec_run ls d
  end.
End options.
Arguments label : clear implicits.
Arguments spec : clear implicits.

(** ** Properties: the options *)

Section refines.
Context {O : Type} (grow : nat -> nat) (grow_ok : forall n, (n < grow n)%nat).
Implicit Types (d : Dialer O) (hp : list (list (option O))) (h : option slice).

(** A slice over its array, with the elements [l]. *)
Definition holds hp h (l : list O) : Prop :=
  elems hp h = Some l /\
  match h with
  | None => True
  | Some s => exists a, hp !! arr s = Some a /\ length a = scap s /\ (slen s <= scap s)%nat
  end.

(** Slice [h] ends no later than [t] where they share an array. *)
Definition below h t : Prop :=
  match h, t with
  | Some h, Some t => arr h = arr t -> (slen h <= slen t)%nat
  | _, _ => True
  end.

(** The slice the next write goes behind. *)
Definition tip d : option slice := match appending d with Some s => Some s | None => atomicOpts d end.

Record refines d (a : spec O) : Prop := {
  ref_options : holds (arrays d) (atomicOpts d) (options a);
  ref_registering : match appending d, registering a with
    | None, None => True
    | Some s, Some o => holds (arrays d) (Some s) (options a ++ [o])
    | _, _ => False
    end;
  ref_seen : forall r, match loaded d !! r, seen a !! r with
    | None, None => True
    | Some h, Some l => holds (arrays d) h l /\ below h (atomicOpts d) /\ below h (tip d)
    | _, _ => False
    end;
  ref_tip : below (atomicOpts d) (tip d) }.

Lemma holds_new hp h l x : holds hp h l -> holds (hp ++ [x]) h l.
Proof.
  destruct h as [s|]; [|done]. intros [He (a & Ha & Hl)].
  assert ((hp ++ [x]) !! arr s = Some a) as Ha' by (by apply lookup_app_l_Some).
  split; [|by exists a]. cbn in *. by rewrite Ha', Ha in *.
Qed.

Lemma holds_write hp h l t o :
  holds hp h l -> below h (Some t) ->
  holds (<[arr t := <[slen t := Some o]> (default [] (hp !! arr t))]> hp) h l.
Proof.
  destruct h as [s|]; [|done]. intros [He (a & Ha & Hl & Hle)] Hb.
  destruct (decide (arr s = arr t)) as [E|E].
  - specialize (Hb E). rewrite <- E, Ha. cbn [default from_option id].
    assert (<[arr s := <[slen t := Some o]> a]> hp !! arr s = Some (<[slen t := Some o]> a)) as Hn.
    { apply list_lookup_insert_eq. by eapply lookup_lt_Some. }
    split.
    + cbn in *. rewrite Hn. rewrite Ha in He. cbn in *. by rewrite take_insert_ge.
    + eexists. split; [done|]. by rewrite length_insert.
  - assert (<[arr t := <[slen t := Some o]> (default [] (hp !! arr t))]> hp !! arr s = Some a) as Hn
      by by rewrite list_lookup_insert_ne.
    split; [|by exists a]. cbn in *. by rewrite Hn, Ha in *.
Qed.

Lemma mapM_snoc (l : list (option O)) k o : mapM id l = Some k -> mapM id (l ++ [Some o]) = Some (k ++ [o]).
Proof. rewrite !mapM_Some. intros Hl. apply Forall2_app; [done|]. by repeat constructor. Qed.

(** What [append] makes, and that it leaves every slice alone that does not
    reach beyond the one it extends. *)
Lemma append_holds hp t l o s hp' :
  holds hp t l -> append grow t o hp = (s, hp') ->
  holds hp' (Some s) (l ++ [o]) /\ below t (Some s) /\
  (forall h k, holds hp h k -> below h t -> holds hp' h k /\ below h (Some s)).
Proof.
  intros [He Ht] Ha. unfold append in Ha.
  set (a := match t with Some s => arr s | None => 0%nat end) in *.
  destruct t as [t|].
  - destruct Ht as (b & Hb & Hl & Hle). destruct (Nat.ltb_spec (slen t) (scap t)) as [Hlt|Hge].
    + injection Ha as <- <-. assert (arr t < length hp)%nat as Hat by by eapply lookup_lt_Some.
      split; [|split].
      * split; [cbn|cbn; eexists; split; [by rewrite list_lookup_insert_eq|]].
        -- rewrite list_lookup_insert_eq by done. cbn. rewrite Hb. cbn.
           rewrite (take_S_r _ _ (Some o)) by (by rewrite list_lookup_insert_eq by lia).
           rewrite take_insert_ge by done. cbn in He. rewrite Hb in He. by apply mapM_snoc.
        -- rewrite Hb. cbn. rewrite length_insert. lia.
      * cbn. lia.
      * intros h k Hh Hbl. split; [by apply holds_write|]. destruct h as [h|]; [|done]. cbn in *. intros E.
        specialize (Hbl E). lia.
    + rewrite Hb in Ha. cbn [default from_option id] in Ha. injection Ha as <- <-.
      pose proof (grow_ok (scap t)). assert (length (take (slen t) b) = slen t) as Htk by (rewrite length_take; lia).
      split; [|split].
      * split; [|cbn; eexists; split; [by apply list_lookup_middle|]].
        -- cbn. rewrite list_lookup_middle by done. cbn.
           rewrite cons_middle, app_assoc.
           replace (S (slen t)) with (length (take (slen t) b ++ [Some o])) by (rewrite length_app, Htk; cbn; lia).
           rewrite take_app_length. cbn in He. rewrite Hb in He. by apply mapM_snoc.
        -- rewrite length_app. cbn [length]. rewrite length_replicate, Htk. lia.
      * cbn. intros E. apply lookup_lt_Some in Hb. lia.
      * intros h k Hh _. split; [by apply holds_new|]. destruct h as [h|]; [|done]. cbn. intros E.
        destruct Hh as [_ (x & Hx & _)]. apply lookup_lt_Some in Hx. lia.
  - cbn in He. injection He as <-. cbn in Ha. injection Ha as <- <-. pose proof (grow_ok 0).
    split; [|split].
    + split; [|cbn; eexists; split; [by apply list_lookup_middle|]].
      * cbn. by rewrite list_lookup_middle.
      * cbn. rewrite length_replicate. lia.
    + done.
    + intros h k Hh _. split; [by apply holds_new|]. destruct h as [h|]; [|done]. cbn. intros E.
      destruct Hh as [_ (x & Hx & _)]. apply lookup_lt_Some in Hx. lia.
Qed.

Lemma step_refines l d a :
  refines d a ->
  match step grow l d, spec_step l a with
  | Some d', Some a' => refines d' a'
  | None, None => True
  | _, _ => False
  end.
Proof.
  intros [Ho Hr Hs Ht]. destruct l as [opt| | |r]; cbn [step spec_step].
  - destruct (appending d) as [s|] eqn:Ea, (registering a) as [o|] eqn:Eo; try done.
    destruct (append grow (atomicOpts d) opt (arrays d)) as [s hp'] eqn:E.
    destruct (append_holds _ _ _ _ _ _ Ho E) as (A1 & A2 & A3).
    assert (below (atomicOpts d) (atomicOpts d)) as Hself by (destruct (atomicOpts d); by cbn).
    split; cbn [arrays atomicOpts appending loaded options registering seen tip].
    + by destruct (A3 _ _ Ho Hself).
    + done.
    + intros r. specialize (Hs r). destruct (loaded d !! r) as [h|], (seen a !! r) as [l|]; try done.
      destruct Hs as (Hh & Hb & _). destruct (A3 _ _ Hh Hb). by split_and!.
    + done.
  - destruct (appending d) as [s|] eqn:Ea, (registering a) as [o|] eqn:Eo; try done.
    cbn [mbind option_bind]. unfold tip in *. rewrite Ea in *.
    split; cbn [arrays atomicOpts appending loaded options registering seen]; try done.
    intros r. specialize (Hs r). destruct (loaded d !! r) as [h|], (seen a !! r) as [l|]; try done.
    unfold tip. cbn. by destruct Hs as (? & _ & ?).
    by unfold tip; cbn.
  - destruct (appending d) as [s|] eqn:Ea, (registering a) as [o|] eqn:Eo; try done.
    split; cbn [arrays atomicOpts appending loaded options registering seen]; try done.
    intros r. specialize (Hs r). destruct (loaded d !! r) as [h|], (seen a !! r) as [l|]; try done.
    destruct Hs as (? & _ & _). split; [done|]. by destruct h.
  - split; cbn [arrays atomicOpts appending loaded options registering seen]; try done.
    intros r'. destruct (decide (r = r')) as [<-|Hne].
    + rewrite !lookup_insert_eq. split; [done|]. split; [by destruct (atomicOpts d); cbn|done].
    + rewrite !lookup_insert_ne by done. apply Hs.
Qed.

Lemma run_refines ls : forall d a, refines d a ->
  match run grow ls d, spec_run ls a with
  | Some d', Some a' => refines d' a'
  | None, None => True
  | _, _ => False
  end.
Proof.
  induction ls as [|l ls IH]; intros d a Hd; cbn [run spec_run]; [done|].
  pose proof (step_refines l d a Hd) as Hs.
  destruct (step grow l d) as [d'|], (spec_step l a) as [a'|]; try done. by apply IH.
Qed.

Lemma registerAll_refines opts : forall d l s, refines d (mkSpec l None s) ->
  exists d', registerAll grow opts d = Some d' /\ refines d' (mkSpec (l ++ opts) None s).
Proof.
  induction opts as [|opt opts IH]; intros d l s Hd; cbn [registerAll]; [exists d; by rewrite app_nil_r|].
  pose proof (run_refines [LAppend opt; LStore] _ _ Hd) as Hr. cbn [spec_run spec_step mbind option_bind registering options seen] in Hr.
  unfold RegisterSockOpt. destruct (run grow [LAppend opt; LStore] d) as [d1|]; [|done].
  cbn [mbind option_bind]. destruct (IH d1 (l ++ [opt]) s Hr) as (d' & E & Hd'). exists d'. by rewrite <- app_assoc in Hd'.
Qed.

Lemma zero_refines : refines zeroDialer (mkSpec [] None ∅).
Proof. by split; cbn. Qed.

Lemma New_refines opts : exists d, New grow opts = Some d /\ refines d (mkSpec opts None ∅).
Proof. apply (registerAll_refines opts zeroDialer [] ∅), zero_refines. Qed.
End refines.

(** C21: the dialer refines its specification.  Under any interleaving of
    RegisterSockOpt, Reset and dials, in which a registration's append and
    store are separate steps and dials take no lock, the options in force are
    those given to New and registered since, or those registered since the last
    Reset, in order, and the options every dial
    reads from the slice it has loaded are, at any later time, those in force
    when it loaded it: no append is ever seen by a dial under way, however the
    arrays are shared and grow. *)
Theorem dialer_refines {O} grow (opts : list O) (ls : list (label O)) :
  (forall n, (n < grow n)%nat) ->
  match d ← New grow opts; run grow ls d, spec_run ls (mkSpec opts None ∅) with
  | Some d, Some a =>
      elems (arrays d) (atomicOpts d) = Some (options a) /\
      forall r, (h ← loaded d !! r; elems (arrays d) h) = seen a !! r
  | None, None => True
  | _, _ => False
  end.
Proof.
  intros Hg. destruct (New_refines grow Hg opts) as (d0 & -> & H0). cbn [mbind option_bind].
  pose proof (run_refines grow Hg ls d0 _ H0) as Hr.
  destruct (run grow ls d0) as [d|], (spec_run ls _) as [a|]; try done.
  destruct Hr as [[Ho _] _ Hs _]. split; [done|]. intros r. specialize (Hs r).
  destruct (loaded d !! r) as [h|], (seen a !! r) as [l|]; try done.
  by destruct Hs as [[? _] _].
Qed.

(** Two options registered into one array; a dial that has loaded the first
    does not see the second, nor the Reset. *)
Lemma dialer_refines_witness :
  let ls := [LAppend 1; LStore; LLoad 0%nat; LAppend 2; LLoad 1%nat; LStore; LLoad 2%nat; LReset] in
  match d ← New (fun n => 2 * n + 2)%nat [7]; run (fun n => 2 * n + 2)%nat ls d, spec_run ls (mkSpec [7] None ∅) with
  | Some d, Some a =>
      elems (arrays d) (atomicOpts d) = Some (options a) /\
      forall r, (h ← loaded d !! r; elems (arrays d) h) = seen a !! r
  | None, None => True
  | _, _ => False
  end.
Proof. intros ls. apply (dialer_refines (fun n => 2 * n + 2)%nat [7] ls). intros n. lia. Defined.

(** ** Properties: which dials the options apply to *)

Lemma class_d x : negb (Z.land (b2z x) 0xf0 =? 0xe0) = true <-> ~ 224 <= b2z x <= 239.
Proof. destruct x; vm_compute; split; intros; try done; intuition congruence. Qed.

Lemma IsGlobalUnicast_v4 a b c d :
  IsGlobalUnicast (v4InV6Prefix ++ [a; b; c; d]) = true <->
  [a; b; c; d] <> replicate 4 (z2b 255) /\ [a; b; c; d] <> replicate 4 (z2b 0) /\
  b2z a <> 127 /\ ~ 224 <= b2z a <= 239 /\ ~ (b2z a = 169 /\ b2z b = 254).
Proof.
  unfold IsGlobalUnicast. change (To4 (v4InV6Prefix ++ [a; b; c; d])) with (Some [a; b; c; d]).
  cbv beta iota.
  change (byte_at [a; b; c; d] 0) with (b2z a). change (byte_at [a; b; c; d] 1) with (b2z b).
  change ((length (v4InV6Prefix ++ [a; b; c; d]) =? 4)%nat || (length (v4InV6Prefix ++ [a; b; c; d]) =? 16)%nat) with true.
  cbn [andb]. rewrite !andb_true_iff, class_d, !negb_true_iff, !bool_decide_eq_false, Z.eqb_neq, andb_false_iff, !Z.eqb_neq.
  split; [intros ((((A & B) & E) & F) & G)|intros (A & B & E & F & G)]; split_and!; try done; lia.
Qed.

(** The options and IPv4.  A dial to an IPv4 address applies no option
    when the address is a loopback, link-local, multicast, broadcast or
    unspecified one; to any other it applies them in the order they were
    registered, up to the first that fails. *)
Theorem applySockOpts_ipv4 {C} (opts : list (@SocketOption C)) network a b c d port (s : C) :
  0 <= port < 65536 ->
  applySockOpts opts network (AddrPortString (Addr4 a b c d) port) s =
    if decide ([a; b; c; d] <> replicate 4 (z2b 255) /\ [a; b; c; d] <> replicate 4 (z2b 0) /\
               b2z a <> 127 /\ ~ 224 <= b2z a <= 239 /\ ~ (b2z a = 169 /\ b2z b = 254))
    then applyOpts opts network (AddrPortString (Addr4 a b c d) port) s else (None, s).
Proof.
  intros Hp. unfold applySockOpts.
  assert (exempt (AddrPortString (Addr4 a b c d) port) = negb (IsGlobalUnicast (v4InV6Prefix ++ [a; b; c; d]))) as Hx.
  { unfold exempt. cbn [AddrPortString AddrString].
    rewrite SplitHostPort_plain by (try (apply string4_not_elem; done); apply Itoa_not_elem; (lia || done)).
    unfold ParseIP. by rewrite ParseAddr_string4. }
  rewrite Hx. destruct (Z.eqb_spec (len opts) 0) as [E|E].
  { destruct opts; [|len_lia]. by case_decide. }
  pose proof (IsGlobalUnicast_v4 a b c d) as Hg.
  destruct (IsGlobalUnicast _); cbn [negb].
  - by rewrite decide_True by by apply Hg.
  - rewrite decide_False; [done|]. intros H. by apply Hg in H.
Qed.

(** A link-local address with its zone is no IP to [net.ParseIP], so that the
    options are applied to it; without a zone they are not. *)
Example zone_not_exempt :
  exempt (str "[fe80::1]:80") = true /\ exempt (str "[fe80::1%eth0]:80") = false.
Proof. by vm_compute. Qed.

Lemma applySockOpts_ipv4_witness :
  let opt : @SocketOption (list gostring) := fun n _ c => (None, n :: c) in
  applySockOpts [opt; opt] (str "tcp4") (AddrPortString (Addr4 (z2b 8) (z2b 8) (z2b 4) (z2b 4)) 53) [] =
    if decide (z2b <$> [8; 8; 4; 4] <> replicate 4 (z2b 255) /\ z2b <$> [8; 8; 4; 4] <> replicate 4 (z2b 0) /\
               b2z (z2b 8) <> 127 /\ ~ 224 <= b2z (z2b 8) <= 239 /\ ~ (b2z (z2b 8) = 169 /\ b2z (z2b 8) = 254))
    then applyOpts [opt; opt] (str "tcp4") (AddrPortString (Addr4 (z2b 8) (z2b 8) (z2b 4) (z2b 4)) 53) []
    else (None, []).
Proof. intros opt. apply (applySockOpts_ipv4 [opt; opt]). lia. Defined.
End dialer.
