(* ===== verification/Sockopts.v ===== *)
(** * Sockopts: package dialer on other systems, its dials, and package dns

    The socket options of Windows, macOS, FreeBSD, OpenBSD and the rest as the
    system calls they make, the dials that go through [applySockOpts], the
    package-level functions over the default dialer, and the resolver that
    package dns points at it.  The system calls and the dials of package net
    are parameters. *)

From S2P Require Import Prelude Net Dialer.
Import dialer.

Open Scope Z_scope.

(** ** The socket options, by system *)

(** [net.Interface]: what the options read of it. *)
Record Interface := mkInterface { Index : Z; Name : gostring }.

Inductive level := IPPROTO_IP | IPPROTO_IPV6 | SOL_SOCKET.

(** The constants of x/sys, and a number of the source. *)
Inductive optname := IP_BOUND_IF | IPV6_BOUND_IF | SO_USER_COOKIE | SO_RTABLE | OptNumber (n : Z).

#[global] Instance level_eq_dec : EqDecision level.
Proof. solve_decision. Defined.
#[global] Instance optname_eq_dec : EqDecision optname.
Proof. solve_decision. Defined.

Definition is_one_of (s : gostring) (l : list string) : bool := existsb (fun x => str_eqb s (str x)) l.

Section systems.
Context {C : Type} (Control : (Z -> C -> err * C) -> C -> err * option err * C).
Context (SetsockoptInt : Z -> level -> optname -> Z -> C -> err * C).

#[local] Notation SocketOption := (@SocketOption C).


(** *** sockopt_darwin.go *)

Definition darwin_WithBindToInterface (iface : Interface) : SocketOption :=
  let index := Index iface in
  fun network _ c => rawConnControl Control c (fun fd c =>
    if is_one_of network ["ip4"; "tcp4"; "udp4"]%string
    then SetsockoptInt fd IPPROTO_IP IP_BOUND_IF index c
    else if is_one_of network ["ip6"; "tcp6"; "udp6"]%string
    then SetsockoptInt fd IPPROTO_IPV6 IPV6_BOUND_IF index c
    else (None, c)).

Definition darwin_WithRoutingMark (_ : Z) : SocketOption := UnsupportedSocketOption.

(** *** sockopt_freebsd.go *)

Definition freebsd_WithBindToInterface (_ : Interface) : SocketOption := UnsupportedSocketOption.

Definition freebsd_WithRoutingMark (mark : Z) : SocketOption := fun _ _ c =>
  rawConnControl Control c (fun fd c => SetsockoptInt fd SOL_SOCKET SO_USER_COOKIE mark c).

(** *** sockopt_openbsd.go *)

Definition openbsd_WithBindToInterface (_ : Interface) : SocketOption := UnsupportedSocketOption.

Definition openbsd_WithRoutingMark (mark : Z) : SocketOption := fun _ _ c =>
  rawConnControl Control c (fun fd c => SetsockoptInt fd SOL_SOCKET SO_RTABLE mark c).

(** *** sockopt_others.go *)

Definition others_WithBindToInterface (_ : Interface) : SocketOption := UnsupportedSocketOption.
Definition others_WithRoutingMark (_ : Z) : SocketOption := UnsupportedSocketOption.

(** *** sockopt_windows.go *)

Definition IP_UNICAST_IF : optname := OptNumber 0x1f.
Definition IPV6_UNICAST_IF : optname := OptNumber 0x1f.

(** [bits.ReverseBytes32] *)
Definition ReverseBytes32 (x : Z) : Z :=
  Z.lor (Z.lor (Z.land (Z.shiftr x 24) 0xff) (Z.shiftl (Z.land (Z.shiftr x 16) 0xff) 8))
    (Z.lor (Z.shiftl (Z.land (Z.shiftr x 8) 0xff) 16) (Z.shiftl (Z.land x 0xff) 24)).

(** [IP.IsUnspecified] *)
Definition IsUnspecified (ip : list byte) : bool :=
  match To4 ip with
  | Some ip4 => bool_decide (ip4 = replicate 4 (z2b 0))
  | None => bool_decide (ip = replicate 16 (z2b 0))
  end.

Definition bindSocketToInterface4 (handle index : Z) (c : C) : err * C :=
  let index := ReverseBytes32 index in
  SetsockoptInt handle IPPROTO_IP IP_UNICAST_IF index c.

Definition bindSocketToInterface6 (handle index : Z) (c : C) : err * C :=
  SetsockoptInt handle IPPROTO_IPV6 IPV6_UNICAST_IF index c.

Definition windows_WithBindToInterface (iface : Interface) : SocketOption :=
  let index := Index iface mod 2 ^ 32 in
  fun network address c => rawConnControl Control c (fun fd c =>
    if is_one_of network ["ip4"; "tcp4"; "udp4"]%string
    then bindSocketToInterface4 fd index c
    else if is_one_of network ["ip6"; "tcp6"; "udp6"]%string
    then
      let '(e, c) := bindSocketToInterface6 fd index c in
      let c :=
        if str_eqb network (str "udp6") then
          let '(host, _, _) := SplitHostPort address in
          if match ParseIP host with None => true | Some ip => IsUnspecified ip end
          then (bindSocketToInterface4 fd index c).2
          else c
        else c in
      (e, c)
    else (None, c)).

Definition windows_WithRoutingMark (_ : Z) : SocketOption := UnsupportedSocketOption.
End systems.

(** ** dialer.go: the dials

    [nd] and [lc] are [net.Dialer.DialContext] and [net.ListenConfig.ListenPacket]
    with the control function they are given. *)

Module dial.
Section dial.
Context {C K : Type}.
Context (nd lc : (gostring -> gostring -> C -> err * C) -> gostring -> gostring -> option K * err).

(** [opts] are the options when the control function loads them. *)
Definition DialContext (opts : list (@SocketOption C)) (network address : gostring) : option K * err :=
  nd (applySockOpts opts) network address.

Definition ListenPacket (opts : list (@SocketOption C)) (network address : gostring) : option K * err :=
  lc (applySockOpts opts) network address.

(** *** The package-level functions, over [DefaultDialer] *)

Section default.
Context (grow : nat -> nat).

Definition DefaultDialer : Dialer (@SocketOption C) := zeroDialer.

Definition RegisterSockOpt (opt : @SocketOption C) (d : Dialer (@SocketOption C)) : option (Dialer (@SocketOption C)) :=
  run grow [LAppend opt; LStore] d.

Definition Reset (d : Dialer (@SocketOption C)) : option (Dialer (@SocketOption C)) := run grow [LReset] d.

Definition pkg_DialContext (d : Dialer (@SocketOption C)) (network address : gostring) : option (option K * err) :=
  opts ← elems (arrays d) (atomicOpts d); Some (DialContext opts network address).

Definition pkg_ListenPacket (d : Dialer (@SocketOption C)) (network address : gostring) : option (option K * err) :=
  opts ← elems (arrays d) (atomicOpts d); Some (ListenPacket opts network address).
End default.
End dial.
End dial.

(** ** dns/resolver.go *)

Module dns.
(** [net.Resolver]: a nil [Dial] is the dial of package net. *)
Record Resolver (F : Type) := mkResolver { PreferGo : bool; Dial : option F }.
Arguments mkResolver {F}. Arguments PreferGo {F}. Arguments Dial {F}.

Definition init {F} (DialContext : F) (_ : Resolver F) : Resolver F := mkResolver true (Some DialContext).
End dns.

(** ** Properties

    A socket that records the calls made on it; [answer] is the error of each.
    The descriptor is open, so that [Control] runs its function. *)

Module sockoptsfacts.

Definition sysCall : Type := level * optname * Z.

Section recorded.
Context (answer : sysCall -> err).

Definition record_Setsockopt (_ : Z) (l : level) (o : optname) (v : Z) (log : list sysCall)
  : err * list sysCall := (answer (l, o, v), log ++ [(l, o, v)]).

Definition open_Control (g : Z -> list sysCall -> err * list sysCall) (log : list sysCall)
  : err * option err * list sysCall := let '(e, log) := g 7 log in (None, Some e, log).

#[local] Notation windows_bind := (windows_WithBindToInterface open_Control record_Setsockopt).

(** The bytes of a 32-bit number, reversed. *)
Lemma byte_of x i : 0 <= i -> Z.land (Z.shiftr x i) 0xff = (x / 2 ^ i) mod 256.
Proof. intros. rewrite Z.shiftr_div_pow2 by lia. change 0xff with (Z.ones 8). by rewrite Z.land_ones by lia. Qed.

Lemma lor_low a b n : 0 <= n -> 0 <= a < 2 ^ n -> Z.lor a (Z.shiftl b n) = a + b * 2 ^ n.
Proof.
  intros Hn Ha. assert (Z.land a (Z.shiftl b n) = 0) as H0.
  { apply Z.bits_inj'. intros m Hm. rewrite Z.land_spec, Z.bits_0, Z.shiftl_spec by done.
    destruct (Z.lt_ge_cases m n).
    - by rewrite (Z.testbit_neg_r b), andb_false_r by lia.
    - rewrite <- (Z.mod_small a (2 ^ n)) by done. by rewrite Z.mod_pow2_bits_high by lia. }
  by rewrite <- Z.lxor_lor, <- Z.add_nocarry_lxor, Z.shiftl_mul_pow2.
Qed.

Lemma ReverseBytes32_sum x : 0 <= x ->
  ReverseBytes32 x = (x / 2 ^ 24) mod 256 + (x / 2 ^ 16) mod 256 * 2 ^ 8 +
    (x / 2 ^ 8) mod 256 * 2 ^ 16 + x mod 256 * 2 ^ 24.
Proof.
  intros Hx. unfold ReverseBytes32.
  rewrite (byte_of x 24), (byte_of x 16), (byte_of x 8) by done.
  change 0xff with (Z.ones 8). rewrite Z.land_ones by done. change (2 ^ 8) with 256.
  pose proof (Z.mod_pos_bound (x / 2 ^ 24) 256 eq_refl). pose proof (Z.mod_pos_bound (x / 2 ^ 16) 256 eq_refl).
  pose proof (Z.mod_pos_bound (x / 256) 256 eq_refl). pose proof (Z.mod_pos_bound x 256 eq_refl).
  change 24 with (8 + 16) at 2. rewrite <- (Z.shiftl_shiftl _ 8 16), <- Z.shiftl_lor by done.
  rewrite (lor_low _ _ 8), (lor_low _ _ 8), (lor_low _ _ 16) by lia. lia.
Qed.

Lemma ReverseBytes32_involutive x : 0 <= x < 2 ^ 32 ->
  0 <= ReverseBytes32 x < 2 ^ 32 /\ ReverseBytes32 (ReverseBytes32 x) = x.
Proof.
  intros Hx. pose proof (ReverseBytes32_sum x) as E. specialize (E ltac:(lia)).
  set (a := (x / 2 ^ 24) mod 256) in E. set (b := (x / 2 ^ 16) mod 256) in E.
  set (c := (x / 2 ^ 8) mod 256) in E. set (d := x mod 256) in E.
  assert (0 <= a < 256 /\ 0 <= b < 256 /\ 0 <= c < 256 /\ 0 <= d < 256) as (Ha & Hb & Hc & Hd)
    by (unfold a, b, c, d; repeat split; apply Z.mod_pos_bound; lia).
  assert (x = a * 2 ^ 24 + b * 2 ^ 16 + c * 2 ^ 8 + d) as Ex
    by (unfold a, b, c, d; Z.div_mod_to_equations; lia).
  clearbody a b c d. split; [lia|].
  rewrite ReverseBytes32_sum by lia. rewrite E, Ex. clear E Ex Hx x. Z.div_mod_to_equations. lia.
Qed.

(** *** A dial connects only a socket that has passed the options *)

Context {K : Type} (nd : (gostring -> gostring -> list sysCall -> err * list sysCall) ->
  gostring -> gostring -> option K * err) (connected : list sysCall -> K -> Prop).

(** What package net documents of the control function: it is called on the
    new socket, with the family and the address that are dialled, before
    connecting, and its error is that of the dial. *)
Hypothesis nd_ok : forall ctrl network address k, nd ctrl network address = (Some k, None) ->
  exists network' address' log,
    is_one_of network' ["tcp4"; "tcp6"; "udp4"; "udp6"; "ip4"; "ip6"]%string = true /\
    ctrl network' address' [] = (None, log) /\ connected log k.

Definition v4_call (iface : Interface) : sysCall :=
  (IPPROTO_IP, OptNumber 0x1f, ReverseBytes32 (Index iface mod 2 ^ 32)).
Definition v6_call (iface : Interface) : sysCall :=
  (IPPROTO_IPV6, OptNumber 0x1f, Index iface mod 2 ^ 32).

Lemma windows_calls iface network address :
  windows_bind iface network address [] =
  if is_one_of network ["ip4"; "tcp4"; "udp4"]%string then (answer (v4_call iface), [v4_call iface])
  else if is_one_of network ["ip6"; "tcp6"; "udp6"]%string then
    (answer (v6_call iface),
     [v6_call iface] ++
     if str_eqb network (str "udp6") &&
        match ParseIP (SplitHostPort address).1.1 with None => true | Some ip => IsUnspecified ip end
     then [v4_call iface] else [])
  else (None, []).
Proof.
  unfold windows_WithBindToInterface, rawConnControl, open_Control.
  destruct (is_one_of network _); [done|]. destruct (is_one_of network _); [|done].
  unfold bindSocketToInterface6, bindSocketToInterface4, record_Setsockopt.
  destruct (str_eqb network (str "udp6")); cbn [andb]; [|done].
  destruct (SplitHostPort address) as [[host port] e]. cbn [fst].
  by destruct (match ParseIP host with None => true | Some ip => IsUnspecified ip end).
Qed.

(** On Windows every connection that the default dialer returns runs over a
    socket that is bound to the interface (or its address is exempt): an IPv4
    socket by one call with the index in network byte order, which reverses
    back to the index; an IPv6 socket by a call with the index as it is,
    followed by the IPv4 one exactly for an unspecified UDP address. *)
Theorem windows_dial_bound iface network address k :
  dial.DialContext nd [windows_bind iface] network address = (Some k, None) ->
  ReverseBytes32 (ReverseBytes32 (Index iface mod 2 ^ 32)) = Index iface mod 2 ^ 32 /\
  exists network' address' log, connected log k /\
    (exempt address' = true \/
     (log = [v4_call iface] /\ answer (v4_call iface) = None /\
        is_one_of network' ["ip4"; "tcp4"; "udp4"]%string = true) \/
     (answer (v6_call iface) = None /\
        is_one_of network' ["ip6"; "tcp6"; "udp6"]%string = true /\
        (log = [v6_call iface] \/ (network' = str "udp6" /\ log = [v6_call iface; v4_call iface])))).
Proof.
  intros Hd. split; [apply ReverseBytes32_involutive, Z.mod_pos_bound; lia|].
  apply nd_ok in Hd as (network' & address' & log & Hn & Hc & Hk). exists network', address', log. split; [done|].
  unfold applySockOpts in Hc. cbn [len length] in Hc. change (len [_] =? 0) with false in Hc. cbv iota in Hc.
  destruct (exempt address') eqn:He; [by left|right]. cbn [applyOpts] in Hc. unfold Apply in Hc.
  rewrite windows_calls in Hc.
  destruct (is_one_of network' ["ip4"; "tcp4"; "udp4"]%string) eqn:E4.
  { left. destruct (answer (v4_call iface)) eqn:Ea; cbv beta iota zeta in Hc; [done|]. injection Hc as <-. by split_and!. }
  destruct (is_one_of network' ["ip6"; "tcp6"; "udp6"]%string) eqn:E6.
  - right. destruct (answer (v6_call iface)) eqn:Ea; cbv beta iota zeta in Hc; [done|]. injection Hc as <-.
    split; [done|]. split; [done|]. destruct (str_eqb network' (str "udp6")) eqn:Eu; cbn [andb app]; [|by left].
    apply str_eqb_eq in Eu. destruct (match ParseIP _ with None => true | Some ip => _ end); auto.
  - exfalso. unfold is_one_of in *. cbn [existsb] in *. rewrite !orb_false_iff in *. rewrite !orb_true_iff in Hn.
    destruct E4 as (? & ? & ? & _), E6 as (? & ? & ? & _). intuition congruence.
Qed.
End recorded.

(** *** The default dialer *)

Section default.
Context {C K : Type} (grow : nat -> nat) (grow_ok : forall n, (n < grow n)%nat).
Context (nd lc : (gostring -> gostring -> C -> err * C) -> gostring -> gostring -> option K * err).

(** The calls that change the default dialer. *)
Inductive call := CallRegister (opt : @SocketOption C) | CallReset.

Definition pstep (c : call) : Dialer (@SocketOption C) -> option (Dialer (@SocketOption C)) :=
  match c with CallRegister opt => dial.RegisterSockOpt grow opt | CallReset => dial.Reset grow end.

Fixpoint prun (cs : list call) (d : Dialer (@SocketOption C)) : option (Dialer (@SocketOption C)) :=
  match cs with [] => Some d | c :: cs => d ← pstep c d; prun cs d end.

Definition in_force (cs : list call) (l : list (@SocketOption C)) : list (@SocketOption C) :=
  fold_left (fun l c => match c with CallRegister opt => l ++ [opt] | CallReset => [] end) cs l.

Lemma prun_refines cs : forall d l seen, refines d (mkSpec l None seen) ->
  exists d' seen', prun cs d = Some d' /\ refines d' (mkSpec (in_force cs l) None seen').
Proof.
  induction cs as [|c cs IH]; intros d l seen Hd; [by exists d, seen|]. cbn [prun in_force fold_left].
  destruct c as [opt|]; cbn [pstep].
  - pose proof (run_refines grow grow_ok [LAppend opt; LStore] d _ Hd) as Hr. cbn [spec_run spec_step registering mbind option_bind] in Hr.
    unfold dial.RegisterSockOpt. destruct (run grow _ d) as [d1|]; [|done]. by apply (IH d1 (l ++ [opt])) in Hr.
  - pose proof (run_refines grow grow_ok [LReset] d _ Hd) as Hr. cbn [spec_run spec_step registering mbind option_bind] in Hr.
    unfold dial.Reset. destruct (run grow _ d) as [d1|]; [|done]. by apply (IH d1 []) in Hr.
Qed.

(** A dial or a listen of the package has the options that were registered
    since the last reset, in order: whatever an earlier configuration had
    registered is gone. *)
Theorem default_dials cs :
  exists d, prun cs dial.DefaultDialer = Some d /\
    forall network address,
      dial.pkg_DialContext nd d network address = Some (dial.DialContext nd (in_force cs []) network address) /\
      dial.pkg_ListenPacket lc d network address = Some (dial.ListenPacket lc (in_force cs []) network address).
Proof.
  destruct (prun_refines cs dial.DefaultDialer [] ∅) as (d & seen & Hr & [Ho _ _ _]); [apply zero_refines|].
  exists d. split; [done|]. intros network address. destruct Ho as [Ho _]. cbn in Ho.
  unfold dial.pkg_DialContext, dial.pkg_ListenPacket. by rewrite Ho.
Qed.
End default.

(** ** Witnesses *)

(** A dial over IPv4 whose connection is the socket's record. *)
Definition toy_nd (ctrl : gostring -> gostring -> list sysCall -> err * list sysCall)
    (_ _ : gostring) : option (list sysCall) * err :=
  let '(e, log) := ctrl (str "tcp4") (str "8.8.8.8:53") [] in
  match e with None => (Some log, None) | Some e => (None, Some e) end.

Lemma windows_dial_bound_witness :
  let iface := mkInterface 7 (str "eth0") in
  let bind := windows_WithBindToInterface open_Control (record_Setsockopt (fun _ => None)) iface in
  dial.DialContext toy_nd [bind] (str "tcp") (str "dns:53") =
    (Some [(IPPROTO_IP, OptNumber 31, 0x07000000)], None) /\
  exists network' address' log, log = [(IPPROTO_IP, OptNumber 31, 0x07000000)] /\
    (exempt address' = true \/
     (log = [v4_call iface] /\ None = @None error /\
        is_one_of network' ["ip4"; "tcp4"; "udp4"]%string = true) \/
     (None = @None error /\ is_one_of network' ["ip6"; "tcp6"; "udp6"]%string = true /\
        (log = [v6_call iface] \/ (network' = str "udp6" /\ log = [v6_call iface; v4_call iface])))).
Proof.
  intros iface bind. split; [by vm_compute|].
  destruct (windows_dial_bound (fun _ => None) toy_nd (fun log k => log = k)) with
    (iface := iface) (network := str "tcp") (address := str "dns:53") (k := [(IPPROTO_IP, OptNumber 31, 0x07000000)])
    as (_ & n & a & log & Hl & Ha).
  - intros ctrl network address k Hk. unfold toy_nd in Hk.
    destruct (ctrl _ _ _) as [[e|] log] eqn:E; [done|]. injection Hk as <-.
    exists (str "tcp4"), (str "8.8.8.8:53"), log. by split_and!.
  - by vm_compute.
  - by exists n, a, log.
Defined.

Lemma default_dials_witness :
  let cs := [CallRegister (@UnsupportedSocketOption (list sysCall)); CallReset] in
  exists d, prun (fun n => 2 * n + 1)%nat cs dial.DefaultDialer = Some d /\
    forall network address,
      dial.pkg_DialContext toy_nd d network address = Some (dial.DialContext toy_nd [] network address) /\
      dial.pkg_ListenPacket toy_nd d network address = Some (dial.ListenPacket toy_nd [] network address).
Proof. intros cs. apply (default_dials (fun n => 2 * n + 1)%nat); lia. Defined.
End sockoptsfacts.
