(* ===== verification/Engine.v ===== *)
(** * Engine: packages log and engine

    The global logger, and the engine: the key, the proxy, the device and the
    stack behind a mutex, and the functions that start and stop them.  The
    engine's state holds the components it configures: the tunnel, the options
    of the default dialer, the logger.  What the host, the URL parser and the
    third-party libraries answer is [Env]. *)

From S2P Require Import Prelude Net Conn Metadata Statistic Tunnel Stack Proxy.
From S2P Require Devices.
Import tunnel.

Open Scope Z_scope.

(** ** log: level.go, log.go, emitter.go *)

Module log.

Inductive Level :=
| DebugLevel | InfoLevel | WarnLevel | ErrorLevel | DPanicLevel | PanicLevel | FatalLevel
| InvalidLevel | SilentLevel.

#[global] Instance Level_eq_dec : EqDecision Level.
Proof. solve_decision. Defined.

(** zap's numbers, an [int8]. *)
Definition value (l : Level) : Z :=
  match l with
  | DebugLevel => -1 | InfoLevel => 0 | WarnLevel => 1 | ErrorLevel => 2 | DPanicLevel => 3
  | PanicLevel => 4 | FatalLevel => 5 | InvalidLevel => 6 | SilentLevel => 7
  end.

(** A logger, by how zap is asked to make it. *)
Inductive Logger := Nop | Development | Production (l : Level).

Section log.
(** [zapcore.ParseLevel], and the error of building a logger. *)
Context (zap_ParseLevel : gostring -> Level * err) (zap_Build : Logger -> err).

Definition ParseLevel (text : gostring) : Level * err :=
  if str_eqb text (str "silent") || str_eqb text (str "SILENT") then (SilentLevel, None)
  else zap_ParseLevel text.

Definition NewLeveled (l : Level) : option Logger * err :=
  match l with
  | SilentLevel => (Some Nop, None)
  | DebugLevel => match zap_Build Development with None => (Some Development, None) | e => (None, e) end
  | InfoLevel | WarnLevel | ErrorLevel | DPanicLevel | PanicLevel | FatalLevel =>
      match zap_Build (Production l) with None => (Some (Production l), None) | e => (None, e) end
  | _ => (None, Some (errorsNew "invalid level"))
  end.

(** [zap.Must]: [None] is its panic. *)
Definition Must (r : option Logger * err) : option Logger :=
  match r.2 with Some _ => None | None => r.1 end.
End log.

(** gVisor's log level, a [uint32], for a logger whose [Level()] is [level]. *)
Definition setLogger (level : Z) : Z := (1 - level) mod 2 ^ 32.

(** The level a message of gVisor is logged at, an [int8]. *)
Definition emitLevel (level : Z) : Z := (1 - level + 128) mod 256 - 128.
End log.

(** ** strings *)

(** Strings are cut at ASCII letters only: [url.Parse] admits no others in a
    scheme. *)
Definition ToLower (s : gostring) : gostring :=
  (fun c => if (65 <=? b2z c) && (b2z c <=? 90) then z2b (b2z c + 32) else c) <$> s.

Fixpoint is_prefix (p s : gostring) : bool :=
  match p, s with
  | [], _ => true
  | c :: p, d :: s => bool_decide (c = d) && is_prefix p s
  | _ :: _, [] => false
  end.

(** [strings.Contains] *)
Fixpoint Contains (s sub : gostring) : bool :=
  is_prefix sub s || match s with [] => false | _ :: s => Contains s sub end.

(** The white space of Unicode, in UTF-8. *)
Definition spaces : list gostring :=
  ((fun c => [z2b c]) <$> [9; 10; 11; 12; 13; 32]) ++
  map (map z2b) [[0xc2; 0x85]; [0xc2; 0xa0]; [0xe1; 0x9a; 0x80]; [0xe2; 0x80; 0xa8]; [0xe2; 0x80; 0xa9];
                 [0xe2; 0x80; 0xaf]; [0xe2; 0x81; 0x9f]; [0xe3; 0x80; 0x80]] ++
  ((fun c => z2b <$> [0xe2; 0x80; c]) <$> seqZ 0x80 11).

Fixpoint trimLeft (fuel : nat) (sp : list gostring) (s : gostring) : gostring :=
  match fuel with
  | O => s
  | S f =>
      match List.find (fun p => is_prefix p s) sp with
      | Some p => trimLeft f sp (drop (length p) s)
      | None => s
      end
  end.

(** [strings.TrimSpace]: every turn drops at least one byte. *)
Definition TrimSpace (s : gostring) : gostring :=
  let s := trimLeft (length s) spaces s in
  reverse (trimLeft (length s) (reverse <$> spaces) (reverse s)).

Module engine.

(** ** key.go *)

Record Key := mkKey {
  MTU : Z; Mark : Z; Proxy : gostring; RestAPI : gostring; Device : gostring; LogLevel : gostring;
  Interface : gostring; TCPModerateReceiveBuffer : bool; TCPSendBufferSize : gostring;
  TCPReceiveBufferSize : gostring; MulticastGroups : list gostring; TUNPreUp : gostring;
  TUNPostUp : gostring; UDPTimeout : Z }.

(** The options the engine registers with the default dialer. *)
Inductive sockopt := BindToInterface (iface : gostring) | RoutingMark (mark : Z).

Record Env (P D S : Type) := mkEnv {
  zap_ParseLevel : gostring -> log.Level * err;
  zap_Build : log.Logger -> err;
  InterfaceByName : gostring -> gostring * err;
  url_Parse : gostring -> option proxy.URL * err;
  UserString : proxy.URL -> gostring;
  ResolveTCPAddr : gostring -> option UDPAddr * err;
  isIOS : bool;
  openFD : Z -> Z -> Z -> option D * err;
  openTUN : gostring -> Z -> option D * err;
  shlex_Split : gostring -> list gostring * err;
  execOutput : list gostring -> err;
  RAMInBytes : gostring -> Z * err;
  newStack : option D -> Z * S;
  protocols : list (proxy.protocol P) }.
Arguments zap_ParseLevel {P D S}. Arguments zap_Build {P D S}. Arguments InterfaceByName {P D S}.
Arguments url_Parse {P D S}. Arguments UserString {P D S}. Arguments ResolveTCPAddr {P D S}.
Arguments isIOS {P D S}. Arguments openFD {P D S}. Arguments openTUN {P D S}.
Arguments shlex_Split {P D S}. Arguments execOutput {P D S}. Arguments RAMInBytes {P D S}.
Arguments newStack {P D S}. Arguments protocols {P D S}.

(** What the engine has the outside do. *)
Inductive event (D S : Type) :=
| Exec (parts : list gostring)
| Serve (host token : gostring)
| OpenDevice (d : D)
| CloseDevice (d : D)
| CloseStack (s : S)
| WaitStack (s : S).
Arguments Exec {D S}. Arguments Serve {D S}. Arguments OpenDevice {D S}.
Arguments CloseDevice {D S}. Arguments CloseStack {D S}. Arguments WaitStack {D S}.

Record Engine (P D S C U : Type) := mkEngine {
  defaultKey : option Key; defaultProxy : option P; defaultDevice : option D;
  defaultStack : option S; icmpHandler : bool;
  tun : Tunnel (option P) C U; dialOpts : list sockopt; logger : log.Logger;
  statsFunc : bool; events : list (event D S) }.
Arguments mkEngine {P D S C U}. Arguments defaultKey {P D S C U}. Arguments defaultProxy {P D S C U}.
Arguments defaultDevice {P D S C U}. Arguments defaultStack {P D S C U}. Arguments icmpHandler {P D S C U}.
Arguments tun {P D S C U}. Arguments dialOpts {P D S C U}. Arguments logger {P D S C U}.
Arguments statsFunc {P D S C U}. Arguments events {P D S C U}.

(** ** parse.go *)

Section parse.
Context {P D S : Type} (env : Env P D S).

Definition withScheme (default s : gostring) : gostring :=
  if Contains s (str "://") then s else default ++ str "://" ++ s.

Definition IPv4zero : list byte := v4InV6Prefix ++ replicate 4 (z2b 0).

(** The host and the user information of the URL. *)
Definition parseRestAPI (s : gostring) : option ((gostring * gostring) + error) :=
  let s := withScheme (str "http") s in
  let '(u, e) := url_Parse env s in
  match e with
  | Some e => Some (inr e)
  | None =>
      u ← u;
      let '(addr, e) := ResolveTCPAddr env (proxy.Host u) in
      match e with
      | Some e => Some (inr e)
      | None =>
          addr ← addr;
          let addr := match udpIP addr with [] => mkUDPAddr IPv4zero (udpPort addr) | _ => addr end in
          let host := UDPAddrString addr in
          if str_eqb (proxy.Scheme u) (str "http") then Some (inl (host, UserString env u))
          else Some (inr (ErrNew (str "unsupported scheme: " ++ proxy.Scheme u)))
      end
  end.

Definition parseFD (u : proxy.URL) (mtu : Z) : option D * err :=
  Devices.fdbased.Open (openFD env) (proxy.Host u) mtu (if isIOS env then 4 else 0).

Definition parseTUN (u : proxy.URL) (mtu : Z) : option D * err := openTUN env (proxy.Host u) mtu.

Definition parseDevice (s : gostring) (mtu : Z) : option (option D * err) :=
  let s := withScheme (str "tun") s in
  let '(u, e) := url_Parse env s in
  match e with
  | Some e => Some (None, Some e)
  | None =>
      u ← u;
      let driver := ToLower (proxy.Scheme u) in
      Some (if str_eqb driver (str "fd") then parseFD u mtu
            else if str_eqb driver (str "tun") then parseTUN u mtu
            else (None, Some (ErrNew (str "unsupported driver: " ++ driver))))
  end.

Definition parseProxy (s : gostring) : option (option P * err) :=
  let s := withScheme (str "socks5") s in
  let '(u, e) := url_Parse env s in
  match e with
  | Some e => Some (None, Some e)
  | None => u ← u; proxy.Parse (protocols env) u
  end.

Fixpoint parseMulticastGroups (v : list gostring) : list Addr + error :=
  match v with
  | [] => inl []
  | ip :: v =>
      let ip := TrimSpace ip in
      if str_eqb ip [] then parseMulticastGroups v
      else
        let '(addr, e) := Net.ParseAddr ip in
        match e with
        | Some e => inr e
        | None =>
            if negb (IsMulticast addr) then inr (ErrNew (str "invalid multicast IP: " ++ AddrString addr))
            else match parseMulticastGroups v with
                 | inl groups => inl (addr :: groups)
                 | inr e => inr e
                 end
        end
  end.
End parse.

(** ** engine.go *)

Section engine.
Context {P D S C U : Type} `{GVisor S} (env : Env P D S).

#[local] Notation E := (Engine P D S C U).

(** A function of the engine: its error, and the engine. [None] is a panic. *)
Definition M (A : Type) : Type := E -> option ((A + error) * E).

Definition ret {A} (a : A) : M A := fun e => Some (inl a, e).
Definition throw {A} (er : error) : M A := fun e => Some (inr er, e).
Definition bind {A B} (m : M A) (k : A -> M B) : M B := fun e =>
  '(r, e) ← m e;
  match r with inl a => k a e | inr er => Some (inr er, e) end.
Definition modify (f : E -> E) : M unit := fun e => Some (inl tt, f e).
(** A pair of a result and an error: [None] is a panic. *)
Definition try {A} (r : option (option A * err)) : M (option A) := fun e =>
  '(a, er) ← r; Some (match (er : err) with Some er => inr er | None => inl a end, e).
Definition when (b : bool) (m : M unit) : M unit := if b then m else ret tt.

#[local] Notation "'let*' x := m 'in' k" := (bind m (fun x => k))
  (at level 200, x pattern, m at level 100, k at level 200).
#[local] Notation "'do*' m 'in' k" := (bind m (fun _ => k)) (at level 200, m at level 100, k at level 200).

Definition setProxies (p : option P) (e : E) : E :=
  mkEngine (defaultKey e) p (defaultDevice e) (defaultStack e) (icmpHandler e) (tun e) (dialOpts e)
    (logger e) (statsFunc e) (events e).
Definition setDevice (d : option D) (e : E) : E :=
  mkEngine (defaultKey e) (defaultProxy e) d (defaultStack e) (icmpHandler e) (tun e) (dialOpts e)
    (logger e) (statsFunc e) (events e).
Definition setStack (s : option S) (e : E) : E :=
  mkEngine (defaultKey e) (defaultProxy e) (defaultDevice e) s (icmpHandler e) (tun e) (dialOpts e)
    (logger e) (statsFunc e) (events e).
Definition setTun (t : Tunnel (option P) C U) (e : E) : E :=
  mkEngine (defaultKey e) (defaultProxy e) (defaultDevice e) (defaultStack e) (icmpHandler e) t (dialOpts e)
    (logger e) (statsFunc e) (events e).
Definition setOpts (o : list sockopt) (e : E) : E :=
  mkEngine (defaultKey e) (defaultProxy e) (defaultDevice e) (defaultStack e) (icmpHandler e) (tun e) o
    (logger e) (statsFunc e) (events e).
Definition setLogger (l : log.Logger) (e : E) : E :=
  mkEngine (defaultKey e) (defaultProxy e) (defaultDevice e) (defaultStack e) (icmpHandler e) (tun e) (dialOpts e)
    l (statsFunc e) (events e).
Definition setStats (e : E) : E :=
  mkEngine (defaultKey e) (defaultProxy e) (defaultDevice e) (defaultStack e) (icmpHandler e) (tun e) (dialOpts e)
    (logger e) true (events e).
Definition emit (ev : event D S) (e : E) : E :=
  mkEngine (defaultKey e) (defaultProxy e) (defaultDevice e) (defaultStack e) (icmpHandler e) (tun e) (dialOpts e)
    (logger e) (statsFunc e) (events e ++ [ev]).

Definition Insert (k : option Key) (e : E) : E :=
  mkEngine k (defaultProxy e) (defaultDevice e) (defaultStack e) (icmpHandler e) (tun e) (dialOpts e)
    (logger e) (statsFunc e) (events e).
(** [h] is whether the handler is not nil. *)
Definition SetICMPHandler (h : bool) (e : E) : E :=
  mkEngine (defaultKey e) (defaultProxy e) (defaultDevice e) (defaultStack e) h (tun e) (dialOpts e)
    (logger e) (statsFunc e) (events e).

(** Its error is only logged. *)
Definition execCommand (cmd : gostring) (e : E) : option (err * E) :=
  let '(parts, er) := shlex_Split env cmd in
  match er with
  | Some er => Some (Some er, e)
  | None =>
      if len parts =? 0 then Some (Some (errorsNew "empty command"), e)
      else _ ← parts !! 0%nat; Some (execOutput env parts, emit (Exec parts) e)
  end.

Definition execLogged (cmd : gostring) : M unit := fun e =>
  '(_, e) ← execCommand cmd e; Some (inl tt, e).

Definition general (k : Key) : M unit :=
  let '(level, er) := log.ParseLevel (zap_ParseLevel env) (LogLevel k) in
  match er with
  | Some er => throw er
  | None =>
      do* (fun e => l ← log.Must (log.NewLeveled (zap_Build env) level); Some (inl tt, setLogger l e)) in
      do* modify (setOpts []) in
      do* (if negb (str_eqb (Interface k) []) then
             let '(iface, er) := InterfaceByName env (Interface k) in
             match er with
             | Some er => throw er
             | None => modify (fun e => setOpts (dialOpts e ++ [BindToInterface iface]) e)
             end
           else ret tt) in
      do* when (negb (Mark k =? 0)) (modify (fun e => setOpts (dialOpts e ++ [RoutingMark (Mark k)]) e)) in
      if 0 <? UDPTimeout k then
        if UDPTimeout k <? Second then throw (errorsNew "invalid udp timeout value")
        else modify (fun e => setTun (SetUDPTimeout (UDPTimeout k) (tun e)) e)
      else ret tt
  end.

(** The server is started in a goroutine of its own. *)
Definition restAPI (k : Key) : M unit :=
  if negb (str_eqb (RestAPI k) []) then
    fun e =>
      r ← parseRestAPI env (RestAPI k);
      match r with
      | inr er => Some (inr er, e)
      | inl (host, token) => Some (inl tt, emit (Serve host token) (setStats e))
      end
  else ret tt.

(** The size of a buffer option, when it is set. *)
Definition bufferSize (size : gostring) (f : Z -> option.Option S) (opts : list (option.Option S)) : M (list (option.Option S)) :=
  if negb (str_eqb size []) then
    let '(n, er) := RAMInBytes env size in
    match er with Some er => throw er | None => ret (opts ++ [f n]) end
  else ret opts.

(** The part of [netstack] after the command before it. *)
Definition netstackBody (k : Key) : M unit :=
  match parseMulticastGroups (MulticastGroups k) with
  | inr er => throw er
  | inl groups =>
      let* _ := (fun e =>
        '(p, er) ← parseProxy env (Proxy k);
        Some (match (er : err) with Some er => inr er | None => inl tt end, setProxies p e)) in
      do* modify (fun e => setTun (SetProxy (defaultProxy e) (tun e)) e) in
      let* _ := (fun e =>
        '(d, er) ← parseDevice env (Device k) (MTU k mod 2 ^ 32);
        Some (match (er : err) with Some er => inr er | None => inl tt end,
              let e := setDevice d e in
              match d with Some d => emit (OpenDevice d) e | None => e end)) in
      let opts := if TCPModerateReceiveBuffer k then [option.WithTCPModerateReceiveBuffer true] else [] in
      let* opts := bufferSize (TCPSendBufferSize k) option.WithTCPSendBufferSize opts in
      let* opts := bufferSize (TCPReceiveBufferSize k) option.WithTCPReceiveBufferSize opts in
      fun e =>
        let '(nicID, s) := newStack env (defaultDevice e) in
        let '(st, er) := Stack.core.CreateStack (Stack.core.mkConfig (icmpHandler e) groups opts) nicID s in
        Some (match (er : err) with Some er => inr er | None => inl tt end, setStack st e)
  end.

Definition netstack (k : Key) : M unit :=
  if str_eqb (Proxy k) [] then throw (errorsNew "empty proxy")
  else if str_eqb (Device k) [] then throw (errorsNew "empty device")
  else
    do* when (negb (str_eqb (TUNPreUp k) [])) (execLogged (TUNPreUp k)) in
    do* netstackBody k in
    (* the deferred command *)
    when (negb (str_eqb (TUNPostUp k) [])) (execLogged (TUNPostUp k)).

Definition start : M unit := fun e =>
  match defaultKey e with
  | None => Some (inr (errorsNew "empty key"), e)
  | Some k => (do* general k in do* restAPI k in netstack k) e
  end.

Definition stop (e : E) : E :=
  let e := match defaultDevice e with Some d => emit (CloseDevice d) e | None => e end in
  match defaultStack e with
  | Some s => emit (WaitStack s) (emit (CloseStack s) e)
  | None => e
  end.
End engine.

(** ** Properties *)

Section facts.
Context {P D S C U : Type} `{GVisor S} (env : Env P D S).
Implicit Types (e : Engine P D S C U) (k : Key).

(** The dialer's options for a key. *)
Definition sockopts (k : Key) : list sockopt :=
  (if str_eqb (Interface k) [] then [] else [BindToInterface (InterfaceByName env (Interface k)).1]) ++
  (if Mark k =? 0 then [] else [RoutingMark (Mark k)]).

(** At most one interface and at most one mark, in this order. *)
Definition opts_ok (o : list sockopt) : Prop :=
  exists b m, o = b ++ m /\ (b = [] \/ exists i, b = [BindToInterface i]) /\
    (m = [] \/ exists n, m = [RoutingMark n]).

Lemma opts_ok_nil : opts_ok [].
Proof. exists [], []. auto. Qed.
Lemma opts_ok_sockopts k : opts_ok (sockopts k).
Proof. eexists _, _. split; [done|]. split; [destruct (str_eqb _ _)|destruct (Mark k =? 0)]; eauto. Qed.

(** What the start-up functions leave alone. *)
Record keeps (e e' : Engine P D S C U) : Prop := {
  keeps_key : defaultKey e' = defaultKey e;
  keeps_icmp : icmpHandler e' = icmpHandler e;
  keeps_proxy : defaultProxy e' = defaultProxy e;
  keeps_device : defaultDevice e' = defaultDevice e;
  keeps_stack : defaultStack e' = defaultStack e }.

Lemma general_run k e r e' :
  general env k e = Some (r, e') ->
  keeps e e' /\ events e' = events e /\ proxy (tun e') = proxy (tun e) /\
  (opts_ok (dialOpts e') \/ dialOpts e' = dialOpts e) /\
  (udpTimeout (tun e') = udpTimeout (tun e) \/ Second <= udpTimeout (tun e')) /\
  (r = inl tt -> dialOpts e' = sockopts k /\
     udpTimeout (tun e') = if 0 <? UDPTimeout k then UDPTimeout k else udpTimeout (tun e)).
Proof.
  unfold general, sockopts. intros Hr. destruct (log.ParseLevel _ _) as [level [er|]].
  { injection Hr as <- <-. split; [by split|]. split_and!; auto. done. }
  unfold bind in Hr. destruct (log.Must _) as [l|]; [|done]. cbn [mbind option_bind] in Hr.
  unfold modify at 1 in Hr. cbn [mbind option_bind] in Hr.
  pose proof opts_ok_nil as Hnil. pose proof (opts_ok_sockopts k) as Hok. unfold sockopts in Hok.
  assert (forall i, opts_ok [BindToInterface i]) as Hb by (intros i; exists [BindToInterface i], []; split_and!; eauto).
  destruct (str_eqb (Interface k) []); cbn [negb] in Hr.
  - destruct (Mark k =? 0); cbn [negb when] in Hr;
      cbn in Hr; destruct (0 <? UDPTimeout k) eqn:E1; try destruct (UDPTimeout k <? Second) eqn:E2;
      injection Hr as <- <-; (split; [by split|]); cbn; split_and!; auto; try done; right; lia.
  - destruct (InterfaceByName env (Interface k)) as [iface [er|]].
    { cbn in Hr. injection Hr as <- <-. split; [by split|]. cbn. split_and!; auto. done. }
    destruct (Mark k =? 0); cbn [negb when] in Hr;
      cbn in Hr; destruct (0 <? UDPTimeout k) eqn:E1; try destruct (UDPTimeout k <? Second) eqn:E2;
      injection Hr as <- <-; (split; [by split|]); cbn; split_and!; auto; try done; right; lia.
Qed.

Lemma restAPI_run k e r e' :
  restAPI env k e = Some (r, e') ->
  keeps e e' /\ tun e' = tun e /\ dialOpts e' = dialOpts e /\
  exists evs, events e' = events e ++ evs /\ (evs = [] \/ exists h t, evs = [Serve h t]).
Proof.
  unfold restAPI. intros Hr. destruct (str_eqb (RestAPI k) []); cbn [negb] in Hr.
  { injection Hr as <- <-. split; [by split|]. split_and!; auto. exists []. rewrite app_nil_r. auto. }
  destruct (parseRestAPI env (RestAPI k)) as [[[h t]|er]|]; [| |done]; injection Hr as <- <-.
  - split; [by split|]. split_and!; auto. exists [Serve h t]. split; [done|]. right. eauto.
  - split; [by split|]. split_and!; auto. exists []. rewrite app_nil_r. auto.
Qed.

(** The events of a command that is only logged. *)
Definition ran (cmd : gostring) (evs : list (event D S)) : Prop :=
  evs = [] \/ exists parts, shlex_Split env cmd = (parts, None) /\ parts <> [] /\ evs = [Exec parts].

Lemma execLogged_run cmd e r e' :
  execLogged env cmd e = Some (r, e') ->
  r = inl tt /\ keeps e e' /\ tun e' = tun e /\ dialOpts e' = dialOpts e /\
  exists evs, events e' = events e ++ evs /\ ran cmd evs.
Proof.
  unfold execLogged, execCommand, ran. intros Hr. destruct (shlex_Split env cmd) as [parts [er|]].
  { injection Hr as <- <-. split; [done|]. split; [by split|]. split_and!; auto. exists []. rewrite app_nil_r. auto. }
  destruct (Z.eqb_spec (len parts) 0) as [E|E].
  { injection Hr as <- <-. split; [done|]. split; [by split|]. split_and!; auto. exists []. rewrite app_nil_r. auto. }
  destruct parts as [|p parts]; [done|]. injection Hr as <- <-. split; [done|]. split; [by split|].
  split_and!; auto. eexists. split; [done|]. right. eauto.
Qed.

Lemma bufferSize_run size f opts e r e' :
  bufferSize env size f opts e = Some (r, e') -> e' = e.
Proof.
  unfold bufferSize. destruct (str_eqb size []); cbn [negb]; [by intros [= _ <-]|].
  destruct (RAMInBytes env size) as [n [er|]]; by intros [= _ <-].
Qed.

(** How far the body of [netstack] gets. *)
Lemma netstackBody_run k e r e' :
  netstackBody env k e = Some (r, e') ->
  defaultKey e' = defaultKey e /\ icmpHandler e' = icmpHandler e /\ dialOpts e' = dialOpts e /\
  udpTimeout (tun e') = udpTimeout (tun e) /\
  (exists evs, events e' = events e ++ evs /\ (evs = [] \/ exists d, evs = [OpenDevice d])) /\
  (defaultDevice e' = defaultDevice e \/
   match defaultDevice e' with Some d => OpenDevice d ∈ events e' | None => True end) /\
  (defaultStack e' = defaultStack e \/ defaultStack e' = None \/ r = inl tt) /\
  (r = inl tt -> exists groups p d opts nicID s st,
     parseMulticastGroups (MulticastGroups k) = inl groups /\
     parseProxy env (Proxy k) = Some (p, None) /\
     parseDevice env (Device k) (MTU k mod 2 ^ 32) = Some (d, None) /\
     newStack env d = (nicID, s) /\
     Stack.core.CreateStack (Stack.core.mkConfig (icmpHandler e) groups opts) nicID s = (Some st, None) /\
     defaultProxy e' = p /\ proxy (tun e') = p /\ defaultDevice e' = d /\ defaultStack e' = Some st).
Proof.
  unfold netstackBody. intros Hr. destruct (parseMulticastGroups (MulticastGroups k)) as [groups|er] eqn:Eg.
  2:{ injection Hr as <- <-. split_and!; auto; try done. exists []. rewrite app_nil_r. auto. }
  unfold bind at 1 in Hr. destruct (parseProxy env (Proxy k)) as [[p er]|] eqn:Ep; [|done].
  cbn [mbind option_bind] in Hr. destruct er as [er|].
  { injection Hr as <- <-. cbn. split_and!; auto; try done. exists []. rewrite app_nil_r. auto. }
  unfold bind at 1, modify at 1 in Hr. cbn [mbind option_bind] in Hr.
  unfold bind at 1 in Hr. destruct (parseDevice env (Device k) _) as [[d er]|] eqn:Ed; [|done].
  cbn [mbind option_bind] in Hr.
  set (e1 := setTun _ _) in Hr. set (e2 := match d with Some d => _ | None => _ end) in Hr.
  assert (events e2 = events e ++ (if d is Some d then [OpenDevice d] else [])) as He2
    by (destruct d; cbn; rewrite ?app_nil_r; done).
  assert (exists evs, events e2 = events e ++ evs /\ (evs = [] \/ exists d, evs = [OpenDevice d])) as Hevs
    by (eexists; split; [done|]; destruct d; eauto).
  assert (defaultDevice e2 = d /\ defaultStack e2 = defaultStack e /\ defaultKey e2 = defaultKey e /\
    icmpHandler e2 = icmpHandler e /\ dialOpts e2 = dialOpts e /\ udpTimeout (tun e2) = udpTimeout (tun e) /\
    defaultProxy e2 = p /\ proxy (tun e2) = p) as (F1 & F2 & F3 & F4 & F5 & F6 & F7 & F8) by by destruct d.
  assert (match d with Some d => OpenDevice d ∈ events e2 | None => True end) as Hopen.
  { destruct d; [|done]. rewrite He2. apply elem_of_app. right. by left. }
  clearbody e2.
  assert (forall er, Some (inr er, e2) = Some (r, e') ->
    defaultKey e' = defaultKey e /\ icmpHandler e' = icmpHandler e /\ dialOpts e' = dialOpts e /\
    udpTimeout (tun e') = udpTimeout (tun e) /\
    (exists evs, events e' = events e ++ evs /\ (evs = [] \/ exists d, evs = [OpenDevice d])) /\
    (defaultDevice e' = defaultDevice e \/
     match defaultDevice e' with Some d => OpenDevice d ∈ events e' | None => True end) /\
    (defaultStack e' = defaultStack e \/ defaultStack e' = None \/ r = inl tt) /\ r <> inl tt) as Hfail.
  { intros er1 [= <- <-]. rewrite F1. split_and!; auto; done. }
  destruct er as [er|]; [destruct (Hfail er Hr) as (? & ? & ? & ? & ? & ? & ? & ?); split_and!; auto; done|].
  unfold bind at 1 in Hr.
  destruct (bufferSize env (TCPSendBufferSize k) _ _ e2) as [[[o1|er] e3]|] eqn:Eb1; [| |done];
    pose proof (bufferSize_run _ _ _ _ _ _ Eb1) as ->; cbn [mbind option_bind] in Hr.
  2:{ destruct (Hfail er Hr) as (? & ? & ? & ? & ? & ? & ? & ?); split_and!; auto; done. }
  unfold bind at 1 in Hr.
  destruct (bufferSize env (TCPReceiveBufferSize k) _ o1 e2) as [[[o2|er] e3]|] eqn:Eb2; [| |done];
    pose proof (bufferSize_run _ _ _ _ _ _ Eb2) as ->; cbn [mbind option_bind] in Hr.
  2:{ destruct (Hfail er Hr) as (? & ? & ? & ? & ? & ? & ? & ?); split_and!; auto; done. }
  rewrite F1, F4 in Hr. destruct (newStack env d) as [nicID s] eqn:En.
  destruct (Stack.core.CreateStack (Stack.core.mkConfig (icmpHandler e) groups o2) nicID s) as [st er] eqn:Ec.
  injection Hr as <- <-. cbn. rewrite F1.
  unfold Stack.core.CreateStack in Ec. destruct (option.applyAll _ s) as [[er'|] s'] eqn:Ea; injection Ec as <- <-.
  - split_and!; auto. done.
  - split_and!; auto. intros _. exists groups, p, d, o2, nicID, s, s'. split_and!; auto.
    unfold Stack.core.CreateStack. by rewrite Ea.
Qed.

Definition is_close (ev : event D S) : bool :=
  match ev with CloseDevice _ | CloseStack _ | WaitStack _ => true | _ => false end.

(** What a start does to the engine, whatever its outcome [r]. *)
Record started (k : Key) e (r : unit + error) e' : Prop := {
  st_key : defaultKey e' = defaultKey e;
  st_icmp : icmpHandler e' = icmpHandler e;
  st_opts : opts_ok (dialOpts e') \/ dialOpts e' = dialOpts e;
  st_timeout : udpTimeout (tun e') = udpTimeout (tun e) \/ Second <= udpTimeout (tun e');
  st_device : defaultDevice e' = defaultDevice e \/
    match defaultDevice e' with Some d => OpenDevice d ∈ events e' | None => True end;
  st_stack : defaultStack e' = defaultStack e \/ defaultStack e' = None \/ r = inl tt;
  st_events : exists api pre opened post,
    events e' = events e ++ api ++ pre ++ opened ++ post /\
    (api = [] \/ exists h t, api = [Serve h t]) /\
    (pre = [] \/ (str_eqb (TUNPreUp k) [] = false /\ ran (TUNPreUp k) pre)) /\
    (opened = [] \/ exists d, opened = [OpenDevice d]) /\
    (post = [] \/ (r = inl tt /\ str_eqb (TUNPostUp k) [] = false /\ ran (TUNPostUp k) post)) /\
    (r = inl tt -> str_eqb (TUNPreUp k) [] = false -> ran (TUNPreUp k) pre) /\
    (r = inl tt -> str_eqb (TUNPostUp k) [] = false -> ran (TUNPostUp k) post);
  st_done : r = inl tt -> dialOpts e' = sockopts k /\
    udpTimeout (tun e') = (if 0 <? UDPTimeout k then UDPTimeout k else udpTimeout (tun e)) /\
    exists groups p d opts nicID s st,
      parseMulticastGroups (MulticastGroups k) = inl groups /\
      parseProxy env (Proxy k) = Some (p, None) /\
      parseDevice env (Device k) (MTU k mod 2 ^ 32) = Some (d, None) /\
      newStack env d = (nicID, s) /\
      Stack.core.CreateStack (Stack.core.mkConfig (icmpHandler e) groups opts) nicID s = (Some st, None) /\
      defaultProxy e' = p /\ proxy (tun e') = p /\ defaultDevice e' = d /\ defaultStack e' = Some st }.

Lemma whenLogged_run cmd e r e' :
  when (negb (str_eqb cmd [])) (execLogged env cmd) e = Some (r, e') ->
  r = inl tt /\ keeps e e' /\ tun e' = tun e /\ dialOpts e' = dialOpts e /\
  exists evs, events e' = events e ++ evs /\
    (evs = [] \/ (str_eqb cmd [] = false /\ ran cmd evs)) /\ (str_eqb cmd [] = false -> ran cmd evs).
Proof.
  destruct (str_eqb cmd []) eqn:E; cbn [negb when].
  - intros [= <- <-]. split; [done|]. split; [by split|]. split_and!; auto. exists [].
    rewrite app_nil_r. split_and!; auto. done.
  - intros Hr. apply execLogged_run in Hr as (-> & Hk & Ht & Ho & evs & He & Hran).
    split_and!; auto. exists evs. split_and!; auto.
Qed.

Lemma netstack_run k e r e' :
  netstack env k e = Some (r, e') ->
  defaultKey e' = defaultKey e /\ icmpHandler e' = icmpHandler e /\ dialOpts e' = dialOpts e /\
  udpTimeout (tun e') = udpTimeout (tun e) /\
  (defaultDevice e' = defaultDevice e \/
   match defaultDevice e' with Some d => OpenDevice d ∈ events e' | None => True end) /\
  (defaultStack e' = defaultStack e \/ defaultStack e' = None \/ r = inl tt) /\
  (exists pre opened post,
    events e' = events e ++ pre ++ opened ++ post /\
    (pre = [] \/ (str_eqb (TUNPreUp k) [] = false /\ ran (TUNPreUp k) pre)) /\
    (opened = [] \/ exists d, opened = [OpenDevice d]) /\
    (post = [] \/ (r = inl tt /\ str_eqb (TUNPostUp k) [] = false /\ ran (TUNPostUp k) post)) /\
    (r = inl tt -> str_eqb (TUNPreUp k) [] = false -> ran (TUNPreUp k) pre) /\
    (r = inl tt -> str_eqb (TUNPostUp k) [] = false -> ran (TUNPostUp k) post)) /\
  (r = inl tt -> exists groups p d opts nicID s st,
     parseMulticastGroups (MulticastGroups k) = inl groups /\
     parseProxy env (Proxy k) = Some (p, None) /\
     parseDevice env (Device k) (MTU k mod 2 ^ 32) = Some (d, None) /\
     newStack env d = (nicID, s) /\
     Stack.core.CreateStack (Stack.core.mkConfig (icmpHandler e) groups opts) nicID s = (Some st, None) /\
     defaultProxy e' = p /\ proxy (tun e') = p /\ defaultDevice e' = d /\ defaultStack e' = Some st).
Proof.
  unfold netstack. intros Hr.
  assert (forall er, Some (inr er, e) = Some (r, e') -> r = inr er /\ e' = e) as Hthrow by by intros er [= <- <-].
  destruct (str_eqb (Proxy k) []); [|destruct (str_eqb (Device k) [])].
  1,2: apply Hthrow in Hr as [-> ->]; split_and!; auto; [|done]; exists [], [], [];
    rewrite app_nil_r; split_and!; auto; done.
  clear Hthrow. unfold bind at 1 in Hr. destruct (when _ (execLogged env (TUNPreUp k)) e) as [[r1 e1]|] eqn:E1; [|done].
  apply whenLogged_run in E1 as (-> & [K1 K2 K3 K4 K5] & T1 & O1 & pre & V1 & R1 & R1').
  cbn [mbind option_bind] in Hr. unfold bind at 1 in Hr.
  destruct (netstackBody env k e1) as [[r2 e2]|] eqn:E2; [|done].
  apply netstackBody_run in E2 as (N1 & N2 & N3 & N4 & (ov & V2 & R2) & N5 & N6 & N7).
  cbn [mbind option_bind] in Hr. destruct r2 as [[]|er].
  - apply whenLogged_run in Hr as (-> & [L1 L2 L3 L4 L5] & T3 & O3 & post & V3 & R3 & R3').
    destruct (N7 eq_refl) as (groups & p & d & opts & nicID & s & st & G1 & G2 & G3 & G4 & G5 & G6 & G7 & G8 & G9).
    split_and!; try congruence.
    + rewrite L4. destruct N5 as [N5|N5]; [left; congruence|right]. destruct (defaultDevice e2); [|done].
      rewrite V3. apply elem_of_app. by left.
    + exists pre, ov, post. split_and!; auto.
      * by rewrite V3, V2, V1, <- !app_assoc.
      * destruct R3 as [?|[? ?]]; auto.
    + intros _. exists groups, p, d, opts, nicID, s, st. split_and!; congruence.
  - injection Hr as <- <-. split_and!; try congruence.
    exists pre, ov, []. rewrite app_nil_r. split_and!; auto; try done. by rewrite V2, V1, <- app_assoc.
Qed.

Lemma start_run e r e' :
  start env e = Some (r, e') ->
  match defaultKey e with
  | None => r = inr (errorsNew "empty key") /\ e' = e
  | Some k => started k e r e'
  end.
Proof.
  unfold start. destruct (defaultKey e) as [k|] eqn:Ek; [|by intros [= <- <-]]. intros Hr.
  unfold bind at 1 in Hr. destruct (general env k e) as [[r1 e1]|] eqn:E1; [|done].
  apply general_run in E1 as ([K1 K2 K3 K4 K5] & V1 & P1 & O1 & U1 & D1).
  cbn [mbind option_bind] in Hr. destruct r1 as [[]|er].
  2:{ injection Hr as <- <-. split; auto; try done.
      exists [], [], [], []. rewrite !app_nil_r. split_and!; auto; done. }
  destruct (D1 eq_refl) as [D2 D3]. unfold bind at 1 in Hr.
  destruct (restAPI env k e1) as [[r2 e2]|] eqn:E2; [|done].
  apply restAPI_run in E2 as ([L1 L2 L3 L4 L5] & T2 & O2 & api & V2 & R2).
  cbn [mbind option_bind] in Hr. destruct r2 as [[]|er].
  2:{ injection Hr as <- <-. split; try congruence; rewrite ?T2, ?O2, ?L4, ?L5; auto; try done.
      exists api, [], [], []. rewrite !app_nil_r. split_and!; auto; try done. by rewrite V2, V1. }
  apply netstack_run in Hr as (N1 & N2 & N3 & N4 & N5 & N6 & (pre & ov & post & V3 & R3) & N7).
  rewrite L2, K2, T2, L4, L5, K4, K5 in *.
  split; try congruence; rewrite ?N3, ?N4, ?O2; auto.
  - exists api, pre, ov, post. split_and!; try apply R3; auto. by rewrite V3, V2, V1, <- !app_assoc.
Qed.
End facts.

(** The multicast groups are exactly the addresses of the entries that are
    not blank, in order, all of them valid, well-formed and multicast; the
    parse fails exactly when some entry that is not blank is no multicast
    address. *)
Theorem parseMulticastGroups_spec v :
  let texts := filter (fun s => s <> []) (TrimSpace <$> v) in
  match parseMulticastGroups v with
  | inl groups => groups = (fun s => (Net.ParseAddr s).1) <$> texts /\
      Forall (fun a => IsValid a = true /\ IsMulticast a = true /\ addr_wf a) groups
  | inr _ => exists s, s ∈ texts /\ ((Net.ParseAddr s).2 <> None \/ IsMulticast (Net.ParseAddr s).1 = false)
  end.
Proof.
  cbv zeta. induction v as [|s v IH]; [by split|]. cbn [parseMulticastGroups fmap list_fmap].
  rewrite filter_cons. destruct (str_eqb (TrimSpace s) []) eqn:E.
  { apply str_eqb_eq in E. by rewrite decide_False by by intros ?. }
  apply str_eqb_neq in E. rewrite decide_True by done.
  pose proof (ParseAddr_wf (TrimSpace s)) as Hwf.
  destruct (Net.ParseAddr (TrimSpace s)) as [a [er|]] eqn:Ea.
  { exists (TrimSpace s). rewrite Ea. split; [by left|]. by left. }
  destruct (IsMulticast a) eqn:Em; cbn [negb].
  2:{ exists (TrimSpace s). rewrite Ea. split; [by left|]. by right. }
  destruct (parseMulticastGroups v) as [groups|er].
  - destruct IH as [-> Hall]. split; [by rewrite fmap_cons, Ea|]. constructor; [|done].
    split_and!; [by destruct a|done|done].
  - destruct IH as (s' & Hs' & Hbad). exists s'. split; [by right|done].
Qed.

(** ** A start that succeeds

    What the engine is to be after it, as a function of the key and of what the
    outside answers. *)

Section success.
Context {P D S C U : Type} `{GVisor S} (env : Env P D S).
Implicit Types (e : Engine P D S C U) (k : Key).

(** [s] is, or is given the scheme [default] and then is, the URL [u]. *)
Definition spells (default s : gostring) (u : proxy.URL) : Prop :=
  url_Parse env (if Contains s (str "://") then s else default ++ str "://" ++ s) = (Some u, None).

(** A command that is not blank is run once. *)
Definition commandEvents (cmd : gostring) : list (event D S) :=
  if str_eqb cmd [] then []
  else match shlex_Split env cmd with
       | ((_ :: _) as parts, None) => [Exec parts]
       | _ => []
       end.

(** The API is served at the address of its URL, any address without one, with
    its user information as the token. *)
Definition serveEvents (k : Key) (evs : list (event D S)) : Prop :=
  if str_eqb (RestAPI k) [] then evs = []
  else exists u ip port, spells (str "http") (RestAPI k) u /\ proxy.Scheme u = str "http" /\
    ResolveTCPAddr env (proxy.Host u) = (Some (mkUDPAddr ip port), None) /\
    evs = [Serve (UDPAddrString (mkUDPAddr (match ip with [] => IPv4zero | _ => ip end) port)) (UserString env u)].

Definition deviceOf (k : Key) (d : option D) : Prop :=
  exists u, spells (str "tun") (Device k) u /\
    (ToLower (proxy.Scheme u) = str "tun" /\ openTUN env (proxy.Host u) (MTU k mod 2 ^ 32) = (d, None) \/
     ToLower (proxy.Scheme u) = str "fd" /\
       Devices.fdbased.Open (openFD env) (proxy.Host u) (MTU k mod 2 ^ 32) (if isIOS env then 4 else 0) = (d, None)).

(** The size of a buffer, when one is given. *)
Definition sizeOption (size : gostring) (f : Z -> option.Option S) (opts : list (option.Option S)) : Prop :=
  if str_eqb size [] then opts = [] else exists n, RAMInBytes env size = (n, None) /\ opts = [f n].

Definition groupsOf (k : Key) : list Addr :=
  (fun s => (Net.ParseAddr s).1) <$> filter (fun s => s <> []) (TrimSpace <$> MulticastGroups k).

Record asKey (k : Key) e e' : Prop := {
  ak_level : exists l, log.ParseLevel (zap_ParseLevel env) (LogLevel k) = (l, None) /\
    log.NewLeveled (zap_Build env) l = (Some (logger e'), None);
  ak_opts : dialOpts e' = sockopts env k;
  ak_timeout : udpTimeout (tun e') = (if 0 <? UDPTimeout k then UDPTimeout k else udpTimeout (tun e));
  ak_proxy : exists u, spells (str "socks5") (Proxy k) u /\
    proxy.Parse (protocols env) u = Some (proxy (tun e'), None) /\ defaultProxy e' = proxy (tun e');
  ak_device : deviceOf k (defaultDevice e');
  ak_stack : exists snd rcv st,
    sizeOption (TCPSendBufferSize k) option.WithTCPSendBufferSize snd /\
    sizeOption (TCPReceiveBufferSize k) option.WithTCPReceiveBufferSize rcv /\
    Stack.core.CreateStack
      (Stack.core.mkConfig (icmpHandler e) (groupsOf k)
         ((if TCPModerateReceiveBuffer k then [option.WithTCPModerateReceiveBuffer true] else []) ++ snd ++ rcv))
      (newStack env (defaultDevice e')).1 (newStack env (defaultDevice e')).2 = (Some st, None) /\
    defaultStack e' = Some st;
  ak_stats : statsFunc e' = statsFunc e || negb (str_eqb (RestAPI k) []);
  ak_events : exists api, serveEvents k api /\
    events e' = events e ++ api ++ commandEvents (TUNPreUp k) ++
      match defaultDevice e' with Some d => [OpenDevice d] | None => [] end ++ commandEvents (TUNPostUp k) }.

Lemma bind_inl {A B} (m : M A) (f : A -> M B) e b e' :
  bind m f e = Some (inl b, e') -> exists a e1, m e = Some (inl a, e1) /\ f a e1 = Some (inl b, e').
Proof.
  unfold bind. destruct (m e) as [[[a|er] e1]|]; [|done|done]. by exists a, e1.
Qed.

(** What a part of the start leaves to the others. *)
Record same_rest e e' : Prop := {
  sr_icmp : icmpHandler e' = icmpHandler e;
  sr_opts : dialOpts e' = dialOpts e;
  sr_logger : logger e' = logger e }.

Lemma general_ok k e x e' : general env k e = Some (inl x, e') ->
  (exists l, log.ParseLevel (zap_ParseLevel env) (LogLevel k) = (l, None) /\
     log.NewLeveled (zap_Build env) l = (Some (logger e'), None)) /\
  statsFunc e' = statsFunc e.
Proof.
  unfold general. destruct (log.ParseLevel _ _) as [l [er|]] eqn:El; [done|]. intros Hr.
  apply bind_inl in Hr as ([] & e1 & E1 & Hr). destruct (log.Must _) as [lg|] eqn:Em; [|done]. injection E1 as <-.
  assert (log.NewLeveled (zap_Build env) l = (Some lg, None)) as Hl.
  { unfold log.Must in Em. destruct (log.NewLeveled _ _) as [r [er|]]; cbn in Em; [done|by subst r]. }
  apply bind_inl in Hr as ([] & e2 & E2 & Hr). injection E2 as <-.
  apply bind_inl in Hr as ([] & e3 & E3 & Hr). apply bind_inl in Hr as ([] & e4 & E4 & Hr).
  assert (logger e' = lg /\ statsFunc e' = statsFunc e) as [-> ->]; [|by eauto].
  unfold when, modify, ret, throw in *. repeat (case_match; simplify_eq/=); done.
Qed.

Lemma restAPI_ok k e x e' : restAPI env k e = Some (inl x, e') ->
  same_rest e e' /\ statsFunc e' = statsFunc e || negb (str_eqb (RestAPI k) []) /\
  exists api, serveEvents k api /\ events e' = events e ++ api.
Proof.
  unfold restAPI, serveEvents, parseRestAPI, spells, withScheme. destruct (str_eqb (RestAPI k) []); cbn [negb].
  { intros [= <- <-]. split; [by split|]. split; [by rewrite orb_false_r|]. exists []. by rewrite app_nil_r. }
  destruct (url_Parse env _) as [u [er|]] eqn:Eu; [done|]. destruct u as [u|]; [|done]. cbn [mbind option_bind].
  destruct (ResolveTCPAddr env (proxy.Host u)) as [a [er|]] eqn:Ea; [done|]. destruct a as [[ip port]|]; [|done].
  cbn [mbind option_bind udpIP udpPort]. destruct (str_eqb (proxy.Scheme u) (str "http")) eqn:Es; [|done].
  intros [= <- <-]. split; [by split|]. split; [by rewrite orb_true_r|].
  eexists. split; [exists u, ip, port; split; [done|]; split; [by apply str_eqb_eq|]; split; [done|reflexivity]|].
  by destruct ip.
Qed.

Lemma whenLogged_ok cmd e x e' : when (negb (str_eqb cmd [])) (execLogged env cmd) e = Some (inl x, e') ->
  e' = fold_left (fun e ev => emit ev e) (commandEvents cmd) e.
Proof.
  unfold when, commandEvents, execLogged, execCommand. destruct (str_eqb cmd []); cbn [negb]; [by intros [= _ <-]|].
  destruct (shlex_Split env cmd) as [[|p parts] [er|]]; cbn; by intros [= _ <-].
Qed.

Lemma bufferSize_ok size f opts e o e' : bufferSize env size f opts e = Some (inl o, e') ->
  e' = e /\ exists new, sizeOption size f new /\ o = opts ++ new.
Proof.
  unfold bufferSize, sizeOption. destruct (str_eqb size []); cbn [negb].
  { intros [= <- <-]. split; [done|]. exists []. by rewrite app_nil_r. }
  destruct (RAMInBytes env size) as [n [er|]]; [done|]. intros [= <- <-]. split; [done|]. exists [f n]. by eauto.
Qed.
(** The device and the proxy, spelled out. *)
Lemma parseDevice_ok k d : parseDevice env (Device k) (MTU k mod 2 ^ 32) = Some (d, None) -> deviceOf k d.
Proof.
  unfold parseDevice, deviceOf, spells, withScheme. destruct (url_Parse env _) as [u [er|]] eqn:Eu; [done|].
  destruct u as [u|]; [|done]. cbn [mbind option_bind]. intros [= Hd]. exists u. split; [done|].
  destruct (str_eqb _ (str "fd")) eqn:E1; [apply str_eqb_eq in E1; by right|].
  destruct (str_eqb _ (str "tun")) eqn:E2; [apply str_eqb_eq in E2; by left|done].
Qed.

Lemma parseProxy_ok s p : parseProxy env s = Some (p, None) ->
  exists u, spells (str "socks5") s u /\ proxy.Parse (protocols env) u = Some (p, None).
Proof.
  unfold parseProxy, spells, withScheme. destruct (url_Parse env _) as [u [er|]]; [done|].
  destruct u as [u|]; [|done]. by exists u.
Qed.

Lemma groups_ok k groups : parseMulticastGroups (MulticastGroups k) = inl groups -> groups = groupsOf k.
Proof.
  intros Hg. pose proof (parseMulticastGroups_spec (MulticastGroups k)) as Hs. cbv zeta in Hs. rewrite Hg in Hs. apply Hs.
Qed.

Lemma netstackBody_ok k e x e' : netstackBody env k e = Some (inl x, e') ->
  same_rest e e' /\ statsFunc e' = statsFunc e /\ udpTimeout (tun e') = udpTimeout (tun e) /\
  (exists u, spells (str "socks5") (Proxy k) u /\
    proxy.Parse (protocols env) u = Some (proxy (tun e'), None) /\ defaultProxy e' = proxy (tun e')) /\
  deviceOf k (defaultDevice e') /\
  (exists snd rcv st, sizeOption (TCPSendBufferSize k) option.WithTCPSendBufferSize snd /\
    sizeOption (TCPReceiveBufferSize k) option.WithTCPReceiveBufferSize rcv /\
    Stack.core.CreateStack
      (Stack.core.mkConfig (icmpHandler e) (groupsOf k)
         ((if TCPModerateReceiveBuffer k then [option.WithTCPModerateReceiveBuffer true] else []) ++ snd ++ rcv))
      (newStack env (defaultDevice e')).1 (newStack env (defaultDevice e')).2 = (Some st, None) /\
    defaultStack e' = Some st) /\
  events e' = events e ++ match defaultDevice e' with Some d => [OpenDevice d] | None => [] end.
Proof.
  unfold netstackBody. destruct (parseMulticastGroups _) as [groups|er] eqn:Eg; [|done]. apply groups_ok in Eg as ->.
  intros Hr. apply bind_inl in Hr as ([] & e1 & E1 & Hr).
  destruct (parseProxy env (Proxy k)) as [[p [er|]]|] eqn:Ep; [done| |done]. injection E1 as <-.
  apply parseProxy_ok in Ep as (u & Eu & Ep).
  apply bind_inl in Hr as ([] & e2 & E2 & Hr). injection E2 as <-.
  apply bind_inl in Hr as ([] & e3 & E3 & Hr).
  destruct (parseDevice env (Device k) _) as [[d [er|]]|] eqn:Ed; [done| |done]. injection E3 as <-.
  apply parseDevice_ok in Ed. set (e3 := match d with Some d => _ | None => _ end) in Hr.
  assert (same_rest e e3 /\ statsFunc e3 = statsFunc e /\ udpTimeout (tun e3) = udpTimeout (tun e) /\
    proxy (tun e3) = p /\ defaultProxy e3 = p /\ defaultDevice e3 = d /\
    events e3 = events e ++ match d with Some d => [OpenDevice d] | None => [] end) as (F1 & F2 & F3 & F4 & F5 & F6 & F7)
    by (destruct d; cbn; rewrite ?app_nil_r; split_and!; done).
  clearbody e3. apply bind_inl in Hr as (o1 & e4 & E4 & Hr). apply bufferSize_ok in E4 as [-> (snd & Hsnd & ->)].
  apply bind_inl in Hr as (o2 & e4 & E4 & Hr). apply bufferSize_ok in E4 as [-> (rcv & Hrcv & ->)].
  rewrite F6, (sr_icmp _ _ F1) in Hr. destruct (newStack env d) as [nicID s] eqn:En.
  destruct (Stack.core.CreateStack _ nicID s) as [st [er|]] eqn:Ec; [done|]. injection Hr as _ <-.
  assert (exists s', st = Some s') as [s' ->].
  { unfold Stack.core.CreateStack in Ec. destruct (option.applyAll _ s) as [[er|] s'] eqn:Ea; [done|].
    injection Ec as <-. by exists s'. }
  rewrite <- app_assoc in Ec. split_and!; cbn [setStack tun statsFunc defaultProxy defaultDevice defaultStack events]; try done.
  - by destruct F1; split.
  - exists u. by rewrite F4, F5.
  - by rewrite F6.
  - exists snd, rcv, s'. split_and!; [done..| |done]. by rewrite F6, En.
  - by rewrite F7, F6.
Qed.

Lemma emits_same (evs : list (event D S)) : forall e, let e' := fold_left (fun e ev => emit ev e) evs e in
  events e' = events e ++ evs /\ same_rest e e' /\ statsFunc e' = statsFunc e /\ tun e' = tun e /\
  defaultProxy e' = defaultProxy e /\ defaultDevice e' = defaultDevice e /\ defaultStack e' = defaultStack e.
Proof.
  induction evs as [|ev evs IH]; intros e; cbn [fold_left]; [rewrite app_nil_r; by split_and!|].
  destruct (IH (emit ev e)) as (E & [R1 R2 R3] & ? & ? & ? & ? & ?). cbn zeta. rewrite E. cbn in *. by rewrite <- app_assoc.
Qed.

(** A start that succeeds has done all its key says. *)
Lemma start_asKey e e' : start env e = Some (inl tt, e') -> exists k, defaultKey e = Some k /\ asKey k e e'.
Proof.
  unfold start. destruct (defaultKey e) as [k|]; [|done]. intros Hr. exists k. split; [done|].
  apply bind_inl in Hr as ([] & e1 & E1 & Hr). pose proof (general_ok k e _ _ E1) as [Hlog Hst].
  apply general_run in E1 as ([K1 K2 K3 K4 K5] & V1 & P1 & _ & _ & D1). destruct (D1 eq_refl) as [D2 D3].
  apply bind_inl in Hr as ([] & e2 & E2 & Hr). pose proof (restAPI_ok k e1 _ _ E2) as ([A1 A2 A3] & A4 & api & A5 & A6).
  apply restAPI_run in E2 as (_ & T2 & _ & _). unfold netstack in Hr.
  destruct (str_eqb (Proxy k) []); [done|]. destruct (str_eqb (Device k) []); [done|].
  apply bind_inl in Hr as ([] & e3 & E3 & Hr). apply whenLogged_ok in E3.
  destruct (emits_same (commandEvents (TUNPreUp k)) e2) as (B1 & [B2 B3 B4] & B5 & B6 & _). rewrite <- E3 in *.
  apply bind_inl in Hr as ([] & e4 & E4 & Hr). apply netstackBody_ok in E4 as ([C1 C2 C3] & C4 & C5 & C6 & C7 & C8 & C9).
  apply whenLogged_ok in Hr.
  destruct (emits_same (commandEvents (TUNPostUp k)) e4) as (F1 & [F2 F3 F4] & F5 & F6 & F7 & F8 & F9). rewrite <- Hr in *.
  clear E3 Hr. rewrite B2, A1, K2 in C8.
  split; rewrite ?F6, ?F7, ?F8, ?F9; try done.
  - destruct Hlog as (l & ? & Hl). exists l. split; [done|]. by rewrite F4, C3, B4, A3.
  - by rewrite F3, C2, B3, A2.
  - by rewrite C5, B6, T2.
  - by rewrite F5, C4, B5, A4, Hst.
  - exists api. split; [done|]. by rewrite F1, C9, B1, A6, V1, <- !app_assoc.
Qed.
End success.

(** C16: a start that succeeds has left the engine as its key says, exactly:
    the logger of its level; the dialer's options those of the key, whatever a
    previous start had registered; the UDP timeout the key's if it has one; the
    tunnel's proxy the one its URL makes; the device the one its URL opens, with
    its MTU; the stack the one created over that device for the engine's ICMP
    handler, the key's multicast groups and its options of the buffers; and the
    host has been asked, in this order and for nothing else: to serve the API at
    its address with its token, if the key has one; to run the command before;
    to open the device; and to run the command after. *)
Theorem start_success {P D S C U} `{GVisor S} (env : Env P D S) (e e' : Engine P D S C U) :
  start env e = Some (inl tt, e') -> exists k, defaultKey e = Some k /\ asKey env k e e'.
Proof. apply start_asKey. Qed.

(** C18: a start that fails never runs the command after and closes nothing;
    with no key it does nothing at all; otherwise it leaves the stack of an
    earlier start or none, and the commands it has run are the one before. *)
Theorem start_failure {P D S C U} `{GVisor S} (env : Env P D S) (e e' : Engine P D S C U) er :
  start env e = Some (inr er, e') ->
  match defaultKey e with
  | None => e' = e /\ er = errorsNew "empty key"
  | Some k =>
      defaultKey e' = Some k /\
      (defaultStack e' = defaultStack e \/ defaultStack e' = None) /\
      exists evs, events e' = events e ++ evs /\ Forall (fun ev => is_close ev = false) evs /\
        forall parts, Exec parts ∈ evs -> shlex_Split env (TUNPreUp k) = (parts, None) /\ TUNPreUp k <> []
  end.
Proof.
  intros Hs. apply start_run in Hs. destruct (defaultKey e) as [k|] eqn:Ek; [|by destruct Hs as [[= ->] ->]].
  destruct Hs as [Hk _ _ _ _ Hst (api & pre & ov & post & V & Ha & Hp & Hov & Hpost & _) _].
  split; [congruence|]. split; [destruct Hst as [?|[?|?]]; auto; done|].
  destruct Hpost as [->|[? _]]; [|done]. rewrite app_nil_r in V. exists (api ++ pre ++ ov). split; [done|].
  unfold ran in Hp. split.
  - rewrite !Forall_app. destruct Ha as [->|(h & t & ->)], Hov as [->|[d ->]],
      Hp as [->|(_ & [->|(parts & _ & _ & ->)])]; split_and!; by repeat constructor.
  - intros parts Hin. rewrite !elem_of_app in Hin.
    assert (Exec parts ∈ pre) as Hpre.
    { destruct Ha as [->|(h & t & ->)], Hov as [->|[d ->]]; set_solver. }
    destruct Hp as [->|(E & [->|(ps & Es & _ & ->)])]; [by apply not_elem_of_nil in Hpre..|].
    apply list_elem_of_singleton in Hpre as [= ->]. split; [done|]. by apply str_eqb_neq.
Qed.

(** ** The engine over its life *)

Inductive eop := OInsert (k : option Key) | OSetICMPHandler (h : bool) | OStart | OStop.

Section life.
Context {P D S C U : Type} `{GVisor S} (env : Env P D S).

Definition estep (o : eop) (e : Engine P D S C U) : option (Engine P D S C U) :=
  match o with
  | OInsert k => Some (Insert k e)
  | OSetICMPHandler h => Some (SetICMPHandler h e)
  | OStart => '(_, e) ← start env e; Some e
  | OStop => Some (stop e)
  end.

Fixpoint erun (os : list eop) (e : Engine P D S C U) : option (Engine P D S C U) :=
  match os with
  | [] => Some e
  | o :: os => e ← estep o e; erun os e
  end.

(** The engine of a program that has started nothing; [p] is the proxy the
    tunnel is made with. *)
Definition initial (p : option P) : Engine P D S C U :=
  mkEngine None None None None false (tunnel.New p) [] (log.Production log.InfoLevel) false [].

(** What every start and stop preserves. *)
Record Sane (e : Engine P D S C U) : Prop := {
  sane_opts : opts_ok (dialOpts e);
  sane_timeout : Second <= udpTimeout (tun e);
  sane_device : forall d, defaultDevice e = Some d -> OpenDevice d ∈ events e;
  sane_close : forall i d, events e !! i = Some (CloseDevice d) -> OpenDevice d ∈ take i (events e) }.

(** Events that close nothing may follow. *)
Lemma closes_app (l k : list (event D S)) :
  (forall i d, l !! i = Some (CloseDevice d) -> OpenDevice d ∈ take i l) ->
  Forall (fun ev => is_close ev = false) k ->
  forall i d, (l ++ k) !! i = Some (CloseDevice d) -> OpenDevice d ∈ take i (l ++ k).
Proof.
  intros Hl Hk i d Hi. destruct (decide (i < length l)%nat) as [Hlt|Hge].
  - rewrite lookup_app_l in Hi by done. rewrite take_app_le by lia. by apply Hl.
  - rewrite lookup_app_r in Hi by lia. rewrite Forall_lookup in Hk. by apply Hk in Hi.
Qed.

Lemma start_sane e r e' : start env e = Some (r, e') -> Sane e -> Sane e'.
Proof.
  intros Hs [So St Sd Sc]. apply start_run in Hs. destruct (defaultKey e) as [k|]; [|by destruct Hs as [_ ->]].
  destruct Hs as [_ _ Ho Ht Hd _ (api & pre & ov & post & V & Ha & Hp & Hov & Hpost & _) _].
  unfold ran in *.
  assert (Forall (fun ev => is_close ev = false) (api ++ pre ++ ov ++ post)) as Hclose.
  { rewrite !Forall_app. destruct Ha as [->|(h & t & ->)], Hov as [->|[d ->]],
      Hp as [->|(_ & [->|(? & _ & _ & ->)])], Hpost as [->|(_ & _ & [->|(? & _ & _ & ->)])];
      split_and!; by repeat constructor. }
  split.
  - destruct Ho as [?| ->]; auto.
  - destruct Ht as [->|?]; auto.
  - intros d Hdev. destruct Hd as [Hd|Hd].
    + rewrite Hd in Hdev. rewrite V. apply elem_of_app. left. by apply Sd.
    + by rewrite Hdev in Hd.
  - rewrite V. by apply closes_app.
Qed.

Lemma stop_sane e : Sane e -> Sane (stop e).
Proof.
  intros [So St Sd Sc].
  assert (forall ev, is_close ev = false \/ (exists d, ev = CloseDevice d /\ defaultDevice e = Some d) ->
    Sane (emit ev e)) as Hemit.
  { intros ev Hev. split; cbn; auto.
    - intros d Hd. apply elem_of_app. left. by apply Sd.
    - intros i d Hi. destruct (decide (i < length (events e))%nat) as [Hlt|Hge].
      + rewrite lookup_app_l in Hi by done. rewrite take_app_le by lia. by apply Sc.
      + rewrite lookup_app_r in Hi by lia. apply list_lookup_singleton_Some in Hi as [E ->].
        destruct Hev as [Hev|(d' & [= <-] & Hd)]; [done|]. rewrite take_app_ge by lia.
        apply elem_of_app. left. by apply Sd. }
  assert (forall (e : Engine P D S C U) s, Sane e -> Sane (emit (WaitStack s) (emit (CloseStack s) e))) as Hstack.
  { intros e1 s [S1 S2 S3 S4]. split; cbn; auto.
    - intros d Hd. rewrite <- app_assoc. apply elem_of_app. left. by apply S3.
    - rewrite <- app_assoc. intros i d Hi. destruct (decide (i < length (events e1))%nat) as [Hlt|Hge].
      + rewrite lookup_app_l in Hi by done. rewrite take_app_le by lia. by apply S4.
      + rewrite lookup_app_r in Hi by lia. apply list_elem_of_lookup_2 in Hi. set_solver. }
  assert (Sane e) as Hself by by split.
  unfold stop. destruct (defaultDevice e) as [d|] eqn:Ed; cbn.
  - assert (Sane (emit (CloseDevice d) e)) as Hc by (apply Hemit; right; eauto).
    destruct (defaultStack e); [|done]. by apply (Hstack (emit (CloseDevice d) e)).
  - destruct (defaultStack e); [|done]. by apply Hstack.
Qed.

Lemma erun_sane os : forall e e', erun os e = Some e' -> Sane e -> Sane e'.
Proof.
  induction os as [|o os IH]; intros e e' Hr Hs; cbn [erun] in Hr; [by injection Hr as <-|].
  destruct (estep o e) as [e1|] eqn:E; [|done]. cbn [mbind option_bind] in Hr. apply (IH _ _ Hr).
  destruct o as [k|h| |]; cbn [estep] in E.
  - injection E as <-. by destruct Hs.
  - injection E as <-. by destruct Hs.
  - destruct (start env e) as [[r e2]|] eqn:Es; [|done]. injection E as <-. by eapply start_sane.
  - injection E as <-. by apply stop_sane.
Qed.

Lemma initial_sane p : Sane (initial p).
Proof. split; cbn; [apply opts_ok_nil|by vm_compute|done|done]. Qed.

(** C27: whatever keys are inserted and however often the engine is started and
    stopped, successfully or not: the default dialer never has more than one
    interface and one mark, so that restarts do not pile options up; the
    tunnel's UDP timeout is never below a second; and a device is closed only
    after it has been opened. *)
Theorem engine_invariant p os e :
  erun os (initial p) = Some e ->
  opts_ok (dialOpts e) /\ Second <= udpTimeout (tun e) /\
  forall i d, events e !! i = Some (CloseDevice d) -> OpenDevice d ∈ take i (events e).
Proof. intros Hr. pose proof (erun_sane os _ _ Hr (initial_sane p)) as []. by split_and!. Qed.

(** ** Every start returns *)

Section total.
Hypothesis level_ok : forall s l, zap_ParseLevel env s = (l, None) -> l <> log.InvalidLevel.
Hypothesis build_ok : forall l, zap_Build env l = None.
Hypothesis url_ok : forall s, (url_Parse env s).2 = None -> is_Some (url_Parse env s).1.
Hypothesis addr_ok : forall s, (ResolveTCPAddr env s).2 = None -> is_Some (ResolveTCPAddr env s).1.

(** A URL parsed without an error is one. *)
Lemma url_cases s : (exists u er, url_Parse env s = (u, Some er)) \/ (exists u, url_Parse env s = (Some u, None)).
Proof.
  pose proof (url_ok s) as Hu. destruct (url_Parse env s) as [u [er|]]; [by eauto|right].
  destruct (Hu eq_refl) as [u' Hu']. cbn in Hu'. subst u. by exists u'.
Qed.

Lemma execLogged_total cmd (e : Engine P D S C U) : is_Some (when (negb (str_eqb cmd [])) (execLogged env cmd) e).
Proof.
  unfold when, execLogged, execCommand. destruct (str_eqb cmd []); [eexists; reflexivity|]. cbn [negb].
  destruct (shlex_Split env cmd) as [[|x parts] [er|]]; eexists; reflexivity.
Qed.

Lemma logger_total s l :
  log.ParseLevel (zap_ParseLevel env) s = (l, None) -> is_Some (log.Must (log.NewLeveled (zap_Build env) l)).
Proof.
  unfold log.ParseLevel. destruct (_ || _); [intros [= <-]; eexists; reflexivity|].
  intros Hl. apply level_ok in Hl. unfold log.NewLeveled, log.Must. rewrite !build_ok.
  destruct l; first [done|eexists; reflexivity].
Qed.

Lemma general_total k (e : Engine P D S C U) : is_Some (general env k e).
Proof.
  unfold general. destruct (log.ParseLevel (zap_ParseLevel env) (LogLevel k)) as [l [er|]] eqn:El; [eexists; reflexivity|].
  destruct (logger_total _ _ El) as [lg Hlg]. unfold bind. rewrite Hlg. cbn.
  destruct (str_eqb (Interface k) []); [|destruct (InterfaceByName env (Interface k)) as [i [er|]]]; cbn;
    try (eexists; reflexivity); destruct (Mark k =? 0); cbn; destruct (0 <? UDPTimeout k);
    try destruct (UDPTimeout k <? Second); eexists; reflexivity.
Qed.

Lemma restAPI_total k (e : Engine P D S C U) : is_Some (restAPI env k e).
Proof.
  unfold restAPI, parseRestAPI. destruct (str_eqb (RestAPI k) []); [eexists; reflexivity|]. cbn [negb].
  destruct (url_cases (withScheme (str "http") (RestAPI k))) as [(u & er & ->)|(u & ->)]; [eexists; reflexivity|].
  cbn [mbind option_bind].
  pose proof (addr_ok (proxy.Host u)) as Ha. destruct (ResolveTCPAddr env (proxy.Host u)) as [a [er|]]; [eexists; reflexivity|].
  destruct (Ha eq_refl) as [a' Ha']. cbn in Ha'. subst a. cbn [mbind option_bind].
  destruct (str_eqb (proxy.Scheme u) (str "http")); eexists; reflexivity.
Qed.

Lemma parseDevice_total s mtu : is_Some (parseDevice env s mtu).
Proof.
  unfold parseDevice. destruct (url_cases (withScheme (str "tun") s)) as [(u & er & ->)|(u & ->)]; eexists; reflexivity.
Qed.

Lemma bufferSize_total sz f opts (e : Engine P D S C U) : exists r, bufferSize env sz f opts e = Some (r, e).
Proof.
  unfold bufferSize. destruct (str_eqb sz []); [eexists; reflexivity|]. cbn [negb].
  destruct (RAMInBytes env sz) as [n [er|]]; eexists; reflexivity.
Qed.

Lemma netstackBody_total k (e : Engine P D S C U) :
  is_Some (parseProxy env (Proxy k)) -> is_Some (netstackBody env k e).
Proof.
  intros [[q er] Hq]. unfold netstackBody. destruct (parseMulticastGroups _) as [groups|]; [|eexists; reflexivity].
  unfold bind at 1. rewrite Hq. cbn [mbind option_bind]. destruct er; [eexists; reflexivity|].
  unfold bind at 1, modify at 1. cbn [mbind option_bind].
  destruct (parseDevice_total (Device k) (MTU k mod 2 ^ 32)) as [[d er] Hd].
  unfold bind at 1. rewrite Hd. cbn [mbind option_bind]. destruct er; [eexists; reflexivity|].
  do 2 (unfold bind at 1;
    match goal with |- context [bufferSize env ?sz ?f ?o ?x] => destruct (bufferSize_total sz f o x) as [[?|er] ->] end;
    cbn [mbind option_bind]; [|eexists; reflexivity]).
  destruct (newStack env _) as [nicID s]. destruct (Stack.core.CreateStack _ nicID s). eexists; reflexivity.
Qed.

Lemma netstack_total k (e : Engine P D S C U) : is_Some (parseProxy env (Proxy k)) -> is_Some (netstack env k e).
Proof.
  intros Hp. unfold netstack. destruct (str_eqb (Proxy k) []); [eexists; reflexivity|]. destruct (str_eqb (Device k) []); [eexists; reflexivity|].
  unfold bind at 1. destruct (execLogged_total (TUNPreUp k) e) as [[[[]|er] e1] ->]; cbn [mbind option_bind]; [|eexists; reflexivity].
  unfold bind at 1. destruct (netstackBody_total k e1 Hp) as [[[[]|er] e2] ->]; cbn [mbind option_bind]; [|eexists; reflexivity].
  apply execLogged_total.
Qed.

(** A start panics only in the constructor of the proxy that its key names. *)
Lemma start_returns (e : Engine P D S C U) :
  is_Some (start env e) \/
  exists k u, defaultKey e = Some k /\ spells env (str "socks5") (Proxy k) u /\ proxy.Parse (protocols env) u = None.
Proof.
  unfold start. destruct (defaultKey e) as [k|]; [|left; eexists; reflexivity].
  assert (is_Some (parseProxy env (Proxy k)) \/ exists u, spells env (str "socks5") (Proxy k) u /\
    proxy.Parse (protocols env) u = None) as [Hp|(u & Hu & Hn)]; [|left|right; by exists k, u].
  { unfold parseProxy, spells, withScheme. destruct (url_cases (if Contains (Proxy k) (str "://") then Proxy k else str "socks5" ++ str "://" ++ Proxy k))
      as [(u & er & ->)|(u & ->)]; [left; eexists; reflexivity|]. cbn [mbind option_bind].
    destruct (proxy.Parse (protocols env) u) eqn:E; [left; by eexists|right; by exists u]. }
  unfold bind at 1. destruct (general_total k e) as [[[[]|er] e1] ->]; cbn [mbind option_bind]; [|eexists; reflexivity].
  unfold bind at 1. destruct (restAPI_total k e1) as [[[[]|er] e2] ->]; cbn [mbind option_bind]; [|eexists; reflexivity].
  by apply netstack_total.
Qed.
End total.
End life.

(** ** Witnesses *)

(** A host on which everything succeeds, and a URL parser that cuts a scheme
    and a host. *)
Definition toyEnv : Env unit gostring unit := {|
  zap_ParseLevel := fun _ => (log.InfoLevel, None);
  zap_Build := fun _ => None;
  InterfaceByName := fun i => (i, None);
  url_Parse := fun s =>
    let i := default 0%nat (IndexByte s colon) in
    (Some (proxy.mkURL (take i s) (drop (i + 3) s) [] [] [] false []), None);
  UserString := fun _ => [];
  ResolveTCPAddr := fun _ => (Some (mkUDPAddr [] 80), None);
  isIOS := false;
  openFD := fun _ _ _ => (Some (str "fd"), None);
  openTUN := fun n _ => (Some n, None);
  shlex_Split := fun s => ([s], None);
  execOutput := fun _ => None;
  RAMInBytes := fun _ => (4096, None);
  newStack := fun _ => (1, tt);
  protocols := [proxy.mkProtocol (str "socks5") (Some (fun _ => Some (Some tt, None)))] |}.

Definition toyKey (proxy : gostring) : Key :=
  mkKey 1500 7 proxy (str "127.0.0.1:80") (str "tun0") (str "info") (str "eth0") true (str "4k") [] [str " "]
    (str "pre") (str "post") (2 * Second).

Definition toyEngine (proxy : gostring) : Engine unit gostring unit nat nat := Insert (Some (toyKey proxy)) (initial None).

(** The engine after its start. *)
Definition toyStarted (proxy : gostring) : Engine unit gostring unit nat nat :=
  default (toyEngine proxy) (snd <$> start toyEnv (toyEngine proxy)).

Lemma start_success_witness :
  let e := toyEngine (str "host:1080") in let e' := toyStarted (str "host:1080") in
  start toyEnv e = Some (inl tt, e') /\ (exists k, defaultKey e = Some k /\ asKey toyEnv k e e') /\
  events e' = [Serve (str "0.0.0.0:80") []; Exec [str "pre"]; OpenDevice (str "tun0"); Exec [str "post"]].
Proof.
  intros e e'. assert (start toyEnv e = Some (inl tt, e')) as Hs by (vm_compute; reflexivity).
  split; [exact Hs|]. split; [exact (start_success toyEnv e e' Hs)|]. vm_compute. reflexivity.
Defined.

(** A proxy of an unknown protocol. *)
Lemma start_failure_witness :
  let e := toyEngine (str "ftp://host") in let e' := toyStarted (str "ftp://host") in
  match defaultKey e with
  | None => e' = e /\ proxy.ErrProtocol = errorsNew "empty key"
  | Some k =>
      defaultKey e' = Some k /\
      (defaultStack e' = defaultStack e \/ defaultStack e' = None) /\
      exists evs, events e' = events e ++ evs /\ Forall (fun ev => is_close ev = false) evs /\
        forall parts, Exec parts ∈ evs -> shlex_Split toyEnv (TUNPreUp k) = (parts, None) /\ TUNPreUp k <> []
  end.
Proof. intros e e'. apply (start_failure toyEnv e e' proxy.ErrProtocol). vm_compute. reflexivity. Defined.

Definition toyLife : list eop :=
  [OStop; OInsert (Some (toyKey (str "host:1080"))); OStart; OStart; OSetICMPHandler true; OStop].

Lemma engine_invariant_witness :
  let e : Engine unit gostring unit nat nat := default (initial None) (erun toyEnv toyLife (initial None)) in
  opts_ok (dialOpts e) /\ Second <= udpTimeout (tun e) /\
  forall i d, events e !! i = Some (CloseDevice d) -> OpenDevice d ∈ take i (events e).
Proof. apply (engine_invariant (C := nat) (U := nat) toyEnv None toyLife). vm_compute. reflexivity. Defined.

(** Starting twice opens a second device; only that one is closed by the stop. *)
Example restart_leaks_device :
  match erun toyEnv [OInsert (Some (toyKey (str "host:1080"))); OStart; OStart; OStop]
          (initial None : Engine unit gostring unit nat nat) with
  | Some e =>
      length (List.filter (fun ev => match ev with OpenDevice _ => true | _ => false end) (events e)) = 2%nat /\
      length (List.filter (fun ev => match ev with CloseDevice _ => true | _ => false end) (events e)) = 1%nat
  | None => False
  end.
Proof. by vm_compute. Qed.

(** The log levels above "warn" make gVisor's level wrap around to the most
    verbose one; zap's [Level()] of the silent logger is the invalid one. *)
Example error_level_wraps :
  log.setLogger (log.value log.WarnLevel) = 0 /\ log.setLogger (log.value log.ErrorLevel) = 2 ^ 32 - 1 /\
  log.setLogger (log.value log.InvalidLevel) = 2 ^ 32 - 5.
Proof. by vm_compute. Qed.
End engine.
