(* ===== verification/System.v ===== *)
(** * System: the components together

    The forwarders of the stack hand connections to the tunnel the engine has
    configured, the loop of the tunnel starts a session for each, and the
    sessions, TCP and UDP, run next to each other: every goroutine of every
    session takes its steps one at a time, between those of the callers, of
    the loop and of the engine.  The functional models of a session,
    [handleTCPConn] and [handleUDPConn], are the specification of each. *)

From S2P Require Import Prelude Net Conn Allocator Metadata Statistic Tunnel Stack Proxy Engine.
Import metadata statistic tunnel engine.

Open Scope Z_scope.

Module system.

(** ** Machines

    [walk] lets the two goroutines of a machine take turns.  A machine that
    runs inside another one is [wrap]ped until it is [fin]ished. *)

Fixpoint walk {X} (f : bool -> X -> option X) (sched : list bool) (x : X) : option X :=
  match sched with
  | [] => Some x
  | w :: sched => x ← f w x; walk f sched x
  end.

Lemma walk_app {X} (f : bool -> X -> option X) s1 s2 x : walk f (s1 ++ s2) x = x ← walk f s1 x; walk f s2 x.
Proof.
  revert x. induction s1 as [|w s1 IH]; intros x; [done|]. cbn [walk app].
  destruct (f w x); [apply IH|done].
Qed.

Lemma walk_snoc {X} (f : bool -> X -> option X) s w x x1 x2 :
  walk f s x = Some x1 -> f w x1 = Some x2 -> walk f (s ++ [w]) x = Some x2.
Proof. intros E1 E2. rewrite walk_app, E1. cbn. by rewrite E2. Qed.

Section machine.
Context {X Y : Type} (inner : bool -> X -> option X) (fin : X -> bool).
Context (fin_stays : forall w x, fin x = true -> inner w x = Some x).

Lemma walk_stays sched x : fin x = true -> walk inner sched x = Some x.
Proof. intros Hf. induction sched as [|w sched IH]; [done|]. cbn. by rewrite fin_stays. Qed.

(** More turns change nothing once it has finished. *)
Lemma walk_more sched more x x' :
  walk inner sched x = Some x' -> fin x' = true -> walk inner (sched ++ more) x = Some x'.
Proof. intros Hw Hf. rewrite walk_app, Hw. by apply walk_stays. Qed.

Context (outer : bool -> Y -> option Y) (wrap close : X -> Y).
Context (outer_wrap : forall w x,
  outer w (wrap x) = if fin x then Some (close x) else x ← inner w x; Some (wrap x)).
Context (outer_close : forall w x, outer w (close x) = Some (close x)).

Lemma walk_close sched x x' :
  walk inner sched x = Some x' -> fin x' = true -> walk outer (sched ++ [true]) (wrap x) = Some (close x').
Proof.
  revert x. induction sched as [|w sched IH]; intros x Hw Hf; cbn [walk app].
  - injection Hw as <-. rewrite outer_wrap, Hf. done.
  - rewrite outer_wrap. destruct (fin x) eqn:Ef.
    + rewrite (walk_stays (w :: sched) x Ef) in Hw. injection Hw as <-. cbn [mbind option_bind].
      clear IH. induction sched as [|w' sched IH]; cbn [walk app]; rewrite outer_close; [done|exact IH].
    + cbn [walk] in Hw. destruct (inner w x) as [x1|]; [|done]. by apply IH.
Qed.
End machine.

Lemma psteps_walk {A B} `{Reader A, Writer A, HalfClose A, Deadline A}
    `{Reader B, Writer B, HalfClose B, Deadline B} s (p : Pipe A B) : psteps s p = walk pstep s p.
Proof. revert p. induction s as [|w s IH]; intros p; [done|]. cbn. by destruct (pstep w p); cbn. Qed.

Lemma ppsteps_walk {A B} `{PacketConn A (option NetAddr), PacketConn B (option NetAddr), Deadline A, Deadline B}
    to d s (p : PacketPipe A B) : ppsteps to d s p = walk (ppstep to d) s p.
Proof. revert p. induction s as [|w s IH]; intros p; [done|]. cbn. by destruct (ppstep to d w p); cbn. Qed.

Definition finished_pipe {A B} (p : Pipe A B) : bool :=
  match up p, down p with GDone, GDone => true | _, _ => false end.

Definition finished_packets {A B} (p : PacketPipe A B) : bool :=
  match pup p, pdown p with CDone _, CDone _ => true | _, _ => false end.

Lemma finished_pstep {A B} `{Reader A, Writer A, HalfClose A, Deadline A}
    `{Reader B, Writer B, HalfClose B, Deadline B} who (p : Pipe A B) :
  finished_pipe p = true -> pstep who p = Some p.
Proof.
  destruct p as [g1 g2 o r]. unfold finished_pipe. cbn [up down].
  destruct g1; try done. destruct g2; try done. by destruct who.
Qed.

Lemma finished_ppstep {A B} `{PacketConn A (option NetAddr), PacketConn B (option NetAddr), Deadline A, Deadline B}
    to d who (p : PacketPipe A B) : finished_packets p = true -> ppstep to d who p = Some p.
Proof.
  destruct p as [g1 g2 o r]. unfold finished_packets. cbn [pup pdown].
  destruct g1; try done. destruct g2; try done. by destruct who.
Qed.

(** The relays as walks to their end. *)
Lemma pipe_walk {A B} `{Reader A, Writer A, HalfClose A, Deadline A}
    `{Reader B, Writer B, HalfClose B, Deadline B} sched (o : A) (r : B) :
  pipe sched o r = p ← walk pstep sched (mkPipe GRead GRead o r);
    if finished_pipe p then Some (origin p, remote p) else None.
Proof.
  unfold pipe. rewrite psteps_walk. destruct (walk _ _ _) as [p|]; [|done]. cbn [mbind option_bind].
  unfold finished_pipe. by destruct (up p), (down p).
Qed.

Lemma pipePacket_walk {A B} `{PacketConn A (option NetAddr), PacketConn B (option NetAddr), Deadline A, Deadline B}
    to d sched b1 b2 (o : A) (r : B) :
  pipePacket to d sched b1 b2 o r = p ← walk (ppstep to d) sched (mkPP (CStart b1) (CStart b2) o r);
    if finished_packets p then Some (porigin p, premote p) else None.
Proof.
  unfold pipePacket. rewrite ppsteps_walk. destruct (walk _ _ _) as [p|]; [|done]. cbn [mbind option_bind].
  unfold finished_packets. by destruct (pup p), (pdown p).
Qed.

(** ** The system *)

(** What the sessions use: what start asks of the host, a proxy's dials, the
    identifiers and the buffers that are drawn, and what the endpoint of a
    request answers. *)
Record Host (P D S R RU : Type) := mkHost {
  env : Env P D S;
  dial : P -> TCPDialer R; udial : P -> UDPDialer RU;
  uuid : nat -> gostring; uuuid : nat -> gostring;
  pooled : nat -> bool -> list byte;
  sockopt : Stack.core.sockCall -> err; sndbuf : option Z; rcvbuf : option Z }.
Arguments mkHost {P D S R RU}. Arguments env {P D S R RU}. Arguments dial {P D S R RU}.
Arguments udial {P D S R RU}. Arguments uuid {P D S R RU}. Arguments uuuid {P D S R RU}.
Arguments pooled {P D S R RU}. Arguments sockopt {P D S R RU}. Arguments sndbuf {P D S R RU}.
Arguments rcvbuf {P D S R RU}.

Section system.
Context {P D S O R OU RU : Type} {fuel : nat} `{GVisor S}.
Context `{Reader O, Writer O, HalfClose O, Deadline O, Closer O}.
Context `{Reader R, Writer R, HalfClose R, Deadline R, Closer R, LocalAddr R}.
Context `{PacketConn OU (option NetAddr), Deadline OU, Closer OU}.
Context `{PacketConn RU (option NetAddr), Deadline RU, Closer RU, LocalAddr RU}.
Context (h : Host P D S R RU).

(** A connection of the stack: its identifier, and its stream or socket. *)
Definition conn : Type := TransportEndpointID * O.
Definition uconn : Type := TransportEndpointID * OU.

(** Where a TCP session is: before its dial, in the relay, or returned, with
    the closed connections. *)
Inductive session :=
| SDial (id : TransportEndpointID) (o : O)
| SPipe (p : Pipe O (Tracker R))
| SClosed (o : O) (t : option (Tracker R)).

(** A UDP session loads its timeout after the dial; [fuel] bounds the
    datagrams one read of its filter drops. *)
Inductive usession :=
| UDial (id : TransportEndpointID) (u : OU)
| UDialled (id : TransportEndpointID) (u : OU) (pc : RU)
| UPipe (to : NetAddr) (timeout : Z) (p : PacketPipe OU (symmetricNATPacketConn fuel (Tracker RU)))
| UClosed (u : OU) (t : option (Tracker RU)).

(** The engine holds the tunnel of the process; the sessions are in the order
    they were started. *)
Record System := mkSystem {
  eng : Engine P D S conn uconn; sessions : list session; usessions : list usession }.

Inductive label :=
| LRequest (create : err) (id : TransportEndpointID) (o : O)
| LPacket (create : err) (id : TransportEndpointID) (u : OU)
| LEngine (op : eop)
| LLoop (r : ready)
| LSession (i : nat) (who : bool)
| LUDPSession (i : nat) (who : bool).

Definition onTun (f : Tunnel (option P) conn uconn -> Tunnel (option P) conn uconn) (s : System) : System :=
  mkSystem (setTun (f (tun (eng s))) (eng s)) (sessions s) (usessions s).

(** The callbacks of the two forwarders, their effects on the tunnel. *)
Definition request (create : err) (id : TransportEndpointID) (o : O) : System -> System :=
  onTun (fun t => fold_left (fun t ef =>
    match ef with Stack.core.CallHandleTCP id => HandleTCP (id, o) t | _ => t end)
    (Stack.core.forwardTCP (sockopt h) (sndbuf h) (rcvbuf h) create id) t).

Definition packetRequest (create : err) (id : TransportEndpointID) (u : OU) : System -> System :=
  onTun (fun t => fold_left (fun t ef =>
    match ef with Stack.core.CallHandleUDP id => HandleUDP (id, u) t | _ => t end)
    (Stack.core.forwardUDP create id).1 t).

(** The loop takes the connection that waits first, and starts its session. *)
Definition loop (r : ready) (s : System) : System :=
  match process r (tun (eng s)) with
  | None => s
  | Some t =>
      mkSystem (setTun t (eng s))
        (sessions s ++ match r, tcpQueue (tun (eng s)) with RecvTCP, (id, o) :: _ => [SDial id o] | _, _ => [] end)
        (usessions s ++ match r, udpQueue (tun (eng s)) with RecvUDP, (id, u) :: _ => [UDial id u] | _, _ => [] end)
  end.

(** The relay of session [i] when its proxy answered the dial with [r]. *)
Definition startPipe (i : nat) (id : TransportEndpointID) (o : O) (r : R) : Pipe O (Tracker R) :=
  let m := setMid (parseNetAddr (localAddr r)) (idMetadata TCP id) in
  mkPipe GRead GRead o (NewTCPTracker r m (uuid h i)).

Definition startPackets (i : nat) (id : TransportEndpointID) (u : OU) (pc : RU)
  : NetAddr * PacketPipe OU (symmetricNATPacketConn fuel (Tracker RU)) :=
  let m := setMid (parseNetAddr (localAddr pc)) (idMetadata UDP id) in
  (match toUDPAddr m with Some a => AUDP a | None => AMeta m end,
   mkPP (CStart (pooled h i true)) (CStart (pooled h i false)) u
     (newSymmetricNATPacketConn (NewUDPTracker pc m (uuuid h i)) m)).

(** One step of session [i]: the dial through the proxy that the tunnel has
    now, a step of one of the two goroutines, or the deferred closes.  [None]
    is a panic, that of a nil proxy included. *)
Definition sessionStep (i : nat) (proxy : option P) (who : bool) (st : session) : option session :=
  match st with
  | SDial id o =>
      q ← proxy;
      '(r, e) ← DialContext (dial h q) tcpConnectTimeout (idMetadata TCP id);
      check e else Some (SClosed (Close o).2 None) ;;
      r ← r; Some (SPipe (startPipe i id o r))
  | SPipe p =>
      if finished_pipe p then Some (SClosed (Close (origin p)).2 (Some (Close (remote p)).2))
      else p ← pstep who p; Some (SPipe p)
  | SClosed o t => Some (SClosed o t)
  end.

Definition usessionStep (i : nat) (proxy : option P) (timeout : Z) (who : bool) (st : usession) : option usession :=
  match st with
  | UDial id u =>
      q ← proxy;
      '(pc, e) ← DialUDP (udial h q) (idMetadata UDP id);
      check e else Some (UClosed (Close u).2 None) ;;
      pc ← pc; Some (UDialled id u pc)
  | UDialled id u pc => let '(to, p) := startPackets i id u pc in Some (UPipe to timeout p)
  | UPipe to d p =>
      if finished_packets p
      then Some (UClosed (Close (porigin p)).2 (Some (Close (nat_PacketConn (premote p))).2))
      else p ← ppstep (Some to) d who p; Some (UPipe to d p)
  | UClosed u t => Some (UClosed u t)
  end.

Definition step (l : label) (s : System) : option System :=
  let t := tun (eng s) in
  match l with
  | LRequest create id o => Some (request create id o s)
  | LPacket create id u => Some (packetRequest create id u s)
  | LEngine op => e ← estep (env h) op (eng s); Some (mkSystem e (sessions s) (usessions s))
  | LLoop r => Some (loop r s)
  | LSession i who =>
      match sessions s !! i with
      | Some st =>
          st ← sessionStep i (proxy t) who st;
          Some (mkSystem (eng s) (<[i := st]> (sessions s)) (usessions s))
      | None => Some s
      end
  | LUDPSession i who =>
      match usessions s !! i with
      | Some st =>
          st ← usessionStep i (proxy t) (udpTimeout t) who st;
          Some (mkSystem (eng s) (sessions s) (<[i := st]> (usessions s)))
      | None => Some s
      end
  end.

Fixpoint run (ls : list label) (s : System) : option System :=
  match ls with
  | [] => Some s
  | l :: ls => s ← step l s; run ls s
  end.

(** The process after its [init] functions: the tunnel of [global_init] and no
    key. *)
Definition boot (reject : P) : option System :=
  g ← global_init (P := option P) (C := conn) (U := uconn) (Some reject);
  i ← T g; t ← tunnels g !! i;
  Some (mkSystem (setTun t (initial (Some reject))) [] []).
End system.

(** ** What a start does to the tunnel

    It may change the proxy and the timeout, to those of the key; it leaves
    the queues, the loop and the sessions alone. *)

Section frames.
Context {P D S C U : Type} `{GVisor S} (env : Env P D S) (k : Key).
#[local] Notation E := (Engine P D S C U).

Record tuned (e e' : E) : Prop := {
  td_key : defaultKey e' = defaultKey e;
  td_queue : tcpQueue (tun e') = tcpQueue (tun e);
  td_sessions : tcpSessions (tun e') = tcpSessions (tun e);
  td_udpQueue : udpQueue (tun e') = udpQueue (tun e);
  td_udpSessions : udpSessions (tun e') = udpSessions (tun e);
  td_running : running (tun e') = running (tun e);
  td_cancelled : cancelled (tun e') = cancelled (tun e);
  td_timeout : udpTimeout (tun e') = udpTimeout (tun e) \/
    udpTimeout (tun e') = UDPTimeout k /\ Second <= UDPTimeout k;
  td_proxy : proxy (tun e') = proxy (tun e) \/
    parseProxy env (engine.Proxy k) = Some (proxy (tun e'), None) }.

Lemma tuned_refl e : tuned e e.
Proof. split; auto. Qed.
Lemma tuned_trans e1 e2 e3 : tuned e1 e2 -> tuned e2 e3 -> tuned e1 e3.
Proof.
  intros [A1 A2 A3 A4 A5 A6 A7 At Ap] [B1 B2 B3 B4 B5 B6 B7 Bt Bp].
  split; try congruence; [destruct Bt as [->|?]|destruct Bp as [->|?]]; auto.
Qed.

Definition frames {A} (m : M (D := D) (S := S) (C := C) (U := U) A) : Prop :=
  forall e r e', m e = Some (r, e') -> tuned e e'.

Lemma frames_ret {A} (a : A) : frames (ret a).
Proof. intros e r e' [= _ <-]. apply tuned_refl. Qed.
Lemma frames_throw {A} er : frames (throw (A := A) er).
Proof. intros e r e' [= _ <-]. apply tuned_refl. Qed.
Lemma frames_modify f : (forall e, tuned e (f e)) -> frames (modify f).
Proof. intros Hf e r e' [= _ <-]. apply Hf. Qed.
Lemma frames_when b m : frames m -> frames (when b m).
Proof. intros Hm. destruct b; [exact Hm|apply frames_ret]. Qed.
Lemma frames_bind {A B} (m : M A) (f : A -> M B) : frames m -> (forall a, frames (f a)) -> frames (bind m f).
Proof.
  intros Hm Hf e r e' Hr. unfold bind in Hr. destruct (m e) as [[r1 e1]|] eqn:E1; [|done].
  cbn [mbind option_bind] in Hr. apply Hm in E1. destruct r1 as [a|er].
  - by eapply tuned_trans, (Hf a).
  - by injection Hr as _ <-.
Qed.
#[local] Hint Resolve frames_ret frames_throw frames_modify frames_when frames_bind tuned_refl : core.

Lemma general_frames : frames (general env k).
Proof.
  unfold general. destruct (log.ParseLevel _ _) as [level [er|]]; [auto|].
  apply frames_bind.
  { intros e r e' Hr. destruct (log.Must _); [|done]. injection Hr as _ <-. split; auto. }
  intros _. apply frames_bind; [apply frames_modify; by split; auto|]. intros _. apply frames_bind.
  { destruct (negb _); [|auto]. destruct (InterfaceByName _ _) as [? [er|]]; [auto|].
    apply frames_modify. by split; auto. }
  intros _. apply frames_bind; [apply frames_when, frames_modify; by split; auto|]. intros _.
  destruct (0 <? _); [|auto]. destruct (_ <? Second) eqn:Es; [auto|].
  apply frames_modify. split; cbn; auto. right. split; [done|lia].
Qed.

Lemma restAPI_frames : frames (restAPI env k).
Proof.
  unfold restAPI. destruct (negb _); [|auto]. intros e r e' Hr.
  destruct (parseRestAPI _ _) as [[[host token]|er]|]; [..|done]; cbn in Hr; injection Hr as _ <-; by split; auto.
Qed.

Lemma execLogged_frames cmd : frames (execLogged env cmd).
Proof.
  intros e r e' Hr. unfold execLogged, execCommand in Hr. destruct (shlex_Split _ _) as [parts [er|]].
  { injection Hr as _ <-. auto. }
  destruct (len parts =? 0); [injection Hr as _ <-; auto|].
  destruct (parts !! 0%nat); [|done]. injection Hr as _ <-. by split; auto.
Qed.

Lemma bufferSize_frames size f opts : frames (bufferSize env size f opts).
Proof.
  unfold bufferSize. destruct (negb _); [|auto]. destruct (RAMInBytes _ _) as [? [er|]]; auto.
Qed.

Lemma netstackBody_frames : frames (netstackBody env k).
Proof.
  unfold netstackBody. destruct (parseMulticastGroups _) as [groups|er]; [|auto].
  intros e r e' Hr. unfold bind at 1 in Hr.
  destruct (parseProxy env (engine.Proxy k)) as [[p er]|] eqn:Ep; [|done]. cbn [mbind option_bind] in Hr.
  destruct er as [er|]; [injection Hr as _ <-; by split; auto|].
  unfold bind at 1, modify at 1 in Hr. cbn [mbind option_bind] in Hr.
  eapply (tuned_trans _ (setTun (SetProxy p (tun (setProxies p e))) (setProxies p e))); [by split; auto|].
  match type of Hr with ?m _ = _ => assert (frames m) as Hm; [|exact (Hm _ _ _ Hr)] end.
  clear. apply frames_bind.
  - intros e r e' Hr. destruct (parseDevice _ _ _) as [[d er]|]; [|done]. injection Hr as _ <-.
    destruct d; by split; auto.
  - intros _. apply frames_bind; [apply bufferSize_frames|]. intros opts1.
    apply frames_bind; [apply bufferSize_frames|]. intros opts2 e1 r1 e1' Hr.
    destruct (newStack _ _) as [nicID s0]. destruct (Stack.core.CreateStack _ _ _) as [st er].
    injection Hr as _ <-. by split; auto.
Qed.

Lemma netstack_frames : frames (netstack env k).
Proof.
  unfold netstack. destruct (str_eqb _ []); [auto|]. destruct (str_eqb _ []); [auto|].
  apply frames_bind; [apply frames_when, execLogged_frames|]. intros _.
  apply frames_bind; [apply netstackBody_frames|]. intros _. apply frames_when, execLogged_frames.
Qed.

Lemma start_frames e r e' :
  defaultKey e = Some k -> start env e = Some (r, e') -> tuned e e'.
Proof.
  intros Hk. unfold start. rewrite Hk. apply frames_bind; [apply general_frames|]. intros _.
  apply frames_bind; [apply restAPI_frames|]. intros _. apply netstack_frames.
Qed.
End frames.

(** ** One protocol's connections and sessions

    [B i c st]: session [i] in state [st] is that of connection [c]. *)

Section tracks.
Context {C St : Type}.
Implicit Types (B : nat -> C -> St -> Prop) (queue started acc : list C) (sts : list St).

Record tracks B queue started sts acc : Prop := {
  tr_accepted : started ++ queue = acc;
  tr_length : length sts = length started;
  tr_sessions : forall i st, sts !! i = Some st -> exists c, started !! i = Some c /\ B i c st }.

Lemma tracks_mono B B' queue started sts acc :
  (forall i c st, B i c st -> B' i c st) -> tracks B queue started sts acc -> tracks B' queue started sts acc.
Proof. intros HB [I1 I2 I3]. split; [done..|]. intros i st Hi. destruct (I3 i st Hi) as (c & ? & ?). eauto. Qed.

Lemma tracks_arrive B queue started sts acc c :
  tracks B queue started sts acc -> tracks B (queue ++ [c]) started sts (acc ++ [c]).
Proof. intros [I1 I2 I3]. split; [|done..]. by rewrite app_assoc, I1. Qed.

Lemma tracks_start B queue started sts acc c st :
  (forall i, B i c st) -> tracks B (c :: queue) started sts acc ->
  tracks B queue (started ++ [c]) (sts ++ [st]) acc.
Proof.
  intros HB [I1 I2 I3]. split; [by rewrite <- app_assoc|rewrite !length_app; cbn; lia|].
  intros j st' Hj. apply lookup_app_Some in Hj as [Hj|[Hl Hj]].
  - destruct (I3 j st' Hj) as (c' & Hc & ?). exists c'. split; [by apply lookup_app_l_Some|done].
  - apply list_lookup_singleton_Some in Hj as [Hj <-]. exists c. split; [|done].
    rewrite lookup_app_r by lia. by replace (j - _)%nat with 0%nat by lia.
Qed.

Lemma tracks_move B queue started sts acc i st st' :
  sts !! i = Some st -> (forall c, B i c st -> B i c st') ->
  tracks B queue started sts acc -> tracks B queue started (<[i := st']> sts) acc.
Proof.
  intros Hi HB [I1 I2 I3]. split; [done|by rewrite length_insert|].
  intros j st1 Hj. apply list_lookup_insert_Some in Hj as [(<- & <- & _)|[_ Hj]]; [|auto].
  destruct (I3 i st Hi) as (c & ? & ?). eauto.
Qed.

Lemma tracks_lookup B queue started sts acc i st :
  tracks B queue started sts acc -> sts !! i = Some st -> exists c, acc !! i = Some c /\ B i c st.
Proof.
  intros [I1 I2 I3] Hi. destruct (I3 i st Hi) as (c & Hc & ?). exists c. split; [|done].
  rewrite <- I1. by apply lookup_app_l_Some.
Qed.
End tracks.

(** ** Every session is a [handleTCPConn] or a [handleUDPConn] *)

Section refine.
Context {P D S O R OU RU : Type} {fuel : nat} `{GVisor S}.
Context `{Reader O, Writer O, HalfClose O, Deadline O, Closer O}.
Context `{Reader R, Writer R, HalfClose R, Deadline R, Closer R, LocalAddr R}.
Context `{PacketConn OU (option NetAddr), Deadline OU, Closer OU}.
Context `{PacketConn RU (option NetAddr), Deadline RU, Closer RU, LocalAddr RU}.
Context (h : Host P D S R RU) (reject : P).

#[local] Notation System := (@System P D S O R OU RU fuel).
#[local] Notation label := (@label O OU).

(** The connections whose endpoint was created, in order. *)
Definition accepted (ls : list label) : list (@conn O) :=
  omap (fun l => match l with LRequest None id o => Some (id, o) | _ => None end) ls.
Definition uaccepted (ls : list label) : list (@uconn OU) :=
  omap (fun l => match l with LPacket None id u => Some (id, u) | _ => None end) ls.

(** The proxies the tunnel may have: the one of [init], and those of the keys
    that were inserted; and so for the timeouts. *)
Definition configured (ls : list label) (q : option P) : Prop :=
  q = Some reject \/
  exists k, LEngine (OInsert (Some k)) ∈ ls /\ parseProxy (env h) (engine.Proxy k) = Some (q, None).

Definition timed (ls : list label) (d : Z) : Prop :=
  d = udpSessionTimeout \/
  exists k, LEngine (OInsert (Some k)) ∈ ls /\ d = UDPTimeout k /\ Second <= d.

(** The dial of a session, and what the session is after it. *)
Definition dials (ls : list label) (q : P) (id : TransportEndpointID) (r : option R * err) : Prop :=
  configured ls (Some q) /\ DialContext (dial h q) tcpConnectTimeout (idMetadata TCP id) = Some r.
Definition udials (ls : list label) (q : P) (id : TransportEndpointID) (r : option RU * err) : Prop :=
  configured ls (Some q) /\ DialUDP (udial h q) (idMetadata UDP id) = Some r.

Lemma run_app ls1 ls2 (s : System) : run h (ls1 ++ ls2) s = s ← run h ls1 s; run h ls2 s.
Proof.
  revert s. induction ls1 as [|l ls1 IH]; intros s; [done|]. cbn [run app].
  destruct (step h l s); [apply IH|done].
Qed.

Lemma run_snoc ls l (s s1 s2 : System) : run h ls s = Some s1 -> step h l s1 = Some s2 -> run h (ls ++ [l]) s = Some s2.
Proof. intros E1 E2. rewrite run_app, E1. cbn. by rewrite E2. Qed.

(** In the run [lr] from [s0], session [i] was dialled through [q]: it took the
    step of its dial when that was the tunnel's proxy. *)
Definition dialled (s0 : System) (lr : list label) (i : nat) (q : P) : Prop :=
  exists l1 who l2 s1 id o, lr = l1 ++ LSession i who :: l2 /\ run h l1 s0 = Some s1 /\
    sessions s1 !! i = Some (SDial id o) /\ proxy (tun (eng s1)) = Some q.

Definition behaves (s0 : System) (ls lr : list label) (i : nat) (c : @conn O) (st : @session O R) : Prop :=
  match st with
  | SDial id o => c = (id, o)
  | SPipe p => exists q r sched, dialled s0 lr i q /\ dials ls q c.1 (Some r, None) /\
      walk pstep sched (startPipe h i c.1 c.2 r) = Some p
  | SClosed o' t' => exists q sched, dialled s0 lr i q /\ configured ls (Some q) /\
      handleTCPConn sched (uuid h i) (dial h q) c.1 c.2 = Some (o', t')
  end.

Definition ubehaves (ls : list label) (i : nat) (c : @uconn OU) (st : @usession OU RU fuel) : Prop :=
  match st with
  | UDial id u => c = (id, u)
  | UDialled id u pc => c = (id, u) /\ exists q, udials ls q id (Some pc, None)
  | UPipe to d p => exists q pc sched, udials ls q c.1 (Some pc, None) /\ timed ls d /\
      to = (startPackets (fuel := fuel) h i c.1 c.2 pc).1 /\
      walk (ppstep (Some to) d) sched (startPackets h i c.1 c.2 pc).2 = Some p
  | UClosed u' t' => exists q d sched, configured ls (Some q) /\ timed ls d /\
      handleUDPConn fuel sched (pooled h i true) (pooled h i false) (uuuid h i) d (udial h q) c.1 c.2 = Some (u', t')
  end.

(** [lr] are the steps that led from [s0] to [s]; [ls] those of them that tell
    what the sessions may use. *)
Record Inv (s0 : System) (ls lr : list label) (s : System) : Prop := {
  inv_run : run h lr s0 = Some s;
  inv_tcp : tracks (behaves s0 ls lr) (tcpQueue (tun (eng s))) (tcpSessions (tun (eng s))) (sessions s) (accepted ls);
  inv_udp : tracks (ubehaves ls) (udpQueue (tun (eng s))) (udpSessions (tun (eng s))) (usessions s) (uaccepted ls);
  inv_running : running (tun (eng s)) = true /\ cancelled (tun (eng s)) = false;
  inv_key : forall k, defaultKey (eng s) = Some k -> LEngine (OInsert (Some k)) ∈ ls;
  inv_proxy : configured ls (proxy (tun (eng s)));
  inv_timeout : timed ls (udpTimeout (tun (eng s))) }.

Lemma configured_mono ls l q : configured ls q -> configured (ls ++ l) q.
Proof. intros [->|(k & Hk & E)]; [by left|right]. exists k. split; [set_solver|done]. Qed.

Lemma timed_mono ls l d : timed ls d -> timed (ls ++ l) d.
Proof. intros [->|(k & Hk & E)]; [by left|right]. exists k. split; [set_solver|done]. Qed.
Lemma dialled_mono s0 lr l i q : dialled s0 lr i q -> dialled s0 (lr ++ l) i q.
Proof.
  intros (l1 & who & l2 & s1 & id & o & -> & Hs). exists l1, who, (l2 ++ l), s1, id, o. by rewrite <- app_assoc.
Qed.

#[local] Hint Resolve configured_mono timed_mono dialled_mono : core.

Lemma behaves_mono s0 ls l lr l' i c st : behaves s0 ls lr i c st -> behaves s0 (ls ++ l) (lr ++ l') i c st.
Proof.
  destruct st as [id o|p|o t]; [done|..].
  - intros (q & r & sched & Hby & [Hq Hd] & Hp). exists q, r, sched. split; [auto|]. split; [split|]; auto.
  - intros (q & sched & Hby & Hq & Hh). exists q, sched. auto.
Qed.

Lemma ubehaves_mono ls l i c st : ubehaves ls i c st -> ubehaves (ls ++ l) i c st.
Proof.
  destruct st as [id u|id u pc|to d p|u t]; [done|..].
  - intros (-> & q & Hq & Hd). split; [done|]. exists q. split; auto.
  - intros (q & pc & sched & [Hq Hd] & Ht & Hp). exists q, pc, sched. split; [split|]; auto.
  - intros (q & d & sched & Hq & Ht & Hh). exists q, d, sched. auto.
Qed.

(** The requests of the forwarders, on the tunnel. *)
Lemma request_tun create id o (t : Tunnel (option P) (@conn O) (@uconn OU)) :
  fold_left (fun t ef => match ef with Stack.core.CallHandleTCP id => HandleTCP (id, o) t | _ => t end)
    (Stack.core.forwardTCP (sockopt h) (sndbuf h) (rcvbuf h) create id) t =
  match create with None => HandleTCP (id, o) t | Some _ => t end.
Proof.
  unfold Stack.core.forwardTCP, Stack.core.setSocketOptions. destruct create; [done|].
  repeat (destruct (sockopt _ _); [done|]). by destruct (sndbuf h), (rcvbuf h).
Qed.

(** One step of a session keeps it a session of its connection. *)
Lemma sessionStep_behaves s0 ls lr i who q c st st' :
  configured ls q -> (forall q' id o, q = Some q' -> st = SDial id o -> dialled s0 lr i q') ->
  behaves s0 ls lr i c st -> sessionStep h i q who st = Some st' -> behaves s0 ls lr i c st'.
Proof.
  intros Hq Hby Hb Hs. destruct st as [id o|p|o t]; cbn [sessionStep] in Hs.
  - cbn in Hb. subst c. destruct q as [q|]; [cbn [mbind option_bind] in Hs|done].
    specialize (Hby q id o eq_refl eq_refl). destruct (DialContext (dial h q) _ _) as [[r e]|] eqn:Ed; [cbn [mbind option_bind] in Hs|done].
    destruct e as [e|].
    + injection Hs as <-. exists q, []. split_and!; [done..|]. unfold handleTCPConn. cbn [fst snd]. by rewrite Ed.
    + destruct r as [r|]; [|done]. injection Hs as <-. exists q, r, []. by split_and!.
  - destruct Hb as (q' & r & sched & Hby' & [Hq' Hd] & Hp). destruct (finished_pipe p) eqn:Ef.
    + injection Hs as <-. exists q', sched. split_and!; [done..|]. unfold handleTCPConn. rewrite Hd.
      cbn [mbind option_bind]. rewrite pipe_walk. unfold startPipe in Hp. rewrite Hp. cbn [mbind option_bind].
      by rewrite Ef.
    + destruct (pstep who p) as [p'|] eqn:Es; [|done]. injection Hs as <-.
      exists q', r, (sched ++ [who]). split_and!; [done..|]. by eapply walk_snoc.
  - by injection Hs as <-.
Qed.

Lemma usessionStep_ubehaves ls i who q d c st st' :
  configured ls q -> timed ls d -> ubehaves ls i c st ->
  usessionStep h i q d who st = Some st' -> ubehaves ls i c st'.
Proof.
  intros Hq Ht Hb Hs. destruct st as [id u|id u pc|to d' p|u t]; cbn [usessionStep] in Hs.
  - cbn in Hb. subst c. destruct q as [q|]; [cbn [mbind option_bind] in Hs|done].
    destruct (DialUDP (udial h q) _) as [[r e]|] eqn:Ed; [cbn [mbind option_bind] in Hs|done].
    destruct e as [e|].
    + injection Hs as <-. exists q, d, []. split_and!; [done..|]. unfold handleUDPConn. cbn [fst snd]. by rewrite Ed.
    + destruct r as [r|]; [|done]. injection Hs as <-. split; [done|]. exists q. by split.
  - destruct Hb as (-> & q' & Hd). injection Hs as <-. exists q', pc, []. by split_and!.
  - destruct Hb as (q' & pc & sched & [Hq' Hd] & Ht' & -> & Hp). destruct (finished_packets p) eqn:Ef.
    + injection Hs as <-. exists q', d', sched. split_and!; [done..|]. unfold handleUDPConn. rewrite Hd.
      cbn [mbind option_bind]. rewrite pipePacket_walk. unfold startPackets in Hp. cbn [fst snd] in Hp.
      rewrite Hp. cbn [mbind option_bind]. by rewrite Ef.
    + destruct (ppstep _ d' who p) as [p'|] eqn:Es; [|done]. injection Hs as <-.
      exists q', pc, (sched ++ [who]). split_and!; [done..|]. by eapply walk_snoc.
  - by injection Hs as <-.
Qed.

(** What the engine does to the tunnel. *)
Record moved (op : eop) (e e' : Engine P D S (@conn O) (@uconn OU)) : Prop := {
  mv_queue : tcpQueue (tun e') = tcpQueue (tun e);
  mv_sessions : tcpSessions (tun e') = tcpSessions (tun e);
  mv_udpQueue : udpQueue (tun e') = udpQueue (tun e);
  mv_udpSessions : udpSessions (tun e') = udpSessions (tun e);
  mv_running : running (tun e') = running (tun e) /\ cancelled (tun e') = cancelled (tun e);
  mv_key : defaultKey e' = defaultKey e \/ op = OInsert (defaultKey e');
  mv_proxy : proxy (tun e') = proxy (tun e) \/
    exists k, defaultKey e = Some k /\ parseProxy (env h) (engine.Proxy k) = Some (proxy (tun e'), None);
  mv_timeout : udpTimeout (tun e') = udpTimeout (tun e) \/
    exists k, defaultKey e = Some k /\ udpTimeout (tun e') = UDPTimeout k /\ Second <= UDPTimeout k }.

Lemma estep_tun op e e' : estep (env h) op e = Some e' -> moved op e e'.
Proof.
  destruct op as [k|b| |]; cbn [estep].
  - intros [= <-]. split; cbn; auto.
  - intros [= <-]. split; cbn; auto.
  - intros Hs. destruct (start (env h) e) as [[r e1]|] eqn:Es; [|done]. injection Hs as <-.
    destruct (defaultKey e) as [k|] eqn:Ek.
    + destruct (start_frames (env h) k e r e1 Ek Es) as [T1 T2 T3 T4 T5 T6 T7 Tt Tp].
      split; try done; [left; congruence|destruct Tp as [?|?]|destruct Tt as [?|?]]; eauto.
    + unfold start in Es. rewrite Ek in Es. injection Es as _ <-. split; auto.
  - intros [= <-]. unfold stop. destruct (defaultDevice e); cbn; destruct (defaultStack e); cbn; split; cbn; auto.
Qed.

Lemma accepted_app ls l : accepted (ls ++ [l]) =
  accepted ls ++ match l with LRequest None id o => [(id, o)] | _ => [] end.
Proof. unfold accepted. rewrite omap_app. by destruct l as [[] ? ?|? ? ?|?|?|? ?|? ?]. Qed.

Lemma uaccepted_app ls l : uaccepted (ls ++ [l]) =
  uaccepted ls ++ match l with LPacket None id u => [(id, u)] | _ => [] end.
Proof. unfold uaccepted. rewrite omap_app. by destruct l as [? ? ?|[] ? ?|?|?|? ?|? ?]. Qed.

(** A label that changes nothing keeps everything but for the connections it
    accepts. *)
Lemma Inv_weaken s0 ls lr l (s : System) : Inv s0 ls lr s ->
  tracks (behaves s0 (ls ++ [l]) (lr ++ [l])) (tcpQueue (tun (eng s))) (tcpSessions (tun (eng s))) (sessions s) (accepted ls) /\
  tracks (ubehaves (ls ++ [l])) (udpQueue (tun (eng s))) (udpSessions (tun (eng s))) (usessions s) (uaccepted ls) /\
  (forall k, defaultKey (eng s) = Some k -> LEngine (OInsert (Some k)) ∈ ls ++ [l]) /\
  configured (ls ++ [l]) (proxy (tun (eng s))) /\ timed (ls ++ [l]) (udpTimeout (tun (eng s))).
Proof.
  intros [_ I1 I2 I3 I4 I5 I6]. split_and!; auto.
  - by eapply tracks_mono, I1; auto using behaves_mono.
  - by eapply tracks_mono, I2; auto using ubehaves_mono.
  - intros k Hk. apply elem_of_app. auto.
Qed.

Lemma loop_inv s0 ls lr r s : Inv s0 ls lr s -> Inv s0 (ls ++ [LLoop r]) (lr ++ [LLoop r]) (loop r s).
Proof.
  intros HI. destruct (Inv_weaken s0 ls lr (LLoop r) s HI) as (W1 & W2 & W3 & W4 & W5).
  destruct (inv_running _ _ _ _ HI) as [Hr Hc].
  pose proof (run_snoc lr (LLoop r) s0 s _ (inv_run _ _ _ _ HI) eq_refl) as Hrun. clear HI. revert Hrun. unfold loop, process. rewrite Hr, Hc. cbn [negb].
  intros Hrun. destruct r.
  - destruct (tcpQueue (tun (eng s))) as [|[id o] q] eqn:Eq;
      (split; [exact Hrun|..]; cbn; rewrite ?accepted_app, ?uaccepted_app, ?app_nil_r, ?Eq; try done).
    by apply tracks_start.
  - destruct (udpQueue (tun (eng s))) as [|[id u] q] eqn:Eq;
      (split; [exact Hrun|..]; cbn; rewrite ?accepted_app, ?uaccepted_app, ?app_nil_r, ?Eq; try done).
    by apply tracks_start.
  - by split; [exact Hrun|..]; rewrite ?accepted_app, ?uaccepted_app, ?app_nil_r.
Qed.

Lemma estep_inv s0 ls lr op e s : Inv s0 ls lr s -> estep (env h) op (eng s) = Some e ->
  Inv s0 (ls ++ [LEngine op]) (lr ++ [LEngine op]) (mkSystem e (sessions s) (usessions s)).
Proof.
  intros HI He. destruct (estep_tun op _ _ He) as [E1 E2 E3 E4 [E5 E6] Ek Ep Et].
  destruct (Inv_weaken s0 ls lr (LEngine op) s HI) as (W1 & W2 & W3 & W4 & W5).
  split; [eapply run_snoc; [apply HI|]; cbn [step]; by rewrite He|..]; cbn [eng sessions usessions]; rewrite ?E1, ?E2, ?E3, ?E4, ?E5, ?E6, ?accepted_app, ?uaccepted_app, ?app_nil_r;
    try done; [apply HI|..].
  - intros k Hk. destruct Ek as [Ek| ->]; [apply W3; congruence|].
    apply elem_of_app. right. rewrite Hk. by left.
  - destruct Ep as [->|(k & Hk & Hp)]; [done|]. right. exists k. auto.
  - destruct Et as [->|(k & Hk & -> & Hp)]; [done|]. right. exists k. auto.
Qed.

Lemma system_step_inv s0 ls lr l (s s' : System) :
  Inv s0 ls lr s -> step h l s = Some s' -> Inv s0 (ls ++ [l]) (lr ++ [l]) s'.
Proof.
  intros HI Hs. destruct (Inv_weaken s0 ls lr l s HI) as (W1 & W2 & W3 & W4 & W5).
  pose proof (inv_running _ _ _ _ HI) as Hr. pose proof (run_snoc lr l s0 s s' (inv_run _ _ _ _ HI) Hs) as Hrun.
  destruct l as [create id o|create id u|op|r|i who|i who]; cbn [step] in Hs.
  - injection Hs as <-. revert Hrun. unfold request, onTun. rewrite request_tun. intros Hrun.
    destruct create; (split; [exact Hrun|..]); cbn; rewrite ?accepted_app, ?uaccepted_app, ?app_nil_r; try done.
    by apply tracks_arrive.
  - injection Hs as <-. revert Hrun. unfold packetRequest, onTun. intros Hrun.
    destruct create; (split; [exact Hrun|..]); cbn; rewrite ?accepted_app, ?uaccepted_app, ?app_nil_r; try done.
    by apply tracks_arrive.
  - destruct (estep (env h) op (eng s)) as [e|] eqn:Ee; [|done]. injection Hs as <-.
    by apply estep_inv.
  - injection Hs as <-. by apply loop_inv.
  - destruct (sessions s !! i) as [st|] eqn:Ei.
    2:{ injection Hs as <-. by split; [exact Hrun|..]; rewrite ?accepted_app, ?uaccepted_app, ?app_nil_r. }
    destruct (sessionStep _ _ _ _ _) as [st'|] eqn:Es; [|done]. injection Hs as <-.
    (split; [exact Hrun|..]); cbn; rewrite ?accepted_app, ?uaccepted_app, ?app_nil_r; try done.
    eapply tracks_move; [done| |done]. intros c Hc. eapply sessionStep_behaves; [done| |done|done].
    intros q id o Hq ->. exists lr, who, [], s, id, o. split_and!; [done|apply HI|done..].
  - destruct (usessions s !! i) as [st|] eqn:Ei.
    2:{ injection Hs as <-. by split; [exact Hrun|..]; rewrite ?accepted_app, ?uaccepted_app, ?app_nil_r. }
    destruct (usessionStep _ _ _ _ _ _) as [st'|] eqn:Es; [|done]. injection Hs as <-.
    (split; [exact Hrun|..]); cbn; rewrite ?accepted_app, ?uaccepted_app, ?app_nil_r; try done.
    eapply tracks_move; [done| |done]. intros c Hc. by eapply usessionStep_ubehaves.
Qed.

Lemma system_run_Inv s0 ls lr ls1 : forall s s1 : System,
  Inv s0 ls lr s -> run h ls1 s = Some s1 -> Inv s0 (ls ++ ls1) (lr ++ ls1) s1.
Proof.
  induction ls1 as [|l ls1 IH] using rev_ind; intros s s1 HI Hr.
  - injection Hr as <-. by rewrite !app_nil_r.
  - rewrite run_app in Hr. destruct (run h ls1 s) as [s2|] eqn:E; [|done]. cbn in Hr.
    destruct (step h l s2) as [s3|] eqn:Es; [|done]. injection Hr as <-.
    rewrite !app_assoc. eapply system_step_inv; [by eapply IH|exact Es].
Qed.

Lemma system_run_inv (ls : list label) (s s0 : System) :
  boot reject = Some s0 -> run h ls s0 = Some s -> Inv s0 ls ls s.
Proof.
  intros [= <-] Hr. eapply (system_run_Inv _ [] [] ls) in Hr; [exact Hr|]. split; cbn; try done; by left.
Qed.

(** What holds of the tunnel's proxy and of those of the keys goes on to hold. *)
Lemma proxy_kept (G : option P -> Prop) s0 ls lr ls1 (s s1 : System) :
  Inv s0 ls lr s -> run h ls1 s = Some s1 ->
  (forall k p, LEngine (OInsert (Some k)) ∈ ls ++ ls1 -> parseProxy (env h) (engine.Proxy k) = Some (p, None) -> G p) ->
  G (proxy (tun (eng s))) -> G (proxy (tun (eng s1))).
Proof.
  intros HI Hr HG Hg. revert s1 Hr HG. induction ls1 as [|l ls1 IH] using rev_ind; intros s1 Hr HG; [by injection Hr as <-|].
  rewrite run_app in Hr. destruct (run h ls1 s) as [s2|] eqn:E; [|done]. cbn in Hr.
  pose proof (system_run_Inv s0 ls lr ls1 s s2 HI E) as HI2.
  assert (G (proxy (tun (eng s2)))) as Hg2.
  { apply (IH s2 eq_refl). intros k p Hk. apply HG. rewrite app_assoc. apply elem_of_app. by left. }
  destruct (step h l s2) as [s3|] eqn:Es; [|done]. injection Hr as <-.
  destruct l as [create id o|create id u|op|r|i who|i who]; cbn [step] in Es.
  - injection Es as <-. unfold request, onTun. rewrite request_tun. by destruct create.
  - injection Es as <-. by destruct create.
  - destruct (estep (env h) op (eng s2)) as [e|] eqn:Ee; [|done]. injection Es as <-. cbn.
    destruct (mv_proxy _ _ _ (estep_tun op _ _ Ee)) as [->|(k & Hk & Hp)]; [done|].
    apply (HG k); [|done]. rewrite app_assoc. apply elem_of_app. left. by apply (inv_key _ _ _ _ HI2).
  - injection Es as <-. unfold loop, process. repeat case_match; simplify_eq; done.
  - repeat (case_match; simplify_eq/=; go_steps); done.
  - repeat (case_match; simplify_eq/=; go_steps); done.
Qed.

(** A session that has been dialled stays so. *)
Definition undialled (s : System) (i : nat) : Prop :=
  match sessions s !! i with Some (SPipe _) | Some (SClosed _ _) => False | _ => True end.

Lemma sessionStep_dialled i q who (st st' : @session O R) : sessionStep h i q who st = Some st' ->
  match st' with SDial _ _ => False | _ => True end.
Proof. destruct st; cbn; intros E; repeat (case_match; simplify_eq/=; go_steps); done. Qed.

Lemma dialled_stays ls i : forall s s1 : System, run h ls s = Some s1 -> undialled s1 i -> undialled s i.
Proof.
  induction ls as [|l ls IH]; intros s s1 Hr Hu; [by injection Hr as <-|]. cbn [run] in Hr.
  destruct (step h l s) as [s2|] eqn:Es; [|done]. apply (IH s2 s1 Hr) in Hu. clear IH Hr.
  unfold undialled in *. destruct (sessions s !! i) as [st|] eqn:Ei; [|done].
  assert (sessions s2 !! i = Some st \/ exists who, l = LSession i who) as [Heq|[who ->]]; [|by rewrite Heq in Hu|].
  { destruct l as [create id o|create id u|op|r|j who|j who]; cbn [step] in Es.
    - injection Es as <-. by left.
    - injection Es as <-. by left.
    - destruct (estep _ _ _); [|done]. injection Es as <-. by left.
    - injection Es as <-. left. unfold loop. destruct (process _ _); [|exact Ei]. cbn [sessions]. by apply lookup_app_l_Some.
    - destruct (decide (i = j)) as [->|Hne]; [right; by exists who|left].
      destruct (sessions s !! j); [|by injection Es as <-]. destruct (sessionStep _ _ _ _ _); [|done].
      injection Es as <-. cbn. by rewrite list_lookup_insert_ne.
    - left. destruct (usessions s !! j); [|by injection Es as <-]. destruct (usessionStep _ _ _ _ _ _); [|done].
      by injection Es as <-. }
  cbn [step] in Es. rewrite Ei in Es. destruct (sessionStep _ _ _ _ _) as [st'|] eqn:E; [|done]. injection Es as <-.
  pose proof (sessionStep_dialled _ _ _ _ _ E) as Hd. cbn in Hu. rewrite list_lookup_insert_eq in Hu by (by eapply lookup_lt_Some).
  by destruct st'.
Qed.

(** Its dial is before every state where it is not [undialled]. *)
Lemma dialled_after i who ls (s s1 : System) st :
  sessions s !! i = Some st -> run h (LSession i who :: ls) s = Some s1 -> ~ undialled s1 i.
Proof.
  intros Hi Hr Hu. cbn [run step] in Hr. rewrite Hi in Hr.
  destruct (sessionStep _ _ _ _ _) as [st'|] eqn:E; [|done]. cbn [mbind option_bind] in Hr.
  apply (dialled_stays _ _ _ _ Hr) in Hu. pose proof (sessionStep_dialled _ _ _ _ _ E) as Hd.
  unfold undialled in Hu. cbn in Hu. rewrite list_lookup_insert_eq in Hu by (by eapply lookup_lt_Some). by destruct st'.
Qed.

(** C6: concurrent sessions are sequential ones.  From the start of the
    process, whatever requests come, however the engine is started, stopped and
    given keys, and in whatever order the loop and the goroutines of all
    sessions take their steps: the connections whose endpoint was created are
    exactly those with a session and those that wait, in order, for TCP and for
    UDP; and each session that has returned has done what [handleTCPConn], or
    [handleUDPConn], does alone for its connection, with a proxy that the
    tunnel had (the one that rejects, or one parsed from an inserted key; for
    TCP the one it had at the step of the dial) and, for UDP, with a timeout it had: the default, or one of at least a
    second from an inserted key. *)
Theorem sessions_refine :
  exists s0, boot reject = Some s0 /\ forall ls (s : System), run h ls s0 = Some s ->
    tcpSessions (tun (eng s)) ++ tcpQueue (tun (eng s)) = accepted ls /\
    udpSessions (tun (eng s)) ++ udpQueue (tun (eng s)) = uaccepted ls /\
    length (sessions s) = length (tcpSessions (tun (eng s))) /\
    length (usessions s) = length (udpSessions (tun (eng s))) /\
    (forall i o' t', sessions s !! i = Some (SClosed o' t') ->
       exists id o q sched, accepted ls !! i = Some (id, o) /\ configured ls (Some q) /\ dialled s0 ls i q /\
         handleTCPConn sched (uuid h i) (dial h q) id o = Some (o', t')) /\
    (forall i u' t', usessions s !! i = Some (UClosed u' t') ->
       exists id u q d sched, uaccepted ls !! i = Some (id, u) /\ configured ls (Some q) /\ timed ls d /\
         handleUDPConn fuel sched (pooled h i true) (pooled h i false) (uuuid h i) d (udial h q) id u = Some (u', t')).
Proof.
  eexists. split; [reflexivity|]. intros ls s Hr.
  destruct (system_run_inv ls s _ eq_refl Hr) as [_ I1 I2 _ _ _ _].
  split_and!; [apply I1|apply I2|apply I1|apply I2|..].
  - intros i o' t' Hi. destruct (tracks_lookup _ _ _ _ _ _ _ I1 Hi) as ([id o] & Hc & q & sched & Hby & Hq & Hh).
    by exists id, o, q, sched.
  - intros i u' t' Hi.
    destruct (tracks_lookup _ _ _ _ _ _ _ I2 Hi) as ([id u] & Hc & q & d & sched & Hq & Ht & Hh).
    by exists id, u, q, d, sched.
Qed.
End refine.

(** ** A process

    A connection before the engine is started, a start, a connection whose
    endpoint is refused and one of each protocol that is handed over; a
    session of each has begun. *)

Definition toyRemote : Mail :=
  ([(str "no", Some (host 9 9 80)); (str "pong", Some (host 3 4 80))], []).

Definition toyHost : Host unit gostring unit Wire Mail :=
  mkHost toyEnv
    (fun _ => {| DialContext := fun _ _ => Some (Some (dialed [str "OK"] EOF), None) |})
    (fun _ => {| DialUDP := fun _ => Some (Some toyRemote, None) |})
    (fun i => str "tcp" ++ Itoa (Z.of_nat i)) (fun i => str "udp" ++ Itoa (Z.of_nat i))
    (fun _ _ => replicate (Z.to_nat MaxSegmentSize) (z2b 7)) (fun _ => None) None None.

Definition toyOrigin : Wire := dialed [str "GET "; str "/"] EOF.
Definition toySocket : Mail := ([(str "ping", None)], []).

Definition toyLabels : list (@label Wire Mail) :=
  [LRequest None demoID toyOrigin; LLoop RecvTCP; LSession 0 true; LSession 0 false;
   LEngine (OInsert (Some (toyKey (str "host:1080")))); LEngine OStart;
   LPacket None demoID toySocket; LLoop RecvUDP; LUDPSession 0 true;
   LRequest (Some EOF) demoID toyOrigin; LRequest None demoID toyOrigin; LSession 0 true].

Definition toyBoot : @System unit gostring unit Wire Wire Mail Mail 3 :=
  mkSystem (setTun (ProcessAsync (New (Some tt))) (initial (Some tt))) [] [].

Definition toySystem : @System unit gostring unit Wire Wire Mail Mail 3 :=
  default toyBoot (run toyHost toyLabels toyBoot).

Lemma toy_run : run toyHost toyLabels toyBoot = Some toySystem.
Proof. by vm_compute. Qed.

Lemma sessions_refine_witness :
  tcpSessions (tun (eng toySystem)) ++ tcpQueue (tun (eng toySystem)) = accepted toyLabels /\
  length (sessions toySystem) = 1%nat /\ length (usessions toySystem) = 1%nat.
Proof.
  destruct (sessions_refine (fuel := 3) (O := Wire) (OU := Mail) toyHost tt) as (s0 & Hb & Hs).
  injection Hb as <-. destruct (Hs toyLabels toySystem toy_run) as (H1 & H2 & H3 & H4 & _).
  split; [exact H1|]. rewrite H3, H4. by vm_compute.
Defined.
End system.
