(* ===== verification/Served.v ===== *)
(** * Served: the process gets its work done

    From any state of [system] the process's own steps (the loop and the
    sessions) lead to one where every accepted connection, TCP and UDP, has
    had its session to the end, and the manager's totals are those of the
    sessions. *)

From S2P Require Import Prelude Net Conn Allocator Metadata Statistic Tunnel Stack Proxy Engine System.
Import metadata statistic tunnel engine system.

Open Scope Z_scope.

Module served.

(** A choice for each index is a list. *)
Lemma choose_list {B} (n : nat) : forall (Q : nat -> B -> Prop),
  (forall i, (i < n)%nat -> exists x, Q i x) ->
  exists l, length l = n /\ forall i, (i < n)%nat -> exists x, l !! i = Some x /\ Q i x.
Proof.
  induction n as [|n IH]; intros Q HQ; [exists []; split; [done|lia]|].
  destruct (HQ 0%nat) as [x Hx]; [lia|].
  destruct (IH (fun i => Q (Datatypes.S i))) as (l & Hl & Hi); [intros i ?; apply HQ; lia|].
  exists (x :: l). split; [cbn; lia|]. intros [|i] Hlt; [by exists x|]. apply Hi. lia.
Qed.

Lemma turns_app who s1 s2 : turns who (s1 ++ s2) = (turns who s1 + turns who s2)%nat.
Proof. induction s1; simpl; lia. Qed.

Lemma turns_replicate who b n : turns who (replicate n b) = if Bool.eqb b who then n else 0%nat.
Proof. induction n; simpl; [by destruct (Bool.eqb b who)|]. destruct (Bool.eqb b who); lia. Qed.

(** [n] turns for the one goroutine and [k] for the other. *)
Definition both (n k : nat) : list bool := replicate n true ++ replicate k false.

Lemma turns_both n k : turns true (both n k) = n /\ turns false (both n k) = k.
Proof. unfold both. rewrite !turns_app, !turns_replicate. simpl. lia. Qed.

(** ** One protocol's sessions, one after the other

    [get] and [put] are the sessions of one protocol, [lab] the label of a
    step of one of them and [f] that step. *)

Section close.
Context {Sys Eng Lab St : Type} (step : Lab -> Sys -> option Sys) (eng : Sys -> Eng).
Context (get : Sys -> list St) (put : list St -> Sys -> Sys).
Context (lab : nat -> bool -> Lab) (f : Eng -> nat -> bool -> St -> option St).
Context (get_put : forall l s, get (put l s) = l) (put_put : forall l k s, put l (put k s) = put l s).
Context (put_get : forall s, put (get s) s = s) (put_eng : forall l s, eng (put l s) = eng s).
Context (step_lab : forall i who s st, get s !! i = Some st ->
  step (lab i who) s = st' ← f (eng s) i who st; Some (put (<[i := st']> (get s)) s)).
Context (run : list Lab -> Sys -> option Sys).
Context (run_nil : forall s, run [] s = Some s) (run_cons : forall l ls s, run (l :: ls) s = s ← step l s; run ls s).

Lemma run_lab i ext : forall s st st', get s !! i = Some st -> walk (f (eng s) i) ext st = Some st' ->
  run (lab i <$> ext) s = Some (put (<[i := st']> (get s)) s).
Proof.
  induction ext as [|w ext IH]; intros s st st' Hi Hw; cbn [fmap list_fmap walk] in *.
  - injection Hw as <-. by rewrite run_nil, list_insert_id, put_get.
  - rewrite run_cons, (step_lab _ _ _ _ Hi). destruct (f (eng s) i w st) as [st1|]; [|done].
    cbn [mbind option_bind] in *. pose proof (lookup_lt_Some _ _ _ Hi) as Hl.
    rewrite (IH _ st1 st'); [|by rewrite get_put, list_lookup_insert_eq|by rewrite put_eng].
    by rewrite get_put, put_put, list_insert_insert_eq.
Qed.

Lemma run_two ls1 ls2 s s1 : run ls1 s = Some s1 -> run (ls1 ++ ls2) s = run ls2 s1.
Proof.
  revert s. induction ls1 as [|l ls1 IH]; intros s Hr; cbn [app].
  - rewrite run_nil in Hr. by injection Hr as ->.
  - rewrite run_cons in *. destruct (step l s); [by apply IH|done].
Qed.

(** When each session can be walked to the end, all can. *)
Lemma close_all (closed : St -> Prop) s n :
  (forall i st, get s !! i = Some st -> exists ext st', walk (f (eng s) i) ext st = Some st' /\ closed st') ->
  (n <= length (get s))%nat ->
  exists ls sts, Forall (fun l => exists i w, l = lab i w) ls /\ run ls s = Some (put sts s) /\
    length sts = length (get s) /\ (forall i, (n <= i)%nat -> sts !! i = get s !! i) /\
    forall i, (i < n)%nat -> exists st, sts !! i = Some st /\ closed st.
Proof.
  intros Hc. induction n as [|n IH]; intros Hn.
  { exists [], (get s). rewrite run_nil, put_get. split_and!; try done. lia. }
  destruct IH as (ls & sts & Hls & Hr & Hl & Hk & Hcl); [lia|].
  destruct (lookup_lt_is_Some_2 (get s) n) as [st Hst]; [lia|].
  destruct (Hc n st Hst) as (ext & st' & Hw & Hst').
  exists (ls ++ (lab n <$> ext)), (<[n := st']> sts). split_and!.
  - apply Forall_app. split; [done|]. apply Forall_fmap, Forall_true. intros w. by exists n, w.
  - rewrite (run_two _ _ _ _ Hr), (run_lab n ext _ st st').
    + by rewrite get_put, put_put.
    + rewrite get_put, Hk by lia. done.
    + by rewrite put_eng.
  - by rewrite length_insert.
  - intros i Hi. rewrite list_lookup_insert_ne by lia. apply Hk. lia.
  - intros i Hi. destruct (decide (i = n)) as [->|Hne].
    + exists st'. rewrite list_lookup_insert_eq by lia. done.
    + rewrite list_lookup_insert_ne by lia. apply Hcl. lia.
Qed.
End close.

(** ** Sessions end *)

Section serve.
Context {P D S O R OU RU : Type} {fuel : nat} `{GVisor S}.
Context `{HalfCloseOk O, HalfCloseOk R, Closer O, Closer R, LocalAddr R}.
Context `{PacketOk OU, PacketOk RU, Closer OU, Closer RU, LocalAddr RU}.
Context (h : Host P D S R RU) (reject : P).

(** What the clients send, and what the connection of a dial delivers. *)
Context (sends : O -> list byte) (replies : P -> TransportEndpointID -> list byte).
Context (usends : OU -> list (list byte * option NetAddr)).
Context (ureplies : P -> TransportEndpointID -> list (list byte * option NetAddr)).

#[local] Notation System := (@System P D S O R OU RU fuel).
#[local] Notation label := (@label O OU).
#[local] Notation configured := (configured h reject).
Context (s0 : System).
#[local] Notation Inv := (Inv h reject s0).
#[local] Notation dialled := (dialled h s0).

(** What a dial may answer: an error, or a connection that delivers them. *)
Definition dial_answers (q : P) (id : TransportEndpointID) : Prop :=
  match DialContext (dial h q) tcpConnectTimeout (idMetadata TCP id) with
  | Some (_, Some _) => True
  | Some (Some r, None) => exists er, Delivers r (replies q id) er
  | Some (None, None) | None => False
  end.

Definition udial_answers (q : P) (id : TransportEndpointID) : Prop :=
  match DialUDP (udial h q) (idMetadata UDP id) with
  | Some (_, Some _) => True
  | Some (Some r, None) => (length (ureplies q id) < fuel)%nat /\ exists er, Queued r (ureplies q id) er
  | Some (None, None) | None => False
  end.

(** A relay that has begun ends, whatever it has done so far. *)
Lemma pipe_ends (o : O) (r : R) i id bo eo br er sched p :
  Delivers o bo eo -> Delivers r br er ->
  walk pstep sched (startPipe h i id o r) = Some p ->
  exists ext p', walk pstep ext p = Some p' /\ finished_pipe p' = true.
Proof.
  intros Ho Hr Hp. unfold startPipe in Hp. set (t0 := NewTCPTracker _ _ _) in Hp.
  destruct (turns_both (2 * length bo + 5) (2 * length br + 5)) as [T1 T2].
  set (ext := both (2 * length bo + 5) (2 * length br + 5)) in *.
  destruct (pipe_Fin o t0 bo eo br er (sched ++ ext)) as (o' & r' & q1 & q2 & Hpipe & _);
    [done|exact Hr|rewrite turns_app; lia..|].
  rewrite pipe_walk, walk_app, Hp in Hpipe. cbn [mbind option_bind] in Hpipe.
  destruct (walk pstep ext p) as [p'|] eqn:E; [|done]. cbn [mbind option_bind] in Hpipe.
  exists ext, p'. split; [done|]. by destruct (finished_pipe p').
Qed.

Lemma packets_end (u : OU) (r : RU) i id d qo eo qr er sched p :
  (forall i w, len (pooled h i w) = MaxSegmentSize) ->
  Queued u qo eo -> Queued r qr er -> (length qr < fuel)%nat ->
  let '(to, p0) := startPackets (fuel := fuel) h i id u r in
  walk (ppstep (Some to) d) sched p0 = Some p ->
  exists ext p', walk (ppstep (Some to) d) ext p = Some p' /\ finished_packets p' = true.
Proof.
  intros Hb Ho Hr Hf. unfold startPackets. set (to := Some _). set (n0 := newSymmetricNATPacketConn _ _). intros Hp.
  set (back := filter (passes (dst n0)) qr).
  assert (Queued n0 back er) as Hn by (exists qr; done).
  destruct (turns_both (4 * length qo + 2) (4 * length back + 2)) as [T1 T2].
  set (ext := both (4 * length qo + 2) (4 * length back + 2)) in *.
  destruct (pipePacket_fin to d u n0 qo eo back er (sched ++ ext) (pooled h i true) (pooled h i false) Ho Hn
    (Hb _ _) (Hb _ _)) as (o' & n' & q1 & q2 & Hpipe & _); [rewrite turns_app; lia..|].
  rewrite pipePacket_walk, walk_app, Hp in Hpipe. cbn [mbind option_bind] in Hpipe.
  destruct (walk _ ext p) as [p'|] eqn:E; [|done]. cbn [mbind option_bind] in Hpipe.
  exists ext, p'. split; [done|]. by destruct (finished_packets p').
Qed.

(** The ways a session's walk goes on. *)
Lemma walk_session i q ext (p p' : Pipe O (Tracker R)) :
  walk pstep ext p = Some p' -> finished_pipe p' = true ->
  walk (sessionStep h i q) (ext ++ [true]) (SPipe p) = Some (SClosed (Close (origin p')).2 (Some (Close (remote p')).2)).
Proof.
  by apply (walk_close pstep finished_pipe finished_pstep (sessionStep h i q) SPipe
    (fun p => SClosed (Close (origin p)).2 (Some (Close (remote p)).2))).
Qed.

Lemma walk_usession i q to d e ext (p p' : PacketPipe OU (symmetricNATPacketConn fuel (Tracker RU))) :
  walk (ppstep (Some to) d) ext p = Some p' -> finished_packets p' = true ->
  walk (usessionStep h i q e) (ext ++ [true]) (UPipe to d p) =
    Some (UClosed (Close (porigin p')).2 (Some (Close (nat_PacketConn (premote p'))).2)).
Proof.
  by apply (walk_close (ppstep (Some to) d) finished_packets (finished_ppstep (Some to) d) (usessionStep h i q e)
    (UPipe to d) (fun p => UClosed (Close (porigin p)).2 (Some (Close (nat_PacketConn (premote p))).2))).
Qed.

(** More turns change nothing for a session that has returned. *)
Lemma handleTCPConn_more sched more id (q : TCPDialer R) u (o : O) x :
  handleTCPConn sched u q id o = Some x -> handleTCPConn (sched ++ more) u q id o = Some x.
Proof.
  unfold handleTCPConn. destruct (DialContext q _ _) as [[r e]|]; [|done]. cbn [mbind option_bind].
  destruct e; [done|]. destruct r as [r|]; [|done]. cbn [mbind option_bind]. rewrite !pipe_walk.
  destruct (walk pstep sched _) as [p|] eqn:E; [|done]. cbn [mbind option_bind].
  destruct (finished_pipe p) eqn:Ef; [|done].
  rewrite (walk_more _ _ finished_pstep _ more _ _ E Ef). cbn [mbind option_bind]. by rewrite Ef.
Qed.

Lemma handleUDPConn_more sched more b1 b2 u d id (q : UDPDialer RU) (o : OU) x :
  handleUDPConn fuel sched b1 b2 u d q id o = Some x -> handleUDPConn fuel (sched ++ more) b1 b2 u d q id o = Some x.
Proof.
  unfold handleUDPConn. destruct (DialUDP q _) as [[r e]|]; [|done]. cbn [mbind option_bind].
  destruct e; [done|]. destruct r as [r|]; [|done]. cbn [mbind option_bind]. rewrite !pipePacket_walk.
  destruct (walk _ sched _) as [p|] eqn:E; [|done]. cbn [mbind option_bind].
  destruct (finished_packets p) eqn:Ef; [|done].
  rewrite (walk_more _ _ (finished_ppstep _ d) _ more _ _ E Ef). cbn [mbind option_bind]. by rewrite Ef.
Qed.

(** ** What the process does by itself *)

Definition internal (l : label) : Prop :=
  match l with LLoop _ | LSession _ _ | LUDPSession _ _ => True | _ => False end.

Lemma omap_internal {A} (f : label -> option A) ls ls1 : (forall l, internal l -> f l = None) ->
  Forall internal ls1 -> omap f (ls ++ ls1) = omap f ls.
Proof.
  intros Hf Hi. rewrite omap_app. rewrite <- (app_nil_r (omap _ ls)) at 2. f_equal.
  induction Hi as [|l ls1 Hl _ IH]; [done|]. cbn. by rewrite Hf.
Qed.

Lemma key_internal ls ls1 k : Forall internal ls1 ->
  LEngine (OInsert (Some k)) ∈ ls ++ ls1 -> LEngine (OInsert (Some k)) ∈ ls.
Proof. intros Hi [?|Hk]%elem_of_app; [done|]. rewrite Forall_forall in Hi. by apply Hi in Hk. Qed.

Lemma configured_internal ls ls1 q : Forall internal ls1 -> configured (ls ++ ls1) q -> configured ls q.
Proof. intros Hi [->|(k & Hk & E)]; [by left|right]. exists k. split; [by eapply key_internal|done]. Qed.

Lemma timed_internal ls ls1 d : Forall internal ls1 -> timed (ls ++ ls1) d -> timed ls d.
Proof. intros Hi [->|(k & Hk & E)]; [by left|right]. exists k. split; [by eapply key_internal|done]. Qed.
#[local] Hint Resolve configured_internal timed_internal : core.

(** It adds no proxy, no timeout and no connection. *)
Lemma Inv_internal ls ls1 lr (s : System) : Forall internal ls1 -> Inv (ls ++ ls1) lr s -> Inv ls lr s.
Proof.
  intros Hint [J0 J1 J2 J3 J4 J5 J6]. unfold accepted, uaccepted in *.
  rewrite (omap_internal _ ls ls1) in J1 by (done || by intros []).
  rewrite (omap_internal _ ls ls1) in J2 by (done || by intros []).
  split; eauto using key_internal.
  - eapply tracks_mono, J1. intros i c [id o|p|o t]; [done|..].
    + intros (q & r & sched & Hby & [Hq Hd] & Hp). exists q, r, sched. split; [done|]. split; [split|]; eauto.
    + intros (q & sched & Hby & Hq & Hh). exists q, sched. eauto.
  - eapply tracks_mono, J2. intros i c [id u|id u pc|to d p|u t]; [done|..].
    + intros (-> & q & Hq & Hd). split; [done|]. exists q. split; eauto.
    + intros (q & pc & sched & [Hq Hd] & Ht & Hp). exists q, pc, sched. split; [split|]; eauto.
    + intros (q & d & sched & Hq & Ht & Hh). exists q, d, sched. eauto.
Qed.

Lemma run_internal ls lr ls1 (s s1 : System) :
  Inv ls lr s -> Forall internal ls1 -> run h ls1 s = Some s1 -> Inv ls (lr ++ ls1) s1.
Proof. intros HI Hi Hr. apply (Inv_internal ls ls1 _ s1 Hi). by eapply system_run_Inv. Qed.

(** The loop takes everything that waits. *)
Lemma loop_drains n : forall ls lr (s : System), Inv ls lr s ->
  (length (tcpQueue (tun (eng s))) + length (udpQueue (tun (eng s))))%nat = n ->
  exists ls1 s1, Forall internal ls1 /\ run h ls1 s = Some s1 /\
    tcpQueue (tun (eng s1)) = [] /\ udpQueue (tun (eng s1)) = [].
Proof.
  induction n as [|n IH]; intros ls lr s HI Hn.
  { exists [], s. split_and!; try done; apply nil_length_inv; lia. }
  assert (exists r, (length (tcpQueue (tun (eng (loop r s)))) + length (udpQueue (tun (eng (loop r s)))))%nat = n)
    as [r Hr].
  { destruct (inv_running _ _ _ _ _ _ HI) as [Hrun _].
    destruct (tcpQueue (tun (eng s))) as [|[id o] q] eqn:Eq.
    - exists RecvUDP. unfold loop, process. rewrite Hrun. cbn [negb].
      destruct (udpQueue (tun (eng s))) as [|[id u] q']; cbn in *; [lia|]. rewrite Eq. cbn. lia.
    - exists RecvTCP. unfold loop, process. rewrite Hrun, Eq. cbn in *. lia. }
  destruct (IH ls (lr ++ [LLoop r]) (loop r s)) as (ls1 & s1 & Hi & Hr1 & Hq); [|done|].
  { by apply (run_internal ls lr [LLoop r] s); [|repeat constructor|]. }
  exists (LLoop r :: ls1), s1. split; [by constructor|done].
Qed.

Section live.
(** A parsed proxy is one, each dial of an accepted connection through a
    configured proxy answers, each client behaves, and the pool gives buffers of
    the size that is asked for. *)
Context (pool_ok : forall i w, len (pooled h i w) = MaxSegmentSize).
Context (ls : list label).
Context (proxies_ok : forall q, configured ls q -> is_Some q).
Context (dial_ok : forall q id o, configured ls (Some q) -> (id, o) ∈ accepted ls -> dial_answers q id).
Context (udial_ok : forall q id u, configured ls (Some q) -> (id, u) ∈ uaccepted ls -> udial_answers q id).
Context (origins_ok : forall id o, (id, o) ∈ accepted ls -> exists eo, Delivers o (sends o) eo).
Context (uorigins_ok : forall id u, (id, u) ∈ uaccepted ls -> exists eo, Queued u (usends u) eo).

Definition closed (st : @session O R) : Prop := match st with SClosed _ _ => True | _ => False end.
Definition uclosed (st : @usession OU RU fuel) : Prop := match st with UClosed _ _ => True | _ => False end.

Lemma proxy_present lr (s : System) : Inv ls lr s -> is_Some (proxy (tun (eng s))).
Proof. intros HI. apply proxies_ok, (inv_proxy _ _ _ _ _ _ HI). Qed.

Lemma proxy_now lr (s : System) q : Inv ls lr s -> proxy (tun (eng s)) = Some q -> configured ls (Some q).
Proof. intros HI <-. apply (inv_proxy _ _ _ _ _ _ HI). Qed.

Lemma session_closes lr (s : System) i st : Inv ls lr s -> sessions s !! i = Some st ->
  exists ext st', walk (sessionStep h i (proxy (tun (eng s)))) ext st = Some st' /\ closed st'.
Proof.
  intros HI Hi. destruct (tracks_lookup _ _ _ _ _ _ _ (inv_tcp _ _ _ _ _ _ HI) Hi) as ([id o] & Hc & Hb).
  pose proof (list_elem_of_lookup_2 _ _ _ Hc) as Hin. destruct (origins_ok id o Hin) as (eo & Ho).
  destruct (proxy_present lr s HI) as [q Hq]. destruct st as [id' o'|p|o' t'].
  - cbn in Hb. simplify_eq. pose proof (dial_ok q id' o' (proxy_now lr s q HI Hq) Hin) as Hd. unfold dial_answers in Hd. rewrite Hq.
    destruct (DialContext (dial h q) tcpConnectTimeout (idMetadata TCP id')) as [[r [e|]]|] eqn:Ed; [..|done].
    { exists [true], (SClosed (Close o').2 None). split; [|done]. cbn. by rewrite Ed. }
    destruct r as [r|]; [|done]. destruct Hd as (er & Hr).
    destruct (pipe_ends o' r i id' _ eo _ er [] _ Ho Hr eq_refl) as (ext & p' & Hp & Hf).
    exists (true :: ext ++ [true]). eexists. cbn [walk sessionStep mbind option_bind].
    rewrite Ed. cbn [mbind option_bind]. split; [by apply walk_session|done].
  - destruct Hb as (q' & r & sched & _ & [Hc' Hd] & Hp). cbn [fst snd] in *.
    pose proof (dial_ok q' id o Hc' Hin) as Ha. unfold dial_answers in Ha. rewrite Hd in Ha. destruct Ha as (er & Hr).
    destruct (pipe_ends o r i id _ eo _ er sched p Ho Hr Hp) as (ext & p' & Hp' & Hf).
    exists (ext ++ [true]). eexists. split; [by apply walk_session|done].
  - by exists [], (SClosed o' t').
Qed.

Lemma usession_closes lr (s : System) i st : Inv ls lr s -> usessions s !! i = Some st ->
  exists ext st',
    walk (usessionStep h i (proxy (tun (eng s))) (udpTimeout (tun (eng s)))) ext st = Some st' /\ uclosed st'.
Proof.
  intros HI Hi. destruct (tracks_lookup _ _ _ _ _ _ _ (inv_udp _ _ _ _ _ _ HI) Hi) as ([id u] & Hc & Hb).
  pose proof (list_elem_of_lookup_2 _ _ _ Hc) as Hin. destruct (uorigins_ok id u Hin) as (eo & Ho).
  destruct (proxy_present lr s HI) as [q Hq]. set (d := udpTimeout (tun (eng s))).
  assert (forall pc q', udials h reject ls q' id (Some pc, None) ->
    (length (ureplies q' id) < fuel)%nat /\ exists er, Queued pc (ureplies q' id) er) as Hans.
  { intros pc q' [Hc' Hd]. pose proof (udial_ok q' id u Hc' Hin) as Ha. unfold udial_answers in Ha. by rewrite Hd in Ha. }
  assert (forall pc q', udials h reject ls q' id (Some pc, None) ->
    exists ext st', walk (usessionStep h i (proxy (tun (eng s))) d) ext (UDialled id u pc) = Some st' /\ uclosed st')
    as Hdialled.
  { intros pc q' Hd. destruct (Hans pc q' Hd) as (Hf & er & Hr).
    pose proof (packets_end u pc i id d _ eo _ er [] (startPackets h i id u pc).2 pool_ok Ho Hr Hf eq_refl)
      as (ext & p' & Hp & Hfin).
    exists (true :: ext ++ [true]). eexists. split; [by apply walk_usession|done]. }
  destruct st as [id' u'|id' u' pc|to d' p|u' t'].
  - cbn in Hb. simplify_eq. pose proof (udial_ok q id' u' (proxy_now lr s q HI Hq) Hin) as Ha. unfold udial_answers in Ha. rewrite Hq.
    destruct (DialUDP (udial h q) (idMetadata UDP id')) as [[r [e|]]|] eqn:Ed; [..|done].
    { exists [true], (UClosed (Close u').2 None). split; [|done]. cbn. by rewrite Ed. }
    destruct r as [r|]; [|done]. destruct (Hdialled r q) as (ext & st' & Hw & Hst); [split; [by eapply proxy_now|done]|]. rewrite Hq in Hw.
    exists (true :: ext), st'. split; [|done]. cbn [walk usessionStep mbind option_bind]. by rewrite Ed.
  - destruct Hb as ([= <- <-] & q' & Hd). by apply (Hdialled pc q').
  - destruct Hb as (q' & r & sched & Hd & _ & -> & Hp). cbn [fst snd] in *.
    destruct (Hans r q' Hd) as (Hf & er & Hr).
    pose proof (packets_end u r i id d' _ eo _ er sched p pool_ok Ho Hr Hf Hp) as (ext & p' & Hp' & Hfin).
    exists (ext ++ [true]). eexists. split; [by apply walk_usession|done].
  - by exists [], (UClosed u' t').
Qed.

(** The sessions of each protocol, one after the other. *)
Lemma tcp_close lr (s : System) : Inv ls lr s ->
  exists ls1 sts, Forall internal ls1 /\ run h ls1 s = Some (mkSystem (eng s) sts (usessions s)) /\ Forall closed sts.
Proof.
  intros HI.
  destruct (close_all (step h : label -> System -> option System) eng sessions
    (fun l (s : System) => mkSystem (eng s) l (usessions s)) LSession
    (fun e i => sessionStep (O := O) h i (proxy (tun e)))) with (run := run h : list label -> System -> option System)
    (closed := closed) (s := s) (n := length (sessions s)) as (ls1 & sts & Hi1 & Hr1 & Hl1 & _ & Hc1); try done.
  { by intros []. }
  { intros i who s1 st Hst. cbn. by rewrite Hst. }
  { intros i st. by apply (session_closes lr). }
  exists ls1, sts. split_and!; [eapply Forall_impl; [exact Hi1|]; by intros ? (i & w & ->)|done|].
  apply Forall_lookup. intros i st Hst. destruct (Hc1 i) as (st' & ? & ?); [|by simplify_eq].
  rewrite <- Hl1. by eapply lookup_lt_Some.
Qed.

Lemma udp_close lr (s : System) : Inv ls lr s ->
  exists ls1 sts, Forall internal ls1 /\ run h ls1 s = Some (mkSystem (eng s) (sessions s) sts) /\ Forall uclosed sts.
Proof.
  intros HI.
  destruct (close_all (step h : label -> System -> option System) eng usessions
    (fun l (s : System) => mkSystem (eng s) (sessions s) l) LUDPSession
    (fun e i => usessionStep (OU := OU) h i (proxy (tun e)) (udpTimeout (tun e))))
    with (run := run h : list label -> System -> option System)
    (closed := uclosed) (s := s) (n := length (usessions s)) as (ls1 & sts & Hi1 & Hr1 & Hl1 & _ & Hc1); try done.
  { by intros []. }
  { intros i who s1 st Hst. cbn. by rewrite Hst. }
  { intros i st. by apply (usession_closes lr). }
  exists ls1, sts. split_and!; [eapply Forall_impl; [exact Hi1|]; by intros ? (i & w & ->)|done|].
  apply Forall_lookup. intros i st Hst. destruct (Hc1 i) as (st' & ? & ?); [|by simplify_eq].
  rewrite <- Hl1. by eapply lookup_lt_Some.
Qed.

Lemma sessions_close lr (s : System) : Inv ls lr s ->
  exists ls1 s1, Forall internal ls1 /\ run h ls1 s = Some s1 /\ eng s1 = eng s /\
    Forall closed (sessions s1) /\ Forall uclosed (usessions s1).
Proof.
  intros HI. destruct (tcp_close lr s HI) as (ls1 & sts & Hi1 & Hr1 & Hc1).
  destruct (udp_close (lr ++ ls1) (mkSystem (eng s) sts (usessions s))) as (ls2 & usts & Hi2 & Hr2 & Hc2).
  { by apply (run_internal ls lr ls1 s). }
  exists (ls1 ++ ls2), (mkSystem (eng s) sts usts). split_and!; try done; [by apply Forall_app|].
  by rewrite run_app, Hr1.
Qed.

(** ** What a session has done in the end *)

(** What the manager is told of a session. *)
Definition tracker_calls (st : @session O R) : list call :=
  match st with SClosed _ (Some t) => calls t | _ => [] end.
Definition utracker_calls (st : @usession OU RU fuel) : list call :=
  match st with UClosed _ (Some t) => calls t | _ => [] end.
Definition uploads (st : @usession OU RU fuel) : Z :=
  match st with UClosed _ (Some t) => UploadTotal t | _ => 0 end.

(** The outcome of a TCP session that has returned; [used] is what is known of
    its proxy, [up] what the proxy was sent. *)
Definition served (used : P -> Prop) (id : TransportEndpointID) (o : O) (st : @session O R) (up : list byte) : Prop :=
  exists q, configured ls (Some q) /\ used q /\
  match DialContext (dial h q) tcpConnectTimeout (idMetadata TCP id) with
  | Some (Some r, None) =>
      exists o' t down, st = SClosed (Close o').2 (Some (Close t).2) /\
        Sent (t_Conn t) = Sent r ++ up /\ up `prefix_of` sends o /\
        Sent o' = Sent o ++ down /\ down `prefix_of` replies q id /\
        (Writable o -> Writable r -> patient R && patient O = true ->
           up = sends o /\ down = replies q id) /\
        t_Metadata t = setMid (parseNetAddr (localAddr r)) (idMetadata TCP id) /\
        i64 (zsum (upBytes <$> tracker_calls st)) = i64 (len up)
  | _ => st = SClosed (Close o).2 None /\ up = []
  end.

(** And of a UDP session. *)
Definition userved (id : TransportEndpointID) (u : OU) (st : @usession OU RU fuel) : Prop :=
  exists q, configured ls (Some q) /\
  let m := idMetadata UDP id in
  match DialUDP (udial h q) m with
  | Some (Some r, None) =>
      let m' := setMid (parseNetAddr (localAddr r)) m in
      let back := filter (passes (DestinationAddress m)) (ureplies q id) in
      exists o' t q1 q2, st = UClosed (Close o').2 (Some (Close t).2) /\
        Posted (t_Conn t) = Posted r ++ (relayed (Some (sessionAddr m')) <$> q1) /\ q1 `prefix_of` usends u /\
        Posted o' = Posted u ++ (relayed None <$> q2) /\ q2 `prefix_of` back /\
        (Postable u -> Postable r -> prompt OU = true -> prompt RU = true -> q1 = usends u /\ q2 = back) /\
        t_Metadata t = m' /\
        i64 (zsum (upBytes <$> utracker_calls st)) = i64 (uploads st)
  | _ => st = UClosed (Close u).2 None
  end.

Lemma served_bytes used id o st (up : list byte) :
  served used id o st up -> i64 (zsum (upBytes <$> tracker_calls st)) = i64 (len up).
Proof.
  intros (q & _ & _ & Hs). destruct (DialContext _ _ _) as [[[r|] [e|]]|]; try (by destruct Hs as [-> ->]).
  by destruct Hs as (? & ? & ? & _ & _ & _ & _ & _ & _ & _ & Hb).
Qed.

Lemma userved_bytes id u st :
  userved id u st -> i64 (zsum (upBytes <$> utracker_calls st)) = i64 (uploads st).
Proof.
  intros (q & _ & Hs). cbn zeta in Hs. destruct (DialUDP _ _) as [[[r|] [e|]]|]; try (by subst).
  by destruct Hs as (? & ? & ? & ? & _ & _ & _ & _ & _ & _ & _ & Hb).
Qed.

(** The pushes between the Join and the Leave are all that counts. *)
Lemma booked_bytes cs uid pushes : cs = Join uid :: pushes ++ [Leave uid] ->
  zsum (upBytes <$> cs) = zsum (upBytes <$> pushes).
Proof.
  intros ->. rewrite fmap_cons, fmap_app. change (zsum (?x :: ?l)) with (x + zsum l). rewrite zsum_app. cbn. lia.
Qed.

Lemma closed_served lr (s : System) i id o st :
  Inv ls lr s -> sessions s !! i = Some st -> closed st -> accepted ls !! i = Some (id, o) ->
  exists up, served (dialled lr i) id o st up.
Proof.
  intros HI Hi Hcl Ha. destruct (tracks_lookup _ _ _ _ _ _ _ (inv_tcp _ _ _ _ _ _ HI) Hi) as ([id0 o0] & Hc & Hb).
  pose proof (eq_trans (eq_sym Ha) Hc) as [= <- <-]. destruct st as [| |o' t']; [done..|].
  destruct Hb as (q & sched & Hby & Hq & Hh). cbn [fst snd] in Hh.
  pose proof (list_elem_of_lookup_2 _ _ _ Ha) as Hin. destruct (origins_ok id o Hin) as (eo & Ho).
  pose proof (dial_ok q id o Hq Hin) as Hd. unfold dial_answers in Hd. unfold served.
  set (ext := both (2 * length (sends o) + 5) (2 * length (replies q id) + 5)).
  apply (handleTCPConn_more _ ext) in Hh.
  pose proof (handleTCPConn_run (dial h q) (uuid h i) id o (sched ++ ext)) as Hrun. cbn zeta in Hrun.
  destruct (DialContext (dial h q) tcpConnectTimeout (idMetadata TCP id)) as [[r [e|]]|] eqn:Ed; [..|done].
  - assert ((o', t') = ((Close o).2, None)) as [= -> ->] by (destruct r; congruence).
    exists [], q. split; [done|]. split; [done|]. rewrite Ed. by destruct r.
  - destruct r as [r|]; [|done]. destruct Hd as (er & Hr).
    destruct (turns_both (2 * length (sends o) + 5) (2 * length (replies q id) + 5)) as [T1 T2].
    destruct (Hrun _ eo _ er Ho Hr) as (o1 & t & q1 & q2 & ps & Hok & S1 & P1 & S2 & P2 & HW & Hm & Hc1 & _ & Hu);
      [rewrite turns_app; unfold ext; lia..|].
    rewrite Hok in Hh. injection Hh as <- <-. exists q1, q. split; [done|]. split; [done|]. rewrite Ed.
    exists o1, t, q2. split_and!; try done. cbn [tracker_calls]. by rewrite (booked_bytes _ _ _ Hc1).
Qed.

Lemma closed_userved lr (s : System) i id u st :
  Inv ls lr s -> usessions s !! i = Some st -> uclosed st -> uaccepted ls !! i = Some (id, u) -> userved id u st.
Proof.
  intros HI Hi Hcl Ha. destruct (tracks_lookup _ _ _ _ _ _ _ (inv_udp _ _ _ _ _ _ HI) Hi) as ([id0 u0] & Hc & Hb).
  pose proof (eq_trans (eq_sym Ha) Hc) as [= <- <-]. destruct st as [| | |u' t']; [done..|].
  destruct Hb as (q & d & sched & Hq & _ & Hh). cbn [fst snd] in Hh.
  pose proof (list_elem_of_lookup_2 _ _ _ Ha) as Hin. destruct (uorigins_ok id u Hin) as (eo & Ho).
  pose proof (udial_ok q id u Hq Hin) as Hd. unfold udial_answers in Hd. exists q. split; [done|]. cbn zeta.
  set (back := filter (passes (DestinationAddress (idMetadata UDP id))) (ureplies q id)).
  set (ext := both (4 * length (usends u) + 2) (4 * length back + 2)).
  apply (handleUDPConn_more _ ext) in Hh.
  pose proof (handleUDPConn_run (udial h q) (uuuid h i) id u fuel (sched ++ ext) (pooled h i true) (pooled h i false) d)
    as Hrun. cbn zeta in Hrun.
  destruct (DialUDP (udial h q) (idMetadata UDP id)) as [[r [e|]]|] eqn:Ed; [..|done].
  - assert ((u', t') = ((Close u).2, None)) as [= -> ->] by (destruct r; congruence). by destruct r.
  - destruct r as [r|]; [|done]. destruct Hd as (Hf & er & Hr).
    destruct (turns_both (4 * length (usends u) + 2) (4 * length back + 2)) as [T1 T2].
    destruct (Hrun _ eo _ er Ho Hr Hf (pool_ok _ _) (pool_ok _ _)) as
      (o1 & t & q1 & q2 & ps & Hok & S1 & P1 & S2 & P2 & HW & Hm & Hc1 & _ & Hu);
      [rewrite turns_app; unfold ext, back in *; lia..|].
    rewrite Hok in Hh. injection Hh as <- <-. exists o1, t, q1, q2. split_and!; try done.
    cbn [utracker_calls uploads]. rewrite (booked_bytes _ _ _ Hc1).
    by rewrite Tracker_Close_total, Hu, i64_idem.
Qed.

(** The calls on the manager, under any schedule, add up. *)
Lemma calls_total (ccs : list (list call)) ns css sched ts m :
  Forall2 (fun cs n => i64 (zsum (upBytes <$> cs)) = i64 n) ccs ns -> concat css ≡ₚ concat ccs ->
  run_threads sched (thread <$> css) newManager = (ts, m) -> Forall (fun t => t = []) ts ->
  uploadTotal m = i64 (zsum ns).
Proof.
  intros Hf Hp Hr Hd. destruct (totals_run _ _ _ _ Hr Hd) as [-> _].
  assert (zsum (upBytes <$> concat css) = zsum (upBytes <$> concat ccs)) as -> by by rewrite Hp.
  clear Hp Hr Hd. induction Hf as [|cs n ccs ns Hst Hf IH]; [done|].
  cbn [concat]. rewrite fmap_app, zsum_app. change (zsum (n :: ns)) with (n + zsum ns).
  rewrite <- i64_add_l, Hst, i64_add_l, !(Z.add_comm n), <- (i64_add_l (zsum _)), IH. by rewrite i64_add_l.
Qed.

(** The outcome of every session. *)
Lemma all_served lr (s : System) : Inv ls lr s ->
  tcpQueue (tun (eng s)) = [] -> udpQueue (tun (eng s)) = [] ->
  Forall closed (sessions s) -> Forall uclosed (usessions s) ->
  length (sessions s) = length (accepted ls) /\ length (usessions s) = length (uaccepted ls) /\
  (exists ups, length ups = length (sessions s) /\ forall i id o, accepted ls !! i = Some (id, o) ->
     exists st up, sessions s !! i = Some st /\ ups !! i = Some up /\ served (dialled lr i) id o st up) /\
  forall i id u, uaccepted ls !! i = Some (id, u) -> exists st, usessions s !! i = Some st /\ userved id u st.
Proof.
  intros HI Hq1 Hq2 Hc1 Hc2. pose proof (inv_tcp _ _ _ _ _ _ HI) as [A1 L1 _]. pose proof (inv_udp _ _ _ _ _ _ HI) as [A2 L2 _].
  rewrite Hq1, app_nil_r in A1. rewrite Hq2, app_nil_r in A2. rewrite A1 in L1. rewrite A2 in L2.
  rewrite Forall_lookup in Hc1. rewrite Forall_lookup in Hc2. split_and!; [done..| |].
  - destruct (choose_list (length (sessions s)) (fun i up => forall id o, accepted ls !! i = Some (id, o) ->
      exists st, sessions s !! i = Some st /\ served (dialled lr i) id o st up)) as (ups & Hlu & Hi).
    + intros i Hi. destruct (lookup_lt_is_Some_2 _ _ Hi) as [st Hst].
      rewrite L1 in Hi. destruct (lookup_lt_is_Some_2 _ _ Hi) as [[id o] Hc].
      destruct (closed_served lr s i id o st HI Hst (Hc1 _ _ Hst) Hc) as [up Hup]. exists up.
      intros id' o' Hc'. pose proof (eq_trans (eq_sym Hc) Hc') as [= <- <-]. by exists st.
    + exists ups. split; [done|]. intros i id o Hc.
      destruct (Hi i) as (up & Hup & Hs); [rewrite L1; by eapply lookup_lt_Some|].
      destruct (Hs id o Hc) as (st & ? & ?). by exists st, up.
  - intros i id u Hc. destruct (lookup_lt_is_Some_2 (usessions s) i) as [st Hst];
      [rewrite L2; by eapply lookup_lt_Some|].
    exists st. split; [done|]. by apply (closed_userved lr s i id u st HI Hst (Hc2 _ _ Hst)).
Qed.

(** The lemma behind the property, and behind those of a proxy. *)
Lemma serves_all (s : System) :
  boot reject = Some s0 -> run h ls s0 = Some s ->
  exists ls' s' ups, Forall internal ls' /\ run h ls' s = Some s' /\
    tcpQueue (tun (eng s')) = [] /\ udpQueue (tun (eng s')) = [] /\
    length (sessions s') = length (accepted ls) /\ length (usessions s') = length (uaccepted ls) /\
    (forall i id o, accepted ls !! i = Some (id, o) ->
       exists st up, sessions s' !! i = Some st /\ ups !! i = Some up /\ served (dialled (ls ++ ls') i) id o st up) /\
    (forall i id u, uaccepted ls !! i = Some (id, u) ->
       exists st, usessions s' !! i = Some st /\ userved id u st) /\
    forall css sched ts m,
      concat css ≡ₚ concat ((tracker_calls <$> sessions s') ++ (utracker_calls <$> usessions s')) ->
      run_threads sched (thread <$> css) newManager = (ts, m) -> Forall (fun t => t = []) ts ->
      uploadTotal m = i64 (zsum ((len <$> ups) ++ (uploads <$> usessions s'))).
Proof.
  intros Hb Hr. pose proof (system_run_inv h reject ls s s0 Hb Hr) as HI.
  destruct (loop_drains _ ls ls s HI eq_refl) as (ls1 & s1 & Hint1 & Hr1 & Hq1 & Hq2).
  pose proof (run_internal ls ls ls1 s s1 HI Hint1 Hr1) as HI1.
  destruct (sessions_close _ s1 HI1) as (ls2 & s2 & Hint2 & Hr2 & He2 & Hc1 & Hc2).
  pose proof (run_internal ls _ ls2 s1 s2 HI1 Hint2 Hr2) as HI2. rewrite <- He2 in Hq1, Hq2. rewrite <- app_assoc in HI2.
  destruct (all_served _ s2 HI2 Hq1 Hq2 Hc1 Hc2) as (L1 & L2 & (ups & Hlu & Hups) & Hu).
  exists (ls1 ++ ls2), s2, ups. split_and!; try done; [by apply Forall_app|by rewrite run_app, Hr1|].
  intros css sched ts m. apply calls_total. apply Forall2_app.
  - apply Forall2_fmap, Forall2_same_length_lookup_2; [done|].
    intros i st up Hst Hup. pose proof (lookup_lt_Some _ _ _ Hst) as Hi. rewrite L1 in Hi.
    destruct (lookup_lt_is_Some_2 _ _ Hi) as [[id o] Hc]. destruct (Hups i id o Hc) as (st' & up' & Hst' & Hup' & Hs).
    simplify_eq. by apply (served_bytes _ id o _ _ Hs).
  - apply Forall2_fmap, Forall2_same_length_lookup_2; [done|].
    intros i st st1 Hst Hst1. simplify_eq. pose proof (lookup_lt_Some _ _ _ Hst) as Hi. rewrite L2 in Hi.
    destruct (lookup_lt_is_Some_2 _ _ Hi) as [[id u] Hc]. destruct (Hu i id u Hc) as (st' & Hst' & Hs).
    simplify_eq. by apply (userved_bytes id u).
Qed.

(** C3: every connection is served.  From the start of the process and after
    whatever has happened, when the dials of the configured proxies answer and
    clients deliver: the process can go on by itself (the loop and the
    sessions, nothing from outside) until nothing waits and every accepted
    connection, TCP or UDP, has had its one session; each has used a configured
    proxy, for TCP the one that the tunnel had at its dial; a failed dial has closed the connection and sent nothing; otherwise
    both ends are closed and each has been sent a prefix of what the other
    delivered (for UDP of the datagrams that pass the filter), all of it when
    the peers are patient and can be written to; and, however the trackers' calls interleave, the manager's
    upload total is, in 64 bits, the number of bytes the proxies were sent over
    TCP and the totals of the UDP trackers. *)
Theorem system_serves (s : System) :
  boot reject = Some s0 -> run h ls s0 = Some s ->
  exists ls' s' ups, Forall internal ls' /\ run h ls' s = Some s' /\
    tcpQueue (tun (eng s')) = [] /\ udpQueue (tun (eng s')) = [] /\
    length (sessions s') = length (accepted ls) /\ length (usessions s') = length (uaccepted ls) /\
    (forall i id o, accepted ls !! i = Some (id, o) ->
       exists st up, sessions s' !! i = Some st /\ ups !! i = Some up /\ served (dialled (ls ++ ls') i) id o st up) /\
    (forall i id u, uaccepted ls !! i = Some (id, u) ->
       exists st, usessions s' !! i = Some st /\ userved id u st) /\
    forall css sched ts m,
      concat css ≡ₚ concat ((tracker_calls <$> sessions s') ++ (utracker_calls <$> usessions s')) ->
      run_threads sched (thread <$> css) newManager = (ts, m) -> Forall (fun t => t = []) ts ->
      uploadTotal m = i64 (zsum ((len <$> ups) ++ (uploads <$> usessions s'))).
Proof. apply serves_all. Qed.
End live.
End serve.

(** ** Witness: the process of [toyLabels] *)

Lemma toyEnv_parse s p : parseProxy toyEnv s = Some (p, None) -> is_Some p.
Proof.
  unfold parseProxy, proxy.Parse, proxy.pick. cbn. destruct (str_eqb _ _); [|done]. by intros [= <-].
Qed.

Lemma system_serves_witness :
  let sends (_ : Wire) := str "GET /" in
  let replies (_ : unit) (_ : TransportEndpointID) := str "OK" in
  let ureplies (_ : unit) (_ : TransportEndpointID) := toyRemote.1 in
  exists ls' s' (ups : list (list byte)), Forall internal ls' /\ run toyHost ls' toySystem = Some s' /\
    tcpQueue (tun (eng s')) = [] /\ length (sessions s') = 2%nat /\ length (usessions s') = 1%nat /\
    (exists st up, sessions s' !! 1%nat = Some st /\ ups !! 1%nat = Some up /\
       served toyHost tt sends replies toyLabels (dialled toyHost toyBoot (toyLabels ++ ls') 1) demoID toyOrigin st up) /\
    exists st, usessions s' !! 0%nat = Some st /\ userved toyHost tt fst ureplies toyLabels demoID toySocket st.
Proof.
  intros sends replies ureplies.
  destruct (system_serves (fuel := 3) (O := Wire) (OU := Mail) toyHost tt sends replies fst ureplies)
    with (ls := toyLabels) (s := toySystem) (s0 := toyBoot)
    as (ls' & s' & ups & H1 & H2 & H3 & _ & H4 & H5 & H6 & H7 & _).
  - intros i w. unfold toyHost. cbn [pooled]. by rewrite len_replicate, Z2Nat.id.
  - intros q [->|(k & _ & Hq)]; [done|by apply toyEnv_parse in Hq].
  - intros q id o _ _. exists EOF. split; [reflexivity|]. split; [|done]. by repeat constructor.
  - intros q id u _ _. split; [by apply Nat.ltb_lt|]. by exists ErrTimeout.
  - intros id o Ho. assert (o = toyOrigin) as ->.
    { cbn in Ho. apply elem_of_cons in Ho as [[= _ ->]|Ho]; [done|].
      by apply list_elem_of_singleton in Ho as [= _ ->]. }
    exists EOF. split; [reflexivity|]. split; [|done]. by repeat constructor.
  - intros id u Hu. cbn in Hu. apply list_elem_of_singleton in Hu as [= _ ->]. by exists ErrTimeout.
  - reflexivity.
  - exact toy_run.
  - exists ls', s', ups. split; [done|]. split; [done|]. split; [done|]. split; [done|]. split; [done|]. split.
    + by apply (H6 1%nat).
    + by apply (H7 0%nat).
Defined.
End served.
