(* ===== verification/Base64.v ===== *)
(** * Base64: encoding/base64 as the source uses it

    [base64.StdEncoding] and [base64.RawURLEncoding], and that decoding
    recovers what was encoded. *)

From Stdlib Require Import ZArith Lia.
From S2P Require Import Prelude.

#[local] Ltac Zify.zify_post_hook ::= Z.to_euclidean_division_equations.

Open Scope Z_scope.

(** An alphabet is its last two characters. *)
Definition std : byte * byte := (z2b 43, z2b 47).
Definition url : byte * byte := (z2b 45, z2b 95).

Definition char (al : byte * byte) (i : Z) : byte :=
  if i <? 26 then z2b (65 + i)
  else if i <? 52 then z2b (97 + (i - 26))
  else if i <? 62 then z2b (48 + (i - 52))
  else if i =? 62 then al.1 else al.2.

Definition index64 (al : byte * byte) (c : byte) : option Z :=
  let x := b2z c in
  if (65 <=? x) && (x <=? 90) then Some (x - 65)
  else if (97 <=? x) && (x <=? 122) then Some (x - 97 + 26)
  else if (48 <=? x) && (x <=? 57) then Some (x - 48 + 52)
  else if bool_decide (c = al.1) then Some 62
  else if bool_decide (c = al.2) then Some 63
  else None.

Definition padChar : byte := z2b 61.

Section code.
Context (al : byte * byte) (padded : bool).

Fixpoint EncodeToString (bs : list byte) : gostring :=
  match bs with
  | a :: b :: c :: r =>
      let n := b2z a * 65536 + b2z b * 256 + b2z c in
      char al (n / 262144) :: char al (n / 4096 mod 64) :: char al (n / 64 mod 64) :: char al (n mod 64) ::
      EncodeToString r
  | [a; b] =>
      let n := b2z a * 65536 + b2z b * 256 in
      [char al (n / 262144); char al (n / 4096 mod 64); char al (n / 64 mod 64)] ++
      (if padded then [padChar] else [])
  | [a] =>
      let n := b2z a * 65536 in
      [char al (n / 262144); char al (n / 4096 mod 64)] ++ (if padded then [padChar; padChar] else [])
  | [] => []
  end.

(** The bytes of the quanta before the first corrupt one. *)
Fixpoint decodeQuanta (s : gostring) : list byte :=
  match s with
  | c0 :: c1 :: c2 :: c3 :: r =>
      match index64 al c0, index64 al c1, index64 al c2, index64 al c3 with
      | Some i0, Some i1, Some i2, Some i3 =>
          let n := i0 * 262144 + i1 * 4096 + i2 * 64 + i3 in
          z2b (n / 65536) :: z2b (n / 256) :: z2b n :: decodeQuanta r
      | _, _, _, _ => []
      end
  | [c0; c1; c2] =>
      match index64 al c0, index64 al c1, index64 al c2 with
      | Some i0, Some i1, Some i2 =>
          let n := i0 * 262144 + i1 * 4096 + i2 * 64 in [z2b (n / 65536); z2b (n / 256)]
      | _, _, _ => []
      end
  | [c0; c1] =>
      match index64 al c0, index64 al c1 with
      | Some i0, Some i1 => [z2b ((i0 * 262144 + i1 * 4096) / 65536)]
      | _, _ => []
      end
  | _ => []
  end.
End code.

(** [RawURLEncoding.DecodeString], its error dropped: newlines are skipped. *)
Definition DecodeRawURL (s : gostring) : list byte :=
  decodeQuanta url (filter (fun c => c <> z2b 10 /\ c <> z2b 13) s).

(** What reads [StdEncoding] back: the padding is at the end. *)
Definition DecodeStd (s : gostring) : list byte := decodeQuanta std (filter (fun c => c <> padChar) s).

(** ** Round trips *)

Definition is_alphabet (al : byte * byte) : Prop := al = std \/ al = url.

Lemma six (i : Z) : 0 <= i < 64 -> exists k, (k < 64)%nat /\ i = Z.of_nat k.
Proof. intros. exists (Z.to_nat i). lia. Qed.

(** A fact on all the six-bit numbers, by evaluation. *)
Lemma all_six (f : Z -> bool) :
  forallb (fun k => f (Z.of_nat k)) (seq 0 64) = true -> forall i, 0 <= i < 64 -> f i = true.
Proof.
  intros Hf i Hi. destruct (six i Hi) as (k & Hk & ->). rewrite forallb_forall in Hf.
  apply Hf, in_seq. lia.
Qed.

Lemma index_char al i : is_alphabet al -> 0 <= i < 64 -> index64 al (char al i) = Some i.
Proof.
  intros Hal Hi. apply (bool_decide_eq_true (index64 al (char al i) = Some i)). revert i Hi.
  apply all_six. by destruct Hal as [-> | ->]; vm_compute.
Qed.

Lemma char_not al c i :
  is_alphabet al -> 0 <= i < 64 -> c = padChar \/ c = z2b 10 \/ c = z2b 13 -> char al i <> c.
Proof.
  intros Hal Hi Hc. apply (bool_decide_eq_true (char al i <> c)). revert i Hi. apply all_six.
  by destruct Hal as [-> | ->], Hc as [-> |[-> | ->]]; vm_compute.
Qed.

Lemma z2b_is x b : x mod 256 = b2z b -> z2b x = b.
Proof. intros E. apply b2z_inj. by rewrite b2z_z2b. Qed.

Lemma sextets n :
  n / 262144 * 262144 + n / 4096 mod 64 * 4096 + n / 64 mod 64 * 64 + n mod 64 = n.
Proof. lia. Qed.

Lemma sextet_range n : 0 <= n < 16777216 ->
  0 <= n / 262144 < 64 /\ 0 <= n / 4096 mod 64 < 64 /\ 0 <= n / 64 mod 64 < 64 /\ 0 <= n mod 64 < 64.
Proof. lia. Qed.

Lemma quanta_roundtrip al bs : is_alphabet al -> decodeQuanta al (EncodeToString al false bs) = bs.
Proof.
  intros Hal. assert (forall n bs, (length bs <= n)%nat -> decodeQuanta al (EncodeToString al false bs) = bs) as Hgo.
  { clear bs. induction n as [|n IH]; intros [|a [|b [|c r]]] Hl; cbn in Hl; try done; try lia;
      pose proof (b2z_range a) as Ra; try pose proof (b2z_range b) as Rb; try pose proof (b2z_range c) as Rc.
    all: cbn [EncodeToString decodeQuanta app].
    - pose proof (sextet_range (b2z a * 65536)) as Hr. pose proof (sextets (b2z a * 65536)) as Hs.
      set (x := b2z a * 65536) in *.
      rewrite !index_char by (done || lia). f_equal. apply z2b_is. lia.
    - set (x := b2z a * 65536 + b2z b * 256).
      assert (0 <= x < 16777216) as Hx by lia.
      pose proof (sextet_range x Hx) as Hr. pose proof (sextets x) as Hs.
      assert (x / 64 mod 64 * 64 + x mod 64 = x / 64 mod 64 * 64) as Hz by lia.
      rewrite !index_char by (done || lia).
      replace (x / 262144 * 262144 + x / 4096 mod 64 * 4096 + x / 64 mod 64 * 64) with x by lia.
      f_equal; [|f_equal]; apply z2b_is; lia.
    - set (x := b2z a * 65536 + b2z b * 256 + b2z c).
      assert (0 <= x < 16777216) as Hx by lia.
      pose proof (sextet_range x Hx) as Hr.
      rewrite !index_char by (done || lia). rewrite sextets, IH by lia.
      f_equal; [|f_equal; [|f_equal]]; apply z2b_is; lia. }
  by apply (Hgo (length bs)).
Qed.

(** Every character of an encoding is of the alphabet, up to the padding. *)
Lemma encode_chars al bs :
  is_alphabet al -> Forall (fun c => exists i, 0 <= i < 64 /\ c = char al i) (EncodeToString al false bs).
Proof.
  intros Hal. assert (forall n bs, (length bs <= n)%nat ->
    Forall (fun c => exists i, 0 <= i < 64 /\ c = char al i) (EncodeToString al false bs)) as Hgo.
  { clear bs. induction n as [|n IH]; intros [|a [|b [|c r]]] Hl; cbn in Hl; try constructor; try lia;
      pose proof (b2z_range a) as Ra; try pose proof (b2z_range b) as Rb; try pose proof (b2z_range c) as Rc.
    all: cbn [EncodeToString app]; repeat constructor; try (eexists; split; [|reflexivity]; lia).
    apply IH. lia. }
  by apply (Hgo (length bs)).
Qed.

Lemma encode_filter al (f : byte -> Prop) `{forall c, Decision (f c)} bs :
  is_alphabet al -> (forall i, 0 <= i < 64 -> f (char al i)) ->
  filter f (EncodeToString al false bs) = EncodeToString al false bs.
Proof.
  intros Hal Hf. pose proof (encode_chars al bs Hal) as Hc.
  induction Hc as [|c s (i & Hi & ->) _ IH]; [done|]. rewrite filter_cons_True by auto. by rewrite IH.
Qed.

Lemma padding_filter al bs :
  is_alphabet al ->
  filter (fun c => c <> padChar) (EncodeToString al true bs) =
  filter (fun c => c <> padChar) (EncodeToString al false bs).
Proof.
  intros Hal. assert (forall n bs, (length bs <= n)%nat ->
    filter (fun c => c <> padChar) (EncodeToString al true bs) =
    filter (fun c => c <> padChar) (EncodeToString al false bs)) as Hgo.
  { clear bs. induction n as [|n IH]; intros [|a [|b [|c r]]] Hl; cbn in Hl; try done; try lia.
    cbn [EncodeToString]. by rewrite !filter_cons, (IH r) by lia. }
  by apply (Hgo (length bs)).
Qed.

Lemma DecodeStd_Encode bs : DecodeStd (EncodeToString std true bs) = bs.
Proof.
  assert (is_alphabet std) as Hal by by left. unfold DecodeStd. rewrite padding_filter by done.
  rewrite encode_filter; [by apply quanta_roundtrip|done|]. intros i Hi. apply char_not; auto.
Qed.

(** A padded encoding is whole quanta of printable characters. *)
Lemma EncodeStd_shape bs :
  len (EncodeToString std true bs) mod 4 = 0 /\
  Forall (fun c => 33 <= b2z c < 127) (EncodeToString std true bs).
Proof.
  assert (forall i, 0 <= i < 64 -> 33 <= b2z (char std i) < 127) as Hc.
  { intros i Hi. apply (bool_decide_eq_true (33 <= b2z (char std i) < 127)). revert i Hi. apply all_six. by vm_compute. }
  assert (forall n bs, (length bs <= n)%nat -> len (EncodeToString std true bs) mod 4 = 0 /\
    Forall (fun c => 33 <= b2z c < 127) (EncodeToString std true bs)) as Hgo.
  { clear bs. induction n as [|n IH]; intros [|a [|b [|c r]]] Hl; cbn in Hl; try (by split); try lia;
      pose proof (b2z_range a) as Ra; try pose proof (b2z_range b) as Rb; try pose proof (b2z_range c) as Rc.
    3: destruct (IH r ltac:(lia)) as [IH1 IH2].
    1,2: split; [reflexivity|repeat (constructor; [first [by cbn|apply Hc; lia]|]); done].
    cbn [EncodeToString app]. rewrite !len_cons. split; [lia|].
    repeat (constructor; [apply Hc; lia|]). done. }
  by apply (Hgo (length bs)).
Qed.

Lemma DecodeRawURL_Encode bs : DecodeRawURL (EncodeToString url false bs) = bs.
Proof.
  assert (is_alphabet url) as Hal by by right. unfold DecodeRawURL.
  rewrite encode_filter; [by apply quanta_roundtrip|done|]. intros i Hi. split; apply char_not; auto.
Qed.
