(* ===== verification/Proxies.v ===== *)
(** * Proxies: proxy/http, proxy/direct, proxy/ssh and the URL of proxy/shadowsocks

    The proxies that need no transport of their own.  [http] writes a CONNECT
    request with net/http and reads the response through a [bufio.Reader];
    both are modelled, the syntax of the response's header excepted.
    [ssh]'s client is golang.org/x/crypto/ssh, a parameter.  [neturl] is what
    net/url does to the parts of a URL the constructors read. *)

From S2P Require Import Prelude Net Conn Allocator Socks5 ShadowAEAD ShadowStream SSCore.
From S2P Require Import Metadata Statistic Tunnel Proxy.
From S2P Require Base64.
Import metadata statistic tunnel.

Open Scope Z_scope.

(** ** net/url *)

Module neturl.
Definition semicolon : byte := z2b 59.
Definition ampersand : byte := z2b 38.
Definition equals : byte := z2b 61.
Definition plus : byte := z2b 43.
Definition space : byte := z2b 32.

(** [strings.Split(s, c)]. *)
Fixpoint Split (c : byte) (s : gostring) : list gostring :=
  match s with
  | [] => [[]]
  | x :: r =>
      if bool_decide (x = c) then [] :: Split c r
      else match Split c r with
           | [] => [[x]]
           | h :: t => (x :: h) :: t
           end
  end.

Definition EscapeError : error := errorsNew "invalid URL escape".

(** [url.QueryUnescape]: "" with an error on a bad escape. *)
Fixpoint unescape (s : gostring) : option gostring :=
  match s with
  | [] => Some []
  | c :: r =>
      if bool_decide (c = percent) then
        match r with
        | h :: l :: r => h ← hex_value h; l ← hex_value l; cons (z2b (h * 16 + l)) <$> unescape r
        | _ => None
        end
      else cons (if bool_decide (c = plus) then space else c) <$> unescape r
  end.

Definition QueryUnescape (s : gostring) : gostring * err :=
  match unescape s with Some t => (t, None) | None => ([], Some EscapeError) end.

(** [shouldEscape(c, encodeUserPassword)], negated. *)
Definition unreserved (c : byte) : bool :=
  let x := b2z c in
  ((97 <=? x) && (x <=? 122)) || ((65 <=? x) && (x <=? 90)) || ((48 <=? x) && (x <=? 57)) ||
  existsb (Z.eqb x) [45; 46; 95; 126].
Definition userByte (c : byte) : bool :=
  unreserved c || existsb (Z.eqb (b2z c)) [36; 38; 43; 44; 59; 61].

Definition upperhex (x : Z) : byte := z2b (if x <? 10 then 48 + x else 55 + x).
Definition escapeByte (c : byte) : gostring := [percent; upperhex (b2z c / 16); upperhex (b2z c mod 16)].
Definition escapeUser (s : gostring) : gostring := mjoin ((fun c => if userByte c then [c] else escapeByte c) <$> s).

(** [String] of a [*url.Userinfo], nil included. *)
Definition UserString (u : proxy.URL) : gostring :=
  escapeUser (proxy.UserName u) ++
  (if proxy.PasswordSet u then colon :: escapeUser (proxy.UserPassword u) else []).

(** [strings.Cut(s, c)], the third result left out. *)
Definition Cut (s : gostring) (c : byte) : gostring * gostring :=
  match SplitN2 s c with
  | [a; b] => (a, b)
  | _ => (s, [])
  end.

(** [url.ParseQuery], its error dropped: pairs that do not parse are left out. *)
Definition Query (q : gostring) : list (gostring * gostring) :=
  omap (fun pair =>
    if has_byte pair semicolon || str_eqb pair [] then None
    else let '(key, value) := Cut pair equals in
         key ← unescape key; value ← unescape value; Some (key, value)) (Split ampersand q).

(** [Values.Get]. *)
Definition Get (q : list (gostring * gostring)) (key : gostring) : gostring :=
  match filter (fun kv => kv.1 = key) q with
  | (_, v) :: _ => v
  | [] => []
  end.
End neturl.

(** ** bufio.Reader *)

Module bufio.
Definition defaultBufSize : Z := 4096.
Definition maxConsecutiveEmptyReads : nat := 100.
Definition ErrNoProgress : error := errorsNew "multiple Read calls return no data or error".

Definition CR : byte := z2b 13.
Definition LF : byte := z2b 10.

(** [r_buf] is [b.buf[b.r:b.w]]. *)
Record BReader (S : Type) := mkReader { r_buf : list byte; r_err : err; r_rd : S }.
Arguments mkReader {S}. Arguments r_buf {S}. Arguments r_err {S}. Arguments r_rd {S}.

Section bufio.
Context {S : Type} `{Reader S}.

Definition NewReader (rd : S) : BReader S := mkReader [] None rd.

Fixpoint fill_loop (tries : nat) (b : BReader S) : option (BReader S) :=
  match tries with
  | O => Some (mkReader (r_buf b) (Some ErrNoProgress) (r_rd b))
  | Datatypes.S tries =>
      '(d, e, s) ← Read (defaultBufSize - len (r_buf b)) (r_rd b);
      let b := mkReader (r_buf b ++ d) e s in
      if e then Some b
      else if 0 <? len d then Some b
      else fill_loop tries b
  end.

Definition fill (b : BReader S) : option (BReader S) := fill_loop maxConsecutiveEmptyReads b.

(** The end of line [ReadLine] drops. *)
Definition dropCR (l : gostring) : gostring :=
  if bool_decide (last l = Some CR) then take (length l - 1) l else l.

(** [textproto.Reader.ReadLine], the pieces of a line longer than the buffer
    joined in [acc]: a carriage return that ends a full buffer is put back. *)
Fixpoint ReadLine (fuel : nat) (acc : gostring) (b : BReader S) : option (gostring * err * BReader S) :=
  match fuel with
  | O => None
  | Datatypes.S fuel =>
      match IndexByte (r_buf b) LF with
      | Some i =>
          Some (acc ++ dropCR (take i (r_buf b)), None,
                mkReader (drop (Datatypes.S i) (r_buf b)) (r_err b) (r_rd b))
      | None =>
          match r_err b with
          | Some e =>
              let b' := mkReader [] None (r_rd b) in
              if len (r_buf b) =? 0 then Some ([], Some e, b')
              else Some (acc ++ r_buf b, None, b')
          | None =>
              if defaultBufSize <=? len (r_buf b) then
                let line := dropCR (r_buf b) in
                ReadLine fuel (acc ++ line) (mkReader (drop (length line) (r_buf b)) None (r_rd b))
              else b ← fill b; ReadLine fuel acc b
          end
      end
  end.
End bufio.
End bufio.

(** ** http.go *)

Module proxyhttp.
Import bufio.

Record HTTP := mkHTTP { addr : gostring; user : gostring; pass : gostring }.

Definition New (addr user pass : gostring) : option (option HTTP * err) :=
  Some (Some (mkHTTP addr user pass), None).

Definition basicAuth (username password : gostring) : gostring :=
  Base64.EncodeToString Base64.std true (username ++ str ":" ++ password).

(** net/http on the syntax of a host ([httpguts.PunycodeHostPort],
    [ValidHostHeader], [removeZone]), and of a response's header: its lines
    read so far, and the transfer headers of all of them. *)
Class NetHTTP := {
  cleanHost : gostring -> gostring * err;
  mimeErr : list gostring -> err;
  transferErr : list gostring -> err }.

Definition crlf : gostring := [CR; LF].

(** The bytes of [Request.Write]: the header in the order of its keys. *)
Definition requestBytes (host : gostring) (auth : option gostring) : list byte :=
  str "CONNECT " ++ host ++ str " HTTP/1.1" ++ crlf ++
  str "Host: " ++ host ++ crlf ++
  str "User-Agent: Go-http-client/1.1" ++ crlf ++
  match auth with
  | Some v => str "Proxy-Authorization: " ++ v ++ crlf
  | None => []
  end ++
  str "Proxy-Connection: Keep-Alive" ++ crlf ++ crlf.

(** What a [bufio.Writer] hands on: full buffers, then the rest. *)
Fixpoint chunks (fuel : nat) (bs : list byte) : list (list byte) :=
  match fuel with
  | O => [bs]
  | Datatypes.S fuel =>
      if defaultBufSize <? len bs then ztake defaultBufSize bs :: chunks fuel (zdrop defaultBufSize bs)
      else [bs]
  end.

Record Response := mkResponse { StatusCode : Z; Status : gostring }.

Definition malformed (what : string) : error := errorsNew ("malformed HTTP " ++ what).

Definition ParseHTTPVersion (vers : gostring) : bool :=
  match vers with
  | [h; t; t'; p; slash; major; dot'; minor] =>
      str_eqb [h; t; t'; p; slash] (str "HTTP/") && bool_decide (dot' = dot) && is_digit major && is_digit minor
  | _ => false
  end.

(** [strings.TrimLeft(s, " ")] *)
Fixpoint TrimLeft (s : gostring) : gostring :=
  match s with
  | c :: r => if bool_decide (c = neturl.space) then TrimLeft r else s
  | [] => []
  end.

(** The first line of a response. *)
Definition statusLine (line : gostring) : Response * err :=
  match SplitN2 line neturl.space with
  | [proto; status] =>
      let status := TrimLeft status in
      let code := (neturl.Cut status neturl.space).1 in
      if negb (len code =? 3) then (mkResponse 0 status, Some (malformed "status code"))
      else let '(n, e) := Atoi code in
      if negb (is_nil e) || (n <? 0) then (mkResponse 0 status, Some (malformed "status code"))
      else if ParseHTTPVersion proto then (mkResponse n status, None)
      else (mkResponse n status, Some (malformed "version"))
  | _ => (mkResponse 0 [], Some (malformed "response"))
  end.

Section http.
Context {S : Type} `{Reader S, Writer S, Closer S, NetHTTP}.

(** [Request.Write] of the CONNECT request. *)
Definition RequestWrite (addr : gostring) (auth : option gostring) (rw : S) : option (err * S) :=
  let '(host, e) := cleanHost addr in
  check e else Some (e, rw) ;;
  let req := requestBytes host auth in
  write_all (chunks (length req) req) rw.

Definition unexpected (e : error) : error := if bool_decide (e = EOF) then ErrUnexpectedEOF else e.

(** [ReadMIMEHeader] and [readTransfer]: the lines up to the empty one.  The
    peeks at the next line, which consume nothing, are left out. *)
Fixpoint ReadHeader (fuel : nat) (lines : list gostring) (b : BReader S) : option (err * BReader S) :=
  match fuel with
  | O => None
  | Datatypes.S f =>
      '(line, e, b) ← ReadLine fuel [] b;
      match e with
      | Some e => Some (Some (unexpected e), b)
      | None =>
          if str_eqb line [] then Some (transferErr lines, b)
          else
            let lines := lines ++ [line] in
            check mimeErr lines else Some (mimeErr lines, b) ;;
            ReadHeader f lines b
      end
  end.

Definition ReadResponse (fuel : nat) (b : BReader S) : option (Response * err * BReader S) :=
  let none := mkResponse 0 [] in
  '(line, e, b) ← ReadLine fuel [] b;
  match e with
  | Some e => Some (none, Some (unexpected e), b)
  | None =>
      let '(resp, e) := statusLine line in
      check e else Some (none, e, b) ;;
      '(e, b) ← ReadHeader fuel [] b;
      Some (resp, e, b)
  end.

Definition StatusOK : Z := 200.
Definition StatusProxyAuthRequired : Z := 407.
Definition StatusMethodNotAllowed : Z := 405.

Definition authorization (h : HTTP) : option gostring :=
  if negb (str_eqb (user h) []) && negb (str_eqb (pass h) [])
  then Some (str "Basic " ++ basicAuth (user h) (pass h)) else None.

Definition verdict (resp : Response) : err :=
  if StatusCode resp =? StatusOK then None
  else if StatusCode resp =? StatusProxyAuthRequired then Some (errorsNew "HTTP auth required by proxy")
  else if StatusCode resp =? StatusMethodNotAllowed then Some (errorsNew "CONNECT method not allowed by proxy")
  else Some (ErrNew (str "HTTP connect status: " ++ Status resp)).

(** [fuel] bounds the turns of reading one line, and the lines. *)
Definition shakeHand (fuel : nat) (h : HTTP) (metadata : Metadata) (rw : S) : option (err * S) :=
  let addr := DestinationAddress metadata in
  '(e, rw) ← RequestWrite addr (authorization h) rw;
  check e else Some (e, rw) ;;
  '(resp, e, b) ← ReadResponse fuel (NewReader rw);
  check e else Some (e, r_rd b) ;;
  Some (verdict resp, r_rd b).

Context (dial : Z -> gostring -> gostring -> option S * err).

Definition DialContext (fuel : nat) (h : HTTP) (ctx : Z) (metadata : Metadata) : option (option S * err) :=
  let '(c, e) := dial ctx (str "tcp") (addr h) in
  match e with
  | Some e => Some (None, Some (proxysocks5.connectTo (addr h) e))
  | None =>
      c ← c;
      '(e, c) ← shakeHand fuel h metadata c;
      Some (utils.SafeConnClose (Some c) e, e)
  end.
End http.

Definition DialUDP {P} (m : Metadata) : option (option P * err) := Some (None, Some ErrUnsupported).

Definition Parse (u : proxy.URL) : option (option HTTP * err) :=
  New (proxy.Host u) (proxy.UserName u) (proxy.UserPassword u).
End proxyhttp.

(** ** direct.go *)

Module proxydirect.
Inductive Direct := direct.
Definition New : option (option Direct * err) := Some (Some direct, None).

(** The dialled connection as it is. *)
Definition DialContext {S} (dial : Z -> gostring -> gostring -> option S * err) (ctx : Z) (metadata : Metadata)
  : option (option S * err) :=
  let '(c, e) := dial ctx (str "tcp") (DestinationAddress metadata) in
  match e with
  | Some _ => Some (None, e)
  | None => Some (c, None)
  end.

Record directPacketConn (P : Type) := mkPacketConn { pc_PacketConn : P }.
Arguments mkPacketConn {P}. Arguments pc_PacketConn {P}.

Definition DialUDP {P} (ListenPacket : gostring -> gostring -> option P * err) (m : Metadata)
  : option (option (directPacketConn P) * err) :=
  let '(pc, e) := ListenPacket (str "udp") [] in
  match e with
  | Some _ => Some (None, e)
  | None => pc ← pc; Some (Some (mkPacketConn pc), None)
  end.

Section packets.
Context {P : Type} `{PacketConn P (option NetAddr)}.
Context (ResolveUDPAddr : gostring -> gostring -> option UDPAddr * err).

(** The nil address of a failed resolution is not used; a nil [addr] panics. *)
Definition WriteTo (b : list byte) (addr : option NetAddr) (pc : directPacketConn P)
  : option (Z * err * directPacketConn P) :=
  let send a :=
    '(n, e, p) ← Conn.WriteTo b a (pc_PacketConn pc); Some (n, e, mkPacketConn p) in
  addr ← addr;
  match addr with
  | AUDP u => send (Some (AUDP u))
  | _ =>
      let '(u, e) := ResolveUDPAddr (str "udp") (NetAddrString addr) in
      check e else Some (0, e, pc) ;;
      send (AUDP <$> u)
  end.
End packets.

#[global] Instance direct_PacketConn {P} `{PacketConn P (option NetAddr)}
    (ResolveUDPAddr : gostring -> gostring -> option UDPAddr * err)
  : PacketConn (directPacketConn P) (option NetAddr) := {
  WriteTo b a pc := WriteTo ResolveUDPAddr b a pc;
  ReadFrom n pc := '(d, m, a, e, p) ← Conn.ReadFrom n (pc_PacketConn pc); Some (d, m, a, e, mkPacketConn p) }.

Definition Parse (u : proxy.URL) : option (option Direct * err) := New.
End proxydirect.

(** ** ssh.go *)

Module proxyssh.
Inductive AuthMethod (G : Type) := Password (pass : gostring) | PublicKeys (signer : G).
Arguments Password {G}. Arguments PublicKeys {G}.

Record ClientConfig (G : Type) := mkConfig { User : gostring; Auth : list (AuthMethod G); Timeout : Z }.
Arguments mkConfig {G}. Arguments User {G}. Arguments Auth {G}. Arguments Timeout {G}.

(** The library's client: the signers [G], the clients [K] over a connection
    [S] of the host's, the channels [T] they open. *)
Class Lib (G K S T : Type) := {
  ReadFile : gostring -> list byte * err;
  ParsePrivateKey : list byte -> option G * err;
  ParsePrivateKeyWithPassphrase : list byte -> gostring -> option G * err;
  NewClientConn : S -> gostring -> ClientConfig G -> option K * err * S;
  Dial : gostring -> gostring -> K -> S -> option T * err * K * S;
  CloseClient : K -> S -> err * K * S;
  CloseChannel : T -> K -> S -> err * T * K * S }.

Record SSH (G : Type) := mkSSH { addr : gostring; config : ClientConfig G }.
Arguments mkSSH {G}. Arguments addr {G}. Arguments config {G}.

(** A channel, its client and the connection under both. *)
Record sshConn (K S T : Type) := mkConn { s_Conn : T; s_client : K; s_raw : S }.
Arguments mkConn {K S T}. Arguments s_Conn {K S T}. Arguments s_client {K S T}. Arguments s_raw {K S T}.

Section ssh.
Context {G K S T : Type} {L : Lib G K S T} `{Closer S}.

(** A nil signer with a nil error is passed on as it is: [None] here. *)
Definition New (addr user pass keyFile passphrase : gostring) : option (option (SSH G) * err) :=
  let auth := if negb (str_eqb pass []) then [Password pass] else [] in
  let done auth := Some (Some (mkSSH addr (mkConfig user auth utils.TCPConnectTimeout)), None) in
  if negb (str_eqb keyFile []) then
    let '(key, e) := ReadFile keyFile in
    match e with
    | Some e => Some (None, Some (ErrWrap (str "ssh: read file") e))
    | None =>
        let '(signer, e) := if negb (str_eqb passphrase []) then ParsePrivateKeyWithPassphrase key passphrase
                            else ParsePrivateKey key in
        match e with
        | Some e => Some (None, Some (ErrWrap (str "ssh: parse private key") e))
        | None => signer ← signer; done (auth ++ [PublicKeys signer])
        end
    end
  else done auth.

Context (dial : Z -> gostring -> gostring -> option S * err).

(** The result, the error, and the host's connection at the end. *)
Definition DialContext (s : SSH G) (ctx : Z) (metadata : Metadata)
  : option (option (sshConn K S T) * err * option S) :=
  let '(c, e) := dial ctx (str "tcp") (addr s) in
  match e with
  | Some e => Some (None, Some (proxysocks5.connectTo (addr s) e), None)
  | None =>
      c ← c;
      let '(client, e, c) := NewClientConn c (addr s) (config s) in
      match e with
      | Some _ => Some (None, e, utils.SafeConnClose (Some c) e)
      | None =>
          client ← client;
          let '(conn, e, client, c) := Dial (str "tcp") (DestinationAddress metadata) client c in
          match e with
          | Some _ =>
              let '(_, client, c) := CloseClient client c in
              Some (None, e, utils.SafeConnClose (Some c) e)
          | None => conn ← conn; Some (Some (mkConn conn client c), None, utils.SafeConnClose (Some c) None)
          end
      end
  end.

#[global] Instance sshConn_Closer : Closer (sshConn K S T) := fun c =>
  let '(e, t, k, s) := CloseChannel (s_Conn c) (s_client c) (s_raw c) in
  let '(_, k, s) := CloseClient k s in
  (e, mkConn t k s).

Definition Parse (u : proxy.URL) : option (option (SSH G) * err) :=
  let q := neturl.Query (proxy.RawQuery u) in
  New (proxy.Host u) (proxy.UserName u) (proxy.UserPassword u)
    (neturl.Get q (str "privateKeyFile")) (neturl.Get q (str "passphrase")).
End ssh.

Definition DialUDP {P} (m : Metadata) : option (option P * err) := Some (None, Some ErrUnsupported).
End proxyssh.

(** ** shadowsocks.go: its URL, its sockets *)

Module proxyssurl.
Import neturl.

(** The method and the password. *)
Definition userInfo (u : proxy.URL) : gostring * gostring :=
  let ss := UserString u in
  if str_eqb ss [] then (str "dummy", [])
  else if proxy.PasswordSet u then (proxy.UserName u, proxy.UserPassword u)
  else match SplitN2 (Base64.DecodeRawURL ss) colon with
       | [method; password] => (method, password)
       | _ => ([], [])
       end.

(** One pair of the plugin's options. *)
Definition option_of (s : gostring) (obfs : gostring * gostring) : gostring * gostring :=
  match SplitN2 s equals with
  | [key; value] =>
      if str_eqb key (str "obfs") then (value, obfs.2)
      else if str_eqb key (str "obfs-host") then (obfs.1, value)
      else obfs
  | _ => obfs
  end.

Definition plugin (u : proxy.URL) : gostring * gostring :=
  fold_left (fun o s => option_of s o) (Split semicolon (QueryUnescape (proxy.RawQuery u)).1) ([], []).

Definition Parse {K B} (L : SSCore.Lib K B) (u : proxy.URL) : option (option (proxyss.Shadowsocks K) * err) :=
  let '(method, password) := userInfo u in
  let '(obfsMode, obfsHost) := plugin u in
  proxyss.New L (proxy.Host u) method password obfsMode obfsHost.

(** The result, the error, and the socket left open without an owner. *)
Definition DialUDP {P K R} (ListenPacket : gostring -> gostring -> option P * err)
    (ResolveUDPAddr : gostring -> gostring -> option UDPAddr * err)
    (g : R) (ss : proxyss.Shadowsocks K) (m : Metadata)
  : option (option (proxyss.ssPacketConn (core.SSPacketConn P K R)) * err * option P) :=
  let '(pc, e) := ListenPacket (str "udp") [] in
  match e with
  | Some e => Some (None, Some (ErrWrap (str "listen packet") e), None)
  | None =>
      pc ← pc;
      let '(udpAddr, e) := ResolveUDPAddr (str "udp") (proxyss.addr ss) in
      match e with
      | Some e => Some (None, Some (ErrWrap (str "resolve udp address " ++ proxyss.addr ss) e), Some pc)
      | None =>
          udpAddr ← udpAddr;
          pc ← core.PacketConn (proxyss.cipher ss) pc g;
          Some (Some (proxyss.mkPacketConn pc udpAddr), None, None)
      end
  end.
End proxyssurl.

(** ** Properties: the buffered reader *)

Module bufiofacts.
Import bufio.

(** A list cut at the first [c] is cut in one way. *)
Lemma cut_unique (c : byte) a b a' b' :
  a ++ c :: b = a' ++ c :: b' -> c ∉ a -> c ∉ a' -> a = a' /\ b = b'.
Proof.
  intros E Ha Ha'. assert (SplitN2 (a ++ c :: b) c = [a; b]) as H1 by by apply SplitN2_two.
  assert (SplitN2 (a' ++ c :: b') c = [a'; b']) as H2 by by apply SplitN2_two.
  rewrite E in H1. by rewrite H1 in H2; injection H2.
Qed.

Lemma cut_after (c : byte) a b l r :
  a ++ b = l ++ c :: r -> c ∉ a -> exists l', l = a ++ l' /\ b = l' ++ c :: r.
Proof.
  intros E Ha. apply app_eq_inv in E as [(k & -> & E)|(k & -> & ->)]; [|by exists k].
  destruct k as [|x k].
  - exists []. by rewrite !app_nil_r.
  - injection E as <- ->. exfalso. apply Ha, elem_of_app. right. by left.
Qed.

Lemma dropCR_cases l : (dropCR l = l /\ last l <> Some CR) \/ l = dropCR l ++ [CR].
Proof.
  unfold dropCR. case_bool_decide as Hl; [right|by left].
  apply last_Some in Hl as [l' ->]. rewrite length_app. cbn.
  by rewrite take_app_le, take_ge by lia.
Qed.

Lemma dropCR_app_CR l : dropCR (l ++ [CR]) = l.
Proof.
  unfold dropCR. rewrite last_snoc, bool_decide_true by done. rewrite length_app. cbn.
  by rewrite take_app_le, take_ge by lia.
Qed.

(** The end of line is in the last piece. *)
Lemma dropCR_app l t : t <> [] \/ last l <> Some CR -> dropCR (l ++ t) = l ++ dropCR t.
Proof.
  intros Ht. destruct t as [|x t _] using rev_ind.
  { destruct Ht as [|Hl]; [done|]. rewrite !app_nil_r. by destruct (dropCR_cases l) as [[-> _]|E];
      [|rewrite E, last_snoc in Hl]. }
  rewrite app_assoc. destruct (decide (x = CR)) as [->|Hx]; [by rewrite !dropCR_app_CR|].
  unfold dropCR. rewrite !last_snoc, !bool_decide_false by congruence. by rewrite app_assoc.
Qed.

(** A full buffer is handed on but for a carriage return at its end. *)
Lemma full_piece buf : defaultBufSize <= len buf ->
  exists t, buf = dropCR buf ++ t /\ drop (length (dropCR buf)) buf = t /\
    (length t < length buf)%nat /\ (length t <= 1)%nat /\ (t <> [] \/ last (dropCR buf) <> Some CR).
Proof.
  intros Hfull. unfold defaultBufSize, len in Hfull.
  destruct (dropCR_cases buf) as [[E1 E2]|E1].
  - exists []. rewrite E1, app_nil_r, drop_ge by lia. split_and!; try done; [cbn; lia..|by right].
  - exists [CR]. split_and!; [done| |cbn; lia|cbn; lia|by left]. rewrite E1 at 2. by rewrite drop_app_length.
Qed.

Section facts.
Context {S : Type} `{ConnOk S} {w : Prop}.

(** One read of a connection into the buffer. *)
Lemma fill_spec (b : BReader S) bs e out :
  Alive w (r_rd b) bs e out -> r_err b = None -> len (r_buf b) < defaultBufSize ->
  (bs = [] /\ exists s', fill b = Some (mkReader (r_buf b) (Some e) s') /\ Alive w s' [] e out) \/
  (exists d bs' s', bs = d ++ bs' /\ d <> [] /\ len d <= defaultBufSize - len (r_buf b) /\
     fill b = Some (mkReader (r_buf b ++ d) None s') /\ Alive w s' bs' e out).
Proof.
  intros [Hd Hw Hs] Hn Hlt. unfold fill, maxConsecutiveEmptyReads. cbn [fill_loop].
  destruct (read_ok _ bs e (defaultBufSize - len (r_buf b)) Hd ltac:(lia)) as (d & er & s' & E & Hl & Hp).
  pose proof (read_frame _ _ _ _ _ E) as [Hf Hwf]. rewrite E. cbn [mbind option_bind].
  destruct er as [e'|].
  - destruct Hp as (-> & -> & -> & Hd'). left. split; [done|]. exists s'.
    rewrite app_nil_r. split; [done|]. split; [done|auto|congruence].
  - destruct Hp as (Hne & bs' & -> & Hd'). right. exists d, bs', s'. split_and!; try done.
    + assert (0 < len d) by (destruct d; [done|len_lia]). by replace (0 <? len d) with true by lia.
    + split; [done|auto|congruence].
Qed.

(** A line that ends, however it is cut into segments and however long. *)
Lemma ReadLine_line fuel : forall acc (b : BReader S) bs e out l rest,
  Alive w (r_rd b) bs e out -> r_err b = None -> len (r_buf b) <= defaultBufSize ->
  r_buf b ++ bs = l ++ LF :: rest -> LF ∉ l -> (2 * length bs + length (r_buf b) + 1 <= fuel)%nat ->
  exists b' bs', ReadLine fuel acc b = Some (acc ++ dropCR l, None, b') /\
    Alive w (r_rd b') bs' e out /\ r_err b' = None /\ len (r_buf b') <= defaultBufSize /\
    r_buf b' ++ bs' = rest /\ bs' `suffix_of` bs.
Proof.
  induction fuel as [|fuel IH]; intros acc b bs e out l rest HL He Hlen Hst Hl Hf; [lia|].
  cbn [ReadLine]. destruct (IndexByte (r_buf b) LF) as [i|] eqn:Ei.
  { apply IndexByte_Some in Ei as (Eb & Hn & _). eexists _, bs. cbn [r_rd r_err r_buf].
    rewrite Eb, <- app_assoc in Hst. apply cut_unique in Hst as [<- <-]; [|done..].
    split_and!; try done. cbn [r_buf]. unfold len in *. rewrite length_drop. lia. }
  apply IndexByte_None in Ei. rewrite He.
  destruct (cut_after _ _ _ _ _ Hst Ei) as (l' & -> & ->). rewrite elem_of_app in Hl.
  destruct (Z.leb_spec defaultBufSize (len (r_buf b))) as [Hfull|Hfull].
  - destruct (full_piece _ Hfull) as (t & Et & -> & Hlt & Hle & Hcase).
    destruct (IH (acc ++ dropCR (r_buf b)) (mkReader t None (r_rd b)) (l' ++ LF :: rest) e out (t ++ l') rest)
      as (b' & bs' & E & HL' & He' & Hlen' & Hst' & Hsuf); cbn [r_rd r_buf r_err]; try done.
    + unfold defaultBufSize, len. lia.
    + by rewrite <- app_assoc.
    + rewrite elem_of_app. intros [Hin|Hin]; [|by auto]. apply Ei. rewrite Et. apply elem_of_app. by right.
    + lia.
    + exists b', bs'. split_and!; try done. rewrite E. do 3 f_equal. rewrite <- app_assoc. f_equal.
      rewrite <- dropCR_app; [by rewrite app_assoc, <- Et|].
      destruct Hcase as [Ht|?]; [left; by destruct t|by right].
  - destruct (fill_spec b _ e out HL He Hfull) as [[E _]|(d & bs' & s' & E & Hne & Hdl & -> & HL')].
    { by destruct l'. }
    cbn [mbind option_bind].
    destruct (IH acc (mkReader (r_buf b ++ d) None s') bs' e out (r_buf b ++ l') rest)
      as (b' & bs'' & E' & HL'' & He' & Hlen' & Hst' & Hsuf); cbn [r_rd r_buf r_err]; try done.
    + len_lia.
    + by rewrite <- !app_assoc, <- E.
    + rewrite elem_of_app. naive_solver.
    + rewrite E, !length_app in *. destruct d; [done|]. cbn in *. lia.
    + exists b', bs''. split_and!; try done. rewrite E. etrans; [done|]. by exists d.
Qed.

(** What is left without an end of line: one last line, or the error. *)
Lemma ReadLine_end fuel : forall acc (b : BReader S) bs e out,
  Alive w (r_rd b) bs e out -> r_err b = None -> len (r_buf b) <= defaultBufSize ->
  LF ∉ r_buf b ++ bs -> (2 * length bs + length (r_buf b) + 2 <= fuel)%nat ->
  exists l er s', ReadLine fuel acc b = Some (l, er, mkReader [] None s') /\
    Alive w s' [] e out /\ (er = None -> r_buf b ++ bs <> []) /\ (er <> None -> er = Some e).
Proof.
  induction fuel as [|fuel IH]; intros acc b bs e out HL He Hlen Hst Hf; [lia|].
  cbn [ReadLine]. rewrite (proj2 (IndexByte_None _ _)) by (rewrite elem_of_app in Hst; auto). rewrite He.
  destruct (Z.leb_spec defaultBufSize (len (r_buf b))) as [Hfull|Hfull].
  - destruct (full_piece _ Hfull) as (t & Et & -> & Hlt & Hle & _).
    destruct (IH (acc ++ dropCR (r_buf b)) (mkReader t None (r_rd b)) bs e out)
      as (l & er & s' & E & HL' & Hne & Her); cbn [r_rd r_buf r_err]; try done.
    + unfold defaultBufSize, len. lia.
    + intros Hin. apply Hst. rewrite Et, <- app_assoc. apply elem_of_app. by right.
    + lia.
    + exists l, er, s'. split_and!; try done. intros _ Hnil. destruct (r_buf b); [|done]. done.
  - destruct (fill_spec b _ e out HL He Hfull) as [(-> & s' & -> & HL')|(d & bs' & s' & -> & Hne & Hdl & -> & HL')];
      cbn [mbind option_bind].
    + destruct fuel as [|fuel]; [lia|]. cbn [ReadLine r_buf r_err r_rd].
      rewrite (proj2 (IndexByte_None _ _)) by (rewrite elem_of_app in Hst; auto).
      destruct (Z.eqb_spec (len (r_buf b)) 0) as [Hz|Hz].
      * exists [], (Some e), s'. split_and!; done.
      * exists (acc ++ r_buf b), None, s'. split_and!; try done. rewrite app_nil_r. intros _ Hn.
        by rewrite Hn in Hz.
    + destruct (IH acc (mkReader (r_buf b ++ d) None s') bs' e out)
        as (l & er & s'' & E' & HL'' & Hne' & Her); cbn [r_rd r_buf r_err]; try done.
      * len_lia.
      * by rewrite <- app_assoc.
      * rewrite !length_app in *. destruct d; [done|]. cbn in *. lia.
      * exists l, er, s''. split_and!; try done. by rewrite app_assoc.
Qed.
End facts.
End bufiofacts.

(** ** Properties: HTTP *)

Module httpfacts.
Import bufio bufiofacts proxyhttp.

Lemma concat_chunks fuel : forall bs, concat (chunks fuel bs) = bs.
Proof.
  induction fuel as [|fuel IH]; intros bs; cbn [chunks concat]; [by rewrite app_nil_r|].
  case_match; cbn [concat]; [by rewrite IH, ztake_zdrop|by rewrite app_nil_r].
Qed.

(** What the server decodes from the credentials is the user and the
    password, cut at the first colon. *)
Theorem basicAuth_roundtrip u p :
  colon ∉ u -> SplitN2 (Base64.DecodeStd (basicAuth u p)) colon = [u; p].
Proof. intros Hu. unfold basicAuth. rewrite Base64.DecodeStd_Encode. by apply SplitN2_two. Qed.

(** ** The exchange, as HTTP has it

    A CONNECT request as a proxy reads it, the credentials by what they decode
    to, and what each status means to the session. *)

Definition eol : gostring := [z2b 13; z2b 10].

Definition basicToken (user pass tok : gostring) : Prop :=
  Base64.DecodeStd tok = user ++ str ":" ++ pass /\ len tok mod 4 = 0 /\ Forall (fun c => 33 <= b2z c < 127) tok.

Definition connectRequest (host user pass : gostring) (b : list byte) : Prop :=
  exists auth,
    b = str "CONNECT " ++ host ++ str " HTTP/1.1" ++ eol ++
        str "Host: " ++ host ++ eol ++
        str "User-Agent: Go-http-client/1.1" ++ eol ++
        auth ++
        str "Proxy-Connection: Keep-Alive" ++ eol ++ eol /\
    (user = [] \/ pass = [] -> auth = []) /\
    (user <> [] -> pass <> [] -> exists tok, basicToken user pass tok /\
       auth = str "Proxy-Authorization: Basic " ++ tok ++ eol).

Inductive Answer : Z -> gostring -> err -> Prop :=
| answer_ok status : Answer 200 status None
| answer_auth status : Answer 407 status (Some (errorsNew "HTTP auth required by proxy"))
| answer_method status : Answer 405 status (Some (errorsNew "CONNECT method not allowed by proxy"))
| answer_other code status : code ∉ [200; 407; 405] ->
    Answer code status (Some (ErrNew (str "HTTP connect status: " ++ status))).

Lemma requestBytes_connect host (h : HTTP) :
  connectRequest host (user h) (pass h) (requestBytes host (authorization h)).
Proof.
  unfold requestBytes, authorization.
  destruct (str_eqb (user h) []) eqn:Eu; [|destruct (str_eqb (pass h) []) eqn:Ep]; cbn [negb andb].
  - apply str_eqb_eq in Eu. exists []. by split_and!; [| |rewrite Eu].
  - apply str_eqb_eq in Ep. exists []. by split_and!; [| |rewrite Ep].
  - apply str_eqb_neq in Eu, Ep. eexists. split; [done|]. split; [by intros [?|?]|]. intros _ _.
    exists (basicAuth (user h) (pass h)). split; [|done].
    destruct (Base64.EncodeStd_shape (user h ++ str ":" ++ pass h)) as [Hl Hp].
    split; [apply Base64.DecodeStd_Encode|by split].
Qed.

Lemma verdict_Answer resp : Answer (StatusCode resp) (Status resp) (verdict resp).
Proof.
  unfold verdict, StatusOK, StatusProxyAuthRequired, StatusMethodNotAllowed. destruct resp as [n t]. cbn.
  destruct (Z.eqb_spec n 200) as [->|]; [constructor|]. destruct (Z.eqb_spec n 407) as [->|]; [constructor|].
  destruct (Z.eqb_spec n 405) as [->|]; [constructor|]. apply answer_other. set_solver.
Qed.

(** A status line as a server writes it. *)
Definition statusOf (code : Z) (reason : gostring) : gostring := Itoa code ++ str " " ++ reason.

Lemma code_digits code : 100 <= code < 1000 ->
  len (Itoa code) = 3 /\ Atoi (Itoa code) = (code, None) /\ head (Itoa code) <> Some neturl.space /\
  neturl.space ∉ Itoa code /\ LF ∉ Itoa code.
Proof.
  intros Hc.
  assert (forallb (fun n => let c := Z.of_nat n in
    (len (Itoa c) =? 3) && bool_decide (Atoi (Itoa c) = (c, None)) &&
    bool_decide (head (Itoa c) <> Some neturl.space) && bool_decide (neturl.space ∉ Itoa c) && bool_decide (LF ∉ Itoa c)) (seq 100 900) = true) as Hall
    by by vm_compute.
  rewrite forallb_forall in Hall. specialize (Hall (Z.to_nat code)). cbv zeta in Hall.
  rewrite Z2Nat.id in Hall by lia. rewrite !andb_true_iff, Z.eqb_eq, !bool_decide_eq_true in Hall.
  destruct Hall as [[[[? ?] ?] ?] ?]; [apply in_seq; lia|by split_and!].
Qed.

Lemma statusLine_written code reason : 100 <= code < 1000 ->
  statusLine (str "HTTP/1.1 " ++ statusOf code reason) = (mkResponse code (statusOf code reason), None).
Proof.
  intros Hc. destruct (code_digits code Hc) as (Hl & Ha & Hh & Hs & _). unfold statusLine.
  assert (SplitN2 (str "HTTP/1.1 " ++ statusOf code reason) neturl.space = [str "HTTP/1.1"; statusOf code reason]) as ->.
  { apply SplitN2_two. split; [done|]. by apply has_byte_false. }
  assert (TrimLeft (statusOf code reason) = statusOf code reason) as ->.
  { unfold statusOf. destruct (Itoa code) as [|x xs]; [done|]. cbn [app TrimLeft].
    rewrite bool_decide_eq_false_2; [done|]. intros ->. by apply Hh. }
  assert ((neturl.Cut (statusOf code reason) neturl.space).1 = Itoa code) as ->.
  { unfold neturl.Cut, statusOf. by rewrite (proj2 (SplitN2_two _ _ (Itoa code) reason)). }
  rewrite Hl, Ha. cbn [Z.eqb negb is_nil orb]. replace (code <? 0) with false by lia. done.
Qed.

Section facts.
Context {S : Type} `{ConnOk S, Closer S, NetHTTP} {w : Prop}.

(** The request is written, or a write of it fails. *)
Lemma RequestWrite_any a auth (rw : S) bs e out host :
  Alive w rw bs e out -> cleanHost a = (host, None) ->
  (exists rw', RequestWrite a auth rw = Some (None, rw') /\ Alive w rw' bs e (out ++ requestBytes host auth)) \/
  (~ w /\ exists ew rw' sent p s1 n, RequestWrite a auth rw = Some (Some ew, rw') /\
     sent `prefix_of` requestBytes host auth /\ Write p s1 = Some (n, Some ew, rw') /\ Alive w rw' bs e (out ++ sent)).
Proof.
  intros HL Hc. unfold RequestWrite. rewrite Hc.
  pose proof (Alive_write_all (chunks (length (requestBytes host auth)) (requestBytes host auth)) _ _ _ _ HL) as Hw.
  by rewrite concat_chunks in Hw.
Qed.

(** One line, whatever is there. *)
Lemma ReadLine_any fuel acc (b : BReader S) bs e out :
  Alive w (r_rd b) bs e out -> r_err b = None -> len (r_buf b) <= defaultBufSize ->
  (2 * length bs + length (r_buf b) + 2 <= fuel)%nat ->
  exists l er b' bs', ReadLine fuel acc b = Some (l, er, b') /\ Alive w (r_rd b') bs' e out /\ r_err b' = None /\
    len (r_buf b') <= defaultBufSize /\ bs' `suffix_of` bs /\
    match er with
    | None => (length (r_buf b' ++ bs') < length (r_buf b ++ bs))%nat /\
        (r_buf b' ++ bs' <> [] -> exists l0, r_buf b ++ bs = l0 ++ LF :: r_buf b' ++ bs' /\ LF ∉ l0 /\ l = acc ++ dropCR l0)
    | Some er => er = e /\ LF ∉ r_buf b ++ bs
    end.
Proof.
  intros HL He Hlen Hf. destruct (IndexByte (r_buf b ++ bs) LF) as [i|] eqn:Ei.
  - apply IndexByte_Some in Ei as (Est & Hn & Hlt). set (l0 := take i _) in *. set (rest := drop _ _) in *.
    destruct (ReadLine_line fuel acc b bs e out l0 rest HL He Hlen Est Hn ltac:(lia))
      as (b' & bs' & E & HL' & He' & Hlen' & Hst' & Hsuf).
    exists (acc ++ dropCR l0), None, b', bs'. rewrite Hst'. split_and!; try done.
    + apply (f_equal length) in Est. rewrite (length_app l0) in Est. cbn [length] in Est. lia.
    + intros _. by exists l0.
  - apply IndexByte_None in Ei.
    destruct (ReadLine_end fuel acc b bs e out HL He Hlen Ei Hf) as (l & er & s' & E & HL' & Hne & Her).
    exists l, er, (mkReader [] None s'), []. cbn [r_buf r_err r_rd app]. split_and!; try done.
    + apply suffix_nil.
    + destruct er as [er|]; [by specialize (Her ltac:(done)) as [= ->]|]. split; [|done].
      specialize (Hne eq_refl). destruct (r_buf b ++ bs); [done|]. cbn. apply Nat.lt_0_succ.
Qed.

(** The lines of the header, whatever is there. *)
Lemma ReadHeader_any fuel : forall lines (b : BReader S) bs e out,
  Alive w (r_rd b) bs e out -> r_err b = None -> len (r_buf b) <= defaultBufSize ->
  (2 * length (r_buf b ++ bs) + 2 <= fuel)%nat ->
  exists er b' bs', ReadHeader fuel lines b = Some (er, b') /\ Alive w (r_rd b') bs' e out /\ bs' `suffix_of` bs /\
    (r_buf b ++ bs = [] -> er <> None).
Proof.
  assert (forall m fuel lines (b : BReader S) bs e out,
    Alive w (r_rd b) bs e out -> r_err b = None -> len (r_buf b) <= defaultBufSize ->
    (length (r_buf b ++ bs) <= m)%nat -> (2 * length (r_buf b ++ bs) + 2 <= fuel)%nat ->
    exists er b' bs', ReadHeader fuel lines b = Some (er, b') /\ Alive w (r_rd b') bs' e out /\ bs' `suffix_of` bs /\
      (r_buf b ++ bs = [] -> er <> None)) as Hgo; [|by intros; eapply (Hgo _ fuel)].
  induction m as [|m IH]; intros fuel' lines b bs e out HL He Hlen Hm Hf;
    destruct fuel' as [|f]; try lia; cbn [ReadHeader];
    (destruct (ReadLine_any (Datatypes.S f) [] b bs e out HL He Hlen) as (l & er & b' & bs' & E & HL' & He' & Hlen' & Hsuf & Hpost);
      [rewrite length_app in *; lia|]); rewrite E; cbn [mbind option_bind].
  all: destruct er as [er|]; [by exists (Some (unexpected er)), b', bs'|].
  all: destruct Hpost as [Hlt _].
  { lia. }
  assert (r_buf b ++ bs <> []) as Hne by (intros Hz; rewrite Hz in Hlt; cbn in Hlt; lia).
  destruct (str_eqb l []); [by exists (transferErr lines), b', bs'|].
  destruct (mimeErr (lines ++ [l])) as [me|]; [by exists (Some me), b', bs'|].
  destruct (IH f (lines ++ [l]) b' bs' e out HL' He' Hlen' ltac:(lia) ltac:(lia))
    as (er & b'' & bs'' & E'' & HL'' & Hsuf'' & _).
  exists er, b'', bs''. split_and!; try done. by etrans.
Qed.

(** Reading any response: the connection has lost a prefix of the stream, and
    a response is accepted only for its first line. *)
Lemma ReadResponse_any fuel (rw : S) bs e out :
  Alive w rw bs e out -> (2 * length bs + 2 <= fuel)%nat ->
  exists resp er b' bs', ReadResponse fuel (NewReader rw) = Some (resp, er, b') /\
    Alive w (r_rd b') bs' e out /\ bs' `suffix_of` bs /\
    (er = None -> exists line more, bs = line ++ LF :: more /\ LF ∉ line /\
       statusLine (dropCR line) = (resp, None)).
Proof.
  intros HL Hf. unfold ReadResponse.
  destruct (ReadLine_any fuel [] (NewReader rw) bs e out HL eq_refl) as (l & er & b' & bs' & E & HL' & He' & Hlen' & Hsuf & Hpost);
    cbn [NewReader r_buf]; [done|cbn; lia|].
  rewrite E. cbn [mbind option_bind].
  destruct er as [er|]; [by exists (mkResponse 0 []), (Some (unexpected er)), b', bs'|].
  destruct Hpost as [Hlt Hcut]. cbn [NewReader r_buf app] in *.
  destruct (statusLine l) as [resp [se|]] eqn:El; [by exists (mkResponse 0 []), (Some se), b', bs'|].
  destruct (ReadHeader_any fuel [] b' bs' e out HL' He' Hlen' ltac:(lia)) as (er & b'' & bs'' & E' & HL'' & Hsuf' & Hne).
  rewrite E'. exists resp, er, b'', bs''. cbn [mbind option_bind]. split_and!; [done|done|by etrans|].
  intros ->. destruct Hcut as (l0 & -> & Hl0 & ->); [by intros Hz; apply (Hne Hz)|]. by eauto.
Qed.

(** A response as a server writes it. *)
Definition line_ok (l : gostring) : Prop := l <> [] /\ LF ∉ l.
Definition lines (ls : list gostring) : list byte := mjoin ((fun l => l ++ crlf) <$> ls).
Definition reply (status : gostring) (hs : list gostring) : list byte := lines (status :: hs) ++ crlf.

Lemma ReadLine_crlf fuel (b : BReader S) bs e out l rest :
  Alive w (r_rd b) bs e out -> r_err b = None -> len (r_buf b) <= defaultBufSize ->
  r_buf b ++ bs = l ++ crlf ++ rest -> LF ∉ l -> (2 * length (r_buf b ++ bs) + 2 <= fuel)%nat ->
  exists b' bs', ReadLine fuel [] b = Some (l, None, b') /\ Alive w (r_rd b') bs' e out /\ r_err b' = None /\
    len (r_buf b') <= defaultBufSize /\ r_buf b' ++ bs' = rest.
Proof.
  intros HL He Hlen Hst Hl Hf.
  destruct (ReadLine_line fuel [] b bs e out (l ++ [CR]) rest HL He Hlen) as (b' & bs' & E & HL' & He' & Hlen' & Hst' & _).
  - by rewrite Hst, <- app_assoc.
  - rewrite elem_of_app, elem_of_cons, elem_of_nil. by intros [|[|]].
  - rewrite length_app in Hf. lia.
  - exists b', bs'. rewrite E, dropCR_app_CR. done.
Qed.

Lemma ReadHeader_lines fuel hs : forall ls (b : BReader S) bs e out rest,
  Alive w (r_rd b) bs e out -> r_err b = None -> len (r_buf b) <= defaultBufSize ->
  r_buf b ++ bs = lines hs ++ crlf ++ rest -> Forall line_ok hs ->
  (forall k, mimeErr (ls ++ take k hs) = None) -> transferErr (ls ++ hs) = None ->
  (2 * length (r_buf b ++ bs) + 2 <= fuel)%nat ->
  exists b' bs', ReadHeader fuel ls b = Some (None, b') /\ Alive w (r_rd b') bs' e out /\
    len (r_buf b') <= defaultBufSize /\ r_buf b' ++ bs' = rest.
Proof.
  revert fuel. induction hs as [|h hs IH]; intros fuel ls b bs e out rest HL He Hlen Hst Hok Hm Ht Hf;
    (destruct fuel as [|f]; [lia|]); cbn [ReadHeader].
  - destruct (ReadLine_crlf (Datatypes.S f) b bs e out [] rest HL He Hlen Hst) as (b' & bs' & E & HL' & _ & Hlen' & Hst');
      [by apply not_elem_of_nil|done|].
    rewrite E. exists b', bs'. cbn [mbind option_bind]. rewrite app_nil_r in Ht. by rewrite (proj2 (str_eqb_eq [] []) eq_refl), Ht.
  - inversion Hok as [|? ? [Hne Hl] Hok']; subst.
    assert (r_buf b ++ bs = h ++ crlf ++ lines hs ++ crlf ++ rest) as Hst1.
    { rewrite Hst. unfold lines. cbn. by rewrite <- !app_assoc. }
    destruct (ReadLine_crlf (Datatypes.S f) b bs e out h _ HL He Hlen Hst1 Hl Hf) as (b' & bs' & E & HL' & He' & Hlen' & Hst').
    rewrite E. cbn [mbind option_bind]. rewrite (proj2 (str_eqb_neq _ _) Hne).
    rewrite (Hm 1%nat : mimeErr (ls ++ [h]) = None). cbn [is_nil].
    apply (IH f (ls ++ [h]) b' bs' e out rest HL' He' Hlen' Hst' Hok').
    + intros k. rewrite <- app_assoc. apply (Hm (Datatypes.S k)).
    + by rewrite <- app_assoc.
    + rewrite Hst'. apply (f_equal length) in Hst1. rewrite (length_app h), (length_app crlf) in Hst1.
      change (length crlf) with 2%nat in Hst1. lia.
Qed.

(** A response with a well-formed head is read; what the proxy sends after the
    empty line is kept, but for what arrived in the buffer with it. *)
Lemma ReadResponse_reply fuel (rw : S) status hs resp rest e out :
  Alive w rw (reply status hs ++ rest) e out ->
  LF ∉ status -> statusLine status = (resp, None) -> Forall line_ok hs ->
  (forall k, mimeErr (take k hs) = None) -> transferErr hs = None ->
  (2 * length (reply status hs ++ rest) + 2 <= fuel)%nat ->
  exists b kept, ReadResponse fuel (NewReader rw) = Some (resp, None, b) /\ rest = r_buf b ++ kept /\
    len (r_buf b) <= defaultBufSize /\ Alive w (r_rd b) kept e out.
Proof.
  intros HL1 Hsl Hs Hok Hm Ht Hf. unfold ReadResponse.
  assert (r_buf (NewReader rw) ++ (reply status hs ++ rest) = status ++ crlf ++ lines hs ++ crlf ++ rest) as Hst.
  { unfold reply, lines. cbn. by rewrite <- !app_assoc. }
  destruct (ReadLine_crlf fuel (NewReader rw) _ e _ status _ HL1 eq_refl ltac:(done) Hst Hsl Hf)
    as (b & bs & E & HL2 & He2 & Hlen2 & Hst2).
  rewrite E. cbn [mbind option_bind]. rewrite Hs. cbn [is_nil].
  destruct (ReadHeader_lines fuel hs [] b bs e _ rest HL2 He2 Hlen2 Hst2 Hok Hm Ht) as (b' & bs' & E' & HL3 & Hlen3 & Hst3).
  { rewrite Hst2. apply (f_equal length) in Hst. rewrite (length_app status), (length_app crlf) in Hst.
    change (length crlf) with 2%nat in Hst. cbn [NewReader r_buf app] in Hst. lia. }
  rewrite E'. by exists b', bs'.
Qed.

(** The exchange, with a well-formed response. *)
Lemma shakeHand_reply fuel (h : HTTP) m (rw : S) host status hs resp rest e out :
  w -> Alive w rw (reply status hs ++ rest) e out -> cleanHost (DestinationAddress m) = (host, None) ->
  LF ∉ status -> statusLine status = (resp, None) -> Forall line_ok hs ->
  (forall k, mimeErr (take k hs) = None) -> transferErr hs = None ->
  (2 * length (reply status hs ++ rest) + 2 <= fuel)%nat ->
  exists rw' lost kept, shakeHand fuel h m rw = Some (verdict resp, rw') /\ rest = lost ++ kept /\
    len lost <= defaultBufSize /\ Alive w rw' kept e (out ++ requestBytes host (authorization h)).
Proof.
  intros Hw HL Hc Hsl Hs Hok Hm Ht Hf. unfold shakeHand.
  destruct (RequestWrite_any _ (authorization h) rw _ e out host HL Hc) as [(s1 & -> & HL1)|[? _]]; [|done].
  destruct (ReadResponse_reply fuel s1 status hs resp rest e _ HL1 Hsl Hs Hok Hm Ht Hf) as (b & kept & E & -> & Hl & HL2).
  cbn [mbind option_bind is_nil]. rewrite E. by exists (r_rd b), (r_buf b), kept.
Qed.

(** The exchange, with any response. *)
Lemma shakeHand_any fuel (h : HTTP) m (s : S) bs e out host :
  Alive w s bs e out -> cleanHost (DestinationAddress m) = (host, None) -> (2 * length bs + 2 <= fuel)%nat ->
  exists er s' rest sent, shakeHand fuel h m s = Some (er, s') /\ rest `suffix_of` bs /\
    Alive w s' rest e (out ++ sent) /\
    (sent = requestBytes host (authorization h) /\
       (er = None -> exists line more resp, bs = line ++ LF :: more /\ LF ∉ line /\
          statusLine (dropCR line) = (resp, None) /\ StatusCode resp = 200) /\
       (forall status hs resp more, bs = reply status hs ++ more ->
          LF ∉ status -> statusLine status = (resp, None) -> Forall line_ok hs ->
          (forall k, mimeErr (take k hs) = None) -> transferErr hs = None ->
          er = verdict resp) \/
     ~ w /\ sent `prefix_of` requestBytes host (authorization h) /\ rest = bs /\
       exists ew p s1 n, er = Some ew /\ Write p s1 = Some (n, Some ew, s')).
Proof.
  intros HL Ec Hf. unfold shakeHand.
  destruct (RequestWrite_any _ (authorization h) s bs e out host HL Ec)
    as [(s1 & E1 & HL1)|(Hw & ew & s1 & sent & p & s2 & n & E1 & Hpre & E & HL1)]; rewrite E1; cbn [mbind option_bind is_nil].
  2:{ exists (Some ew), s1, bs, sent. split_and!; [done..|]. right. split_and!; [done..|]. by exists ew, p, s2, n. }
  destruct (ReadResponse_any fuel s1 bs e _ HL1 Hf) as (resp & er & b' & bs' & E2 & HL2 & Hsuf & Hok).
  assert (forall status hs resp0 more, bs = reply status hs ++ more ->
    LF ∉ status -> statusLine status = (resp0, None) -> Forall line_ok hs ->
    (forall k, mimeErr (take k hs) = None) -> transferErr hs = None ->
    resp = resp0 /\ er = None) as Hrep.
  { intros status hs resp0 more -> Hsl Hs Hhs Hm Ht.
    destruct (ReadResponse_reply fuel s1 status hs resp0 more e _ HL1 Hsl Hs Hhs Hm Ht Hf) as (b & kept & E3 & _).
    rewrite E2 in E3. by injection E3 as -> ->. }
  rewrite E2. cbn [mbind option_bind].
  exists (match er with Some er => Some er | None => verdict resp end), (r_rd b'), bs', (requestBytes host (authorization h)).
  split_and!; [by destruct er|done|done|]. left. split_and!; [done| |].
  - destruct er as [er|]; [done|]. destruct (Hok eq_refl) as (line & more & -> & Hl & Hs).
    intros Hv. exists line, more, resp. split_and!; try done.
    unfold verdict, StatusOK in Hv. destruct (Z.eqb_spec (StatusCode resp) 200); [done|]. by repeat case_match.
  - intros status hs resp0 more Hbs Hsl Hs Hhs Hm Ht. by destruct (Hrep _ _ _ _ Hbs Hsl Hs Hhs Hm Ht) as [-> ->].
Qed.

End facts.

Section dial.
Context {S : Type} `{ConnOk S, Closer S, NetHTTP}.

(** C35: dialling a TCP session through an HTTP proxy.  A refused connection is
    reported; otherwise, whatever the server sends, however it is cut into
    segments and whether or not writes fail, there is no panic and no endless
    loop, and the connection is closed exactly when there is an error.  A
    destination that does not validate as a host is that error, nothing sent.
    Otherwise the server is sent exactly one CONNECT request for the session's
    destination, with the credentials if there are both; there is no error only
    if the first line of the response has status 200; and to any response with
    a well-formed head the result is what its status means, success for 200
    included.  Or a write fails: its error is the result, a prefix of the
    request has been sent and nothing has been read. *)
Theorem http_dial_spec (dial : Z -> gostring -> gostring -> option S * err) fuel (h : HTTP) ctx m :
  match dial ctx (str "tcp") (addr h) with
  | (_, Some e) => DialContext (S := S) dial fuel h ctx m = Some (None, Some (proxysocks5.connectTo (addr h) e))
  | (None, None) => True
  | (Some s, None) => forall bs e, Delivers s bs e -> (2 * length bs + 2 <= fuel)%nat ->
      exists (er : err) s' rest sent,
        DialContext dial fuel h ctx m = Some (Some (if er then (Close s').2 else s'), er) /\
        rest `suffix_of` bs /\ Delivers s' rest e /\ Sent s' = Sent s ++ sent /\
        match cleanHost (DestinationAddress m) with
        | (_, Some ce) => er = Some ce /\ sent = [] /\ rest = bs
        | (host, None) => exists req, connectRequest host (user h) (pass h) req /\
            (sent = req /\
             (er = None -> exists line more resp, bs = line ++ LF :: more /\ LF ∉ line /\
                statusLine (dropCR line) = (resp, None) /\ StatusCode resp = 200) /\
             (forall code reason hs more, 100 <= code < 1000 ->
                bs = reply (str "HTTP/1.1 " ++ statusOf code reason) hs ++ more -> LF ∉ reason -> Forall line_ok hs ->
                (forall k, mimeErr (take k hs) = None) -> transferErr hs = None ->
                Answer code (statusOf code reason) er) \/
             ~ Writable s /\ sent `prefix_of` req /\ rest = bs /\
               exists ew p s1 n, er = Some ew /\ Write p s1 = Some (n, Some ew, s'))
        end
  end.
Proof.
  unfold DialContext. destruct (dial ctx (str "tcp") (addr h)) as [[s|] [e|]]; try done.
  intros bs e HD Hf. cbn [mbind option_bind].
  destruct (cleanHost (DestinationAddress m)) as [host [ce|]] eqn:Ec.
  { exists (Some ce), s, bs, []. unfold shakeHand, RequestWrite. rewrite Ec, app_nil_r. by split_and!. }
  destruct (shakeHand_any fuel h m s bs e (Sent s) host (Alive_any s bs e HD) Ec Hf)
    as (er & s' & rest & sent & Hsh & Hsuf & [HD' _ HS] & Hor).
  rewrite Hsh. exists er, s', rest, sent. cbn [mbind option_bind]. split_and!; [by destruct er|done..|].
  eexists. split; [apply requestBytes_connect|].
  destruct Hor as [(-> & H200 & Hrep)|Hbr]; [left; split_and!; [done..|]|by right].
  intros code reason hs more Hc -> Hlf Hhs Hm Ht.
  rewrite (Hrep (str "HTTP/1.1 " ++ statusOf code reason) hs (mkResponse code (statusOf code reason)) more);
    [apply (verdict_Answer (mkResponse code _))|done| |by apply statusLine_written|done..].
  unfold statusOf. rewrite !elem_of_app. destruct (code_digits code Hc) as (_ & _ & _ & _ & Hd).
  intros [Hx|[Hx|[Hx|Hx]]]; [by apply has_byte_true in Hx|done|by apply has_byte_true in Hx|done].
Qed.

End dial.

(** C9: end to end.  A TCP session of the tunnel through an HTTP proxy that
    answers the CONNECT request with status 200, for any header of it and any
    segments: under any schedule with enough turns, the proxy is sent one
    CONNECT request for the destination, with the credentials if there are
    both, and then exactly the client's bytes; the client is sent exactly what the proxy sends after its
    response, but for at most a buffer of it that came with the response. *)
Theorem http_session {O R} `{HalfCloseOk O, HalfCloseOk R, Closer O, Closer R, LocalAddr R, NetHTTP}
    (dial : Z -> gostring -> gostring -> option R * err) (h : HTTP) fuel uuid id (o : O) (r : R) sched
    host status hs resp bo eo br er out :
  dial tcpConnectTimeout (str "tcp") (addr h) = (Some r, None) ->
  cleanHost (DestinationAddress (idMetadata TCP id)) = (host, None) ->
  Live r (reply status hs ++ br) er out ->
  LF ∉ status -> statusLine status = (resp, None) -> StatusCode resp = 200 -> Forall line_ok hs ->
  (forall k, mimeErr (take k hs) = None) -> transferErr hs = None ->
  (2 * length (reply status hs ++ br) + 2 <= fuel)%nat ->
  Delivers o bo eo -> Writable o -> patient O = true -> patient R = true ->
  (2 * length bo + 5 <= turns true sched)%nat -> (2 * length br + 5 <= turns false sched)%nat ->
  exists o' t lost kept req,
    handleTCPConn sched uuid {| tunnel.DialContext := DialContext dial fuel h |} id o =
      Some ((Close o').2, Some (Close t).2) /\
    connectRequest host (user h) (pass h) req /\
    Sent (t_Conn t) = out ++ req ++ bo /\
    Sent o' = Sent o ++ kept /\ br = lost ++ kept /\ len lost <= 4096.
Proof.
  intros Hdial Hc HL Hsl Hs Hcode Hok Hm Ht Hf Ho Hwo Hpo Hpr Ht1 Ht2.
  apply Live_Alive in HL.
  destruct (shakeHand_reply fuel h (idMetadata TCP id) r host status hs resp br er out I HL Hc Hsl Hs Hok Hm Ht Hf)
    as (r' & lost & kept & Hh & -> & Hlost & HL'). apply Live_Alive in HL'.
  assert (verdict resp = None) as Hv by (unfold verdict; by rewrite Hcode). rewrite Hv in Hh.
  pose proof (handleTCPConn_run {| tunnel.DialContext := DialContext dial fuel h |} uuid id o sched) as Hrun.
  cbn [tunnel.DialContext] in Hrun. unfold DialContext in Hrun at 1. rewrite Hdial in Hrun.
  cbn [mbind option_bind] in Hrun. rewrite Hh in Hrun. cbn [mbind option_bind utils.SafeConnClose] in Hrun.
  destruct (Hrun bo eo kept er Ho (live_delivers _ _ _ _ HL') Ht1)
    as (o' & t & q1 & q2 & ps & E & S1 & _ & S2 & _ & HW & _); [rewrite length_app in Ht2; lia|].
  destruct (HW Hwo (live_writable _ _ _ _ HL')) as [-> ->]; [by rewrite Hpo, Hpr|].
  exists o', t, lost, kept. eexists. split; [done|]. split; [apply requestBytes_connect|].
  rewrite S1, (live_sent _ _ _ _ HL'). by rewrite <- !app_assoc.
Qed.
End httpfacts.

(** ** Properties: SSH *)

Section ssh_facts.
Context {G K S T : Type} `{proxyssh.Lib G K S T, Closer S} (Closed : S -> Prop).
Hypothesis Close_Closed : forall s, Closed (Close s).2.

(** Whatever step of a dial through SSH fails, the host's connection is closed
    in the end; a dial without an error leaves it to the connection returned. *)
Lemma ssh_dial_closes (dial : Z -> gostring -> gostring -> option S * err) (s : proxyssh.SSH G) ctx m c er raw :
  proxyssh.DialContext (T := T) dial s ctx m = Some (c, er, raw) ->
  match er with
  | Some _ => c = None /\ (forall r, raw = Some r -> Closed r)
  | None => exists conn, c = Some conn /\ raw = Some (proxyssh.s_raw conn)
  end.
Proof.
  unfold proxyssh.DialContext. intros E. repeat (case_match; simplify_eq/=; go_steps).
  all: repeat match goal with |- context [match ?e with _ => _ end] => destruct e end; naive_solver.
Qed.
End ssh_facts.

(** ** Properties: the URL of a Shadowsocks server *)

Module ssurlfacts.
Import neturl proxyssurl.

(** [url.QueryEscape]. *)
Definition QueryEscape (s : gostring) : gostring :=
  mjoin ((fun c => if unreserved c then [c] else if bool_decide (c = space) then [plus] else escapeByte c) <$> s).

Lemma unescape_byte c r :
  unescape ((if unreserved c then [c] else if bool_decide (c = space) then [plus] else escapeByte c) ++ r) =
  cons c <$> unescape r.
Proof. destruct c; reflexivity. Qed.

Lemma unescape_escape s : unescape (QueryEscape s) = Some s.
Proof.
  induction s as [|c s IH]; [done|]. change (QueryEscape (c :: s)) with
    ((if unreserved c then [c] else if bool_decide (c = space) then [plus] else escapeByte c) ++ QueryEscape s).
  by rewrite unescape_byte, IH.
Qed.

(** Plain bytes stay. *)
Lemma unescape_plain a s :
  forallb (fun c => negb (bool_decide (c = percent)) && negb (bool_decide (c = plus))) a = true ->
  unescape (a ++ s) = app a <$> unescape s.
Proof.
  induction a as [|c a IH]; intros Ha; [cbn [app]; by destruct (unescape s)|].
  cbn [forallb] in Ha. apply andb_true_iff in Ha as [[H%negb_true_iff H1%negb_true_iff]%andb_true_iff H0].
  cbn [app unescape].  rewrite H, H1, (IH H0). by destruct (unescape s).
Qed.

Lemma Split_none c a : c ∉ a -> Split c a = [a].
Proof.
  induction a as [|x a IH]; [done|]. rewrite not_elem_of_cons. intros [Hx Ha]. cbn.
  by rewrite bool_decide_false, IH by congruence.
Qed.

Lemma Split_app c a b : c ∉ a -> Split c (a ++ c :: b) = a :: Split c b.
Proof.
  induction a as [|x a IH]; cbn.
  - by rewrite bool_decide_true by done.
  - rewrite not_elem_of_cons. intros [Hx Ha]. by rewrite bool_decide_false, IH by congruence.
Qed.

(** The base64 of a URL needs no escape. *)
Lemma escapeUser_base64 bs :
  escapeUser (Base64.EncodeToString Base64.url false bs) = Base64.EncodeToString Base64.url false bs.
Proof.
  assert (Base64.is_alphabet Base64.url) as Hal by by right.
  unfold escapeUser. pose proof (Base64.encode_chars _ bs Hal) as Hc.
  induction Hc as [|c s (i & Hi & ->) _ IH]; [done|]. rewrite fmap_cons. cbn [mjoin list_join].
  assert (userByte (Base64.char Base64.url i) = true) as ->.
  { revert i Hi. apply (Base64.all_six (fun i => userByte (Base64.char Base64.url i))). by vm_compute. }
  cbn [app]. f_equal. apply IH.
Qed.

Lemma SplitN2_key key value : has_byte key equals = false ->
  SplitN2 (key ++ str "=" ++ value) equals = [key; value].
Proof. intros Hk. apply SplitN2_two. split; [done|]. by apply has_byte_false. Qed.

(** C32: a server's URL in the SIP002 form, its user information base64 of the
    method, a colon and the password, its query [plugin=] and the plugin's name
    and options, escaped, makes the proxy of just that method, password, obfs
    mode and obfs host, whatever bytes the password and the options have. *)
Theorem ss_Parse_sip002 {K B} (L : SSCore.Lib K B) u method password plug mode host :
  proxy.UserName u = Base64.EncodeToString Base64.url false (method ++ colon :: password) ->
  proxy.PasswordSet u = false ->
  proxy.RawQuery u = str "plugin=" ++ QueryEscape (plug ++ str ";obfs=" ++ mode ++ str ";obfs-host=" ++ host) ->
  colon ∉ method -> semicolon ∉ plug -> semicolon ∉ mode -> semicolon ∉ host ->
  Parse L u = proxyss.New L (proxy.Host u) method password mode host.
Proof.
  intros Hu Hset Hq Hm Hp Hmo Hh. unfold Parse.
  assert (userInfo u = (method, password)) as ->.
  { unfold userInfo, UserString. rewrite Hset, Hu, app_nil_r, escapeUser_base64.
    rewrite (proj2 (str_eqb_neq _ _)).
    - by rewrite Base64.DecodeRawURL_Encode, (proj2 (SplitN2_two _ _ method password)).
    - intros Hz. apply (f_equal Base64.DecodeRawURL) in Hz. rewrite Base64.DecodeRawURL_Encode in Hz.
      by destruct method. }
  assert (plugin u = (mode, host)) as ->; [|done].
  unfold plugin, QueryUnescape. rewrite Hq, (unescape_plain (str "plugin=")), unescape_escape by done.
  cbn [fmap option_fmap option_map fst].
  change (str "plugin=" ++ plug ++ ?x) with ((str "plugin=" ++ plug) ++ x).
  change (str ";obfs=" ++ mode ++ str ";obfs-host=" ++ host)
    with (semicolon :: (str "obfs=" ++ mode) ++ semicolon :: (str "obfs-host=" ++ host)).
  assert (forall a b, has_byte a semicolon = false -> semicolon ∉ b -> semicolon ∉ a ++ b) as Hfree.
  { intros a b Ha%has_byte_false Hb. rewrite elem_of_app. by intros [|]. }
  rewrite !Split_app, Split_none by (by apply Hfree).
  cbn [fold_left]. unfold option_of.
  rewrite (SplitN2_key (str "plugin") plug eq_refl : SplitN2 (str "plugin=" ++ plug) equals = _).
  cbn [str_eqb].
  by rewrite (SplitN2_key (str "obfs") mode eq_refl : SplitN2 (str "obfs=" ++ mode) equals = _),
    (SplitN2_key (str "obfs-host") host eq_refl : SplitN2 (str "obfs-host=" ++ host) equals = _).
Qed.

(** Opening a packet connection: the only failure that leaves a socket open is
    that of the server's name. *)
Lemma ss_DialUDP_leaks {P K R} ListenPacket ResolveUDPAddr (g : R) (ss : proxyss.Shadowsocks K) m c er (pc : P) :
  DialUDP ListenPacket ResolveUDPAddr g ss m = Some (c, er, Some pc) ->
  c = None /\ (ListenPacket (str "udp") []).1 = Some pc /\
  exists e, (ResolveUDPAddr (str "udp") (proxyss.addr ss)).2 = Some e /\
    er = Some (ErrWrap (str "resolve udp address " ++ proxyss.addr ss) e).
Proof. unfold DialUDP. intros E. repeat (case_match; simplify_eq/=; go_steps). by eauto. Qed.
End ssurlfacts.

(** ** Witnesses *)

Module proxieswitness.
Import bufio proxyhttp httpfacts.

(** Every host validates, every header is well formed. *)
#[local] Instance toyHTTP : NetHTTP := {
  cleanHost h := (h, None); mimeErr _ := None; transferErr _ := None }.

Definition demo_http : HTTP := mkHTTP (str "proxy:8080") (str "user") (str "pass").
Definition ok_line : gostring := str "HTTP/1.1 200 Connection established".
Definition demo_reply : list byte := reply ok_line [str "Via: test"].
Definition demo_segs : list (list byte) := [take 7 demo_reply; drop 7 demo_reply; str "OK"].

Lemma basicAuth_roundtrip_witness :
  colon ∉ str "user" /\ SplitN2 (Base64.DecodeStd (basicAuth (str "user") (str "a:b"))) colon = [str "user"; str "a:b"].
Proof.
  split; [by apply has_byte_false|]. apply basicAuth_roundtrip. by apply has_byte_false.
Defined.

Lemma http_dial_spec_witness :
  let s := dialed demo_segs EOF in
  let dial (_ : Z) (_ _ : gostring) := (Some s, None) in
  let m := idMetadata TCP demoID in
  let bs := concat demo_segs in
  exists s' rest sent,
    DialContext dial 200 demo_http 0 m = Some (Some s', None) /\
    rest `suffix_of` bs /\ Delivers s' rest EOF /\ Sent s' = [] ++ sent /\
    connectRequest (DestinationAddress m) (str "user") (str "pass") sent.
Proof.
  intros s dial m bs. pose proof (http_dial_spec dial 200 demo_http 0 m) as Hd.
  assert (Live s bs EOF []) as HL by (apply dialed_Live; repeat constructor; discriminate).
  destruct (Hd bs EOF) as (er & s' & rest & sent & E & Hsuf & HD & HS & req & Hreq & Hor).
  - apply (live_delivers _ _ _ _ HL).
  - apply Nat.leb_le. reflexivity.
  - destruct Hor as [(-> & _ & Hans)|[Hn _]]; [|by destruct (Hn (live_writable _ _ _ _ HL))].
    assert (Answer 200 (statusOf 200 (str "Connection established")) er) as HA.
    { apply (Hans 200 (str "Connection established") [str "Via: test"] (str "OK")); try reflexivity; try lia.
      - by apply has_byte_false.
      - repeat constructor; [discriminate|by apply has_byte_false]. }
    inversion HA; subst; [|set_solver]. by exists s', rest, req.
Defined.

Lemma http_session_witness :
  let o := dialed [str "GET"] EOF in
  let r := dialed demo_segs EOF in
  let dial (_ : Z) (_ _ : gostring) := (Some r, None) in
  exists o' t lost kept req,
    handleTCPConn (fair 12) (str "id") {| tunnel.DialContext := DialContext dial 200 demo_http |} demoID o =
      Some ((Close o').2, Some (Close t).2) /\
    connectRequest (DestinationAddress (idMetadata TCP demoID)) (str "user") (str "pass") req /\
    Sent (t_Conn t) = [] ++ req ++ str "GET" /\
    Sent o' = Sent o ++ kept /\ str "OK" = lost ++ kept /\ len lost <= 4096.
Proof.
  intros o r dial.
  apply (http_session dial demo_http 200 (str "id") demoID o r (fair 12)
    (DestinationAddress (idMetadata TCP demoID)) ok_line [str "Via: test"]
    (mkResponse 200 (str "200 Connection established")) (str "GET") EOF (str "OK") EOF []); try reflexivity.
  - apply (dialed_Live demo_segs). repeat constructor; discriminate.
  - by apply has_byte_false.
  - repeat constructor; [discriminate|by apply has_byte_false].
  - apply Nat.leb_le. reflexivity.
  - split; [reflexivity|]. split; [|done]. by repeat constructor.
  - done.
  - apply Nat.leb_le. reflexivity.
  - apply Nat.leb_le. reflexivity.
Defined.

(** What comes in the segment of the response is read with it, and is not
    there for the session. *)
Example http_swallows :
  (fun '(e, c) => (e, segs c)) <$>
    shakeHand 200 demo_http (idMetadata TCP demoID) (dialed [demo_reply ++ str "220 ready"; str "more"] EOF) =
  Some (None, [str "more"]).
Proof. vm_compute. reflexivity. Qed.

Definition demo_url : proxy.URL := {|
  proxy.Scheme := str "ss"; proxy.Host := str "server:8388"; proxy.Path := [];
  proxy.UserName := str "YWVzLTEyOC1nY206c2VjcmV0"; proxy.UserPassword := []; proxy.PasswordSet := false;
  proxy.RawQuery := str "plugin=obfs-local%3Bobfs%3Dtls%3Bobfs-host%3Dexample.com" |}.

Lemma ss_Parse_sip002_witness :
  proxyssurl.Parse core.toyLib demo_url =
  proxyss.New core.toyLib (str "server:8388") (str "aes-128-gcm") (str "secret") (str "tls") (str "example.com").
Proof.
  apply (ssurlfacts.ss_Parse_sip002 core.toyLib demo_url (str "aes-128-gcm") (str "secret")
    (str "obfs-local") (str "tls") (str "example.com")); try reflexivity; by apply has_byte_false.
Defined.

(** A password in the clear, and no user information at all. *)
Example userInfo_clear :
  proxyssurl.userInfo (proxy.mkURL (str "ss") (str "h") [] (str "aes-128-gcm") (str "p:w") true []) =
    (str "aes-128-gcm", str "p:w").
Proof. reflexivity. Qed.

Example userInfo_none :
  proxyssurl.userInfo (proxy.mkURL (str "ss") (str "h") [] [] [] false []) = (str "dummy", []).
Proof. reflexivity. Qed.
End proxieswitness.
