(* ===== verification/Main.v ===== *)
(** * Main: package main, and what it links together

    The registrations of the proxies, the global logger that both the program
    and gVisor write through, the device of Windows, and [main]: the flags, the
    configuration file and the engine started and stopped.  The flag parser,
    the file system, the YAML decoder and the decoder of query strings are
    parameters. *)

From S2P Require Import Prelude Net Conn Tunnel Stack Proxy Proxies SSCore Server Engine.

Open Scope Z_scope.

(** ** relay.go, register.go: the proxies of the registry *)

Module register.

(** A proxy of any protocol, over the keys [K] of the ciphers and the signers
    [G] of ssh. *)
Inductive AnyProxy (K G : Type) :=
| PDirect
| PHTTP (p : proxyhttp.HTTP)
| PReject
| PRelay (p : proxyrelay.Relay)
| PShadowsocks (p : proxyss.Shadowsocks K)
| PSocks4 (p : proxysocks4.Socks4)
| PSocks5 (p : proxysocks5.Socks5)
| PSSH (p : proxyssh.SSH G).
Arguments PDirect {K G}. Arguments PHTTP {K G}. Arguments PReject {K G}. Arguments PRelay {K G}.
Arguments PShadowsocks {K G}. Arguments PSocks4 {K G}. Arguments PSocks5 {K G}. Arguments PSSH {K G}.

Section register.
Context {K B G KK S T : Type} (L : SSCore.Lib K B) `{SSH : !proxyssh.Lib G KK S T}.
(** [schema.NewDecoder().Decode] of the relay's options. *)
Context (DecodeNoDelay : gostring -> bool * err).

#[local] Notation any := (AnyProxy K G).
#[local] Notation parser := (proxy.URL -> option (option any * err)).

(** relay.go: Parse *)
Definition relay_Parse (u : proxy.URL) : option (option proxyrelay.Relay * err) :=
  let '(noDelay, e) := DecodeNoDelay (proxy.RawQuery u) in
  check e else Some (None, e) ;;
  proxyrelay.New (proxy.Host u) (proxy.UserName u) (proxy.UserPassword u) noDelay.

Definition reject_Parse (_ : proxy.URL) : option (option any * err) := Some (Some PReject, None).

Definition lift {A} (inj : A -> any) (p : proxy.URL -> option (option A * err)) : parser := fun u =>
  match p u with Some (a, e) => Some (option_map inj a, e) | None => None end.

(** The [init] of each package that register.go imports. *)
Definition direct_init : gostring * parser := (str "direct", lift (fun _ => PDirect) proxydirect.Parse).
Definition http_init : gostring * parser := (str "http", lift PHTTP proxyhttp.Parse).
Definition reject_init : gostring * parser := (str "reject", reject_Parse).
Definition relay_init : gostring * parser := (str "relay", lift PRelay relay_Parse).
Definition ss_init : gostring * parser := (str "ss", lift PShadowsocks (proxyssurl.Parse L)).
Definition socks4_init : gostring * parser := (str "socks4", lift PSocks4 proxysocks4.Parse).
Definition socks5_init : gostring * parser := (str "socks5", lift PSocks5 proxysocks5.Parse).
Definition ssh_init : gostring * parser := (str "ssh", lift PSSH proxyssh.Parse).

Definition registrations : list (gostring * parser) :=
  [direct_init; http_init; reject_init; relay_init; ss_init; socks4_init; socks5_init; ssh_init].
End register.
End register.

(** ** log.go, emitter.go: the logger of the process and of gVisor *)

Module logging.
Import log.

(** What zap does: the [Level()] of a logger, and the effect of a message at a
    level on what has been written, [W]. *)
Class Zap (W : Type) := {
  LoggerLevel : Logger -> Z;
  zap_Logf : Logger -> Z -> gostring -> W -> W }.

(** A level is an [int8]; [Level()] is the minimum enabled level, so that an
    ordinary message below it has no effect. *)
Class ZapOk (W : Type) `{Zap W} : Prop := {
  level_int8 : forall l, -128 <= LoggerLevel l <= 127;
  level_minimum : forall l lvl msg w, lvl < LoggerLevel l -> lvl <= value WarnLevel -> zap_Logf l lvl msg w = w }.

Section logging.
Context {W : Type} `{Zap W}.

(** [logger] is that of [_globalL], [_globalS] and of the emitter; [glogLevel]
    is the level set for gVisor; [out] is what zap has written. *)
Record State := mkState { logger : Logger; glogLevel : Z; out : W }.

(** The critical section of SetLogger. *)
Definition SetLogger (l : Logger) (s : State) : State := mkState l (log.setLogger (LoggerLevel l)) (out s).

(** [Logf] of the global logger. *)
Definition Logf (lvl : Z) (msg : gostring) (s : State) : State :=
  mkState (logger s) (glogLevel s) (zap_Logf (logger s) lvl msg (out s)).

Definition logf (lvl : Level) (msg : gostring) (s : State) : State := Logf (value lvl) msg s.
Definition Debugf := logf DebugLevel.
Definition Infof := logf InfoLevel.
Definition Warnf := logf WarnLevel.
Definition Errorf := logf ErrorLevel.
Definition Fatalf := logf FatalLevel.

Definition emitter_logf (level : Z) (msg : gostring) (s : State) : State :=
  Logf (emitLevel level) (str "[STACK] " ++ msg) s.

Definition Emit (level : Z) (msg : gostring) (s : State) : State := emitter_logf level msg s.

Definition init (production : Logger) (w : W) : State := SetLogger production (mkState Nop 1 w).
End logging.
Arguments State : clear implicits.
End logging.

(** ** parse_windows.go *)

Module windows.
Section windows.
Context {P D S : Type} (env : engine.Env P D S).
Context (DecodeGUID : gostring -> gostring * err) (GUIDFromString : gostring -> gostring * err).

(** The GUID that the next adapter is given, and [wun.WintunTunnelType]. *)
Definition init : gostring := version.Name.

Definition parseTUN (u : proxy.URL) (mtu : Z) (requested : option gostring)
  : option D * err * option gostring :=
  let '(GUID, e) := DecodeGUID (proxy.RawQuery u) in
  match e with
  | Some e => (None, Some e, requested)
  | None =>
      let '(requested, e) :=
        if negb (str_eqb GUID []) then
          let '(guid, e) := GUIDFromString GUID in
          match e with Some e => (requested, Some e) | None => (Some guid, None) end
        else (requested, None) in
      match (e : err) with
      | Some e => (None, Some e, requested)
      | None => (engine.openTUN env (proxy.Host u) mtu, requested)
      end
  end.

(** fd_windows.go: there is no such device. *)
Definition fdbased_Open (name : gostring) (mtu offset : Z) : option D * err := (None, Some ErrUnsupported).
End windows.
End windows.

(** ** main.go *)

Module cmd.
Import engine.

(** What the flag parser has found: the flags that were given. *)
Record Flags := mkFlags {
  fwmark : option Z; mtu : option Z; udp_timeout : option Z; config : option gostring;
  device : option gostring; proxy_url : option gostring; interface : option gostring;
  loglevel : option gostring; restapi : option gostring; tcp_sndbuf : option gostring;
  tcp_rcvbuf : option gostring; tcp_auto_tuning : option bool; multicast_groups : option (list gostring);
  tun_pre_up : option gostring; tun_post_up : option gostring; version_flag : option bool }.

(** [init]: the key, the configuration file and the version flag, with their
    defaults. *)
Definition init (f : Flags) : Key * gostring * bool :=
  (mkKey (default 0 (mtu f)) (default 0 (fwmark f)) (default [] (proxy_url f)) (default [] (restapi f))
     (default [] (device f)) (default (str "info") (loglevel f)) (default [] (interface f))
     (default false (tcp_auto_tuning f)) (default [] (tcp_sndbuf f)) (default [] (tcp_rcvbuf f))
     (default [] (multicast_groups f)) (default [] (tun_pre_up f)) (default [] (tun_post_up f))
     (default 0 (udp_timeout f)),
   default [] (config f), default false (version_flag f)).

Section main.
Context {P D S C U : Type} `{GVisor S} (env : Env P D S) (build : version.Build).
(** [os.ReadFile], and [yaml.Unmarshal] into a key: what it has written by an
    error stays. *)
Context (ReadFile : gostring -> list byte * err) (Unmarshal : list byte -> Key -> Key * err).

(** How the process ends. *)
Inductive exit := Exit (code : Z).

Record Process := mkProcess { stdout : list gostring; fatal : option gostring; eng : Engine P D S C U }.

Definition Fatalf (msg : gostring) (p : Process) : option (Process * exit) :=
  Some (mkProcess (stdout p) (Some msg) (eng p), Exit 1).

(** engine.go: Start and Stop; [stop] has no error of its own. *)
Definition Start (p : Process) : option (Process * option exit) :=
  '(r, e) ← start env (eng p);
  let p := mkProcess (stdout p) (fatal p) e in
  match r with
  | inl _ => Some (p, None)
  | inr _ => Some (mkProcess (stdout p) (Some (str "[ENGINE] failed to start")) e, Some (Exit 1))
  end.

Definition Stop (p : Process) : Process := mkProcess (stdout p) (fatal p) (engine.stop (eng p)).

(** [main] up to the signal and after it; [None] is a panic.  A fatal error
    exits the process, so that the deferred Stop does not run. *)
Definition main (f : Flags) (p : Process) : option (Process * exit) :=
  let '(key, configFile, versionFlag) := init f in
  if versionFlag then
    Some (mkProcess (stdout p ++ [version.String build; version.BuildString build]) (fatal p) (eng p), Exit 0)
  else
    let '(key, failed) :=
      if negb (str_eqb configFile []) then
        let '(data, e) := ReadFile configFile in
        match e with
        | Some _ => (key, Some (str "Failed to read config file"))
        | None =>
            let '(key, e) := Unmarshal data key in
            match e with Some _ => (key, Some (str "Failed to unmarshal config file")) | None => (key, None) end
        end
      else (key, None) in
    match failed with
    | Some msg => Fatalf msg p
    | None =>
        let p := mkProcess (stdout p) (fatal p) (Insert (Some key) (eng p)) in
        '(p, ex) ← Start p;
        match ex with
        | Some ex => Some (p, ex)
        | None => Some (Stop p, Exit 0)
        end
    end.
End main.
End cmd.

(** ** Properties: the registry of the program *)

Module registerfacts.
Import register proxyfacts engine.

Section facts.
Context {K B G KK S T : Type} (L : SSCore.Lib K B) `{SSH : !proxyssh.Lib G KK S T}.
Context (DecodeNoDelay : gostring -> bool * err).

#[local] Notation regs := (registrations (S := S) (T := T) L DecodeNoDelay).

(** The protocols of a list of registrations with distinct names, whatever
    their order. *)
Lemma pick_registered {P} (rs : list (gostring * (proxy.URL -> option (option P * err)))) n :
  NoDup rs.*1 ->
  (forall f, (n, f) ∈ rs -> proxy.parse (proxy.pick n (registered rs)) = Some f) /\
  (n ∉ rs.*1 -> proxy.parse (proxy.pick n (registered rs)) = None).
Proof.
  rewrite registered_map. induction rs as [|[m g] rs IH]; cbn [fmap list_fmap fst snd proxy.pick proxy.name].
  { intros _. split; [by intros f ?%elem_of_nil|done]. }
  intros [Hm Hnd]%NoDup_cons. destruct (IH Hnd) as [I1 I2].
  destruct (str_eqb m n) eqn:E.
  - apply str_eqb_eq in E as ->. split.
    + intros f [[= ->]|Hf]%elem_of_cons; [done|]. exfalso. apply Hm, list_elem_of_fmap. by exists (n, f).
    + intros Hn. exfalso. apply Hn. by left.
  - apply str_eqb_neq in E. split.
    + intros f [[= -> ->]|Hf]%elem_of_cons; [done|]. by apply I1.
    + intros Hn. apply I2. intros Hin. apply Hn. by right.
Qed.

Lemma names : regs.*1 =
  [str "direct"; str "http"; str "reject"; str "relay"; str "ss"; str "socks4"; str "socks5"; str "ssh"].
Proof. done. Qed.

Lemma names_NoDup : NoDup regs.*1.
Proof. rewrite names. apply (bool_decide_unpack _). by vm_compute. Qed.

(** An address that the SOCKS5 constructor indexes out of range. *)
Definition short_address (u : proxy.URL) : Prop :=
  len (if str_eqb (proxy.Host u) [] then proxy.Path u else proxy.Host u) < 2.

Lemma socks5_Parse_total u : is_Some (proxysocks5.Parse u) \/ short_address u.
Proof.
  unfold proxysocks5.Parse, short_address.
  set (a := if str_eqb (proxy.Host u) [] then proxy.Path u else proxy.Host u). clearbody a.
  destruct a as [|x [|y a]]; [by right|by right|left].
  unfold proxysocks5.New. rewrite !len_cons. pose proof (len_nonneg a).
  assert ((x :: y :: a).[1] = Some y) as -> by done. cbn [mbind option_bind].
  destruct (2 <? 1 + (1 + len a)); [destruct (b2z y =? 64)|]; cbn [mbind option_bind];
    try destruct (b2z y =? 0); rewrite ?slice_ok by (rewrite ?len_cons; lia); by eexists.
Qed.

(** Signers that are parsed without an error are not nil. *)
Definition signers_ok : Prop :=
  (forall key, (proxyssh.ParsePrivateKey key).2 = None -> is_Some (proxyssh.ParsePrivateKey key).1) /\
  (forall key pw, (proxyssh.ParsePrivateKeyWithPassphrase key pw).2 = None ->
     is_Some (proxyssh.ParsePrivateKeyWithPassphrase key pw).1).

Lemma ssh_Parse_total u : signers_ok -> is_Some (proxyssh.Parse u).
Proof.
  intros [H1 H2]. unfold proxyssh.Parse, proxyssh.New.
  destruct (negb _); [|by eexists]. destruct (proxyssh.ReadFile _) as [key [e|]]; [by eexists|].
  destruct (negb _).
  - specialize (H2 key (neturl.Get (neturl.Query (proxy.RawQuery u)) (str "passphrase"))).
    destruct (proxyssh.ParsePrivateKeyWithPassphrase _ _) as [signer [e|]]; [by eexists|].
    destruct (H2 eq_refl) as [g Hg]. cbn in Hg. subst signer. by eexists.
  - specialize (H1 key). destruct (proxyssh.ParsePrivateKey _) as [signer [e|]]; [by eexists|].
    destruct (H1 eq_refl) as [g Hg]. cbn in Hg. subst signer. by eexists.
Qed.

Lemma ss_Parse_total `{HL : LibOk K B L} u : is_Some (proxyssurl.Parse L u).
Proof.
  unfold proxyssurl.Parse. destruct (proxyssurl.userInfo u) as [method pw].
  destruct (proxyssurl.plugin u) as [mode host]. unfold proxyss.New.
  pose proof (core.PickCipher_cases L method [] pw) as Hc. cbn zeta in Hc.
  destruct (str_eqb _ _); [rewrite Hc; by eexists|].
  destruct (core.keySize L _) as [n|]; [|rewrite Hc; by eexists].
  destruct Hc as (k & _ & Hk). destruct (len k =? n); [destruct Hk as (c & -> & _)|rewrite Hk]; by eexists.
Qed.

Lemma lift_total {A} (inj : A -> AnyProxy K G) p (u : proxy.URL) : is_Some (p u) -> is_Some (lift inj p u).
Proof. intros [[a e] E]. unfold lift. rewrite E. by eexists. Qed.

Lemma registered_parse rs u : rs ≡ₚ regs ->
  (forall f, (proxy.Scheme u, f) ∈ regs -> proxy.Parse (registered rs) u = f u) /\
  (proxy.Scheme u ∉ regs.*1 -> proxy.Parse (registered rs) u = Some (None, Some proxy.ErrProtocol)).
Proof.
  intros Hp. destruct (pick_registered rs (proxy.Scheme u)) as [H1 H2].
  { rewrite Hp. apply names_NoDup. }
  split.
  - intros f Hf. unfold proxy.Parse. by rewrite (H1 f) by by rewrite Hp.
  - intros Hn. unfold proxy.Parse. by rewrite H2 by by rewrite Hp.
Qed.

Lemma registered_total `{HL : LibOk K B L} rs u : signers_ok -> rs ≡ₚ regs ->
  is_Some (proxy.Parse (registered rs) u) \/ (proxy.Scheme u = str "socks5" /\ short_address u).
Proof.
  intros Hsig Hp. destruct (registered_parse rs u Hp) as [Hin Hout].
  destruct (decide (proxy.Scheme u ∈ regs.*1)) as [Hs|Hs]; [|left; rewrite Hout by done; by eexists].
  apply list_elem_of_fmap in Hs as ([n f] & E & Hf). cbn [fst] in E. rewrite <- E in Hf. rewrite (Hin f Hf).
  unfold registrations in Hf. rewrite !elem_of_cons, elem_of_nil in Hf.
  destruct Hf as [Hf|[Hf|[Hf|[Hf|[Hf|[Hf|[Hf|[Hf|[]]]]]]]]]; injection Hf as Hn ->;
    try (left; by eexists).
  - left. unfold lift, relay_Parse. destruct (DecodeNoDelay _) as [? []]; by eexists.
  - left. apply lift_total, ss_Parse_total.
  - destruct (socks5_Parse_total u); [left; by apply lift_total|right; done].
  - left. by apply lift_total, ssh_Parse_total.
Qed.

(** C36: the protocols of the program.  In whatever order the packages are
    initialised, a URL is parsed by the one parser of its scheme, and a scheme
    of none of the eight is an error; no URL makes the parse panic, but for a
    SOCKS5 address of less than two bytes. *)
Theorem program_protocols `{HL : LibOk K B L} rs u :
  signers_ok -> rs ≡ₚ regs ->
  (forall f, (proxy.Scheme u, f) ∈ regs -> proxy.Parse (registered rs) u = f u) /\
  (proxy.Scheme u ∉ regs.*1 -> proxy.Parse (registered rs) u = Some (None, Some proxy.ErrProtocol)) /\
  (is_Some (proxy.Parse (registered rs) u) \/ (proxy.Scheme u = str "socks5" /\ short_address u)).
Proof.
  intros Hsig Hp. destruct (registered_parse rs u Hp) as [Hin Hout].
  split; [done|]. split; [done|]. by apply registered_total.
Qed.

(** C38: starting the program's engine returns, whatever the key and the state
    of the engine, unless the key names a SOCKS5 proxy with an address of less
    than two bytes, for which its constructor panics: given a parser of levels
    that answers only zap's own, loggers of zap that build, and the convention
    that a URL, an address or a signer without an error is there. *)
Theorem start_total {D St C U} `{GVisor St} `{HL : LibOk K B L} (env : Env (AnyProxy K G) D St) rs
    (e : Engine (AnyProxy K G) D St C U) :
  protocols env = registered rs -> rs ≡ₚ regs -> signers_ok ->
  (forall s l, zap_ParseLevel env s = (l, None) -> l <> log.InvalidLevel) ->
  (forall l, zap_Build env l = None) ->
  (forall s, (url_Parse env s).2 = None -> is_Some (url_Parse env s).1) ->
  (forall s, (ResolveTCPAddr env s).2 = None -> is_Some (ResolveTCPAddr env s).1) ->
  is_Some (start env e) \/
  exists k u, defaultKey e = Some k /\ spells env (str "socks5") (engine.Proxy k) u /\
    proxy.Scheme u = str "socks5" /\ short_address u.
Proof.
  intros Hps Hrs Hsig Hlevel Hbuild Hurl Haddr.
  destruct (start_returns env Hlevel Hbuild Hurl Haddr e) as [|(k & u & Hk & Hu & Hn)]; [by left|right].
  rewrite Hps in Hn. exists k, u. destruct (registered_total rs u Hsig Hrs) as [[x Hx]|[]]; [congruence|done].
Qed.
End facts.
End registerfacts.

(** ** Properties: the logger *)

Module loggingfacts.
Import log logging.

(** The level a message of gVisor is logged at: warning, info and debug. *)
Lemma emitLevel_small level : 0 <= level <= 2 -> emitLevel level = 1 - level.
Proof. intros Hl. unfold emitLevel. rewrite Z.mod_small by lia. lia. Qed.

(** gVisor's threshold lets through every message that the logger writes. *)
Lemma setLogger_passes v level : -128 <= v <= 127 -> 0 <= level <= 2 -> v <= 1 - level -> level <= log.setLogger v.
Proof. intros Hv Hl Hle. unfold log.setLogger. rewrite Z.mod_small by lia. lia. Qed.

(** C37: gVisor's messages.  gVisor hands a message of its own (warning 0, info
    1, debug 2) to its target, the emitter, exactly when its level is at most
    the one that was set; [IsLogging] is that test.  After SetLogger, whether or
    not it does, and although the level that was set wraps around for the levels
    above a warning, what the message does is exactly what a message of zap at
    the corresponding level (warning 1, info 0, debug -1) with the prefix does:
    none that the logger writes is lost, none is written that it does not. *)
Theorem glog_exact {W} `{ZapOk W} (IsLogging : Z -> Z -> bool) l level msg (s : State W) :
  (forall t lvl, IsLogging t lvl = true <-> lvl <= t) -> 0 <= level <= 2 ->
  let s := SetLogger l s in
  (if IsLogging (glogLevel s) level then Emit level msg s else s) =
    mkState l (glogLevel s) (zap_Logf l (1 - level) (str "[STACK] " ++ msg) (out s)).
Proof.
  intros Hg Hl s1. unfold Emit, emitter_logf, Logf. rewrite emitLevel_small by done.
  destruct (IsLogging (glogLevel s1) level) eqn:E; [done|].
  assert (~ level <= glogLevel s1) as Hn by (rewrite <- Hg; congruence).
  rewrite level_minimum; [done| |unfold value; lia].
  apply Z.lt_nge. intros Hle. apply Hn. apply setLogger_passes; [apply level_int8|lia..].
Qed.
End loggingfacts.

(** ** Properties: the life of the process *)

Module cmdfacts.
Import engine cmd.

Section facts.
Context {P D S C U : Type} `{GVisor S} (env : Env P D S) (build : version.Build).
Context (ReadFile : gostring -> list byte * err) (Unmarshal : list byte -> Key -> Key * err).

(** The key of a run: the flags, then the file over them; [None] when the file
    cannot be read or decoded. *)
Definition resolve (f : Flags) : option Key :=
  let '(key, configFile, _) := cmd.init f in
  if str_eqb configFile [] then Some key
  else
    let '(data, e) := ReadFile configFile in
    if (e : err) then None else let '(key, e) := Unmarshal data key in if (e : err) then None else Some key.

(** The events of [stop] on a started engine. *)
Definition closing (d : option D) (st : option S) : list (event D S) :=
  match d with Some d => [CloseDevice d] | None => [] end ++
  match st with Some st => [CloseStack st; WaitStack st] | None => [] end.

Lemma stop_events (e : Engine P D S C U) :
  events (stop e) = events e ++ closing (defaultDevice e) (defaultStack e).
Proof.
  unfold stop, closing. destruct (defaultDevice e); cbn; destruct (defaultStack e); cbn;
    by rewrite ?app_nil_r, <- ?app_assoc.
Qed.

(** The life of the process.  Asked for its version it prints two lines and
    does nothing else.  Otherwise it ends with 1 and a message when the
    configuration cannot be read or the engine does not start with its key,
    and has then closed nothing; and it ends with 0 only after a start that
    succeeded with the key of the flags and the file, when the device of the
    engine has been closed and then its stack, which has been waited for. *)
Theorem main_life (f : Flags) (p0 : option P) p' code :
  main (C := C) (U := U) env build ReadFile Unmarshal f (mkProcess [] None (initial p0)) = Some (p', Exit code) ->
  if (cmd.init f).2 then
    code = 0 /\ eng p' = initial p0 /\ stdout p' = [version.String build; version.BuildString build]
  else
    stdout p' = [] /\
    match resolve f with
    | None => code = 1 /\ eng p' = initial p0 /\ is_Some (fatal p')
    | Some k =>
        exists r e', start env (Insert (Some k) (initial p0)) = Some (r, e') /\
        match r with
        | inr _ => code = 1 /\ eng p' = e' /\ is_Some (fatal p') /\
            Forall (fun ev => is_close ev = false) (events e')
        | inl _ => code = 0 /\ fatal p' = None /\ exists st, defaultStack e' = Some st /\
            events (eng p') = events e' ++ closing (defaultDevice e') (Some st)
        end
    end.
Proof.
  unfold main, resolve. destruct (cmd.init f) as [[key configFile] []]; cbn [snd].
  { by intros [= <- <-]. }
  set (res := if negb (str_eqb configFile []) then _ else _). intros Hm.
  assert (match (if str_eqb configFile [] then Some key else
    let '(data, e) := ReadFile configFile in
    if (e : err) then None else let '(key, e) := Unmarshal data key in if (e : err) then None else Some key)
    with Some k => res = (k, None) | None => exists k msg, res = (k, Some msg) end) as Hres.
  { unfold res. destruct (str_eqb configFile []); cbn [negb]; [done|].
    destruct (ReadFile configFile) as [data [er|]]; [by eauto|].
    destruct (Unmarshal data key) as [k [er|]]; [by eauto|done]. }
  clearbody res. destruct (if str_eqb configFile [] then _ else _) as [k|].
  2:{ destruct Hres as (k & msg & ->). injection Hm as <- <-. by eauto 6. }
  rewrite Hres in Hm. unfold Start in Hm. cbn [eng stdout fatal] in Hm.
  destruct (start env (Insert (Some k) (initial p0))) as [[r e']|] eqn:Es; [|done].
  cbn [mbind option_bind] in Hm. destruct r as [[]|er].
  - injection Hm as <- <-. split; [done|]. exists (inl tt), e'. split; [done|]. split; [done|]. split; [done|].
    pose proof (start_run env _ _ _ Es) as Hs. cbn in Hs. destruct Hs as [_ _ _ _ _ _ _ Hdone].
    destruct (Hdone eq_refl) as (_ & _ & groups & p & d & opts & nicID & s & st & _ & _ & _ & _ & _ & _ & _ & _ & Hst).
    exists st. split; [done|]. cbn. by rewrite stop_events, Hst.
  - injection Hm as <- <-. split; [done|]. exists (inr er), e'. split; [done|]. split; [done|]. split; [done|].
    split; [by eexists|]. pose proof (start_run env _ _ _ Es) as Hs. cbn in Hs.
    destruct Hs as [_ _ _ _ _ _ (api & pre & opened & post & -> & Ha & Hp & Ho & Hpo & _) _]. cbn.
    unfold ran in *. rewrite !Forall_app.
    destruct Ha as [->|(h & t & ->)], Ho as [->|[d ->]], Hp as [->|(_ & [->|(? & _ & _ & ->)])],
      Hpo as [->|(? & _)]; try done; split_and!; by repeat constructor.
Qed.
End facts.
End cmdfacts.

(** ** Witnesses *)

Module mainwitness.
Import register registerfacts proxyfacts.

#[local] Instance toySSH : proxyssh.Lib unit unit unit unit := {
  proxyssh.ReadFile _ := ([], Some EOF);
  proxyssh.ParsePrivateKey _ := (Some tt, None);
  proxyssh.ParsePrivateKeyWithPassphrase _ _ := (Some tt, None);
  proxyssh.NewClientConn c _ _ := (Some tt, None, c);
  proxyssh.Dial _ _ k c := (Some tt, None, k, c);
  proxyssh.CloseClient k c := (None, k, c);
  proxyssh.CloseChannel t k c := (None, t, k, c) }.

Definition toyDecode (_ : gostring) : bool * err := (false, None).

Lemma program_protocols_witness :
  let regs := registrations (S := unit) (T := unit) core.toyLib toyDecode in
  let u := proxy.mkURL (str "ssh") (str "host:22") [] [] [] false [] in
  let rs := reverse regs in
  (forall f, (proxy.Scheme u, f) ∈ regs -> proxy.Parse (registered rs) u = f u) /\
  (proxy.Scheme u ∉ regs.*1 -> proxy.Parse (registered rs) u = Some (None, Some proxy.ErrProtocol)) /\
  (is_Some (proxy.Parse (registered rs) u) \/ (proxy.Scheme u = str "socks5" /\ short_address u)).
Proof.
  intros regs u rs. refine (program_protocols (HL := core.toyLib_ok) core.toyLib toyDecode rs u _ _).
  - split; intros; by eexists.
  - apply reverse_Permutation.
Defined.

(** The program's registry on the host of the engine's witnesses. *)
Definition toyProgramEnv : engine.Env (AnyProxy unit unit) gostring unit := {|
  engine.zap_ParseLevel := engine.zap_ParseLevel engine.toyEnv;
  engine.zap_Build := engine.zap_Build engine.toyEnv;
  engine.InterfaceByName := engine.InterfaceByName engine.toyEnv;
  engine.url_Parse := engine.url_Parse engine.toyEnv;
  engine.UserString := engine.UserString engine.toyEnv;
  engine.ResolveTCPAddr := engine.ResolveTCPAddr engine.toyEnv;
  engine.isIOS := false;
  engine.openFD := engine.openFD engine.toyEnv;
  engine.openTUN := engine.openTUN engine.toyEnv;
  engine.shlex_Split := engine.shlex_Split engine.toyEnv;
  engine.execOutput := engine.execOutput engine.toyEnv;
  engine.RAMInBytes := engine.RAMInBytes engine.toyEnv;
  engine.newStack := engine.newStack engine.toyEnv;
  engine.protocols := registered (registrations (S := unit) (T := unit) core.toyLib toyDecode) |}.

Lemma start_total_witness :
  is_Some (engine.start toyProgramEnv
    (engine.Insert (Some (engine.toyKey (str "http://host"))) (engine.initial None : engine.Engine _ _ _ nat nat))).
Proof.
  set (e := engine.Insert _ _).
  destruct (start_total (HL := core.toyLib_ok) core.toyLib toyDecode toyProgramEnv
    (registrations (S := unit) (T := unit) core.toyLib toyDecode) e) as [Hs|(k & u & Hk & Hu & Hsch & _)].
  - reflexivity.
  - reflexivity.
  - split; intros; by eexists.
  - by intros s l [= <-].
  - done.
  - intros s _. by eexists.
  - intros s _. by eexists.
  - exact Hs.
  - injection Hk as <-. vm_compute in Hu. injection Hu as <-. vm_compute in Hsch. discriminate Hsch.
Defined.

(** A zap that writes the messages from the level of the logger on. *)
#[local] Instance toyZap : logging.Zap (list (Z * gostring)) := {
  logging.LoggerLevel l :=
    log.value (match l with log.Nop => log.InvalidLevel | log.Development => log.DebugLevel | log.Production l => l end);
  logging.zap_Logf l lvl msg w :=
    if log.value (match l with log.Nop => log.InvalidLevel | log.Development => log.DebugLevel | log.Production l => l end) <=? lvl
    then w ++ [(lvl, msg)] else w }.

#[local] Instance toyZap_ok : logging.ZapOk (list (Z * gostring)).
Proof.
  split.
  - by intros [| |[]].
  - intros l lvl msg w Hl _. cbn in *. by destruct (Z.leb_spec (log.value match l with
      | log.Nop => log.InvalidLevel | log.Development => log.DebugLevel | log.Production l => l end) lvl); [lia|].
Defined.

(** Two messages of gVisor: with the level "error", whose threshold lets all
    through, nothing is written; with "warn", the warning is. *)
Lemma glog_exact_witness :
  let glog level msg (s : logging.State (list (Z * gostring))) :=
    if level <=? logging.glogLevel s then logging.Emit level msg s else s in
  let s0 := logging.init (log.Production log.InfoLevel) [] in
  let quiet := logging.SetLogger (log.Production log.ErrorLevel) s0 in
  let warn := logging.SetLogger (log.Production log.WarnLevel) s0 in
  (2 <=? logging.glogLevel quiet) = true /\ logging.out (glog 2 (str "x") quiet) = [] /\
  logging.out (glog 0 (str "y") warn) = [(1, str "[STACK] y")].
Proof.
  intros glog s0 quiet warn. split; [reflexivity|]. unfold glog, quiet, warn. split.
  - rewrite (loggingfacts.glog_exact (fun t lvl => lvl <=? t) (log.Production log.ErrorLevel) 2 (str "x") s0);
      [reflexivity|intros; apply Z.leb_le|lia].
  - rewrite (loggingfacts.glog_exact (fun t lvl => lvl <=? t) (log.Production log.WarnLevel) 0 (str "y") s0);
      [reflexivity|intros; apply Z.leb_le|lia].
Defined.

(** A run with a proxy and a device, on the host of the engine's witnesses. *)
Definition toyFlags : cmd.Flags :=
  cmd.mkFlags None None None (Some (str "a.yaml")) (Some (str "tun0")) (Some (str "host:1080")) None None None None None
    None None None None None.

Definition toyBuild : version.Build :=
  version.mkBuild (str "v2.6.0") (str "abc") (str "linux") (str "amd64") (str "go1.24") (Some []).

Lemma main_life_witness :
  let main := cmd.main (C := nat) (U := nat) engine.toyEnv toyBuild (fun _ => ([], None)) (fun _ k => (k, None)) toyFlags
    (cmd.mkProcess [] None (engine.initial None)) in
  exists p' (e' : engine.Engine unit gostring unit nat nat) st, main = Some (p', cmd.Exit 0) /\ engine.defaultStack e' = Some st /\
    engine.events (cmd.eng p') = engine.events e' ++ cmdfacts.closing (engine.defaultDevice e') (Some st).
Proof.
  intros main. destruct main as [[p' [code]]|] eqn:E; [|by vm_compute in E].
  pose proof (cmdfacts.main_life engine.toyEnv toyBuild (fun _ => ([], None)) (fun _ k => (k, None)) toyFlags None
    p' code E) as Hm.
  cbn in Hm. destruct Hm as (_ & r & e' & Hs & Hr).
  vm_compute in Hs. injection Hs as <- <-. destruct Hr as (-> & _ & st & Hst & Hev).
  exists p'. eexists. exists st. split; [done|]. split; [exact Hst|exact Hev].
Defined.
End mainwitness.
