(* ===== verification/Program.v ===== *)
(** * Program: the process with its own proxies

    [netConn] is what a dial through any proxy of the registry answers, and
    [tcpDial] that dial.  With the registry of the program and keys that name
    direct, SOCKS4 and SOCKS5 proxies, the process of [System.v] carries every
    TCP connection: this puts together the parsers, the engine, the tunnel, the
    handshakes and the relay.  The proxies that transform their bytes (relay,
    Shadowsocks, ssh) have their own sessions proved beside their definitions;
    here their connections are any type that keeps the promise of a relayed
    one, and the keys do not name them. *)

From S2P Require Import Prelude Net Conn Allocator Socks5 Socks4 SSCore Metadata Statistic Tunnel Stack Proxy Engine System Served Proxies Main.
Import metadata statistic tunnel engine system served register proxyfacts registerfacts.

Open Scope Z_scope.

Module program.

(** ** The connections that proxies answer with

    Reject's, the host's own, and those of the proxies that wrap it ([E]). *)

Inductive netConn (S E : Type) :=
| Nop (c : reject.nopConn)
| Net (c : S)
| Wrapped (c : E).
Arguments Nop {S E}. Arguments Net {S E}. Arguments Wrapped {S E}.

#[global] Instance netConn_Reader {S E} `{Reader S, Reader E} : Reader (netConn S E) := fun n c =>
  match c with
  | Nop c => '(d, e, c) ← Read n c; Some (d, e, Nop c)
  | Net c => '(d, e, c) ← Read n c; Some (d, e, Net c)
  | Wrapped c => '(d, e, c) ← Read n c; Some (d, e, Wrapped c)
  end.

#[global] Instance netConn_Writer {S E} `{Writer S, Writer E} : Writer (netConn S E) := fun p c =>
  match c with
  | Nop c => '(n, e, c) ← Write p c; Some (n, e, Nop c)
  | Net c => '(n, e, c) ← Write p c; Some (n, e, Net c)
  | Wrapped c => '(n, e, c) ← Write p c; Some (n, e, Wrapped c)
  end.

(** A method that returns an error; where it is missing, so says the tracker. *)
Definition onCase {X Y} (inj : X -> Y) (f : X -> err * X) (c : X) : err * Y :=
  let '(e, c) := f c in (e, inj c).
Definition onOptional {X Y} (what : string) (inj : X -> Y) (f : option (X -> err * X)) (c : X) : err * Y :=
  match f with
  | Some f => onCase inj f c
  | None => (Some (errorsNew (what ++ " is not implemented")), inj c)
  end.

#[global] Instance netConn_Closer {S E} `{Closer S, Closer E} : Closer (netConn S E) := fun c =>
  match c with
  | Nop c => onCase Nop Close c
  | Net c => onCase Net Close c
  | Wrapped c => onCase Wrapped Close c
  end.

#[global] Instance netConn_Deadline {S E} `{Deadline S, Deadline E} : Deadline (netConn S E) := fun d c =>
  match c with
  | Nop c => onCase Nop (SetReadDeadline d) c
  | Net c => onCase Net (SetReadDeadline d) c
  | Wrapped c => onCase Wrapped (SetReadDeadline d) c
  end.

#[global] Instance netConn_LocalAddr {S E} `{LocalAddr S, LocalAddr E} : LocalAddr (netConn S E) := fun c =>
  match c with
  | Nop c => localAddr c
  | Net c => localAddr c
  | Wrapped c => localAddr c
  end.

#[global] Instance netConn_HalfClose {S E} `{HalfClose S, HalfClose E} : HalfClose (netConn S E) := {
  CloseRead := Some (fun c =>
    match c with
    | Nop c => onOptional "CloseRead" Nop CloseRead c
    | Net c => onOptional "CloseRead" Net CloseRead c
    | Wrapped c => onOptional "CloseRead" Wrapped CloseRead c
    end);
  CloseWrite := Some (fun c =>
    match c with
    | Nop c => onOptional "CloseWrite" Nop CloseWrite c
    | Net c => onOptional "CloseWrite" Net CloseWrite c
    | Wrapped c => onOptional "CloseWrite" Wrapped CloseWrite c
    end) }.

(** ** Dialling through a proxy *)

Section dial.
Context {K G S E : Type} `{Reader S, Writer S, Closer S, proxyhttp.NetHTTP}.
(** [dial ctx network address] of the host, the dials of relay, Shadowsocks
    and ssh, and the lines an HTTP response may have. *)
Context (hostDial : Z -> gostring -> gostring -> option S * err).
Context (wrapping : AnyProxy K G -> TCPDialer E) (fuel : nat).

Definition answer {A} (inj : A -> netConn S E) (r : option (option A * err)) : option (option (netConn S E) * err) :=
  '(c, e) ← r; Some (option_map inj c, e).

(** The method of the interface [proxy.Proxy]. *)
Definition tcpDial (q : AnyProxy K G) : TCPDialer (netConn S E) := {|
  DialContext := fun ctx m =>
    match q with
    | PDirect => answer Net (proxydirect.DialContext hostDial ctx m)
    | PHTTP p => answer Net (proxyhttp.DialContext hostDial fuel p ctx m)
    | PReject => answer Nop (reject.DialContext ctx m)
    | PSocks4 p => answer Net (proxysocks4.DialContext hostDial p ctx m)
    | PSocks5 p => answer Net (proxysocks5.DialContext hostDial p ctx m)
    | PRelay _ | PShadowsocks _ | PSSH _ => answer Wrapped (DialContext (wrapping q) ctx m)
    end |}.
End dial.

(** ** It keeps the promise of its cases *)

Section laws.
Context {S E : Type} `{HalfCloseOk S, HalfCloseOk E}.
#[local] Notation conn := (netConn S E).

Lemma Read_Nop n (c : reject.nopConn) : Read n (Nop c : conn) = '(d, e, c) ← Read n c; Some (d, e, Nop c).
Proof. done. Qed.
Lemma Write_Nop p (c : reject.nopConn) : Write p (Nop c : conn) = '(n, e, c) ← Write p c; Some (n, e, Nop c).
Proof. done. Qed.
Lemma Read_Net n (c : S) : Read n (Net c : conn) = '(d, e, c) ← Read n c; Some (d, e, Net c).
Proof. done. Qed.
Lemma Write_Net p (c : S) : Write p (Net c : conn) = '(n, e, c) ← Write p c; Some (n, e, Net c).
Proof. done. Qed.
Lemma Read_Wrapped n (c : E) : Read n (Wrapped c : conn) = '(d, e, c) ← Read n c; Some (d, e, Wrapped c).
Proof. done. Qed.
Lemma Write_Wrapped p (c : E) : Write p (Wrapped c : conn) = '(n, e, c) ← Write p c; Some (n, e, Wrapped c).
Proof. done. Qed.

Definition netDelivers (c : conn) (bs : list byte) (e : error) : Prop :=
  match c with Nop c => Delivers c bs e | Net c => Delivers c bs e | Wrapped c => Delivers c bs e end.
Definition netSent (c : conn) : list byte :=
  match c with Nop c => Sent c | Net c => Sent c | Wrapped c => Sent c end.
Definition netWritable (c : conn) : Prop :=
  match c with Nop c => Writable c | Net c => Writable c | Wrapped c => Writable c end.
Definition netFin (c : conn) : Prop :=
  match c with
  | Nop c => True
  | Net c => @CloseWrite S _ <> None -> Fin c
  | Wrapped c => @CloseWrite E _ <> None -> Fin c
  end.

#[global, program] Instance netConn_ReaderOk : ReaderOk conn := {
  Delivers := netDelivers }.
Next Obligation.
  intros [c|c|c] bs e n Hd Hn; destruct (read_ok c bs e n Hd Hn) as (d & er & c' & E1 & Hl & Hp).
  - exists d, er, (Nop c'). rewrite Read_Nop, E1. by destruct er.
  - exists d, er, (Net c'). rewrite Read_Net, E1. by destruct er.
  - exists d, er, (Wrapped c'). rewrite Read_Wrapped, E1. by destruct er.
Qed.

#[global, program] Instance netConn_WriterOk : WriterOk conn := {
  Sent := netSent; Writable := netWritable }.
Next Obligation.
  intros [c|c|c] p; destruct (write_ok c p) as (n & er & c' & E1 & Hw & Hp).
  - exists n, er, (Nop c'). rewrite Write_Nop, E1. by destruct er.
  - exists n, er, (Net c'). rewrite Write_Net, E1. by destruct er.
  - exists n, er, (Wrapped c'). rewrite Write_Wrapped, E1. by destruct er.
Qed.

#[global, program] Instance netConn_ConnOk : ConnOk conn.
Next Obligation.
  intros n [c|c|c] d e c1 Hr; rewrite ?Read_Nop, ?Read_Net, ?Read_Wrapped in Hr;
    (destruct (Read n c) as [[[d' e'] c']|] eqn:E1; [|done]); cbn [mbind option_bind] in Hr; injection Hr as <- <- <-;
    exact (read_frame _ _ _ _ _ E1).
Qed.
Next Obligation.
  intros p [c|c|c] n e c1 bs er Hw; rewrite ?Write_Nop, ?Write_Net, ?Write_Wrapped in Hw;
    (destruct (Write p c) as [[[n' e'] c']|] eqn:E1; [|done]); cbn [mbind option_bind] in Hw; injection Hw as <- <- <-;
    exact (write_frame _ _ _ _ _ _ _ E1).
Qed.

#[global, program] Instance netConn_HalfCloseOk : HalfCloseOk conn := {
  Fin := netFin; patient := patient S && patient E }.
Next Obligation.
  intros n [c|c|c] d e c1 Hr; rewrite ?Read_Nop, ?Read_Net, ?Read_Wrapped in Hr;
    (destruct (Read n c) as [[[d' e'] c']|] eqn:E1; [|done]); cbn [mbind option_bind] in Hr; injection Hr as <- <- <-; [done|..];
    intros Hf Hc; exact (fin_read _ _ _ _ _ E1 (Hf Hc)).
Qed.
Next Obligation.
  intros f c [= <-]. destruct c as [c|c|c]; [cbn; by split_and!|..]; unfold onOptional;
    (destruct CloseRead as [f|] eqn:Ef; [|done]); unfold onCase; destruct (f c) as [e c'] eqn:E1;
    pose proof (closeRead_ok f c Ef) as Hok; rewrite E1 in Hok; cbn in *; naive_solver.
Qed.
Next Obligation.
  intros f c [= <-]. destruct c as [c|c|c]; [cbn; by split_and!|..]; unfold onOptional;
    (destruct CloseWrite as [f|] eqn:Ef; [|cbn; rewrite Ef; by split_and!]); unfold onCase;
    destruct (f c) as [e c'] eqn:E1; pose proof (closeWrite_ok f c Ef) as Hok; rewrite E1 in Hok; cbn in *; naive_solver.
Qed.
Next Obligation.
  intros d [c|c|c]; unfold SetReadDeadline, netConn_Deadline, onCase.
  { destruct (SetReadDeadline d c) as [e c'] eqn:E1. cbn. split_and!; try done. intros bs er Hd. by exists bs, er. }
  all: pose proof (deadline_ok d c) as Hok; cbn zeta in Hok; destruct (SetReadDeadline d c) as [e c'];
    destruct Hok as (H1' & H2' & H3' & H4'); cbn in *; split_and!; [done|done|naive_solver|];
    intros bs er Hd; destruct (H4' bs er Hd) as (bs' & er' & ? & ? & Hp); exists bs', er';
    (split_and!; [done|done|]); intros [? ?]%andb_true_iff; auto.
Qed.
End laws.

(** ** The process *)

Section program.
Context {K B G KK S T E D ST O OU RU : Type} {fuel : nat} `{GVisor ST}.
Context (L : SSCore.Lib K B) `{SSH : !proxyssh.Lib G KK S T} (DecodeNoDelay : gostring -> bool * err).
Context `{HalfCloseOk O, HalfCloseOk S, HalfCloseOk E, Closer O, Closer S, Closer E, LocalAddr S, LocalAddr E}.
Context `{PacketOk OU, PacketOk RU, Closer OU, Closer RU, LocalAddr RU, proxyhttp.NetHTTP}.
Context (hostDial : Z -> gostring -> gostring -> option S * err).
Context (wrapping : AnyProxy K G -> TCPDialer E) (lines : nat).

#[local] Notation any := (AnyProxy K G).
#[local] Notation regs := (registrations (S := S) (T := T) L DecodeNoDelay).
#[local] Notation host := (Host any D ST (netConn S E) RU).

(** What the sessions use: any host, whose registry is the program's and whose
    TCP dials are those of the proxies. *)
Record ofProgram (h : host) : Prop := {
  of_protocols : exists rs, rs ≡ₚ regs /\ protocols (env h) = registered rs;
  of_dial : forall q, dial h q = tcpDial hostDial wrapping lines q }.

Context (h : host) (of_program : ofProgram h).

(** A URL that an inserted key names, and the proxy it is parsed to. *)
Definition named (ls : list (@label O OU)) (u : proxy.URL) : Prop :=
  exists k, LEngine (OInsert (Some k)) ∈ ls /\
    url_Parse (env h) (withScheme (str "socks5") (engine.Proxy k)) = (Some u, None).

Inductive parsed (u : proxy.URL) : any -> Prop :=
| parsed_direct : proxy.Scheme u = str "direct" -> parsed u PDirect
| parsed_socks4 p : proxy.Scheme u = str "socks4" -> proxysocks4.Parse u = Some (Some p, None) -> parsed u (PSocks4 p)
| parsed_socks5 p : proxy.Scheme u = str "socks5" -> proxysocks5.Parse u = Some (Some p, None) -> parsed u (PSocks5 p).

(** Where the connection of a session is dialled. *)
Definition server (q : any) (id : TransportEndpointID) : option (gostring * gostring) :=
  match q with
  | PDirect => Some (str "tcp", DestinationAddress (idMetadata TCP id))
  | PSocks4 p => Some (str "tcp", proxysocks4.addr p)
  | PSocks5 p => Some (if proxysocks5.unix p then str "unix" else str "tcp", proxysocks5.addr p)
  | _ => None
  end.

(** [grants id rest q ans opening]: a server that sends [ans] grants the
    session, and sends it [rest]; it is first sent [opening]. *)
Inductive grants (id : TransportEndpointID) (rest : list byte) : any -> list byte -> list byte -> Prop :=
| grants_direct : grants id rest PDirect rest []
| grants_socks4 p r req : len r = 6 ->
    socks4.Requested (DestinationAddress (idMetadata TCP id)) 1 (proxysocks4.userID p) req ->
    grants id rest (PSocks4 p) (z2b 0 :: z2b 90 :: r ++ rest) req
| grants_socks5 p (auth : bool) v rsv a : socks5.SocksAddr a ->
    (auth = true -> exists u, proxysocks5.userOf p = Some u /\ socks5.creds_ok u) ->
    grants id rest (PSocks5 p)
      ([z2b 5; z2b (if auth then 2 else 0)] ++
       (if auth then [v; z2b 0] else []) ++ [v; z2b 0; rsv] ++ a ++ rest)
      (socks5.hello (proxysocks5.userOf p) ++
       (if auth then default [] (socks5.credentials <$> proxysocks5.userOf p) else []) ++
       socks5.connect 1 (socks5.SerializeAddr [] (parseTCPIPAddress (LocalAddress id)) (LocalPort id))).

Lemma dial_granted q id rest ans opening net a (r : S) e out :
  server q id = Some (net, a) -> hostDial tcpConnectTimeout net a = (Some r, None) ->
  Live r ans e out -> grants id rest q ans opening ->
  exists r', DialContext (dial h q) tcpConnectTimeout (idMetadata TCP id) = Some (Some (Net r'), None) /\
    Live r' rest e (out ++ opening).
Proof.
  rewrite (of_dial _ of_program). intros Hs Hd HL Hg. destruct Hg as [|p r0 req Hl Hreq|p auth v rsv b Hb Hauth];
    unfold server in Hs; injection Hs as <- <-; unfold tcpDial; cbn [DialContext].
  - exists r. unfold proxydirect.DialContext. rewrite Hd, app_nil_r. done.
  - destruct (socks4.connect_granted r _ _ _ _ _ _ _ HL Hl Hreq) as (r' & Hh & HL').
    exists r'. unfold proxysocks4.DialContext. rewrite Hd. cbn [mbind option_bind]. rewrite Hh. done.
  - destruct (socks5.handshake_granted r (utils.SerializeSocksAddr (idMetadata TCP id)) socks5.CmdConnect
      (proxysocks5.userOf p) auth v rsv b rest e out HL Hb Hauth) as (r' & Hh & HL').
    exists r'. unfold proxysocks5.DialContext. rewrite Hd. cbn [mbind option_bind]. rewrite Hh. done.
Qed.
Lemma socks5_Parse_some u r e : proxysocks5.Parse u = Some (r, e) -> is_Some r.
Proof.
  unfold proxysocks5.Parse. set (a := if str_eqb _ _ then _ else _). intros Hp.
  destruct (socks5facts.socks5_New_spec a (proxy.UserName u) (proxy.UserPassword u)) as [Hn Hok].
  destruct (Z.lt_ge_cases (len a) 2) as [Hl|Hl]; [apply Hn in Hl; congruence|].
  destruct (Hok Hl) as (c & d & r0 & p & _ & E1 & _). rewrite E1 in Hp. injection Hp as <- _. by eexists.
Qed.

Section live.
(** The keys name direct, SOCKS4 and SOCKS5 proxies; their servers can be
    dialled and grant every session; the clients deliver and can be written
    to; and the datagrams are as [served] wants them. *)
Context (ls : list (@label O OU)).
Context (sends : O -> list byte) (replies : any -> TransportEndpointID -> list byte).
Context (usends : OU -> list (list byte * option NetAddr)).
Context (ureplies : any -> TransportEndpointID -> list (list byte * option NetAddr)).
Context (schemes_ok : forall u, named ls u -> proxy.Scheme u ∈ [str "direct"; str "socks4"; str "socks5"]).
Context (servers_ok : forall u q id o, named ls u -> parsed u q -> (id, o) ∈ accepted ls ->
  exists net a (r : S) ans opening e, server q id = Some (net, a) /\
    hostDial tcpConnectTimeout net a = (Some r, None) /\ Live r ans e (Sent r) /\
    grants id (replies q id) q ans opening).
Context (clients_ok : forall id o, (id, o) ∈ accepted ls -> Writable o /\ exists eo, Delivers o (sends o) eo).
Context (patient_ok : patient O = true /\ patient S = true /\ patient E = true).
Context (pool_ok : forall i w, len (pooled h i w) = MaxSegmentSize).
Context (udial_ok : forall q id u, configured h PReject ls (Some q) -> (id, u) ∈ uaccepted ls ->
  udial_answers (fuel := fuel) h ureplies q id).
Context (uorigins_ok : forall id u, (id, u) ∈ uaccepted ls -> exists eo, Queued u (usends u) eo).

Lemma parseProxy_named k q : LEngine (OInsert (Some k)) ∈ ls ->
  parseProxy (env h) (engine.Proxy k) = Some (q, None) ->
  exists u q', q = Some q' /\ named ls u /\ parsed u q'.
Proof.
  intros Hk Hp. destruct (of_protocols _ of_program) as (rs & Hrs & Hps). unfold parseProxy in Hp.
  destruct (url_Parse _ _) as [u [er|]] eqn:Eu; [done|]. destruct u as [u|]; [|done]. cbn [mbind option_bind] in Hp.
  assert (named ls u) as Hn by by exists k.
  destruct (pick_registered rs (proxy.Scheme u)) as [H1' _]; [rewrite Hrs; apply names_NoDup|].
  rewrite Hps in Hp. unfold proxy.Parse in Hp. pose proof (schemes_ok u Hn) as Hs.
  assert (forall f, (proxy.Scheme u, f) ∈ regs -> f u = Some (q, None)) as Hpick.
  { intros f Hf. by rewrite (H1' f) in Hp by by rewrite Hrs. }
  rewrite !elem_of_cons, elem_of_nil in Hs. exists u.
  assert (forall x, x ∈ regs -> x.1 = proxy.Scheme u -> x.2 u = Some (q, None)) as Hx.
  { intros [n f] Hf Hfu. cbn in Hfu. subst n. by apply Hpick. }
  destruct Hs as [Hs|[Hs|[Hs|[]]]].
  - pose proof (Hx direct_init ltac:(set_solver) (eq_sym Hs)) as [= <-].
    exists PDirect. split_and!; [done|done|by constructor].
  - pose proof (Hx socks4_init ltac:(set_solver) (eq_sym Hs)) as [= <-].
    eexists. split; [done|]. split; [done|]. by apply parsed_socks4.
  - pose proof (Hx socks5_init ltac:(set_solver) (eq_sym Hs)) as Hq. cbn [snd socks5_init] in Hq. unfold lift in Hq.
    destruct (proxysocks5.Parse u) as [[a e]|] eqn:Ep; [|done]. injection Hq as <- ->.
    destruct (socks5_Parse_some u a None Ep) as [p ->].
    exists (PSocks5 p). split; [done|]. split; [done|]. by apply parsed_socks5.
Qed.

Lemma configured_named q : configured h PReject ls q ->
  q = Some PReject \/ exists u q', q = Some q' /\ named ls u /\ parsed u q'.
Proof. intros [->|(k & Hk & Hp)]; [by left|right]. by eapply parseProxy_named. Qed.

(** What the connection of a dial delivers. *)
Definition back (q : any) (id : TransportEndpointID) : list byte :=
  match q with PReject => [] | _ => replies q id end.

Lemma back_parsed u q id : parsed u q -> back q id = replies q id.
Proof. by destruct 1. Qed.

Lemma named_dial u q id o : named ls u -> parsed u q -> (id, o) ∈ accepted ls ->
  exists net a (r : S) ans opening e r', server q id = Some (net, a) /\
    hostDial tcpConnectTimeout net a = (Some r, None) /\ grants id (replies q id) q ans opening /\
    DialContext (dial h q) tcpConnectTimeout (idMetadata TCP id) = Some (Some (Net r'), None) /\
    Live r' (replies q id) e (Sent r ++ opening).
Proof.
  intros Hn Hp Hin. destruct (servers_ok u q id o Hn Hp Hin) as (net & a & r & ans & op & e & Hs & Hd & HL & Hg).
  destruct (dial_granted q id _ ans op net a r e _ Hs Hd HL Hg) as (r' & Hr & HL').
  by exists net, a, r, ans, op, e, r'.
Qed.

Lemma program_dials q id o : configured h PReject ls (Some q) -> (id, o) ∈ accepted ls ->
  dial_answers h back q id.
Proof.
  intros Hq Hin. unfold dial_answers. destruct (configured_named _ Hq) as [[= ->]|(u & q' & [= <-] & Hn & Hp)].
  - rewrite (of_dial _ of_program). cbn. exists EOF. done.
  - destruct (named_dial u q id o Hn Hp Hin) as (net & a & r & ans & op & e & r' & _ & _ & _ & -> & HL).
    exists e. rewrite (back_parsed u q id Hp). apply HL.
Qed.

(** What has become of a session that has returned: the server of its proxy,
    of which [used] is known, has been sent its request and what the client sent,
    and the client what the server answered; *)
Definition carried (used : any -> Prop) (id : TransportEndpointID) (o : O) (st : @session O (netConn S E)) : Prop :=
  exists o' t u q net a (r : S) ans opening, st = SClosed (Close o').2 (Some (Close t).2) /\
    named ls u /\ parsed u q /\ used q /\
    server q id = Some (net, a) /\ hostDial tcpConnectTimeout net a = (Some r, None) /\
    grants id (replies q id) q ans opening /\
    Sent (t_Conn t) = Sent r ++ opening ++ sends o /\ Sent o' = Sent o ++ replies q id.

(** or the proxy of [init] has rejected it. *)
Definition rejected (id : TransportEndpointID) (o : O) (st : @session O (netConn S E)) : Prop :=
  exists o' t, st = SClosed (Close o').2 (Some (Close t).2) /\
    t_Metadata t = setMid (parseNetAddr None) (idMetadata TCP id) /\ Sent o' = Sent o.

Lemma served_outcome used id o st up : (id, o) ∈ accepted ls ->
  served h PReject sends back ls used id o st up ->
  carried used id o st \/ rejected id o st /\ used PReject.
Proof.
  intros Hin (q & Hq & Hby & Hs). destruct (clients_ok id o Hin) as [Hw _]. destruct patient_ok as (P1 & P2 & P3).
  destruct (configured_named _ Hq) as [[= ->]|(u & q' & [= <-] & Hn & Hp)].
  - rewrite (of_dial _ of_program) in Hs. cbn [tcpDial DialContext reject.DialContext answer mbind option_bind option_map fmap] in Hs.
    destruct Hs as (o' & t & down & -> & _ & _ & Hd & ->%prefix_nil_inv & _ & Hm & _).
    right. split; [|done]. exists o', t. by rewrite app_nil_r in Hd.
  - destruct (named_dial u q id o Hn Hp Hin) as (net & a & r & ans & op & e & r' & Hsv & Hd & Hg & Hr & HL).
    rewrite Hr in Hs. destruct Hs as (o' & t & down & -> & Hs1 & _ & Hs2 & _ & Hall & _).
    destruct (Hall Hw (live_writable _ _ _ _ HL)) as [-> ->]; [cbn; by rewrite P1, P2, P3|].
    rewrite (back_parsed u q id Hp) in Hs2. left.
    exists o', t, u, q, net, a, r, ans, op. split_and!; try done.
    rewrite Hs1. change (Sent (Net r')) with (Sent r'). by rewrite (live_sent _ _ _ _ HL), app_assoc.
Qed.

(** The proxy of a key, as the parsers of the program make it. *)
Definition keyed (q : option any) : Prop := exists u q', q = Some q' /\ named ls u /\ parsed u q'.

Lemma keyed_not_reject : ~ keyed (Some PReject).
Proof. intros (u & q & [= <-] & _ & Hp). inversion Hp. Qed.

#[local] Notation system := (@System any D ST O (netConn S E) OU RU fuel).

(** From a start that succeeds on, the tunnel's proxy is a key's. *)
Lemma keyed_since s0 (s1 s2 : system) e1 ls1 k :
  boot PReject = Some s0 -> run h ls1 s0 = Some s1 -> start (env h) (eng s1) = Some (inl tt, e1) ->
  (forall key, LEngine (OInsert (Some key)) ∈ ls1 ++ LEngine OStart :: k -> LEngine (OInsert (Some key)) ∈ ls) ->
  run h (LEngine OStart :: k) s1 = Some s2 -> keyed (proxy (tun (eng s2))).
Proof.
  intros Hb Hr1 Hst Hkeys Hr2. cbn [run step estep] in Hr2. rewrite Hst in Hr2. cbn [mbind option_bind] in Hr2.
  pose proof (system_run_inv h PReject ls1 s1 s0 Hb Hr1) as HI.
  assert (run h (ls1 ++ [LEngine OStart]) s0 = Some (mkSystem e1 (sessions s1) (usessions s1))) as Hr3.
  { rewrite run_app, Hr1. cbn [mbind option_bind run step estep]. by rewrite Hst. }
  assert (forall key p, LEngine (OInsert (Some key)) ∈ ls1 ++ LEngine OStart :: k ->
    parseProxy (env h) (engine.Proxy key) = Some (p, None) -> keyed p) as Hkeyed.
  { intros key p Hk Hp. eapply parseProxy_named; [by apply Hkeys|done]. }
  pose proof (system_run_inv h PReject _ _ s0 Hb Hr3) as HI3.
  eapply (proxy_kept h PReject keyed _ _ _ k _ s2 HI3 Hr2).
  { intros key p Hk. apply Hkeyed. by rewrite <- app_assoc in Hk. }
  cbn [eng]. apply start_run in Hst. destruct (defaultKey (eng s1)) as [key|] eqn:Ek; [|by destruct Hst].
  destruct Hst as [_ _ _ _ _ _ _ Hd].
  destruct (Hd eq_refl) as (_ & _ & groups & p & d & opts & nicID & s & st & _ & Hp & _ & _ & _ & _ & Hpt & _).
  rewrite Hpt. apply (Hkeyed key); [|done]. apply elem_of_app. left. by apply (inv_key _ _ _ _ _ _ HI).
Qed.

(** A session that dials after a start that succeeded dials a key's proxy. *)
Lemma dialled_keyed s0 (s1 : system) e1 ls1 ls2 ls' i :
  boot PReject = Some s0 -> ls = ls1 ++ LEngine OStart :: ls2 -> Forall internal ls' ->
  run h ls1 s0 = Some s1 -> start (env h) (eng s1) = Some (inl tt, e1) ->
  dialled h s0 (ls ++ ls') i PReject -> ~ undialled s1 i.
Proof.
  intros Hb Els Hint Hr1 Hst (l1 & who & l2 & sd & id & o & El & Hd & Hi & Hq).
  assert (forall key, LEngine (OInsert (Some key)) ∈ ls ++ ls' -> LEngine (OInsert (Some key)) ∈ ls) as Hkeys
    by (intros key; by apply key_internal).
  rewrite El in Hkeys. rewrite Els, <- app_assoc in El. cbn [app] in El.
  apply app_eq_inv in El as [(k & -> & El)|(k & -> & El)]; (destruct k as [|l k]; [done|]); cbn [app] in El;
    injection El as <- El.
  - rewrite run_app, Hd in Hr1. by apply (dialled_after h i who k sd s1 _ Hi).
  - rewrite run_app, Hr1 in Hd. destruct keyed_not_reject. rewrite <- Hq.
    apply (keyed_since s0 s1 sd e1 ls1 k Hb Hr1 Hst); [|exact Hd].
    intros key Hk. apply Hkeys. apply elem_of_app. by left.
Qed.

(** C2: the program, end to end.  With the parsers of the program in its
    registry, in any order, and keys that name direct, SOCKS4 or SOCKS5 proxies
    whose servers grant what they are asked: take a start of the engine that
    succeeded, and the process at any time after it, whatever has happened before
    and since (other starts, stops and keys included).  It can go on by itself
    until nothing waits and each accepted TCP connection has had its one
    session; and each session that had not dialled before that start was dialled
    to the server of the proxy that the tunnel had at its dial, that of the URL
    an inserted key names, which has been sent the protocol's own request for
    the session's destination and then exactly the client's bytes, as the client
    has been sent exactly what followed the server's grant.  So was, or else
    rejected, its record without a local address and nothing sent to the client,
    each session that had dialled before.  Both ends are closed. *)
Theorem program_serves (s s0 s1 : system) e1 ls1 ls2 :
  boot PReject = Some s0 -> ls = ls1 ++ LEngine OStart :: ls2 -> run h ls1 s0 = Some s1 ->
  start (env h) (eng s1) = Some (inl tt, e1) -> run h ls s0 = Some s ->
  exists ls' s', Forall internal ls' /\ run h ls' s = Some s' /\
    tcpQueue (tun (eng s')) = [] /\ length (sessions s') = length (accepted ls) /\
    forall i id o, accepted ls !! i = Some (id, o) ->
      exists st, sessions s' !! i = Some st /\
        (carried (dialled h s0 (ls ++ ls') i) id o st \/ rejected id o st /\ ~ undialled s1 i).
Proof.
  intros Hb Els Hr1 Hst Hr.
  destruct (serves_all (fuel := fuel) h PReject sends back usends ureplies s0 pool_ok ls) with (s := s)
    as (ls' & s' & ups & H1' & H2' & H3' & _ & H4' & _ & H6' & _); try done.
  { intros q [->|(u & q' & -> & _)]%configured_named; by eexists. }
  { intros q id o. apply program_dials. }
  { intros id o Hin. by apply clients_ok in Hin as [_ ?]. }
  exists ls', s'. split_and!; try done. intros i id o Hi. pose proof (list_elem_of_lookup_2 _ _ _ Hi) as Hin.
  destruct (H6' i id o Hi) as (st & up & Hst' & _ & Hs). exists st. split; [done|].
  destruct (served_outcome _ id o st up Hin Hs) as [?|[? Hby]]; [by left|right]. split; [done|].
  by apply (dialled_keyed s0 s1 e1 ls1 ls2 ls' i Hb Els H1' Hr1 Hst).
Qed.
End live.
End program.

(** ** Witness: the labels of [toyLabels], with the program's registry *)

#[local] Instance toySSH : proxyssh.Lib unit unit Wire unit := {
  proxyssh.ReadFile _ := ([], Some EOF);
  proxyssh.ParsePrivateKey _ := (Some tt, None);
  proxyssh.ParsePrivateKeyWithPassphrase _ _ := (Some tt, None);
  proxyssh.NewClientConn c _ _ := (Some tt, None, c);
  proxyssh.Dial _ _ k c := (Some tt, None, k, c);
  proxyssh.CloseClient k c := (None, k, c);
  proxyssh.CloseChannel t k c := (None, t, k, c) }.

#[local] Instance toyHTTP : proxyhttp.NetHTTP := {
  proxyhttp.cleanHost h := (h, None); proxyhttp.mimeErr _ := None; proxyhttp.transferErr _ := None }.

#[local] Notation toyAny := (AnyProxy unit unit).

(** A host whose server grants without credentials, and the other proxies are
    refused. *)
Definition boundAddr : list byte := z2b <$> [1; 0; 0; 0; 0; 0; 0].
Definition toySegs : list (list byte) :=
  [[z2b 5; z2b 0; z2b 1]; [z2b 0; z2b 1] ++ boundAddr ++ str "O"; str "K"].
Definition toyDial (_ : Z) (_ a : gostring) : option Wire * err :=
  if str_eqb a (str "host:1080") then (Some (dialed toySegs EOF), None) else (None, Some EOF).
Definition toyWrapping (_ : toyAny) : TCPDialer Wire := {| DialContext := fun _ _ => Some (None, Some EOF) |}.

Definition programEnv : Env toyAny gostring unit := {|
  zap_ParseLevel := zap_ParseLevel toyEnv; zap_Build := zap_Build toyEnv;
  InterfaceByName := InterfaceByName toyEnv; url_Parse := url_Parse toyEnv;
  UserString := UserString toyEnv; ResolveTCPAddr := ResolveTCPAddr toyEnv; isIOS := false;
  openFD := openFD toyEnv; openTUN := openTUN toyEnv; shlex_Split := shlex_Split toyEnv;
  execOutput := execOutput toyEnv; RAMInBytes := RAMInBytes toyEnv; newStack := newStack toyEnv;
  protocols := registered (registrations (S := Wire) (T := unit) core.toyLib (fun _ => (false, None))) |}.

Definition programHost : Host toyAny gostring unit (netConn Wire Wire) Mail :=
  mkHost programEnv (tcpDial toyDial toyWrapping 10) (fun _ => udial toyHost tt)
    (uuid toyHost) (uuuid toyHost) (pooled toyHost) (sockopt toyHost) None None.

Definition programBoot : @System toyAny gostring unit Wire (netConn Wire Wire) Mail Mail 3 :=
  mkSystem (setTun (ProcessAsync (New (Some PReject))) (initial (Some PReject))) [] [].

Definition programSystem : @System toyAny gostring unit Wire (netConn Wire Wire) Mail Mail 3 :=
  default programBoot (run programHost toyLabels programBoot).

Lemma program_run : run programHost toyLabels programBoot = Some programSystem.
Proof. by vm_compute. Qed.

Lemma toyLabels_key k : LEngine (OInsert (Some k)) ∈ toyLabels -> k = toyKey (str "host:1080").
Proof. unfold toyLabels. rewrite !elem_of_cons, elem_of_nil. naive_solver. Qed.

Lemma program_ofProgram : ofProgram core.toyLib (fun _ => (false, None)) toyDial toyWrapping 10 programHost.
Proof. split; [|done]. eexists. split; [reflexivity|done]. Qed.

Definition toyURL : proxy.URL := proxy.mkURL (str "socks5") (str "host:1080") [] [] [] false [].

Lemma toy_named u : named programHost toyLabels u -> u = toyURL.
Proof. intros (k & ->%toyLabels_key & Hu). vm_compute in Hu. by injection Hu as <-. Qed.

Lemma toy_parsed (q : toyAny) : parsed toyURL q ->
  q = PSocks5 (proxysocks5.mkSocks5 (str "host:1080") [] [] false).
Proof. intros [Hs|p Hs|p _ Hp]; [done|done|]. vm_compute in Hp. by injection Hp as <-. Qed.

Lemma toy_granted (q : toyAny) id : parsed toyURL q ->
  exists net a (r : Wire) ans opening e, server q id = Some (net, a) /\
    toyDial tcpConnectTimeout net a = (Some r, None) /\ Live r ans e (Sent r) /\ grants id (str "OK") q ans opening.
Proof.
  intros ->%toy_parsed. exists (str "tcp"), (str "host:1080"), (dialed toySegs EOF), (concat toySegs). eexists _, EOF.
  split; [done|]. split; [done|]. split.
  - apply dialed_Live. repeat constructor; discriminate.
  - apply (grants_socks5 id (str "OK") _ false (z2b 1) (z2b 1) boundAddr); [|done].
    apply (socks5.SerializeAddr_SocksAddr [] (Addr4 (z2b 0) (z2b 0) (z2b 0) (z2b 0)) 0). by right.
Qed.

(** The second session is requested and dials after the start. *)
Lemma program_serves_witness :
  let sends (_ : Wire) := str "GET /" in
  let replies (_ : toyAny) (_ : TransportEndpointID) := str "OK" in
  exists ls' s', Forall internal ls' /\ run programHost ls' programSystem = Some s' /\
    tcpQueue (tun (eng s')) = [] /\ length (sessions s') = 2%nat /\
    exists st, sessions s' !! 1%nat = Some st /\
      carried toyDial programHost toyLabels sends replies (dialled programHost programBoot (toyLabels ++ ls') 1)
        demoID toyOrigin st.
Proof.
  intros sends replies.
  assert (exists s1 e1, run programHost (take 5 toyLabels) programBoot = Some s1 /\
    start (env programHost) (eng s1) = Some (inl tt, e1) /\ undialled s1 1) as (s1 & e1 & Hr1 & Hst & Hun).
  { eexists _, _. split; [reflexivity|]. split; [vm_compute; reflexivity|exact I]. }
  destruct (program_serves (fuel := 3) (OU := Mail) core.toyLib (fun _ => (false, None)) toyDial toyWrapping 10
    programHost program_ofProgram toyLabels sends replies fst (fun _ _ => toyRemote.1))
    with (s := programSystem) (s0 := programBoot) (s1 := s1) (e1 := e1) (ls1 := take 5 toyLabels) (ls2 := drop 6 toyLabels)
    as (ls' & s' & H1 & H2 & H3 & H4 & H5).
  - intros u ->%toy_named. by right; right; left.
  - intros u q id o ->%toy_named Hp _. by apply toy_granted.
  - intros id o Ho. assert (o = toyOrigin) as ->.
    { cbn in Ho. rewrite !elem_of_cons, elem_of_nil in Ho. naive_solver. }
    split; [done|]. exists EOF. split; [reflexivity|]. split; [|done]. by repeat constructor.
  - done.
  - intros i w. unfold programHost, toyHost. cbn [pooled]. by rewrite len_replicate, Z2Nat.id.
  - intros q id u _ _. split; [by apply Nat.ltb_lt|]. by exists ErrTimeout.
  - intros id u Hu. cbn in Hu. apply list_elem_of_singleton in Hu as [= _ ->]. by exists ErrTimeout.
  - reflexivity.
  - reflexivity.
  - exact Hr1.
  - exact Hst.
  - exact program_run.
  - exists ls', s'. split; [done|]. split; [done|]. split; [done|]. split; [done|].
    destruct (H5 1%nat demoID toyOrigin eq_refl) as (st & Hi & [Hc|[_ Hn]]); [by exists st|by destruct (Hn Hun)].
Defined.
End program.
